(* ===== verification/_CoqProject ===== *)
-Q . S2P
Prelude.v
GoLib.v
Json.v
FastCDC.v
External.v
Auth.v
Database.v
Pools.v
Rows.v
NsCache.v
Schema.v
Cas.v
Lock.v
Gc.v
Ingress.v
Namespace.v
Metadata.v
Handlers.v
Middleware.v
Derivation.v
Workers.v
Bridge.v
Billing.v
RateLimit.v
Metrics.v
Telemetry.v
Events.v
Loops.v
ObjectStorage.v
Reclaim.v
Stripe.v
Identity.v
Startup.v
Lifecycle.v
Wire.v
Client.v
Session.v
Upload.v
EndToEnd.v
