(* ===== verification/Prelude.v ===== *)
(** * Aegis: a verification of the file system's Go services

    Aegis stores files as content-addressed blocks.  A client cuts a file into chunks
    ([internal/fastcdc]), announces them ([internal/ingress], initiate), uploads the blocks
    nobody has yet through signed URLs ([internal/auth]) and commits the file: one database
    transaction ([internal/database], [db/]) writes the version, its manifest and the block
    rows, and triggers keep the blocks' reference counts.  Unreferenced blocks are collected
    later ([internal/cas], [internal/gc]) by one elected node ([internal/lock]); node metadata
    is cached in Redis ([internal/database/cache.go]); committed files are handed to
    derivation workers ([internal/derivation], [internal/workers], [cmd/ingest]), directly or
    over Kafka ([internal/events], [internal/cdc]); requests pass rate limits, idempotency keys
    and role checks; usage is metered and licensed ([internal/billing]).  The Go client
    ([aegis/]) drives the upload from the other side.

    ** Files, in dependency order

    - [Prelude]: wrap-around integers, the [result] monad for Go's (value, error) pairs, the
      tactics [inv_result], [bool_hyps], [go_cases], strings and slices with [Z] indices.
    - [GoLib]: [encoding/hex], [strconv], SHA-256 and HMAC as executable functions.
    - [Json]: decoded JSON values, decoders of Go struct fields, RFC 3339 time stamps.
    - [FastCDC]: [fastcdc.go].  A [Reader] is the list of answers of its [Read] calls; a
      [Chunker] carries buffer, fingerprint and phase as the Go struct does.
    - [External]: type classes for [google/uuid] and for Redis string commands with their
      documented laws, each with a concrete instance; [net] says whether a command reached
      the server and whether its answer came back.
    - [Auth]: [hmac.go], [keys.go], [replay.go].  [Validate] over any [KMSClient] and
      [NonceStore]; [StaticKMS] and both nonce stores are instances.
    - [Database]: [client.go], [failover.go], [config.go], [metrics.go].  A [world] holds the
      database contents, the clock, breaker, pools and a schedule: before each statement
      other clients may act, time passes, and the statement may fail (a commit's answer may
      get lost).  Statements are functions on the contents; transactions see the schedule.
    - [Pools]: construction, sizing, closing and statistics of the client's pools, over a
      registry of all pools of the process.
    - [Rows]: the rows of a query and the release of the connection behind them.
    - [NsCache]: [cache.go] as a state machine over all interleavings of readers, shared
      loaders, mutations, increments, expiries and Redis faults.
    - [Schema]: the tables and triggers of [db/schema.sql] and [db/stored-procedures.sql] that
      the stores touch, one function per SQL statement, and the reference-count invariant
      [refcount_ok].
    - [Namespace]: the lineage triggers, [create_root], [move_directory] and
      [soft_delete_node], the client's [MoveDirectory] and [GrantACLEntry], the invariant
      [ns_ok] of the materialized paths and the tree that follows parents.
    - [Metadata]: the namespace cache over transactions of the namespace.
    - [Cas]: [registry.go], [gc.go], [bloom.go] of [internal/cas].
    - [Lock]: the Redis lock with its Lua scripts, advisory locks on a pool, leader election.
    - [Gc]: [internal/gc] over the interfaces [GCStore], [TombstonePublisher], [BlobDeleter],
      and the database adapter of [cmd/ingest/gc_adapter.go].
    - [Ingress]: [models.go] and [store.go]: validation, the class [Store], [PgStore] written
      in the transaction monad [txM], and [FakeStore].
    - [Handlers]: [initiate.go], [commit.go], [server.go] over any [Store].
    - [Middleware]: the sliding-window limiter, idempotency keys, CORS and role checks.
    - [Derivation]: retries, the worker pool, dead letters, result store.
    - [Workers]: the malware, OCR, video and embedding workers over classes for their tools,
      and the in-memory tools.
    - [Bridge]: the bounded queue from the commit handler to the pool and its consumers.
    - [Billing]: meters, API keys, licences (with base64url).
    - [RateLimit]: the token bucket with binary64 arithmetic.
    - [Metrics]: the Prometheus collectors of all packages, their registration, the operation
      log, and the wrappers and handlers with the calls they make on them.
    - [Telemetry]: trace contexts and the log handler of [internal/telemetry] over the class
      [OpenTelemetry].
    - [Events]: the Kafka bus, the derivation consumer with offsets and dead letters, and the
      CDC router, over the classes [KafkaReader] and [KafkaWriter] with the laws of a
      partition.
    - [Loops]: the background goroutines (collector, sweep worker, session reaper, leader
      campaign, tombstone consumer) as runs of a loop with ticks, stop and cancellation.
    - [ObjectStorage]: the S3 and MinIO clients over their SDK operations, as instances of the
      class [ObjectStorageClient].
    - [Reclaim]: the collector, the sweep worker and the tombstone consumer over the database
      and any [ObjectStorageClient].
    - [Stripe], [Identity]: webhook signatures and events; the SCIM users and identity
      providers.
    - [Startup]: [cmd/*]: durations, configuration from the environment, what each program
      builds and when it exits; request auditing and logging; migrations.
    - [Lifecycle]: the event buses, the wiring of the collector, and the life of the cmd/ingest
      process as a step function: requests, signals, shutdown, deferred calls, exit.
    - [Wire]: the HTTP form of the ingress server: routes, limits, JSON bodies.
    - [Client], [Upload]: the client SDK over the class [Transport] and a file system; the
      goroutines of the parallel upload as a step function on schedules.
    - [Session]: saved sessions over the class [FileSystem], the calendar and the parser of RFC
      3339 times, progress reports.
    - [EndToEnd]: the SDK running against the ingress server of [Wire].

    ** What the theorems show

    Chunking: [ChunkAll] terminates on every finite reader (as many calls as bytes plus one
    suffice), its chunks tile the input, and they do not depend on how reads are split.

    Ingestion: the commit transaction performs the abstract commit [committed]
    ([CommitFile_refines]); it succeeds whenever the session, blocks and identifiers are in
    order ([CommitFile_succeeds]); on every schedule it keeps reference counts exact, fails
    without trace, returns its connections, and completes a session once; version numbers
    stay dense.  An initiated upload asks for exactly the missing blocks, respects the quota
    (up to [int64] overflow) and can be committed ([upload_round_trip]); the commit handler
    announces a file exactly when it was committed; the in-memory store refuses only what
    the database refuses.

    Client: on every interleaving the parallel upload ends within a bound, never deadlocks, has
    at most ten chunks in flight and succeeds only with every chunk stored ([upload_safe],
    [upload_terminates]); against the server, [UploadFile] returns and leaves the next version
    with exactly the chunks of the file ([UploadFile_end_to_end]); [ResumeUpload] with missing
    chunks always fails ([ResumeUpload_missing_fails]); a saved session loads as it was
    ([session_round_trip]).

    Namespace: the SQL on materialized paths does what the operations on the tree do
    ([namespace_refines_tree]), the directory graph never has a cycle and every path spells
    the chain of ancestors ([lineage_truth]), a move succeeds exactly under its conditions
    ([move_directory_spec]), the client's mutations keep this on every schedule
    ([client_keeps_namespace]), and what readers get through the cache is true of a recent
    state of the tree ([cached_lineage]).

    Tokens: the signed message is unambiguous, acceptance implies a fresh, correctly signed,
    unused token, a nonce is accepted once, forged requests burn no nonce, signed tokens are
    accepted through key rotations, and the URL that the program's signer hands out parses back
    to the token ([tokenSigner_parses]).

    Database and cache: the breaker admits a single probe, commits are atomic and leak no
    connection, a client owns and closes exactly its pools ([client_owns_its_pools]), p95 is
    the nearest-rank percentile, and a mutation whose increment was
    answered is visible to every later cached read.

    Collection and locks: along every run of the collector's goroutines the registry stays
    consistent ([pipeline_keeps_refcounts]) and the audit trail accounts for every counted
    action ([audit_trail_complete]); a block that some file uses throughout keeps its stored
    object, and a row goes only after its object ([collector_spares_files],
    [worker_spares_files], [consumer_removes_object_first]); undisturbed, a sweep collects
    exactly the oldest orphans that its limits admit ([collector_collects],
    [sweep_collects_orphans]); the database's own collection functions never fail and never
    remove a used block ([gc_two_phase]); dry runs change nothing, the hourly limit holds; the
    leader-gated sweep keeps the registry consistent; the Redis lock is exclusive and
    leadership follows it.

    Events and storage: the consumer handles each message of its partition once, in order, and
    commits only what it handled ([consumer_accounts]); the router turns inserts, and nothing
    else, into tasks; tombstones arrive unharmed; both storage clients keep one contract
    ([storage_contract]); the bridge hands over every event it accepted before its consumer
    returned ([bridge_accounts]).

    Programs: whatever the environment, cmd/ingest exits or runs with positive intervals and
    limits ([ingest_config]); its deferred calls run in order and it can always exit after a
    signal ([ingest_lifecycle]).

    Observability: with their metrics the handlers compute the same results and count each
    response once ([handlers_count_responses]); a request is logged and propagated under the
    trace it was answered with ([trace_follows_request]).

    Middleware, derivation, billing: the window limit holds for every window, bursts are
    counted per tenant, a keyed request is executed once, retries and dead letters are accounted for, every applicable worker
    leaves one result, meters stay within their limits, keys,
    licences and webhook headers verify exactly as issued, the SCIM store stays well-formed.

    Some theorems are no property of the code but record where it departs from its
    documentation: [findCut_MinChunk_only_in_phase1], [Validate_replay_after_nonce_expiry],
    [half_open_rejects_writes], [refused_dial_not_transport], [EnsureBlock_breaks_refcounts],
    [advisory_lock_not_exclusive], [gc_blob_race], [tombstone_of_kept_block],
    [leader_sweep_ignores_dry_run], [gc_adapter_never_collects],
    [schema_sql_rejects_ingestion], [errno_always_transient], [generateResultID_collides],
    [meter_overflow_bypasses_limit], [worker_program_fails_every_task],
    [refused_dead_letter_is_lost], [clamav_scans_first_chunk_only], [gc_stop_leaves_a_loop],
    [gc_stop_can_be_lost], [isNotFound_any_404], [lifecycle_tiers_not_reported],
    [stripe_accepts_future], [sso_domain_takeover], [ingest_workers_fail],
    [shutdown_grace_lost], [malformed_interval_is_a_day], [failed_construction_leaks],
    [replicas_exceed_budget], [unlocked_reparent_cycle], [insert_races_move],
    [moves_can_deadlock], [soft_delete_leaves], [refresh_gauges], [connection_counters_stay_zero],
    [unavailable_counted_500], [shutdown_abandons_requests], [listen_failure_skips_defers],
    [ingest_tombstones_vanish], [bridge_cancelled_processing], [with_loses_trace],
    [failure_is_replayed].

    ** Bounds and abstractions

    Go integers are [Z]; arithmetic that can overflow is wrapped ([int64], [uint32]).  Fuel
    bounds five loops: [ChunkAll] and its [cutLoop], where the length of the input is enough
    ([ChunkAll_lossless], [cutLoop_spec]); the batches of a sweep, where the number of blocks
    is ([batches_fuel]); the runes of a text and the terms of a duration, which each consume a
    character ([runesFuel_enough], [durationTerms_fuel]).  Background loops run along a list of events or ticks;
    their theorems hold for every list.  Every other loop is structural or folds over a list.
    Times are nanoseconds.  SHA-256 and HMAC are computed, but no theorem relies on collision
    freedom.  "Undisturbed" ([calm]) means an empty schedule and a closed breaker; theorems
    without it hold on every schedule.  [upload_sessions] is modelled with the columns the Go
    statements use; whether the database has them is part of the state ([db_status],
    [db_lease]).  A JSON text is its decoded value; licence payloads and cached responses have
    encoders as parameters with their round trip.  Error texts of libraries are parameters.
    ASCII stands for text where the code folds case or trims white space.

    A [BYTEA] column that a statement scans into a Go string ([gc_adapter.go]) is taken to yield
    its bytes; the sweep worker names blobs in hex, as the clients do, so [Reclaim] speaks of
    both names.

    Lineage paths have no depth limit (the database's is 65535 labels), and the length of a
    name is counted in bytes.  A session's file names, like every JSON text, are taken to
    be valid UTF-8.

    ** Not modelled

    The HTTP listener and the delivery of signals, apart from what [Lifecycle] says of them;
    the SDKs behind the classes (pgx, Redis, Kafka, S3, MinIO, Prometheus, OpenTelemetry,
    golang-migrate); log lines, apart from the operation log and the trace attributes; audit
    partitions, privileges and materialized views in SQL.  What is left of the programs is wiring without
    behaviour of its own: constructors that only store their arguments, accessors, log lines
    and the mounting of the metrics endpoint. *)
From stdpp Require Export base list strings gmap.
From stdpp Require Export pretty.
From Stdlib Require Export Ascii ZArith Lia.

#[global] Open Scope Z_scope.

(** ** Machine integers *)

(** Value of an unsigned Go integer of [w] bits after wrap-around. *)
Definition wrapU (w z : Z) : Z := z mod 2 ^ w.

(** Value of a signed (two's complement) Go integer of [w] bits after wrap-around. *)
Definition wrapS (w z : Z) : Z := (z + 2 ^ (w - 1)) mod 2 ^ w - 2 ^ (w - 1).

Definition int64 (z : Z) : Z := wrapS 64 z.
Definition uint32 (z : Z) : Z := wrapU 32 z.
Definition uint64 (z : Z) : Z := wrapU 64 z.
Definition maxInt64 : Z := 9223372036854775807.
Definition minInt64 : Z := -9223372036854775808.

(** [z] is representable as an [int64]. *)
Definition is_int64 (z : Z) : Prop := minInt64 <= z <= maxInt64.

Lemma int64_id z : is_int64 z -> int64 z = z.
Proof.
  unfold is_int64, int64, wrapS, minInt64, maxInt64. intros H.
  change (2 ^ (64 - 1)) with 9223372036854775808.
  change (2 ^ 64) with 18446744073709551616.
  rewrite Z.mod_small; lia.
Qed.

Lemma int64_range z : is_int64 (int64 z).
Proof.
  unfold is_int64, int64, wrapS, minInt64, maxInt64.
  change (2 ^ (64 - 1)) with 9223372036854775808.
  change (2 ^ 64) with 18446744073709551616.
  pose proof (Z.mod_pos_bound (z + 9223372036854775808) 18446744073709551616). lia.
Qed.

Lemma uint32_range z : 0 <= uint32 z < 2 ^ 32.
Proof. apply Z.mod_pos_bound. lia. Qed.

(** ** Fallible computations: a Go [(T, error)] pair whose value is unused on error *)

Inductive result (E A : Type) : Type :=
| Ok (a : A)
| Err (e : E).
Arguments Ok {E A} a.
Arguments Err {E A} e.

#[global] Instance result_ret E : MRet (result E) := fun A a => Ok a.
#[global] Instance result_bind E : MBind (result E) := fun A B f r =>
  match r with Ok a => f a | Err e => Err e end.
#[global] Instance result_fmap E : FMap (result E) := fun A B f r =>
  match r with Ok a => Ok (f a) | Err e => Err e end.

Definition is_ok {E A} (r : result E A) : bool :=
  match r with Ok _ => true | Err _ => false end.

(** [guard]-style early return: [if !b { return err }]. *)
Definition require {E} (b : bool) (e : E) : result E unit := if b then Ok tt else Err e.

Definition of_option {E A} (o : option A) (e : E) : result E A :=
  match o with Some a => Ok a | None => Err e end.

Lemma bind_ok_inv {E A B} (r : result E A) (f : A -> result E B) b :
  (r ≫= f) = Ok b -> exists a, r = Ok a /\ f a = Ok b.
Proof. destruct r; simpl; [eauto | done]. Qed.

Lemma require_ok {E} (b : bool) (e : E) u : require b e = Ok u -> b = true.
Proof. by destruct b. Qed.

Lemma of_option_ok {E A} (o : option A) (e : E) a : of_option o e = Ok a -> o = Some a.
Proof. destruct o; simpl; congruence. Qed.

(** ** Tactics *)

(** Split a successful monadic chain into its successful steps. *)
Ltac inv_result :=
  repeat match goal with
  | H : (_ ≫= _) = Ok _ |- _ =>
      apply bind_ok_inv in H; destruct H as [? [? H]]
  | H : require _ _ = Ok _ |- _ => apply require_ok in H
  | H : of_option _ _ = Ok _ |- _ => apply of_option_ok in H
  | H : Ok _ = Ok _ |- _ => injection H as H; subst
  | H : Err _ = Ok _ |- _ => discriminate H
  | x : unit |- _ => destruct x
  end.

(** Turn boolean tests in the context into propositions. *)
Ltac bool_hyps :=
  repeat match goal with
  | H : _ && _ = true |- _ => apply andb_true_iff in H; destruct H
  | H : _ && _ = false |- _ => apply andb_false_iff in H
  | H : _ || _ = false |- _ => apply orb_false_iff in H; destruct H
  | H : _ || _ = true |- _ => apply orb_true_iff in H
  | H : negb _ = true |- _ => apply negb_true_iff in H
  | H : negb _ = false |- _ => apply negb_false_iff in H
  | H : bool_decide _ = true |- _ => apply bool_decide_eq_true in H
  | H : bool_decide _ = false |- _ => apply bool_decide_eq_false in H
  | H : (_ <=? _)%Z = true |- _ => apply Z.leb_le in H
  | H : (_ <=? _)%Z = false |- _ => apply Z.leb_gt in H
  | H : (_ <? _)%Z = true |- _ => apply Z.ltb_lt in H
  | H : (_ <? _)%Z = false |- _ => apply Z.ltb_ge in H
  | H : (_ =? _)%Z = true |- _ => apply Z.eqb_eq in H
  | H : (_ =? _)%Z = false |- _ => apply Z.eqb_neq in H
  end.

(** Case analysis on every [match]/[if] of the goal, with the equations recorded as facts. *)
Ltac go_cases := repeat (case_match; simplify_eq/=; bool_hyps).

(** Changing one entry of a list changes its sum by the difference. *)
Lemma sum_list_insert {A} (g : A -> nat) (l : list A) i x y : l !! i = Some x ->
  (sum_list_with g (<[i := y]> l) + g x = sum_list_with g l + g y)%nat.
Proof.
  revert i. induction l as [|z l IH]; intros i Hi; [done|]. destruct i as [|i]; simpl in *; [simplify_eq; lia|].
  specialize (IH i Hi). lia.
Qed.

Create HintDb aegis discriminated.
#[export] Hint Resolve int64_range uint32_range : aegis.

(** ** Strings: Go strings and byte slices are sequences of 8-bit characters *)

Definition code (c : ascii) : N := N_of_ascii c.

Fixpoint str_forall (p : ascii -> bool) (s : string) : bool :=
  match s with
  | EmptyString => true
  | String c s' => p c && str_forall p s'
  end.

Definition slen (s : string) : Z := Z.of_nat (String.length s).

Definition in_range (lo hi : N) (c : ascii) : bool := ((lo <=? code c) && (code c <=? hi))%N.

Definition is_digit (c : ascii) : bool := in_range 48 57 c.
Definition is_lower_af (c : ascii) : bool := in_range 97 102 c.

(** Go [strings.HasPrefix] and [strings.TrimPrefix]. *)
Fixpoint has_prefix (p s : string) : bool :=
  match p, s with
  | EmptyString, _ => true
  | String a p', String b s' => bool_decide (a = b) && has_prefix p' s'
  | String _ _, EmptyString => false
  end.

Fixpoint str_drop (n : nat) (s : string) : string :=
  match n, s with
  | O, _ => s
  | S n', String _ s' => str_drop n' s'
  | S _, EmptyString => EmptyString
  end.

(** The first [n] bytes, [s[:n]]. *)
Fixpoint str_take (n : nat) (s : string) : string :=
  match n, s with
  | S n', String c s' => String c (str_take n' s')
  | _, _ => EmptyString
  end.

Definition trim_prefix (p s : string) : string :=
  if has_prefix p s then str_drop (String.length p) s else s.

(** Go [strings.Contains]. *)
Fixpoint contains (s sub : string) : bool :=
  has_prefix sub s ||
  match s with EmptyString => false | String _ s' => contains s' sub end.

(** Go [strings.ToLower] on ASCII letters (the code only lowers ASCII text). *)
Definition lower_ascii (c : ascii) : ascii :=
  if in_range 65 90 c then ascii_of_N (code c + 32) else c.

Fixpoint to_lower (s : string) : string :=
  match s with
  | EmptyString => EmptyString
  | String c s' => String (lower_ascii c) (to_lower s')
  end.

(** Go [strings.EqualFold] on ASCII. *)
Definition EqualFold (a b : string) : bool := bool_decide (to_lower a = to_lower b).

(** Go [strings.TrimSpace] on ASCII. *)
Definition is_space (c : ascii) : bool := in_range 9 13 c || bool_decide (c = " "%char).

Fixpoint trim_left (s : string) : string :=
  match s with
  | String c s' => if is_space c then trim_left s' else s
  | EmptyString => EmptyString
  end.

Fixpoint trim_right (s : string) : string :=
  match s with
  | EmptyString => EmptyString
  | String c s' =>
      match trim_right s' with
      | EmptyString => if is_space c then EmptyString else String c EmptyString
      | t => String c t
      end
  end.

Definition TrimSpace (s : string) : string := trim_right (trim_left s).

(** Go [strings.Split] on a one-byte separator. *)
Fixpoint split_on (sep : ascii) (s : string) : list string :=
  match s with
  | EmptyString => [EmptyString]
  | String c s' =>
      if bool_decide (c = sep) then EmptyString :: split_on sep s'
      else match split_on sep s' with
           | [] => [String c EmptyString]
           | w :: ws => String c w :: ws
           end
  end.

Definition not_space (c : ascii) : bool := negb (is_space c).

Lemma trim_right_id s : str_forall not_space s = true -> trim_right s = s.
Proof.
  induction s as [|c s IH]; [done|]. cbn [str_forall trim_right]. intros Hs. bool_hyps. rewrite IH by done.
  unfold not_space in *. destruct s; [|done]. by destruct (is_space c).
Qed.

Lemma TrimSpace_id s : str_forall not_space s = true -> TrimSpace s = s.
Proof.
  intros Hs. unfold TrimSpace. assert (trim_left s = s) as ->; [|by apply trim_right_id].
  destruct s as [|c s]; [done|]. simpl in *. bool_hyps. unfold not_space in *. by destruct (is_space c).
Qed.

Lemma append_assoc (a b c : string) : (a +:+ b) +:+ c = a +:+ (b +:+ c).
Proof. unfold String.app. induction a; simpl; congruence. Qed.

Lemma append_cons c (a b : string) : String c a +:+ b = String c (a +:+ b).
Proof. done. Qed.

Lemma append_nil_l (a : string) : "" +:+ a = a.
Proof. done. Qed.

Lemma append_nil_r (a : string) : a +:+ "" = a.
Proof. induction a; [done|]. rewrite append_cons. congruence. Qed.

Lemma length_append (a b : string) :
  String.length (a +:+ b) = (String.length a + String.length b)%nat.
Proof. induction a; [done|]. rewrite append_cons. simpl. congruence. Qed.

Lemma has_prefix_app (p s : string) : has_prefix p (p +:+ s) = true.
Proof. induction p as [|c p IH]; [by destruct s|]. simpl. by rewrite bool_decide_true. Qed.

Lemma str_drop_app (p s : string) : str_drop (String.length p) (p +:+ s) = s.
Proof. induction p as [|c p IH]; [by destruct s|]. exact IH. Qed.

Lemma trim_prefix_app (p s : string) : trim_prefix p (p +:+ s) = s.
Proof. unfold trim_prefix. by rewrite has_prefix_app, str_drop_app. Qed.

Lemma has_prefix_split (p s : string) : has_prefix p s = true -> exists r, s = p +:+ r.
Proof.
  revert s. induction p as [|c p IH]; intros s Hp; [by exists s|]. destruct s as [|c' s]; [done|].
  simpl in Hp. apply andb_true_iff in Hp as [Hc Hp]. apply bool_decide_eq_true in Hc as <-.
  destruct (IH s Hp) as [r ->]. by exists r.
Qed.

Lemma str_forall_app p a b : str_forall p (a +:+ b) = str_forall p a && str_forall p b.
Proof.
  induction a; [done|]. rewrite append_cons. simpl. by rewrite IHa, andb_assoc.
Qed.

Lemma str_forall_impl (p q : ascii -> bool) s :
  (forall c, p c = true -> q c = true) -> str_forall p s = true -> str_forall q s = true.
Proof.
  intros Hpq. induction s as [|c s IH]; simpl; [done|].
  rewrite !andb_true_iff. naive_solver.
Qed.

(** Text before the first separator is determined by the whole string: the
    reason a separator-joined message of separator-free fields is unambiguous. *)
Lemma sep_join_inj (sep : ascii) a a' b b' :
  str_forall (fun c => negb (bool_decide (c = sep))) a = true ->
  str_forall (fun c => negb (bool_decide (c = sep))) a' = true ->
  a +:+ String sep b = a' +:+ String sep b' -> a = a' /\ b = b'.
Proof.
  revert a'. induction a as [|c a IH]; intros [|c' a'] Ha Ha' Heq;
    rewrite ?append_cons, ?append_nil_l in Heq; simpl in *; simplify_eq.
  - done.
  - bool_hyps. done.
  - bool_hyps. done.
  - bool_hyps. destruct (IH a') as [-> ->]; done.
Qed.

Lemma split_on_nonempty sep s : split_on sep s <> [].
Proof. destruct s; simpl; [done|]. case_bool_decide; [done|]. by case_match. Qed.

Lemma split_on_join sep a b :
  str_forall (fun c => negb (bool_decide (c = sep))) a = true ->
  split_on sep (a +:+ String sep b) = a :: split_on sep b.
Proof.
  induction a as [|c a IH]; intros Ha.
  - rewrite append_nil_l. simpl. by rewrite bool_decide_true.
  - rewrite append_cons. simpl in *. bool_hyps.
    rewrite bool_decide_false by done. by rewrite IH.
Qed.

Lemma split_on_none sep a :
  str_forall (fun c => negb (bool_decide (c = sep))) a = true ->
  split_on sep a = [a].
Proof.
  induction a as [|c a IH]; simpl; intros Ha; [done|]. bool_hyps.
  rewrite bool_decide_false by done. by rewrite IH.
Qed.

(** ** Byte slices indexed by Go integers *)

Definition zlen {A} (l : list A) : Z := Z.of_nat (length l).
Definition ztake {A} (n : Z) (l : list A) : list A := take (Z.to_nat n) l.
Definition zdrop {A} (n : Z) (l : list A) : list A := drop (Z.to_nat n) l.

Lemma zlen_nonneg {A} (l : list A) : 0 <= zlen l.
Proof. unfold zlen. lia. Qed.

Lemma zlen_app {A} (l k : list A) : zlen (l ++ k) = zlen l + zlen k.
Proof. unfold zlen. rewrite length_app. lia. Qed.

Lemma zlen_nil_inv {A} (l : list A) : zlen l <= 0 -> l = [].
Proof. unfold zlen. destruct l; simpl; [done | lia]. Qed.

Lemma zlen_ztake {A} n (l : list A) : 0 <= n <= zlen l -> zlen (ztake n l) = n.
Proof. unfold zlen, ztake. rewrite length_take. lia. Qed.

Lemma zlen_zdrop {A} n (l : list A) : 0 <= n <= zlen l -> zlen (zdrop n l) = zlen l - n.
Proof. unfold zlen, zdrop. rewrite length_drop. lia. Qed.

Lemma ztake_zdrop {A} n (l : list A) : ztake n l ++ zdrop n l = l.
Proof. apply take_drop. Qed.

Lemma zdrop_zdrop {A} n m (l : list A) : 0 <= n -> 0 <= m -> zdrop n (zdrop m l) = zdrop (m + n) l.
Proof. intros. unfold zdrop. rewrite drop_drop. f_equal. lia. Qed.

Lemma ztake_app_le {A} n (l k : list A) : n <= zlen l -> ztake n (l ++ k) = ztake n l.
Proof. intros. unfold zlen, ztake in *. apply take_app_le. lia. Qed.

Lemma zdrop_app_le {A} n (l k : list A) : n <= zlen l -> zdrop n (l ++ k) = zdrop n l ++ k.
Proof. intros. unfold zlen, zdrop in *. apply drop_app_le. lia. Qed.

Lemma ztake_ge {A} n (l : list A) : zlen l <= n -> ztake n l = l.
Proof. intros. unfold zlen, ztake in *. apply take_ge. lia. Qed.

Lemma zdrop_ge {A} n (l : list A) : zlen l <= n -> zdrop n l = [].
Proof. intros. unfold zlen, zdrop in *. apply drop_ge. lia. Qed.

Lemma zdrop_0 {A} (l : list A) : zdrop 0 l = l.
Proof. done. Qed.

#[export] Hint Resolve zlen_nonneg : aegis.
