(* ===== verification/GoLib.v ===== *)
(** * Go standard library pieces the sources use: [encoding/hex], [strconv],
    [crypto/sha256] and [crypto/hmac], as executable functions on byte strings. *)
From S2P Require Import Prelude.

(** ** encoding/hex *)

Definition hex_digit (n : N) : ascii :=
  if (n <? 10)%N then ascii_of_N (48 + n) else ascii_of_N (87 + n).

(** Value of a hexadecimal character; both cases are accepted, as in [hex.DecodeString]. *)
Definition hex_val (c : ascii) : option N :=
  if in_range 48 57 c then Some (code c - 48)%N
  else if in_range 97 102 c then Some (code c - 87)%N
  else if in_range 65 70 c then Some (code c - 55)%N
  else None.

Fixpoint hex_encode (s : string) : string :=
  match s with
  | EmptyString => EmptyString
  | String c s' =>
      String (hex_digit (code c / 16)) (String (hex_digit (code c mod 16)) (hex_encode s'))
  end.

(** [hex.DecodeString]; [None] stands for its error result. *)
Fixpoint hex_decode (s : string) : option string :=
  match s with
  | EmptyString => Some EmptyString
  | String _ EmptyString => None
  | String a (String b s') =>
      match hex_val a, hex_val b, hex_decode s' with
      | Some hi, Some lo, Some r => Some (String (ascii_of_N (16 * hi + lo)) r)
      | _, _, _ => None
      end
  end.

Definition is_lower_hex_char (c : ascii) : bool := is_digit c || is_lower_af c.

(** ** strconv *)

(** [strconv.ParseInt(s, 10, 64)]: optional sign, one or more digits, range check. *)
Fixpoint parse_digits (acc : Z) (s : string) : option Z :=
  match s with
  | EmptyString => Some acc
  | String c s' =>
      if is_digit c then parse_digits (acc * 10 + (Z.of_N (code c) - 48)) s' else None
  end.

Definition in_int64 (z : Z) : bool := (minInt64 <=? z) && (z <=? maxInt64).

Definition parse_int (s : string) : option Z :=
  let go (neg : bool) (d : string) : option Z :=
    match d with
    | EmptyString => None
    | _ => match parse_digits 0 d with
           | Some z => let z := if neg then - z else z in
                       if in_int64 z then Some z else None
           | None => None
           end
    end in
  match s with
  | EmptyString => None
  | String c s' =>
      if bool_decide (c = "-"%char) then go true s'
      else if bool_decide (c = "+"%char) then go false s'
      else go false s
  end.

(** [strconv.FormatInt(z, 10)] / [strconv.Itoa] / ["%d"]. *)
Definition format_int (z : Z) : string := pretty z.

(** ** crypto/sha256 *)

Definition add32 (a b : Z) : Z := (a + b) mod 4294967296.
Definition rotr (x n : Z) : Z := Z.lor (Z.shiftr x n) (Z.shiftl x (32 - n) mod 4294967296).
Definition not32 (x : Z) : Z := 4294967295 - x.

Definition sha_k : list Z :=
  [1116352408; 1899447441; 3049323471; 3921009573; 961987163; 1508970993; 2453635748; 2870763221;
   3624381080; 310598401; 607225278; 1426881987; 1925078388; 2162078206; 2614888103; 3248222580;
   3835390401; 4022224774; 264347078; 604807628; 770255983; 1249150122; 1555081692; 1996064986;
   2554220882; 2821834349; 2952996808; 3210313671; 3336571891; 3584528711; 113926993; 338241895;
   666307205; 773529912; 1294757372; 1396182291; 1695183700; 1986661051; 2177026350; 2456956037;
   2730485921; 2820302411; 3259730800; 3345764771; 3516065817; 3600352804; 4094571909; 275423344;
   430227734; 506948616; 659060556; 883997877; 958139571; 1322822218; 1537002063; 1747873779;
   1955562222; 2024104815; 2227730452; 2361852424; 2428436474; 2756734187; 3204031479; 3329325298].

Definition sha_h0 : list Z :=
  [1779033703; 3144134277; 1013904242; 2773480762; 1359893119; 2600822924; 528734635; 1541459225].

Definition bytes_of (s : string) : list Z := (fun c => Z.of_N (code c)) <$> String.list_ascii_of_string s.
Definition string_of_bytes (l : list Z) : string :=
  String.string_of_list_ascii ((fun z => ascii_of_N (Z.to_N z)) <$> l).

Fixpoint words_of (l : list Z) : list Z :=
  match l with
  | a :: b :: c :: d :: r => (((a * 256 + b) * 256 + c) * 256 + d) :: words_of r
  | _ => []
  end.

Definition word_bytes (w : Z) : list Z :=
  [Z.shiftr w 24 mod 256; Z.shiftr w 16 mod 256; Z.shiftr w 8 mod 256; w mod 256].

(** Padding: 0x80, zeros up to 56 mod 64, 64-bit big-endian bit length. *)
Definition sha_pad (l : list Z) : list Z :=
  let n := Z.of_nat (length l) in
  let zeros := (55 - n) mod 64 in
  l ++ 128 :: replicate (Z.to_nat zeros) 0
    ++ word_bytes (n * 8 / 4294967296) ++ word_bytes (n * 8 mod 4294967296).

(** Message schedule, kept newest-first: the head is W(t-1). *)
Fixpoint sha_schedule (n : nat) (ws : list Z) : list Z :=
  match n with
  | O => ws
  | S n' =>
      let w i := nth i ws 0 in
      let s0 := Z.lxor (Z.lxor (rotr (w 14%nat) 7) (rotr (w 14%nat) 18)) (Z.shiftr (w 14%nat) 3) in
      let s1 := Z.lxor (Z.lxor (rotr (w 1%nat) 17) (rotr (w 1%nat) 19)) (Z.shiftr (w 1%nat) 10) in
      sha_schedule n' (add32 (add32 (add32 (w 15%nat) s0) (w 6%nat)) s1 :: ws)
  end.

Definition sha_round (st : list Z) (kw : Z * Z) : list Z :=
  match st with
  | [a; b; c; d; e; f; g; h] =>
      let s1 := Z.lxor (Z.lxor (rotr e 6) (rotr e 11)) (rotr e 25) in
      let ch := Z.lxor (Z.land e f) (Z.land (not32 e) g) in
      let t1 := add32 (add32 (add32 (add32 h s1) ch) kw.1) kw.2 in
      let s0 := Z.lxor (Z.lxor (rotr a 2) (rotr a 13)) (rotr a 22) in
      let maj := Z.lxor (Z.lxor (Z.land a b) (Z.land a c)) (Z.land b c) in
      [add32 t1 (add32 s0 maj); a; b; c; add32 d t1; e; f; g]
  | _ => st
  end.

Definition sha_block (st : list Z) (blk : list Z) : list Z :=
  let ws := reverse (sha_schedule 48 (reverse blk)) in
  zip_with add32 st (foldl sha_round st (zip sha_k ws)).

Fixpoint sha_blocks (n : nat) (st : list Z) (ws : list Z) : list Z :=
  match n with
  | O => st
  | S n' => sha_blocks n' (sha_block st (take 16 ws)) (drop 16 ws)
  end.

Definition sha256 (s : string) : string :=
  let ws := words_of (sha_pad (bytes_of s)) in
  string_of_bytes (concat (word_bytes <$> sha_blocks (length ws / 16) sha_h0 ws)).

(** ** crypto/hmac with SHA-256 *)

Definition hmac_key (key : string) : list Z :=
  let k := bytes_of (if 64 <? slen key then sha256 key else key) in
  k ++ replicate (64 - length k) 0.

Definition hmac_sha256 (key msg : string) : string :=
  let k := hmac_key key in
  let inner := sha256 (string_of_bytes (Z.lxor 54 <$> k) +:+ msg) in
  sha256 (string_of_bytes (Z.lxor 92 <$> k) +:+ inner).

(** ** Lemmas: hexadecimal *)

#[global] Arguments sha256 s : simpl never.
#[global] Arguments hmac_sha256 key msg : simpl never.

Lemma hex_digit_val (n : N) : (n < 16)%N -> hex_val (hex_digit n) = Some n.
Proof. intros H. do 16 (destruct n as [|n] using N.peano_ind; [done | clear IHn]). lia. Qed.

Lemma code_bound (c : ascii) : (code c < 256)%N.
Proof. destruct c as [[][][][][][][][]]; vm_compute; done. Qed.

Lemma hex_decode_encode s : hex_decode (hex_encode s) = Some s.
Proof.
  induction s as [|c s IH]; [done|]. cbn -[N.div N.modulo N.mul].
  pose proof (code_bound c) as Hc.
  rewrite !hex_digit_val, IH by (apply N.mod_lt || apply N.Div0.div_lt_upper_bound; lia).
  replace (16 * (code c / 16) + code c mod 16)%N with (code c)
    by (apply N.Div0.div_mod).
  unfold code. by rewrite ascii_N_embedding.
Qed.

#[global] Instance hex_encode_inj : Inj (=) (=) hex_encode.
Proof. intros a b H%(f_equal hex_decode). rewrite !hex_decode_encode in H. congruence. Qed.

Lemma hex_digit_lower (n : N) : (n < 16)%N -> is_lower_hex_char (hex_digit n) = true.
Proof. intros H. do 16 (destruct n as [|n] using N.peano_ind; [done | clear IHn]). lia. Qed.

Lemma hex_encode_lower s : str_forall is_lower_hex_char (hex_encode s) = true.
Proof.
  induction s as [|c s IH]; [done|]. cbn -[N.div N.modulo].
  pose proof (code_bound c) as Hc.
  rewrite !hex_digit_lower, IH by (apply N.mod_lt || apply N.Div0.div_lt_upper_bound; lia).
  done.
Qed.

Lemma length_hex_encode s : String.length (hex_encode s) = (2 * String.length s)%nat.
Proof. induction s; simpl in *; lia. Qed.

Lemma lower_hex_val_digit (c : ascii) :
  is_lower_hex_char c = true -> exists n, hex_val c = Some n /\ hex_digit n = c /\ (n < 16)%N.
Proof.
  destruct c as [[][][][][][][][]]; intros H; vm_compute in H; try discriminate H;
    (eexists; split; [vm_compute; reflexivity | split; vm_compute; reflexivity]).
Qed.

(** Lowercase hexadecimal text of even length decodes, and re-encoding gives it back. *)
Lemma hex_encode_decode s :
  str_forall is_lower_hex_char s = true -> Nat.Even (String.length s) ->
  exists b, hex_decode s = Some b /\ hex_encode b = s.
Proof.
  remember (String.length s) as n eqn:Hn. revert s Hn.
  induction n as [n IH] using (well_founded_induction lt_wf). intros s Hn Hs [m Hm].
  destruct s as [|a [|b s]]; simpl in *.
  - by exists "".
  - lia.
  - bool_hyps.
    destruct (IH (String.length s)) with (s := s) as [r [Hr Hr']];
      [lia | done | done | exists (m - 1)%nat; lia |].
    destruct (lower_hex_val_digit a) as [x [Hx [Hxa Hx16]]]; [done|].
    destruct (lower_hex_val_digit b) as [y [Hy [Hyb Hy16]]]; [done|].
    rewrite Hx, Hy, Hr. eexists; split; [done|]. cbn -[N.div N.modulo N.mul].
    unfold code. rewrite N_ascii_embedding by lia.
    rewrite (N.mul_comm 16 x), N.div_add_l, N.div_small, N.add_0_r by lia.
    rewrite (N.add_comm (x * 16)), N.Div0.mod_add, N.mod_small by lia.
    by rewrite Hxa, Hyb, Hr'.
Qed.

(** ** Lemmas: decimal *)

Definition dec_char (c : ascii) : bool := is_digit c || bool_decide (c = "-"%char).

Lemma pretty_N_char_digit (x : N) :
  (x < 10)%N -> is_digit (pretty_N_char x) = true /\ Z.of_N (code (pretty_N_char x)) = Z.of_N x + 48.
Proof. intros H. do 10 (destruct x as [|x] using N.peano_ind; [done | clear IHx]). lia. Qed.

Lemma parse_digits_pretty_go (x : N) s acc :
  exists k, str_forall is_digit (pretty_N_go x s) = str_forall is_digit s /\
  parse_digits acc (pretty_N_go x s) = parse_digits (acc * 10 ^ Z.of_nat k + Z.of_N x) s.
Proof.
  revert s acc. induction (N.lt_wf_0 x) as [x _ IH]. intros s acc.
  destruct (decide (x = 0%N)) as [->|Hx].
  { exists 0%nat. rewrite pretty_N_go_0. split; [done|]. f_equal. simpl. lia. }
  rewrite pretty_N_go_step by lia.
  assert (x / 10 < x)%N as Hlt by (apply N.div_lt; lia).
  assert (x mod 10 < 10)%N as Hm by (apply N.mod_lt; lia).
  destruct (pretty_N_char_digit _ Hm) as [Hd Hc].
  destruct (IH _ Hlt (String (pretty_N_char (x mod 10)) s) acc) as [k [Hk1 Hk2]].
  exists (S k). split.
  { rewrite Hk1. simpl. by rewrite Hd. }
  rewrite Hk2. simpl. rewrite Hd. f_equal. rewrite Hc.
  rewrite Nat2Z.inj_succ, Z.pow_succ_r by lia.
  rewrite (N.Div0.div_mod x 10) at 3. lia.
Qed.

Lemma pretty_N_digits (x : N) : str_forall is_digit (pretty x) = true.
Proof.
  unfold pretty, pretty_N. case_decide; [done|].
  destruct (parse_digits_pretty_go x "" 0) as [k [Hk _]]. by rewrite Hk.
Qed.

Lemma parse_digits_pretty (x : N) : parse_digits 0 (pretty x) = Some (Z.of_N x).
Proof.
  unfold pretty, pretty_N. case_decide; [by subst|].
  destruct (parse_digits_pretty_go x "" 0) as [k [_ Hk]]. by rewrite Hk.
Qed.

Lemma pretty_N_nonempty (x : N) : pretty x <> "".
Proof.
  intros H. pose proof (parse_digits_pretty x) as Hp. rewrite H in Hp. simpl in Hp.
  assert (x = 0%N) as -> by (injection Hp; lia). discriminate H.
Qed.

Lemma format_int_chars z : str_forall dec_char (format_int z) = true.
Proof.
  unfold format_int, pretty, pretty_Z.
  assert (forall x : N, str_forall dec_char (pretty x) = true) as Hd.
  { intros x. eapply str_forall_impl; [|apply pretty_N_digits].
    intros c Hc. unfold dec_char. by rewrite Hc. }
  destruct z as [|p|p]; [done | apply Hd |]. rewrite str_forall_app. apply (Hd (N.pos p)).
Qed.

Lemma parse_format_int z : is_int64 z -> parse_int (format_int z) = Some z.
Proof.
  intros Hz. assert (in_int64 z = true) as Hin.
  { unfold in_int64, is_int64 in *. rewrite andb_true_iff, !Z.leb_le. lia. }
  unfold format_int, pretty, pretty_Z.
  destruct z as [|p|p]; [done | |].
  - pose proof (pretty_N_digits (N.pos p)) as Hd.
    pose proof (parse_digits_pretty (N.pos p)) as Hp.
    change (pretty p) with (pretty (N.pos p)).
    destruct (pretty (N.pos p)) as [|c s] eqn:E; [by apply pretty_N_nonempty in E|].
    unfold parse_int. simpl in Hd. bool_hyps.
    rewrite !bool_decide_false by (intros ->; done).
    rewrite Hp. change (Z.of_N (N.pos p)) with (Z.pos p). by rewrite Hin.
  - pose proof (parse_digits_pretty (N.pos p)) as Hp.
    change (pretty p) with (pretty (N.pos p)).
    rewrite append_cons, append_nil_l. unfold parse_int.
    rewrite bool_decide_true by done.
    destruct (pretty (N.pos p)) as [|c s] eqn:E; [by apply pretty_N_nonempty in E|].
    rewrite Hp. change (- Z.of_N (N.pos p)) with (Z.neg p). by rewrite Hin.
Qed.

(** ** Lemmas: digests *)

Lemma length_sha_round st kw : length st = 8%nat -> length (sha_round st kw) = 8%nat.
Proof. do 9 (destruct st as [|? st]; try done). Qed.

Lemma length_sha_rounds kws st :
  length st = 8%nat -> length (foldl sha_round st kws) = 8%nat.
Proof.
  revert st. induction kws as [|kw kws IH]; intros st H; [done|].
  simpl. by apply IH, length_sha_round.
Qed.

Lemma length_sha_blocks n st ws : length st = 8%nat -> length (sha_blocks n st ws) = 8%nat.
Proof.
  revert st ws. induction n as [|n IH]; intros st ws H; [done|]. cbn [sha_blocks].
  apply IH. unfold sha_block. rewrite length_zip_with, length_sha_rounds by done. lia.
Qed.

Lemma length_string_of_bytes l : String.length (string_of_bytes l) = length l.
Proof.
  unfold string_of_bytes. induction l as [|z l IH]; [done|].
  cbn [fmap list_fmap String.string_of_list_ascii String.length length]. by f_equal.
Qed.

Lemma length_concat_word_bytes l : length (concat (word_bytes <$> l)) = (4 * length l)%nat.
Proof. induction l; [done|]. cbn [fmap list_fmap concat]. rewrite length_app, IHl. simpl. lia. Qed.

Lemma length_sha256 s : String.length (sha256 s) = 32%nat.
Proof.
  unfold sha256. by rewrite length_string_of_bytes, length_concat_word_bytes, length_sha_blocks.
Qed.

Lemma length_hmac_sha256 k m : String.length (hmac_sha256 k m) = 32%nat.
Proof. apply length_sha256. Qed.

(** FIPS 180-4 and RFC 4231-style test vectors pin the executable digests. *)
Example sha256_abc :
  hex_encode (sha256 "abc") = "ba7816bf8f01cfea414140de5dae2223b00361a396177a9cb410ff61f20015ad".
Proof. vm_compute. reflexivity. Qed.

Example hmac_fox :
  hex_encode (hmac_sha256 "key" "The quick brown fox jumps over the lazy dog")
  = "f7bc83f430538424b13298e6aa6fb143ef4d59a14946175997479dbc2d1a3cd8".
Proof. vm_compute. reflexivity. Qed.

(** Text fields that a colon separates. *)
Definition no_colon (c : ascii) : bool := negb (bool_decide (c = ":"%char)).

Lemma int_no_colon z : str_forall no_colon (format_int z) = true.
Proof.
  eapply str_forall_impl, format_int_chars. intros c. unfold no_colon.
  case_bool_decide; [subst; by vm_compute | done].
Qed.

(** Proofs about the callers never look inside the digests. *)
#[global] Opaque sha256 hmac_sha256.
