(* ===== verification/Json.v ===== *)
(** * encoding/json and RFC 3339 times, as the services use them

    A document is a tree; [json.Marshal] of a struct lists its fields in declaration order
    under their tags, [json.Unmarshal] reads the fields it knows (the last occurrence of a
    key wins, missing fields and [null] leave the zero value, a value of the wrong shape is
    an error).  Keys are compared exactly: every document of the system is written with the
    exact tags.  Numbers are integers. *)
From S2P Require Import Prelude GoLib.

Inductive json :=
| JNull
| JBool (b : bool)
| JNum (z : Z)
| JStr (s : string)
| JArr (l : list json)
| JObj (fs : list (string * json)).

(** The value of the last field named [k]. *)
Fixpoint jget (k : string) (fs : list (string * json)) : option json :=
  match fs with
  | [] => None
  | (k', v) :: fs' =>
      match jget k fs' with
      | Some v' => Some v'
      | None => if String.eqb k' k then Some v else None
      end
  end.

(** ** Decoders *)

Definition decoder (A : Type) : Type := json -> option A.

Definition dString : decoder string := fun j =>
  match j with JStr s => Some s | JNull => Some "" | _ => None end.

Definition dInt64 : decoder Z := fun j =>
  match j with JNum z => if in_int64 z then Some z else None | JNull => Some 0 | _ => None end.

Definition dBool : decoder bool := fun j =>
  match j with JBool b => Some b | JNull => Some false | _ => None end.

(** A pointer field: [null] is [nil]. *)
Definition dPtr {A} (d : decoder A) : decoder (option A) := fun j =>
  match j with JNull => Some None | _ => Some <$> d j end.

Definition dList {A} (d : decoder A) : decoder (list A) := fun j =>
  match j with JNull => Some [] | JArr l => mapM d l | _ => None end.

(** A [map[string]string]. *)
Definition dStringMap : decoder (gmap string string) := fun j =>
  match j with
  | JNull => Some ∅
  | JObj fs => kvs ← mapM (fun '(k, v) => s ← dString v; Some (k, s)) fs;
               Some (foldl (fun m '(k, v) => <[k := v]> m) ∅ kvs)
  | _ => None
  end.

(** The fields of an object; [null] leaves the struct as it was. *)
Definition dFields : decoder (list (string * json)) := fun j =>
  match j with JObj fs => Some fs | JNull => Some [] | _ => None end.

Definition field {A} (d : decoder A) (zero : A) (k : string) (fs : list (string * json)) : option A :=
  match jget k fs with None => Some zero | Some j => d j end.

(** ** Encoders *)

Definition jStrings (l : list string) : json := JArr (JStr <$> l).

(** A field with the [omitempty] option. *)
Definition omitempty (k : string) (empty : bool) (v : json) : list (string * json) :=
  if empty then [] else [(k, v)].

Definition omitStr (k s : string) : list (string * json) := omitempty k (bool_decide (s = "")) (JStr s).

Definition omitPtr (k : string) (o : option string) : list (string * json) :=
  match o with None => [] | Some s => [(k, JStr s)] end.

(** ** Lemmas *)

Lemma jget_app k fs gs :
  jget k (fs ++ gs) = match jget k gs with Some v => Some v | None => jget k fs end.
Proof.
  induction fs as [|[k' v] fs IH]; simpl; [by destruct (jget k gs)|]. rewrite IH. by destruct (jget k gs).
Qed.

Lemma jget_omitStr k k' s :
  jget k (omitStr k' s) = if String.eqb k' k && negb (bool_decide (s = "")) then Some (JStr s) else None.
Proof. unfold omitStr, omitempty. case_bool_decide; simpl; by destruct (String.eqb k' k). Qed.

Lemma jget_omitPtr k k' o :
  jget k (omitPtr k' o) = match o with Some s => if String.eqb k' k then Some (JStr s) else None | None => None end.
Proof. destruct o; done. Qed.

Lemma field_omitStr k s gs : jget k gs = None ->
  field dString "" k (gs ++ omitStr k s) = Some s.
Proof.
  intros Hg. unfold field. rewrite jget_app, jget_omitStr, String.eqb_refl, Hg.
  case_bool_decide; simpl; by subst.
Qed.

Lemma dInt64_num z : is_int64 z -> dInt64 (JNum z) = Some z.
Proof.
  intros [H1 H2]. unfold dInt64, in_int64. by rewrite (proj2 (Z.leb_le _ _) H1), (proj2 (Z.leb_le _ _) H2).
Qed.

Lemma dList_map {A} (d : decoder A) (enc : A -> json) (P : A -> Prop) (l : list A) :
  (forall a, P a -> d (enc a) = Some a) -> Forall P l -> dList d (JArr (enc <$> l)) = Some l.
Proof.
  intros Hd Hl. simpl. induction Hl as [|a l Ha _ IH]; [done|]. cbn [fmap list_fmap mapM].
  rewrite Hd by done. simpl. by rewrite IH.
Qed.

(** ** Times *)

(** Year, month and day of the day number [days] (0 is 1970-01-01). *)
Definition civil (days : Z) : Z * Z * Z :=
  let z := days + 719468 in
  let era := z / 146097 in
  let doe := z mod 146097 in
  let yoe := (doe - doe / 1460 + doe / 36524 - doe / 146096) / 365 in
  let doy := doe - (365 * yoe + yoe / 4 - yoe / 100) in
  let mp := (5 * doy + 2) / 153 in
  let d := doy - (153 * mp + 2) / 5 + 1 in
  let m := if mp <? 10 then mp + 3 else mp - 9 in
  ((if m <=? 2 then 1 else 0) + yoe + era * 400, m, d).

Definition digit (n : Z) : string := String (ascii_of_N (Z.to_N (48 + n mod 10))) EmptyString.
Definition pad2 (n : Z) : string := digit (n / 10) +:+ digit n.
Definition pad4 (n : Z) : string := pad2 (n / 100) +:+ pad2 (n mod 100).

(** [Format(time.RFC3339)] of the Unix second [sec] in the zone [off] seconds east of UTC,
    for years 0 to 9999. *)
Definition rfc3339 (off sec : Z) : string :=
  let t := sec + off in
  let '(y, m, d) := civil (t / 86400) in
  let r := t mod 86400 in
  let zone := if off =? 0 then "Z"
              else (if off <? 0 then "-" else "+") +:+ pad2 (Z.abs off / 3600) +:+ ":" +:+
                   pad2 (Z.abs off mod 3600 / 60) in
  pad4 y +:+ "-" +:+ pad2 m +:+ "-" +:+ pad2 d +:+ "T" +:+ pad2 (r / 3600) +:+ ":" +:+
  pad2 (r mod 3600 / 60) +:+ ":" +:+ pad2 (r mod 60) +:+ zone.

Example rfc3339_epoch : rfc3339 0 0 = "1970-01-01T00:00:00Z".
Proof. reflexivity. Qed.

Example rfc3339_leap : rfc3339 (-18000) 1709182800 = "2024-02-29T00:00:00-05:00".
Proof. reflexivity. Qed.

Lemma digit_nonempty n s : digit n +:+ s <> "".
Proof. done. Qed.

Lemma rfc3339_nonempty off sec : rfc3339 off sec <> "".
Proof. unfold rfc3339. destruct (civil _) as [[y m] d]. done. Qed.
