(* ===== verification/FastCDC.v ===== *)
(** * internal/fastcdc: content-defined chunking

    The streaming [Chunker] of [fastcdc.go]: the Gear table, [findCut] with its two
    masking phases, [readUntilCut] over [io.ReadFull] windows, [NextChunk] and
    [ChunkAll].  Byte slices are [list ascii]; the reader is a sequence of read
    segments followed by a terminal error, so that short reads are covered. *)
From S2P Require Import Prelude GoLib.

(** ** Constants and the Gear table *)

Definition MinChunk : Z := 64 * 1024.
Definition AvgChunk : Z := 1 * 1024 * 1024.
Definition MaxChunk : Z := 4 * 1024 * 1024.
Definition maskS : Z := 0x0003FFFF.
Definition maskL : Z := 0x0007FFFF.
Definition GearSeed : Z := 0x6DCA495895636829.

(** [s = (s >> 1) ^ (0xA0CC36C9 & -(s & 1))] on [uint64]. *)
Definition gearStep (s : Z) : Z :=
  Z.lxor (Z.shiftr s 1) (Z.land 0xA0CC36C9 (uint64 (- Z.land s 1))).

Fixpoint generateGear (n : nat) (s : Z) : list Z :=
  match n with
  | O => []
  | S n' => let s' := gearStep s in uint32 s' :: generateGear n' s'
  end.

Definition generateGearTable (seed : Z) : list Z := generateGear 256 seed.
Definition gearTable : list Z := Eval vm_compute in generateGearTable GearSeed.
Definition gear (b : ascii) : Z := nth (N.to_nat (code b)) gearTable 0.

(** ** Configuration and chunks *)

Record Config := mkConfig {
  cfgMinChunk : Z;
  cfgAvgChunk : Z;
  cfgMaxChunk : Z;
  cfgMaskS : Z;
  cfgMaskL : Z
}.

Definition DefaultConfig : Config := mkConfig MinChunk AvgChunk MaxChunk maskS maskL.

Record Chunk := mkChunk { HashHex : string; Offset : Z; Size : Z }.

(** ** Readers *)

Inductive ioerr := EOF | ErrUnexpectedEOF | ReaderErr (msg : string).

#[global] Instance ioerr_eq_dec : EqDecision ioerr.
Proof. solve_decision. Defined.

(** An [io.Reader]: each [Read] returns at most one segment; once the segments are
    exhausted every [Read] returns the terminal error. *)
Record Reader := mkReader { rdSegs : list (list ascii); rdErr : ioerr }.

(** [byteReader] of the source: one segment, then [io.EOF]. *)
Definition byteReader (data : list ascii) : Reader := mkReader [data] EOF.

(** The read loop of [io.ReadFull]: fill [n] bytes from the segments. *)
Fixpoint fillFrom (segs : list (list ascii)) (n : nat) : list ascii * list (list ascii) :=
  match segs with
  | [] => ([], [])
  | s :: rest =>
      if decide (length s < n)%nat then
        let '(d, rest') := fillFrom rest (n - length s) in (s ++ d, rest')
      else (take n s, drop n s :: rest)
  end.

(** [io.ReadFull]: no error when [n] bytes were read, [EOF] when none, [ErrUnexpectedEOF]
    when the stream ended in between; other reader errors pass through. *)
Definition ReadFull (r : Reader) (n : Z) : list ascii * option ioerr * Reader :=
  let '(d, segs) := fillFrom (rdSegs r) (Z.to_nat n) in
  let err :=
    if n <=? zlen d then None
    else if (0 <? zlen d) && bool_decide (rdErr r = EOF) then Some ErrUnexpectedEOF
    else Some (rdErr r) in
  (d, err, mkReader segs (rdErr r)).

(** ** The chunker *)

(** [buf] is the valid prefix [c.buf[:c.bufLen]] of the internal buffer. *)
Record Chunker := mkChunker {
  reader : Reader;
  cfg : Config;
  buf : list ascii;
  offset : Z;
  fingerprint : Z;
  cutPhase : bool;
  pending : list Chunk
}.

Definition orDefault (z d : Z) : Z := if z <=? 0 then d else z.
Definition orDefaultMask (z d : Z) : Z := if z =? 0 then d else z.

Definition NewWithConfig (r : Reader) (c : Config) : Chunker :=
  mkChunker r
    (mkConfig (orDefault (cfgMinChunk c) MinChunk) (orDefault (cfgAvgChunk c) AvgChunk)
              (orDefault (cfgMaxChunk c) MaxChunk)
              (orDefaultMask (cfgMaskS c) maskS) (orDefaultMask (cfgMaskL c) maskL))
    [] 0 0 false [].

Definition New (r : Reader) : Chunker := NewWithConfig r DefaultConfig.

(** [fingerprint = (fingerprint << 1) + gearTable[data[i]]] on [uint32]. *)
Definition roll (fp : Z) (b : ascii) : Z := uint32 (uint32 (Z.shiftl fp 1) + gear b).

Inductive phase1Result :=
| P1End (fp : Z)               (** the data ran out *)
| P1Cut (fp len : Z)           (** boundary found by the small mask *)
| P1Switch (fp : Z).           (** the average size was reached: go to phase 2 *)

Fixpoint phase1 (c : Config) (fp i : Z) (data : list ascii) : phase1Result :=
  match data with
  | [] => P1End fp
  | b :: rest =>
      let fp := roll fp b in
      let currentSize := i + 1 in
      if cfgAvgChunk c <=? currentSize then P1Switch fp
      else if (cfgMinChunk c <=? currentSize) && (Z.land fp (cfgMaskS c) =? 0)
      then P1Cut fp currentSize
      else phase1 c fp (i + 1) rest
  end.

(** The second loop: it starts again at the first byte of [data]. *)
Fixpoint phase2 (c : Config) (fp i : Z) (data : list ascii) : Z * Z :=
  match data with
  | [] => (0, fp)
  | b :: rest =>
      let fp := roll fp b in
      let currentSize := i + 1 in
      if cfgMaxChunk c <=? currentSize then (currentSize, fp)
      else if Z.land fp (cfgMaskL c) =? 0 then (currentSize, fp)
      else phase2 c fp (i + 1) rest
  end.

(** [findCut]: the chunk length (0 when no boundary was found) and the updated
    [fingerprint] and [cutPhase] fields. *)
Definition findCut (c : Config) (fp : Z) (ph : bool) (data : list ascii) : Z * Z * bool :=
  match data with
  | [] => (0, fp, ph)
  | _ =>
      match phase1 c fp 0 data with
      | P1Cut fp' n => (n, fp', ph)
      | P1End fp' =>
          if ph then let '(n, fp'') := phase2 c fp' 0 data in (n, fp'', ph) else (0, fp', ph)
      | P1Switch fp' => let '(n, fp'') := phase2 c fp' 0 data in (n, fp'', true)
      end
  end.

Definition hashHex (b : list ascii) : string :=
  hex_encode (sha256 (String.string_of_list_ascii b)).

(** The [for cutPos < c.bufLen] loop; [off] is [startOffset + cutPos], [rest] is
    [c.buf[cutPos:c.bufLen]].  Every iteration consumes at least one byte, so
    [length rest] iterations are enough. *)
Fixpoint cutLoop (fuel : nat) (c : Config) (readOk : bool) (off fp : Z) (ph : bool)
    (rest : list ascii) : list Chunk * list ascii * Z * bool :=
  match fuel with
  | O => ([], rest, fp, ph)
  | S fuel' =>
      match rest with
      | [] => ([], rest, fp, ph)
      | _ =>
          let remaining := zlen rest in
          if (remaining <? cfgMinChunk c) && readOk then ([], rest, fp, ph)
          else
            let '(cut, _, _) := findCut c fp ph rest in
            let cutLen := if cut =? 0 then remaining else cut in
            let ch := mkChunk (hashHex (ztake cutLen rest)) off cutLen in
            let '(chs, rest', fp', ph') :=
              cutLoop fuel' c readOk (off + cutLen) 0 false (zdrop cutLen rest) in
            (ch :: chs, rest', fp', ph')
      end
  end.

(** [readUntilCut]; [None] is the slice-bounds panic of
    [c.buf[c.bufLen:c.bufLen+c.cfg.MaxChunk]] (the buffer has [2*MaxChunk] bytes). *)
Definition readUntilCut (c : Chunker) : option (list Chunk * option ioerr * Chunker) :=
  if cfgMaxChunk (cfg c) <? zlen (buf c) then None
  else
    let '(d, readErr, r') := ReadFull (reader c) (cfgMaxChunk (cfg c)) in
    let b := buf c ++ d in
    match b with
    | [] => Some ([], readErr,
                  mkChunker r' (cfg c) [] (offset c) (fingerprint c) (cutPhase c) (pending c))
    | _ =>
        let '(chs, rest, fp, ph) :=
          cutLoop (length b) (cfg c) (bool_decide (readErr = None)) (offset c)
                  (fingerprint c) (cutPhase c) b in
        let off := offset c + (zlen b - zlen rest) in
        if negb (bool_decide (readErr = None)) && (0 <? zlen rest) then
          Some (chs ++ [mkChunk (hashHex rest) off (zlen rest)], None,
                mkChunker r' (cfg c) [] (off + zlen rest) fp ph (pending c))
        else Some (chs, readErr, mkChunker r' (cfg c) rest off fp ph (pending c))
    end.

Definition setPending (c : Chunker) (p : list Chunk) : Chunker :=
  mkChunker (reader c) (cfg c) (buf c) (offset c) (fingerprint c) (cutPhase c) p.

Definition NextChunk (c : Chunker) : option (result ioerr Chunk * Chunker) :=
  match pending c with
  | ch :: rest => Some (Ok ch, setPending c rest)
  | [] =>
      '(chunks, err, c') ← readUntilCut c;
      match chunks, err with
      | [], Some e => Some (Err e, c')
      | [], None => Some (Err EOF, c')
      | ch :: rest, _ => Some (Ok ch, setPending c' (match rest with [] => pending c' | _ => rest end))
      end
  end.

Inductive chunkAllResult :=
| Done (chunks : list Chunk) (err : option ioerr)
| Panic
| OutOfFuel.

(** [ChunkAll]: the accumulation loop over [NextChunk]. *)
Fixpoint ChunkAll (fuel : nat) (c : Chunker) (all : list Chunk) : chunkAllResult :=
  match fuel with
  | O => OutOfFuel
  | S fuel' =>
      match NextChunk c with
      | None => Panic
      | Some (Ok ch, c') => ChunkAll fuel' c' (all ++ [ch])
      | Some (Err e, _) => Done all (if bool_decide (e = EOF) then None else Some e)
      end
  end.

Definition ChunkFromBytes (fuel : nat) (data : list ascii) : chunkAllResult :=
  ChunkAll fuel (NewWithConfig (byteReader data) DefaultConfig) [].

(** ** Helpers of the package *)

Definition ComputeSHA256Hex (data : string) : string := hex_encode (sha256 data).
Definition ComputeFileSHA256 (data : string) : string := hex_encode (sha256 data).
Definition EncodeHashBytes (b : string) : string := hex_encode b.
Definition DecodeHashHex (s : string) : option string := hex_decode s.

(** ** Specification *)

(** The relations between the configured sizes that the package's presets satisfy. *)
Definition valid_cfg (c : Config) : Prop :=
  1 <= cfgMinChunk c <= cfgMaxChunk c /\ 1 <= cfgAvgChunk c <= cfgMaxChunk c.

Definition slice (D : list ascii) (o n : Z) : list ascii := ztake n (zdrop o D).

(** [tiles mx D o cs o']: the chunks [cs] cover [D] from offset [o] to [o'] without gap or
    overlap, each has between 1 and [mx] bytes and carries the digest of its own bytes. *)
Fixpoint tiles (mx : Z) (D : list ascii) (o : Z) (cs : list Chunk) (o' : Z) : Prop :=
  match cs with
  | [] => o = o'
  | ch :: cs' =>
      Offset ch = o /\ 1 <= Size ch <= mx /\ o + Size ch <= zlen D /\
      HashHex ch = hashHex (slice D o (Size ch)) /\ tiles mx D (o + Size ch) cs' o'
  end.

(** The bytes the chunks describe, in order. *)
Definition chunkBytes (D : list ascii) (cs : list Chunk) : list ascii :=
  concat ((fun ch => slice D (Offset ch) (Size ch)) <$> cs).

(** ** Lemmas *)

Lemma fillFrom_spec segs n d segs' :
  fillFrom segs n = (d, segs') ->
  d = take n (concat segs) /\ concat segs' = drop n (concat segs).
Proof.
  revert n d segs'. induction segs as [|s segs IH]; intros n d segs' H; simpl in H.
  - simplify_eq. simpl. by rewrite take_nil, drop_nil.
  - case_decide as Hlt.
    + destruct (fillFrom segs (n - length s)) as [d0 r0] eqn:E. simplify_eq.
      destruct (IH _ _ _ E) as [-> Hr]. simpl. rewrite Hr.
      rewrite take_app, drop_app, (take_ge s), (drop_ge s) by lia. done.
    + simplify_eq. simpl. rewrite take_app_le, drop_app_le by lia. done.
Qed.

Definition content (r : Reader) : list ascii := concat (rdSegs r).

(** [ComputeFileSHA256FromReader]: [io.Copy] reads to the end and stops at other errors. *)
Definition ComputeFileSHA256FromReader (r : Reader) : result ioerr string :=
  if bool_decide (rdErr r = EOF) then Ok (hashHex (content r)) else Err (rdErr r).

Lemma ReadFull_spec r n d err r' :
  0 <= n -> ReadFull r n = (d, err, r') ->
  d = ztake n (content r) /\ content r' = zdrop n (content r) /\ rdErr r' = rdErr r /\
  (err = None <-> n <= zlen (content r)) /\
  (content r = [] -> 0 < n -> err = Some (rdErr r)).
Proof.
  intros Hn. unfold ReadFull. destruct (fillFrom _ _) as [d0 segs] eqn:E. intros H. simplify_eq.
  apply fillFrom_spec in E as [-> Hs]. unfold content in *. simpl.
  fold (ztake n (concat (rdSegs r))). rewrite Hs.
  assert (n <= zlen (ztake n (concat (rdSegs r))) <-> n <= zlen (concat (rdSegs r))) as Hz.
  { unfold zlen, ztake. rewrite length_take. lia. }
  split_and!; try done.
  - rewrite <- Hz. destruct (n <=? _) eqn:E1; bool_hyps; [done|].
    split; [|lia]. by case_match.
  - intros Hc ?. rewrite Hc. unfold ztake. rewrite take_nil.
    change (zlen []) with 0. rewrite (proj2 (Z.leb_gt n 0)) by lia. done.
Qed.

Lemma phase1_spec c fp i data :
  match phase1 c fp i data with
  | P1End _ => data = [] \/ i + zlen data < cfgAvgChunk c
  | P1Cut fp' n => i < n <= i + zlen data /\ cfgMinChunk c <= n < cfgAvgChunk c
                   /\ Z.land fp' (cfgMaskS c) = 0
  | P1Switch _ => cfgAvgChunk c <= i + zlen data
  end.
Proof.
  revert fp i. induction data as [|b data IH]; intros fp i; simpl; [by left|].
  assert (zlen (b :: data) = zlen data + 1) as Hl by (unfold zlen; simpl; lia).
  pose proof (zlen_nonneg data). rewrite Hl.
  destruct (cfgAvgChunk c <=? i + 1) eqn:E1; bool_hyps; [lia|].
  destruct ((cfgMinChunk c <=? i + 1) && _) eqn:E2; bool_hyps; [split_and!; auto; lia|].
  specialize (IH (roll fp b) (i + 1)).
  destruct (phase1 c (roll fp b) (i + 1) data) as [f|f k|f]; [| |lia].
  - right. destruct IH as [->|IH]; [|lia]. change (zlen []) with 0 in *. lia.
  - destruct IH as (? & ? & ?). split_and!; auto; lia.
Qed.

Lemma phase2_spec c fp i data n fp' :
  0 <= i < cfgMaxChunk c -> phase2 c fp i data = (n, fp') ->
  (n = 0 /\ i + zlen data < cfgMaxChunk c) \/
  (i < n <= i + zlen data /\ n <= cfgMaxChunk c).
Proof.
  revert fp i. induction data as [|b data IH]; intros fp i Hi H; simpl in H.
  { simplify_eq. left. change (zlen []) with 0. lia. }
  assert (zlen (b :: data) = zlen data + 1) as Hl by (unfold zlen; simpl; lia).
  pose proof (zlen_nonneg data). rewrite Hl.
  case_match; simplify_eq; bool_hyps; [lia|].
  case_match; simplify_eq; bool_hyps; [lia|].
  destruct (IH (roll fp b) (i + 1)) as [?|?]; [lia|done|lia..].
Qed.

Lemma findCut_spec c fp data n fp' ph' :
  valid_cfg c -> data <> [] -> findCut c fp false data = (n, fp', ph') ->
  (n = 0 /\ zlen data <= cfgMaxChunk c) \/ (1 <= n <= zlen data /\ n <= cfgMaxChunk c).
Proof.
  intros [Hm Ha] Hne H. unfold findCut in H. destruct data as [|b data]; [done|].
  pose proof (phase1_spec c fp 0 (b :: data)) as H1.
  destruct (phase1 c fp 0 (b :: data)) as [f|f k|f] eqn:E1.
  - simplify_eq. destruct H1 as [?|?]; [done|lia].
  - simplify_eq. lia.
  - destruct (phase2 c f 0 (b :: data)) as [k f2] eqn:E2. simplify_eq.
    apply phase2_spec in E2; lia.
Qed.

(** What one run of the loop of [readUntilCut] establishes. *)
Lemma cutLoop_spec fuel c readOk D off rest tail chs rest' fp' ph' :
  valid_cfg c -> (length rest <= fuel)%nat -> 0 <= off ->
  zdrop off D = rest ++ tail -> (rest = [] \/ off + zlen rest <= zlen D) ->
  cutLoop fuel c readOk off 0 false rest = (chs, rest', fp', ph') ->
  fp' = 0 /\ ph' = false /\
  zlen rest' <= zlen rest /\
  tiles (cfgMaxChunk c) D off chs (off + (zlen rest - zlen rest')) /\
  zdrop (off + (zlen rest - zlen rest')) D = rest' ++ tail /\
  (readOk = false -> rest' = []) /\ zlen rest' <= cfgMinChunk c /\
  (rest <> [] -> (readOk = false \/ cfgMinChunk c <= zlen rest) -> chs <> []).
Proof.
  intros Hv. revert off rest chs rest' fp' ph'.
  induction fuel as [|fuel IH]; intros off rest chs rest' fp' ph' Hf Ho HD Hb H.
  { destruct rest; [|simpl in Hf; lia]. simpl in H. simplify_eq.
    rewrite Z.sub_diag, Z.add_0_r. destruct Hv. change (zlen []) with 0.
    split_and!; try done; lia. }
  simpl in H. destruct rest as [|b rest0] eqn:Er.
  { simplify_eq. rewrite Z.sub_diag, Z.add_0_r. destruct Hv. change (zlen []) with 0.
    split_and!; try done; lia. }
  rewrite <- Er in *. assert (rest <> []) as Hne by by rewrite Er.
  assert (0 < zlen rest) as Hpos by (unfold zlen; rewrite Er; simpl; lia).
  clear Er b rest0.
  destruct Hb as [?|Hb]; [done|].
  case_match eqn:Ebrk; bool_hyps.
  { simplify_eq. rewrite Z.sub_diag, Z.add_0_r. destruct Hv.
    split_and!; try done; lia. }
  destruct (findCut c 0 false rest) as [[cut f] p] eqn:Ec.
  apply findCut_spec in Ec; [|done..].
  set (cutLen := if cut =? 0 then zlen rest else cut) in *.
  assert (1 <= cutLen <= zlen rest /\ cutLen <= cfgMaxChunk c) as [Hc1 Hc2].
  { subst cutLen. destruct (cut =? 0) eqn:E0; bool_hyps; lia. }
  destruct (cutLoop fuel c readOk (off + cutLen) 0 false (zdrop cutLen rest))
    as [[[chs0 r0] f0] p0] eqn:El. simplify_eq.
  assert (zlen (zdrop cutLen rest) = zlen rest - cutLen) as Hld by (apply zlen_zdrop; lia).
  apply IH in El as (? & ? & Hle & Ht & Hd & Hok & Hmin & _); [| | lia | |].
  - rewrite Hld in *.
    replace (off + cutLen + (zlen rest - cutLen - zlen rest'))
      with (off + (zlen rest - zlen rest')) in * by lia.
    split_and!; try done; try lia.
    simpl. split_and!; try done; try lia.
    f_equal. unfold slice. rewrite HD. by rewrite ztake_app_le by lia.
  - unfold zlen, zdrop in *. rewrite length_drop. lia.
  - rewrite <- zdrop_zdrop, HD, zdrop_app_le by lia. done.
  - right. rewrite Hld. lia.
Qed.

(** The representation invariant of the chunker while it works through [D]. *)
Record chunkInv (D : list ascii) (c : Chunker) : Prop := mkChunkInv {
  ci_cfg : valid_cfg (cfg c);
  ci_off : 0 <= offset c;
  ci_fp : fingerprint c = 0;
  ci_ph : cutPhase c = false;
  ci_rest : zdrop (offset c) D = buf c ++ content (reader c);
  ci_len : offset c + zlen (buf c) + zlen (content (reader c)) = zlen D;
  ci_buf : zlen (buf c) <= cfgMinChunk (cfg c)
}.

Lemma readUntilCut_spec D c :
  chunkInv D c ->
  exists chs err c', readUntilCut c = Some (chs, err, c') /\ chunkInv D c' /\
    cfg c' = cfg c /\ pending c' = pending c /\ rdErr (reader c') = rdErr (reader c) /\
    tiles (cfgMaxChunk (cfg c)) D (offset c) chs (offset c') /\
    (chs = [] -> offset c = zlen D /\ err = Some (rdErr (reader c))).
Proof.
  intros [Hv Ho Hfp Hph Hrest Hlen Hbuf]. destruct (Hv) as [Hm Ha]. unfold readUntilCut.
  rewrite (proj2 (Z.ltb_ge _ _)) by lia.
  destruct (ReadFull (reader c) (cfgMaxChunk (cfg c))) as [[d err] r'] eqn:Er.
  apply ReadFull_spec in Er as (-> & Hr' & Hre & Herr & Hempty); [|lia].
  set (n := cfgMaxChunk (cfg c)) in *. set (C := content (reader c)) in *.
  assert (zdrop (offset c) D = (buf c ++ ztake n C) ++ content r') as Hsplit.
  { by rewrite Hr', <- app_assoc, ztake_zdrop. }
  destruct (buf c ++ ztake n C) as [|b0 b1] eqn:Eb.
  { apply app_eq_nil in Eb as [Eb1 Eb2].
    assert (C = []) as HC.
    { apply zlen_nil_inv. unfold ztake in Eb2.
      apply (f_equal length) in Eb2. rewrite length_take in Eb2. unfold zlen. simpl in Eb2. lia. }
    do 3 eexists. split; [done|]. simpl. rewrite HC, Eb1 in *.
    unfold zdrop in Hr'. rewrite drop_nil in Hr'.
    split_and!; try done.
    - constructor; simpl; try done; rewrite ?Hr'; change (zlen []) with 0 in *; try done; lia.
    - intros _. change (zlen []) with 0 in *. split; [lia|]. apply Hempty; [done|lia]. }
  rewrite <- Eb in *. set (b := buf c ++ ztake n C) in *.
  assert (0 < zlen b) as Hpos by (unfold zlen; rewrite Eb; simpl; lia).
  assert (offset c + zlen b + zlen (content r') = zlen D) as Hlen'.
  { rewrite <- Hlen. subst b. rewrite zlen_app. unfold zlen, C. rewrite Hr'.
    unfold ztake, zdrop. rewrite length_take, length_drop. fold C. lia. }
  pose proof (zlen_nonneg (content r')).
  rewrite Hfp, Hph.
  destruct (cutLoop (length b) (cfg c) _ _ _ _ b) as [[[chs rest] fp] ph] eqn:El.
  apply (cutLoop_spec _ _ _ D _ _ (content r')) in El
    as (-> & -> & Hle & Ht & Hd & Hok & Hmin & Hne); [|done|done|done|done|right; lia].
  pose proof (zlen_nonneg rest).
  assert (chs <> []) as Hchs.
  { apply Hne; [by destruct b|]. destruct err; [by left|right].
    assert (n <= zlen C) by by apply Herr. subst b. rewrite zlen_app, zlen_ztake by lia.
    pose proof (zlen_nonneg (buf c)). lia. }
  assert (negb (bool_decide (err = None)) && (0 <? zlen rest) = false) as ->.
  { destruct err; [|done]. by rewrite Hok. }
  do 3 eexists. split; [done|]. simpl. split_and!; try done.
  constructor; simpl; try done; lia.
Qed.

(** Position of the next chunk to be handed out: the pending chunks come first. *)
Definition nextInv (D : list ascii) (o : Z) (c : Chunker) : Prop :=
  chunkInv D c /\ tiles (cfgMaxChunk (cfg c)) D o (pending c) (offset c).

Lemma NextChunk_spec D o c :
  nextInv D o c ->
  (exists ch c', NextChunk c = Some (Ok ch, c') /\ nextInv D (o + Size ch) c' /\
     cfg c' = cfg c /\ rdErr (reader c') = rdErr (reader c) /\
     tiles (cfgMaxChunk (cfg c)) D o [ch] (o + Size ch)) \/
  (exists c', NextChunk c = Some (Err (rdErr (reader c)), c') /\ o = zlen D).
Proof.
  intros [Hi Ht]. unfold NextChunk. destruct (pending c) as [|ch rest] eqn:Ep.
  - simpl in Ht. subst o.
    destruct (readUntilCut_spec D c Hi) as (chs & err & c' & -> & Hi' & Hcfg & Hp & Hre & Ht & Hnil).
    simpl. destruct chs as [|ch rest].
    + destruct (Hnil eq_refl) as [Ho ->]. right. eauto.
    + left. destruct Ht as (? & ? & ? & ? & Ht).
      do 2 eexists. split; [done|]. simpl. rewrite Hcfg, Ep in *.
      split_and!; try done; try lia.
      split; [by destruct Hi'; constructor|].
      simpl. rewrite Hcfg, Hp. by destruct rest.
  - left. destruct Ht as (? & ? & ? & ? & Ht).
    do 2 eexists. split; [done|]. simpl.
    split_and!; try done; try lia. split; [by destruct Hi; constructor | done].
Qed.

Lemma tiles_app mx D o cs o1 cs' o2 :
  tiles mx D o cs o1 -> tiles mx D o1 cs' o2 -> tiles mx D o (cs ++ cs') o2.
Proof.
  revert o. induction cs as [|ch cs IH]; intros o; simpl; [by intros ->|].
  intros (? & ? & ? & ? & ?) ?. split_and!; auto; lia.
Qed.

Lemma tiles_bound mx D o cs o' : tiles mx D o cs o' -> o <= zlen D -> o <= o' <= zlen D.
Proof.
  revert o. induction cs as [|ch cs IH]; intros o; simpl; [lia|].
  intros (? & ? & ? & ? & H) ?. apply IH in H; lia.
Qed.

Lemma chunkBytes_tiles mx D o cs o' :
  0 <= o <= zlen D -> tiles mx D o cs o' -> chunkBytes D cs = slice D o (o' - o).
Proof.
  revert o. induction cs as [|ch cs IH]; intros o Ho; simpl.
  - intros ->. unfold slice. by rewrite Z.sub_diag.
  - intros (Hoff & Hsz & Hb & _ & Ht).
    change (chunkBytes D (ch :: cs)) with (slice D (Offset ch) (Size ch) ++ chunkBytes D cs).
    assert (o + Size ch <= o' <= zlen D) by (eapply tiles_bound; eauto; lia).
    rewrite (IH (o + Size ch)); [|lia|done]. rewrite Hoff. unfold slice, ztake, zdrop.
    replace (Z.to_nat (o' - o)) with (Z.to_nat (Size ch) + Z.to_nat (o' - (o + Size ch)))%nat by lia.
    rewrite <- take_take_drop, drop_drop. do 3 f_equal. lia.
Qed.

Lemma ChunkAll_spec fuel D o c all :
  nextInv D o c -> 0 <= o -> (Z.to_nat (zlen D - o) < fuel)%nat ->
  tiles (cfgMaxChunk (cfg c)) D 0 all o ->
  exists cs, ChunkAll fuel c all
    = Done cs (if bool_decide (rdErr (reader c) = EOF) then None else Some (rdErr (reader c)))
    /\ tiles (cfgMaxChunk (cfg c)) D 0 cs (zlen D).
Proof.
  revert o c all. induction fuel as [|fuel IH]; intros o c all Hi Ho Hf Ht; [lia|]. simpl.
  destruct (NextChunk_spec D o c Hi) as [(ch & c' & -> & Hi' & Hcfg & Hre & Htch)|(c' & -> & ->)].
  - assert (1 <= Size ch /\ o + Size ch <= zlen D) as [? ?] by (simpl in Htch; lia).
    destruct (IH (o + Size ch) c' (all ++ [ch])) as [cs [Hcs Htcs]]; [done|lia|lia| |].
    + rewrite Hcfg. by eapply tiles_app.
    + rewrite Hcfg, Hre in *. eauto.
  - eauto.
Qed.

Lemma NewWithConfig_inv r c :
  valid_cfg c -> nextInv (content r) 0 (NewWithConfig r c) /\
  cfgMaxChunk (cfg (NewWithConfig r c)) = cfgMaxChunk c.
Proof.
  intros [Hm Ha].
  assert (forall z d, 1 <= z -> orDefault z d = z) as Hd.
  { intros z d Hz. unfold orDefault. by rewrite (proj2 (Z.leb_gt _ _)) by lia. }
  split; [|simpl; rewrite Hd; lia].
  split; [|done].
  constructor; simpl; rewrite ?Hd by lia; try done; change (@zlen ascii []) with 0; try lia.
Qed.

(** Two readers that deliver the same bytes and the same terminal error. *)
Definition sameContent (r1 r2 : Reader) : Prop := content r1 = content r2 /\ rdErr r1 = rdErr r2.

(** Chunkers that differ only in how their reader splits the stream. *)
Definition sameChunker (c1 c2 : Chunker) : Prop :=
  sameContent (reader c1) (reader c2) /\
  mkChunker (reader c2) (cfg c1) (buf c1) (offset c1) (fingerprint c1) (cutPhase c1) (pending c1)
  = c2.

#[global] Instance sameContent_equiv : Equivalence sameContent.
Proof. split; unfold sameContent; red; naive_solver congruence. Qed.

Lemma ReadFull_same r1 r2 n :
  0 <= n -> sameContent r1 r2 ->
  (ReadFull r1 n).1 = (ReadFull r2 n).1 /\ sameContent (ReadFull r1 n).2 (ReadFull r2 n).2.
Proof.
  intros Hn [Hc He]. unfold ReadFull.
  destruct (fillFrom (rdSegs r1) _) as [d1 s1] eqn:E1.
  destruct (fillFrom (rdSegs r2) _) as [d2 s2] eqn:E2.
  apply fillFrom_spec in E1 as [-> H1], E2 as [-> H2].
  unfold content in *. rewrite <- Hc, <- He in *. simpl. split; [done|].
  split; simpl; [|done]. unfold content. simpl. congruence.
Qed.

Lemma NextChunk_same c1 c2 :
  0 <= cfgMaxChunk (cfg c1) -> sameChunker c1 c2 ->
  match NextChunk c1, NextChunk c2 with
  | Some (a1, c1'), Some (a2, c2') => a1 = a2 /\ sameChunker c1' c2' /\ cfg c1' = cfg c1
  | None, None => True
  | _, _ => False
  end.
Proof.
  intros Hn [Hs <-]. unfold NextChunk. simpl.
  destruct (pending c1) as [|ch rest] eqn:Hp; [|split_and!; [done | by split | done]].
  unfold readUntilCut. simpl. destruct (cfgMaxChunk (cfg c1) <? zlen (buf c1)); [done|].
  destruct (ReadFull_same _ _ _ Hn Hs) as [H1 H2].
  destruct (ReadFull (reader c1) _) as [[d1 e1] r1], (ReadFull (reader c2) _) as [[d2 e2] r2].
  simpl in *. simplify_eq.
  destruct (buf c1 ++ d2) as [|b0 b1].
  - destruct e2; simpl; (split_and!; [done | by split; rewrite ?Hp | done]).
  - destruct (cutLoop _ _ _ _ _ _ _) as [[[chs rest] fp] ph].
    destruct (negb _ && _); simpl.
    + destruct (chs ++ _); simpl; (split_and!; [done | by split; rewrite ?Hp | done]).
    + destruct chs; [destruct e2|]; simpl; (split_and!; [done | by split; rewrite ?Hp | done]).
Qed.

(** [ChunkAll] cuts the content into consecutive chunks. *)
Lemma ChunkAll_tiles (r : Reader) (c : Config) (fuel : nat)
    (Hcfg : valid_cfg c) (Heof : rdErr r = EOF) (Hfuel : (length (content r) < fuel)%nat) :
  exists cs, ChunkAll fuel (NewWithConfig r c) [] = Done cs None /\
    tiles (cfgMaxChunk c) (content r) 0 cs (zlen (content r)) /\
    chunkBytes (content r) cs = content r.
Proof.
  destruct (NewWithConfig_inv r c Hcfg) as [Hi Hmx].
  destruct (ChunkAll_spec fuel (content r) 0 (NewWithConfig r c) []) as [cs [H Ht]];
    [done|lia|unfold zlen; lia|done|].
  rewrite Hmx in Ht. simpl in H. rewrite Heof in H. exists cs. split_and!; try done.
  rewrite (chunkBytes_tiles (cfgMaxChunk c) _ 0 cs (zlen (content r))); [|unfold zlen; lia|done].
  unfold slice. rewrite zdrop_0. apply ztake_ge. lia.
Qed.

(** C1. Chunking is lossless: for every reader that ends in [io.EOF] and every
    configuration with [1 <= Min <= Max] and [1 <= Avg <= Max], [ChunkAll] returns
    without error or panic (the number of bytes plus one calls of [NextChunk] are
    enough), and the chunks it returns tile the input: contiguous offsets from 0 to
    the end, every size between 1 and [MaxChunk], every [HashHex] the SHA-256 of the
    chunk's own bytes, and the concatenated chunk bytes are the input. *)
Theorem ChunkAll_lossless (r : Reader) (c : Config) (fuel : nat)
    (Hcfg : valid_cfg c) (Heof : rdErr r = EOF) (Hfuel : (length (content r) < fuel)%nat) :
  exists cs, ChunkAll fuel (NewWithConfig r c) [] = Done cs None /\
    tiles (cfgMaxChunk c) (content r) 0 cs (zlen (content r)) /\
    chunkBytes (content r) cs = content r.
Proof. by apply ChunkAll_tiles. Qed.

Definition smallCfg : Config := mkConfig 2 4 8 3 7.

Lemma ChunkAll_lossless_witness :
  exists cs, ChunkAll 20 (NewWithConfig (byteReader (String.list_ascii_of_string "hello, aegis!"))
                                        smallCfg) [] = Done cs None /\
    tiles 8 (content (byteReader (String.list_ascii_of_string "hello, aegis!"))) 0 cs 13 /\
    chunkBytes (content (byteReader (String.list_ascii_of_string "hello, aegis!"))) cs
      = content (byteReader (String.list_ascii_of_string "hello, aegis!")).
Proof.
  apply (ChunkAll_lossless (byteReader (String.list_ascii_of_string "hello, aegis!")) smallCfg 20).
  - split; vm_compute; split; discriminate.
  - reflexivity.
  - simpl. lia.
Defined.

(** C15. Chunking depends only on the bytes of the stream, not on how the reader splits
    them over [Read] calls: two readers with the same content and terminal error give
    the same chunks, the same error, the same panics and the same number of calls. *)
Theorem ChunkAll_segmentation_independent (r1 r2 : Reader) (c : Config) (fuel : nat)
    (Hsame : sameContent r1 r2) :
  ChunkAll fuel (NewWithConfig r1 c) [] = ChunkAll fuel (NewWithConfig r2 c) [].
Proof.
  assert (forall all c1 c2, 0 <= cfgMaxChunk (cfg c1) -> sameChunker c1 c2 ->
            ChunkAll fuel c1 all = ChunkAll fuel c2 all) as Hgen.
  { induction fuel as [|fuel IH]; intros all c1 c2 Hm Hs; [done|]. simpl.
    pose proof (NextChunk_same c1 c2 Hm Hs) as Hn.
    destruct (NextChunk c1) as [[[ch1|e1] c1']|], (NextChunk c2) as [[[ch2|e2] c2']|];
      try done; destruct Hn as (? & ? & Hc); simplify_eq; [|done].
    apply IH; [by rewrite Hc | done]. }
  apply Hgen; [|by split].
  simpl. unfold orDefault, MaxChunk. case_match; bool_hyps; lia.
Qed.

Lemma ChunkAll_segmentation_independent_witness :
  ChunkAll 9 (NewWithConfig (mkReader [["a"%char]; ["b"%char; "c"%char]] EOF) smallCfg) []
  = ChunkAll 9 (NewWithConfig (byteReader ["a"%char; "b"%char; "c"%char]) smallCfg) [].
Proof.
  apply (ChunkAll_segmentation_independent
           (mkReader [["a"%char]; ["b"%char; "c"%char]] EOF)
           (byteReader ["a"%char; "b"%char; "c"%char]) smallCfg 9).
  split; reflexivity.
Defined.

(** The sizes [ChunkAll] returns. *)
Definition chunkSizes (r : chunkAllResult) : list Z :=
  match r with Done cs _ => Size <$> cs | _ => [] end.

(** [MinChunk] is only enforced by the first masking loop.  A window shorter than
    [AvgChunk] is never cut below [MinChunk]; but once the average is reached the second
    loop starts again at the first byte and tests [MaskL] without a lower bound, so
    [ChunkAll] returns chunks below [MinChunk] that are not the last one: on the given
    21 bytes with [MinChunk = 4] the first of eight chunks has 2 bytes. *)
Theorem findCut_MinChunk_only_in_phase1 :
  (forall c fp data n fp' ph', zlen data < cfgAvgChunk c ->
     findCut c fp false data = (n, fp', ph') -> n = 0 \/ cfgMinChunk c <= n) /\
  valid_cfg (mkConfig 4 6 8 255 1) /\
  chunkSizes (ChunkAll 20 (NewWithConfig (byteReader
    (String.list_ascii_of_string "hello, aegis! this is")) (mkConfig 4 6 8 255 1)) [])
  = [2; 4; 1; 2; 5; 1; 4; 2].
Proof.
  split_and!.
  - intros c fp data n fp' ph' Hl. unfold findCut. destruct data as [|b data]; [naive_solver|].
    pose proof (phase1_spec c fp 0 (b :: data)) as Hp. rewrite Z.add_0_l in Hp.
    destruct (phase1 c fp 0 (b :: data)); [naive_solver|intros; simplify_eq; right; lia|].
    lia.
  - split; vm_compute; split; discriminate.
  - vm_compute. reflexivity.
Qed.
