(* ===== verification/External.v ===== *)
(** * Interfaces of the packages Aegis calls but does not contain

    [google/uuid] and the Redis server behind [go-redis] are not part of the
    repository.  Each is a type class: the operations the code uses and the documented
    behaviour the theorems rely on.  [uuid16] and [mem_redis] are concrete instances,
    used to show that the laws can hold and to run the witnesses. *)
From S2P Require Import Prelude GoLib.

(** ** google/uuid *)

Class UUID := {
  uuid : Type;
  uuid_eq_dec :: EqDecision uuid;
  uuid_countable :: Countable uuid;
  uuid_nil : uuid;
  uuid_String : uuid -> string;
  uuid_Parse : string -> option uuid;
  (** [String] renders lowercase hex digits and dashes, [Parse] reads it back and refuses
      the empty string. *)
  uuid_Parse_String u : uuid_Parse (uuid_String u) = Some u;
  uuid_Parse_empty : uuid_Parse "" = None;
  uuid_String_chars u :
    str_forall (fun c => is_lower_hex_char c || bool_decide (c = "-"%char)) (uuid_String u) = true
}.

(** ** Redis string commands

    [r_get t k r] is what [GET k] answers at time [t] (nanoseconds); keys with a
    time to live disappear once it has passed. *)

Class Redis := {
  redis : Type;
  r_get : Z -> string -> redis -> option string;
  r_setnx : Z -> string -> string -> Z -> redis -> bool * redis;
  r_set : Z -> string -> string -> Z -> redis -> redis;
  r_del : Z -> string -> redis -> bool * redis;
  r_get_expires t t' k r v : t <= t' -> r_get t' k r = Some v -> r_get t k r = Some v;
  r_setnx_free now k v ttl r : 0 < ttl -> r_get now k r = None ->
    exists r', r_setnx now k v ttl r = (true, r') /\
      forall t k', now <= t ->
        r_get t k' r' = if decide (k' = k) then (if t <? now + ttl then Some v else None)
                        else r_get t k' r;
  r_setnx_taken now k v ttl r w : r_get now k r = Some w ->
    exists r', r_setnx now k v ttl r = (false, r') /\
      forall t k', now <= t -> r_get t k' r' = r_get t k' r;
  r_set_get now k v ttl r t k' : 0 < ttl -> now <= t ->
    r_get t k' (r_set now k v ttl r) =
      if decide (k' = k) then (if t <? now + ttl then Some v else None) else r_get t k' r;
  r_del_get now k r t k' : now <= t ->
    r_get t k' (r_del now k r).2 = if decide (k' = k) then None else r_get t k' r
}.

(** The outcome of the network around one command: it is executed and answered, it never
    reaches the server, or it is executed and the answer is lost. *)
Inductive net := NetOk | NetDown (msg : string) | NetLost (msg : string).

#[global] Instance net_eq_dec : EqDecision net.
Proof. solve_decision. Defined.

(** Run a state-changing command through the network. *)
Definition call {S A} (n : net) (cmd : S -> A * S) (s : S) : result string A * S :=
  match n with
  | NetOk => let '(a, s') := cmd s in (Ok a, s')
  | NetDown m => (Err m, s)
  | NetLost m => (Err m, (cmd s).2)
  end.

(** ** A concrete UUID type: sixteen bytes in the 8-4-4-4-12 text form *)

Record uuid16 := mkUuid16 { u_a : ascii * ascii * ascii * ascii; u_b : ascii * ascii;
  u_c : ascii * ascii; u_d : ascii * ascii; u_e : ascii * ascii * ascii * ascii * ascii * ascii }.

#[global] Instance uuid16_eq_dec : EqDecision uuid16.
Proof. solve_decision. Defined.

(** Through the byte string, whose encoding is linear in its length. *)
#[global] Instance uuid16_countable : Countable uuid16.
Proof.
  refine (inj_countable (fun u =>
      let '(a0, a1, a2, a3) := u_a u in let '(b0, b1) := u_b u in let '(c0, c1) := u_c u in
      let '(d0, d1) := u_d u in let '(e0, e1, e2, e3, e4, e5) := u_e u in
      String.string_of_list_ascii [a0; a1; a2; a3; b0; b1; c0; c1; d0; d1; e0; e1; e2; e3; e4; e5])
    (fun s => match String.list_ascii_of_string s with
       | [a0; a1; a2; a3; b0; b1; c0; c1; d0; d1; e0; e1; e2; e3; e4; e5] =>
           Some (mkUuid16 (a0, a1, a2, a3) (b0, b1) (c0, c1) (d0, d1) (e0, e1, e2, e3, e4, e5))
       | _ => None
       end) _).
  by intros [[[[a0 a1] a2] a3] [b0 b1] [c0 c1] [d0 d1] [[[[[e0 e1] e2] e3] e4] e5]].
Defined.

Definition hi (c : ascii) : ascii := hex_digit (code c / 16).
Definition lo (c : ascii) : ascii := hex_digit (code c mod 16).
Definition two (c : ascii) (s : string) : string := String (hi c) (String (lo c) s).
Definition dash (s : string) : string := String "-"%char s.

Definition uuid16_String (u : uuid16) : string :=
  let '(a0, a1, a2, a3) := u_a u in let '(b0, b1) := u_b u in let '(c0, c1) := u_c u in
  let '(d0, d1) := u_d u in let '(e0, e1, e2, e3, e4, e5) := u_e u in
  two a0 (two a1 (two a2 (two a3 (dash (two b0 (two b1 (dash (two c0 (two c1 (dash
  (two d0 (two d1 (dash (two e0 (two e1 (two e2 (two e3 (two e4 (two e5 EmptyString))))))))))))))))))).

(** Read one byte, or one dash, off the front. *)
Definition untwo (s : string) : option (ascii * string) :=
  match s with
  | String x (String y r) =>
      vx ← hex_val x; vy ← hex_val y; Some (ascii_of_N (vx * 16 + vy)%N, r)
  | _ => None
  end.
Definition undash (s : string) : option string :=
  match s with String c r => if bool_decide (c = "-"%char) then Some r else None | _ => None end.

Definition uuid16_Parse (s : string) : option uuid16 :=
  '(a0, s) ← untwo s; '(a1, s) ← untwo s; '(a2, s) ← untwo s; '(a3, s) ← untwo s; s ← undash s;
  '(b0, s) ← untwo s; '(b1, s) ← untwo s; s ← undash s;
  '(c0, s) ← untwo s; '(c1, s) ← untwo s; s ← undash s;
  '(d0, s) ← untwo s; '(d1, s) ← untwo s; s ← undash s;
  '(e0, s) ← untwo s; '(e1, s) ← untwo s; '(e2, s) ← untwo s;
  '(e3, s) ← untwo s; '(e4, s) ← untwo s; '(e5, s) ← untwo s;
  if bool_decide (s = EmptyString)
  then Some (mkUuid16 (a0, a1, a2, a3) (b0, b1) (c0, c1) (d0, d1) (e0, e1, e2, e3, e4, e5))
  else None.

Lemma untwo_two c s : untwo (two c s) = Some (c, s).
Proof.
  pose proof (code_bound c) as Hc. unfold untwo, two, hi, lo.
  rewrite !hex_digit_val by (apply N.mod_lt || apply N.Div0.div_lt_upper_bound; lia).
  simpl. rewrite <- N.mul_comm, <- N.div_mod by lia. unfold code. by rewrite ascii_N_embedding.
Qed.

Lemma untwo_bind {B} c s (f : ascii * string -> option B) : (untwo (two c s) ≫= f) = f (c, s).
Proof. by rewrite untwo_two. Qed.

Lemma undash_bind {B} s (f : string -> option B) : (undash (dash s) ≫= f) = f s.
Proof. done. Qed.

Lemma two_chars (p : ascii -> bool) c s :
  (forall x, is_lower_hex_char x = true -> p x = true) ->
  str_forall p (two c s) = str_forall p s.
Proof.
  intros Hp. pose proof (code_bound c) as Hc. unfold two, hi, lo. simpl.
  rewrite !Hp by (apply hex_digit_lower; apply N.mod_lt || apply N.Div0.div_lt_upper_bound; lia).
  done.
Qed.

Lemma dash_chars (p : ascii -> bool) s :
  p "-"%char = true -> str_forall p (dash s) = str_forall p s.
Proof. intros Hp. simpl. by rewrite Hp. Qed.

Lemma uuid16_Parse_String (u : uuid16) : uuid16_Parse (uuid16_String u) = Some u.
Proof.
  destruct u as [[[[a0 a1] a2] a3] [b0 b1] [c0 c1] [d0 d1] [[[[[e0 e1] e2] e3] e4] e5]].
  unfold uuid16_Parse, uuid16_String. cbn [u_a u_b u_c u_d u_e].
  repeat (rewrite ?untwo_bind, ?undash_bind; cbv beta iota). by rewrite bool_decide_true.
Qed.

Lemma uuid16_String_chars (u : uuid16) :
  str_forall (fun c => is_lower_hex_char c || bool_decide (c = "-"%char)) (uuid16_String u) = true.
Proof.
  destruct u as [[[[a0 a1] a2] a3] [b0 b1] [c0 c1] [d0 d1] [[[[[e0 e1] e2] e3] e4] e5]].
  unfold uuid16_String. cbn [u_a u_b u_c u_d u_e].
  repeat first [rewrite two_chars by (intros x Hx; simpl; by rewrite Hx)
               | rewrite dash_chars by reflexivity]. done.
Qed.

Definition uuid16_nil : uuid16 :=
  mkUuid16 (zero, zero, zero, zero) (zero, zero) (zero, zero) (zero, zero)
           (zero, zero, zero, zero, zero, zero).

#[global] Instance uuid16_UUID : UUID := {|
  uuid := uuid16;
  uuid_nil := uuid16_nil;
  uuid_String := uuid16_String;
  uuid_Parse := uuid16_Parse;
  uuid_Parse_String := uuid16_Parse_String;
  uuid_Parse_empty := eq_refl;
  uuid_String_chars := uuid16_String_chars
|}.

(** ** A concrete Redis: a finite map from keys to a value and an optional expiry *)

Definition mem_redis := gmap string (string * Z).

Definition mem_get (t : Z) (k : string) (r : mem_redis) : option string :=
  match r !! k with Some (v, exp) => if t <? exp then Some v else None | None => None end.

Definition mem_set (now : Z) (k v : string) (ttl : Z) (r : mem_redis) : mem_redis :=
  <[k := (v, now + ttl)]> r.

Definition mem_setnx (now : Z) (k v : string) (ttl : Z) (r : mem_redis) : bool * mem_redis :=
  match mem_get now k r with Some _ => (false, r) | None => (true, mem_set now k v ttl r) end.

Definition mem_del (now : Z) (k : string) (r : mem_redis) : bool * mem_redis :=
  (bool_decide (mem_get now k r <> None), delete k r).

Lemma mem_set_get now k v ttl r t k' :
  mem_get t k' (mem_set now k v ttl r) =
  if decide (k' = k) then (if t <? now + ttl then Some v else None) else mem_get t k' r.
Proof.
  unfold mem_get, mem_set, mem_redis in *. case_decide as Hk.
  - subst. by rewrite lookup_insert_eq.
  - by rewrite lookup_insert_ne.
Qed.

#[global] Instance mem_Redis : Redis.
Proof.
  refine {| redis := mem_redis; r_get := mem_get; r_setnx := mem_setnx; r_set := mem_set;
            r_del := mem_del |}.
  - unfold mem_get. intros t t' k r v Ht. destruct (r !! k) as [[w e]|]; [|done].
    destruct (t' <? e) eqn:E; [|done]. bool_hyps. by rewrite (proj2 (Z.ltb_lt t e)) by lia.
  - intros now k v ttl r _ H. unfold mem_setnx. rewrite H. eexists. split; [done|].
    intros. apply mem_set_get.
  - intros now k v ttl r w H. unfold mem_setnx. rewrite H. eauto.
  - intros. apply mem_set_get.
  - intros now k r t k' _. unfold mem_del, mem_get, mem_redis in *. simpl. case_decide as Hk.
    + subst. by rewrite lookup_delete_eq.
    + by rewrite lookup_delete_ne.
Defined.

Definition emptyRedis : @redis mem_Redis := (∅ : mem_redis).
