(* ===== verification/Auth.v ===== *)
(** * internal/auth: pre-signed upload tokens

    [hmac.go] (claims, signing, wire format, validation), [keys.go] (the [KMSClient]
    interface and [StaticKMS] with version rotation) and [replay.go] (the [NonceStore]
    interface with its in-memory and Redis implementations).

    Times and durations are nanoseconds; every operation takes the clock reading it
    uses.  Entropy is an argument: [Some bytes], or [None] when [rand.Read] fails. *)
From S2P Require Import Prelude GoLib External.

Definition second : Z := 1000000000.
Definition minute : Z := 60 * second.
Definition hour : Z := 60 * minute.
Definition day : Z := 24 * hour.

(** [time.Time.Unix] and [int64(d.Seconds())]. *)
Definition Unix (t : Z) : Z := t / second.
Definition Seconds (d : Z) : Z := Z.quot d second.

Definition DefaultTokenTTL : Z := 15 * minute.
Definition DefaultClockSkew : Z := minute.
Definition NonceSize : Z := 16.
Definition msgDomain : string := "aegis1".
Definition defaultBaseURL : string := "https://blob-storage".
Definition OverlapWindow : Z := 7 * 24 * hour.
Definition nonceKeyPrefix : string := "aegis:nonce:".

(** The sentinels of [hmac.go]; a wrapped error keeps its detail text. *)
Inductive autherr :=
| ErrMalformed (detail : string)
| ErrExpired
| ErrTooFarInFuture
| ErrUnknownKeyVer (version : Z)
| ErrBadSignature
| ErrReplay
| ErrNotTenantBlock
| ErrNonceUnavailable (cause : string)
| SigningKeyErr (cause : string)
| VerificationKeyErr (cause : string)
| KeyTooWeak (len : Z)
| NonceEntropy
| OwnershipProbe (cause : string).

Definition isLowerHex (s : string) : bool := str_forall is_lower_hex_char s.

Definition endpoint_char (c : ascii) : bool :=
  in_range 48 57 c || in_range 65 90 c || in_range 97 122 c ||
  bool_decide (c = "_"%char) || bool_decide (c = "-"%char).
Definition isEndpointSafe (s : string) : bool := str_forall endpoint_char s.

(** ** Interfaces *)

(** [NonceStore]: [Consume now nonce ttl] through a network outcome. *)
Class NonceStore (N : Type) := Consume : net -> Z -> string -> Z -> N -> result string bool * N.

Section auth.
Context `{U : UUID}.

(** [KMSClient]: both calls may provision a tenant, so both thread the state. *)
Class KMSClient (K : Type) := {
  SigningKey : Z -> option string -> uuid -> K -> result string (Z * string) * K;
  VerificationKey : Z -> option string -> uuid -> Z -> K -> result string (string * bool) * K
}.

(** ** Claims *)

Record Claims := mkClaims {
  TenantID : uuid;
  BlockHash : string;
  ExpiryUnix : Z;
  KeyVersion : Z;
  EndpointID : string;
  NonceHex : string
}.

Definition message (c : Claims) : string :=
  msgDomain +:+ ":" +:+ format_int (KeyVersion c) +:+ ":" +:+ uuid_String (TenantID c) +:+ ":" +:+
  BlockHash c +:+ ":" +:+ format_int (ExpiryUnix c) +:+ ":" +:+ EndpointID c +:+ ":" +:+ NonceHex c.

Definition valid (c : Claims) : result autherr unit :=
  if bool_decide (BlockHash c = "") then Err (ErrMalformed "empty block hash")
  else if negb (slen (BlockHash c) =? 64) || negb (isLowerHex (BlockHash c))
  then Err (ErrMalformed "block hash must be 64 lowercase hex chars")
  else if bool_decide (EndpointID c = "") || (64 <? slen (EndpointID c))
          || negb (isEndpointSafe (EndpointID c))
  then Err (ErrMalformed "endpoint id charset")
  else if (KeyVersion c <? 1) || (1000000 <? KeyVersion c)
  then Err (ErrMalformed "key version out of range")
  else if negb (slen (NonceHex c) =? NonceSize * 2) || negb (isLowerHex (NonceHex c))
  then Err (ErrMalformed "nonce encoding")
  else Ok tt.

Record SignedToken := mkToken { tokClaims : Claims; SignatureHex : string }.

(** ** TokenGenerator *)

Record TokenGenerator := mkGen {
  ttl : Z;
  skew : Z;
  baseURL : string;
  ownership : option (uuid -> string -> result string bool)
}.

Definition NewTokenGenerator : TokenGenerator :=
  mkGen DefaultTokenTTL DefaultClockSkew defaultBaseURL None.

(** The options of [NewTokenGenerator], applied in order. *)
Definition WithTTL (d : Z) (g : TokenGenerator) : TokenGenerator := mkGen d (skew g) (baseURL g) (ownership g).
Definition WithSkew (d : Z) (g : TokenGenerator) : TokenGenerator := mkGen (ttl g) d (baseURL g) (ownership g).
Definition WithBaseURL (u : string) (g : TokenGenerator) : TokenGenerator := mkGen (ttl g) (skew g) u (ownership g).
Definition WithOwnershipChecker (o : uuid -> string -> result string bool) (g : TokenGenerator) : TokenGenerator :=
  mkGen (ttl g) (skew g) (baseURL g) (Some o).

(** The single HMAC site. *)
Definition computeMAC (key msg : string) : string := hmac_sha256 key msg.

Section ops.
Context {K N : Type} `{KMS : KMSClient K} `{NS : NonceStore N}.

Definition SignClaims (g : TokenGenerator) (now : Z) (kmsRnd nonceRnd : option string)
    (tenantID : uuid) (blockHash endpointID : string) (k : K)
    : result autherr SignedToken * K :=
  match SigningKey now kmsRnd tenantID k with
  | (Err e, k') => (Err (SigningKeyErr e), k')
  | (Ok (version, key), k') =>
      (if slen key <? 32 then Err (KeyTooWeak (slen key))
       else match nonceRnd with
       | None => Err NonceEntropy
       | Some nonce =>
           let c := mkClaims tenantID blockHash (Unix (now + ttl g)) version endpointID
                             (hex_encode nonce) in
           _ ← valid c;
           Ok (mkToken c (hex_encode (computeMAC key (message c))))
       end, k')
  end.

(** ** Wire format *)

(** A parsed URL: its path and its query values ([url.Values], first value per key). *)
Record URL := mkURL { urlBase : string; Path : string; Query : list (string * string) }.

(** [url.Values.Get]: the first value, or the empty string. *)
Fixpoint Get (q : list (string * string)) (k : string) : string :=
  match q with
  | [] => ""
  | (k', v) :: q' => if bool_decide (k' = k) then v else Get q' k
  end.

Definition tokenQuery (s : SignedToken) : list (string * string) :=
  let c := tokClaims s in
  [("tenant", uuid_String (TenantID c)); ("ts", format_int (ExpiryUnix c));
   ("kv", format_int (KeyVersion c)); ("ep", EndpointID c); ("nonce", NonceHex c);
   ("sig", SignatureHex s)].

Definition tokenURL (s : SignedToken) (base : string) : URL :=
  mkURL base ("/chunks/" +:+ BlockHash (tokClaims s)) (tokenQuery s).

Definition GeneratePreSignedURL (g : TokenGenerator) (now : Z) (kmsRnd nonceRnd : option string)
    (tenantID : uuid) (blockHash endpointID : string) (k : K) : result autherr URL * K :=
  let '(r, k') := SignClaims g now kmsRnd nonceRnd tenantID blockHash endpointID k in
  (claims ← r; Ok (tokenURL claims (baseURL g)), k').

(** The argument is what [url.Parse] returned ([None]: a parse error). *)
Definition ParsePreSignedURL (raw : option URL) : result autherr SignedToken :=
  u ← of_option raw (ErrMalformed "url parse");
  let q := Query u in
  let blockHash := if 8 <? slen (Path u) then str_drop 8 (Path u) else "" in
  tenant ← of_option (uuid_Parse (Get q "tenant")) (ErrMalformed "tenant id");
  ts ← of_option (parse_int (Get q "ts")) (ErrMalformed "timestamp");
  kv ← of_option (parse_int (Get q "kv")) (ErrMalformed "key version");
  let sig := Get q "sig" in
  _ ← require (negb (negb (slen sig =? 64) || negb (isLowerHex sig)))
              (ErrMalformed "signature encoding");
  let c := mkClaims tenant blockHash ts kv (Get q "ep") (Get q "nonce") in
  _ ← valid c;
  Ok (mkToken c sig).

(** ** Validation *)

(** Steps 1 and 2 of [Validate]: structure and freshness. *)
Definition checkFresh (g : TokenGenerator) (now : Z) (tok : SignedToken) : result autherr unit :=
  _ ← valid (tokClaims tok);
  _ ← require (negb (negb (slen (SignatureHex tok) =? 64) || negb (isLowerHex (SignatureHex tok))))
              (ErrMalformed "signature encoding");
  let nowU := Unix now in
  let exp := ExpiryUnix (tokClaims tok) in
  if int64 (exp + Seconds (skew g)) <? nowU then Err ErrExpired
  else if int64 (nowU + Seconds (ttl g + skew g)) <? exp then Err ErrTooFarInFuture
  else Ok tt.

(** Step 4: the MAC comparison. *)
Definition checkMAC (key : string) (tok : SignedToken) : result autherr unit :=
  let want := computeMAC key (message (tokClaims tok)) in
  got ← of_option (hex_decode (SignatureHex tok)) (ErrMalformed "signature decode");
  require (bool_decide (want = got)) ErrBadSignature.

(** Step 6: the optional ownership probe. *)
Definition checkOwner (g : TokenGenerator) (tok : SignedToken) : result autherr unit :=
  match ownership g with
  | None => Ok tt
  | Some probe =>
      match probe (TenantID (tokClaims tok)) (BlockHash (tokClaims tok)) with
      | Err e => Err (OwnershipProbe e)
      | Ok owns => require owns ErrNotTenantBlock
      end
  end.

Definition Validate (g : TokenGenerator) (now : Z) (kmsRnd : option string) (nw : net)
    (tok : SignedToken) (s : K * N) : result autherr unit * (K * N) :=
  match checkFresh g now tok with
  | Err e => (Err e, s)
  | Ok _ =>
      let c := tokClaims tok in
      match VerificationKey now kmsRnd (TenantID c) (KeyVersion c) s.1 with
      | (Err e, k') => (Err (VerificationKeyErr e), (k', s.2))
      | (Ok (key, active), k') =>
          if negb active then (Err (ErrUnknownKeyVer (KeyVersion c)), (k', s.2))
          else match checkMAC key tok with
          | Err e => (Err e, (k', s.2))
          | Ok _ =>
              match Consume nw now (NonceHex c) (ttl g + skew g) s.2 with
              | (Err e, n') => (Err (ErrNonceUnavailable e), (k', n'))
              | (Ok false, n') => (Err ErrReplay, (k', n'))
              | (Ok true, n') => (checkOwner g tok, (k', n'))
              end
          end
      end
  end.

Definition ValidateToken (g : TokenGenerator) (now : Z) (kmsRnd : option string) (nw : net)
    (tenantID : uuid) (blockHash signature : string) (timestamp keyVersion : Z)
    (endpointID nonceHex : string) (s : K * N) : result autherr unit * (K * N) :=
  Validate g now kmsRnd nw
    (mkToken (mkClaims tenantID blockHash timestamp keyVersion endpointID nonceHex) signature) s.

End ops.

(** ** StaticKMS *)

(** [SupersededAt = None] is the zero time. *)
Record KeyRecord := mkKey { Key : string; ActivatedAt : Z; SupersededAt : option Z }.

Definition Active (r : KeyRecord) (now : Z) : bool :=
  match SupersededAt r with None => true | Some t => now <? t + OverlapWindow end.

Record tenantKeys := mkTenantKeys { current : Z; versions : gmap Z KeyRecord }.

Record StaticKMS := mkKMS { tenants : gmap uuid tenantKeys; autoProvision : bool }.

Definition NewStaticKMS : StaticKMS := mkKMS ∅ false.
Definition EnableAutoProvision (s : StaticKMS) : StaticKMS := mkKMS (tenants s) true.

Definition Provision (now : Z) (tenantID : uuid) (version : Z) (key : string) (s : StaticKMS)
    : StaticKMS :=
  let vs := match tenants s !! tenantID with Some tk => versions tk | None => ∅ end in
  mkKMS (<[tenantID := mkTenantKeys version (<[version := mkKey key now None]> vs)]> (tenants s))
        (autoProvision s).

(** The lookup shared by both calls, with automatic provisioning of an unknown tenant. *)
Definition tenantOrProvision (now : Z) (rnd : option string) (tenantID : uuid) (s : StaticKMS)
    : result string tenantKeys * StaticKMS :=
  match tenants s !! tenantID with
  | Some tk => (Ok tk, s)
  | None =>
      if negb (autoProvision s) then (Err "no keys provisioned", s)
      else match rnd with
      | None => (Err "auto-provision key entropy", s)
      | Some raw =>
          let tk := mkTenantKeys 1 {[1 := mkKey raw now None]} in
          (Ok tk, mkKMS (<[tenantID := tk]> (tenants s)) (autoProvision s))
      end
  end.

(** A missing map entry reads as the zero record, whose key is empty. *)
Definition zeroKey : KeyRecord := mkKey "" 0 None.

Definition StaticSigningKey (now : Z) (rnd : option string) (tenantID : uuid) (s : StaticKMS)
    : result string (Z * string) * StaticKMS :=
  let '(r, s') := tenantOrProvision now rnd tenantID s in
  (tk ← r; Ok (current tk, Key (default zeroKey (versions tk !! current tk))), s').

Definition StaticVerificationKey (now : Z) (rnd : option string) (tenantID : uuid) (version : Z)
    (s : StaticKMS) : result string (string * bool) * StaticKMS :=
  let '(r, s') := tenantOrProvision now rnd tenantID s in
  (tk ← r;
   Ok match versions tk !! version with
      | Some rec => if Active rec now then (Key rec, true) else ("", false)
      | None => ("", false)
      end, s').

(** Go's [int] increment of the version wraps at 64 bits. *)
Definition Rotate (now : Z) (rnd : option string) (tenantID : uuid) (s : StaticKMS)
    : result string Z * StaticKMS :=
  match tenants s !! tenantID with
  | None => (Err "no keys provisioned", s)
  | Some tk =>
      match rnd with
      | None => (Err "rotate key entropy", s)
      | Some raw =>
          let old := default zeroKey (versions tk !! current tk) in
          let vs := <[current tk := mkKey (Key old) (ActivatedAt old) (Some now)]> (versions tk) in
          let cur := int64 (current tk + 1) in
          (Ok cur,
           mkKMS (<[tenantID := mkTenantKeys cur (<[cur := mkKey raw now None]> vs)]> (tenants s))
                 (autoProvision s))
      end
  end.

#[global] Instance StaticKMS_client : KMSClient StaticKMS := {|
  SigningKey := StaticSigningKey;
  VerificationKey := StaticVerificationKey
|}.

End auth.

(** ** Nonce stores *)

Definition nonceKey (nonce : string) : string :=
  nonceKeyPrefix +:+ hex_encode (sha256 (nonceKeyPrefix +:+ nonce)).

(** [RedisNonceStore.Consume]: [SET key 1 NX EX ttl]. *)
Definition RedisConsume `{Redis} (nw : net) (now : Z) (nonce : string) (ttl : Z) (r : redis)
    : result string bool * redis :=
  call nw (r_setnx now (nonceKey nonce) "1" ttl) r.

Record InMemoryNonceStore := mkMemNonce { seen : gmap string Z; maxSize : Z }.

Definition NewInMemoryNonceStore (maxEntries : Z) : InMemoryNonceStore :=
  mkMemNonce ∅ (if maxEntries <=? 0 then 2 ^ 20 else maxEntries).

Definition memConsume (_ : net) (now : Z) (nonce : string) (ttl : Z) (s : InMemoryNonceStore)
    : result string bool * InMemoryNonceStore :=
  let m := if maxSize s <=? Z.of_nat (size (seen s))
           then filter (fun kv => now < kv.2) (seen s) else seen s in
  match m !! nonce with
  | Some exp => if now <? exp then (Ok false, mkMemNonce m (maxSize s))
                else (Ok true, mkMemNonce (<[nonce := now + ttl]> m) (maxSize s))
  | None => (Ok true, mkMemNonce (<[nonce := now + ttl]> m) (maxSize s))
  end.

#[global] Instance memNonce_store : NonceStore InMemoryNonceStore := memConsume.
#[global] Instance redisNonce_store `{Redis} : NonceStore redis := RedisConsume.

(** ** What a nonce store promises

    [burnt t n s]: at time [t] the store [s] refuses the nonce [n]. *)
Class NonceLaws (N : Type) `{NonceStore N} := {
  burnt : Z -> string -> N -> Prop;
  burnt_consume nw now n d s s' t : 0 < d ->
    Consume nw now n d s = (Ok true, s') -> now <= t < now + d -> burnt t n s';
  burnt_reject nw now n d s : burnt now n s -> (Consume nw now n d s).1 <> Ok true;
  burnt_keep nw now n n' d s t : 0 < d -> now <= t ->
    burnt t n s -> burnt t n (Consume nw now n' d s).2
}.

Lemma memConsume_cases nw now n d s :
  exists m, (forall t k e, m !! k = Some e -> now <= t < e -> seen s !! k = Some e) /\
  (forall t k e, seen s !! k = Some e -> now <= t < e -> m !! k = Some e) /\
  ((exists e, m !! n = Some e /\ now < e /\ memConsume nw now n d s = (Ok false, mkMemNonce m (maxSize s)))
   \/ ((forall e, m !! n = Some e -> e <= now) /\
       memConsume nw now n d s = (Ok true, mkMemNonce (<[n := now + d]> m) (maxSize s)))).
Proof.
  unfold memConsume. set (m := if _ : bool then _ else _). exists m. split_and!.
  - intros t k e Hm _. subst m. case_match; [|done]. by apply map_lookup_filter_Some in Hm as [? _].
  - intros t k e Hm Ht. subst m. case_match; [|done]. apply map_lookup_filter_Some. simpl. split; [done|lia].
  - destruct (m !! n) as [e|] eqn:E; [|right; naive_solver].
    destruct (now <? e) eqn:F; bool_hyps; [left; eauto|right; split; [naive_solver|done]].
Qed.

#[global] Instance memNonce_laws : NonceLaws InMemoryNonceStore.
Proof.
  refine {| burnt t n s := exists e, seen s !! n = Some e /\ t < e |}.
  - intros nw now n d s s' t Hd H Ht.
    destruct (memConsume_cases nw now n d s) as (m & _ & _ & [(e & _ & _ & Hc)|[_ Hc]]);
      unfold Consume, memNonce_store in H; rewrite Hc in H; simplify_eq/=.
    exists (now + d). rewrite lookup_insert_eq. split; [done|lia].
  - intros nw now n d s (e & He & Ht) H.
    destruct (memConsume_cases nw now n d s) as (m & _ & Hk & [(e' & _ & _ & Hc)|[He' Hc]]);
      unfold Consume, memNonce_store in H; rewrite Hc in H; simplify_eq/=.
    specialize (He' e (Hk now n e He ltac:(lia))). lia.
  - intros nw now n n' d s t Hd Hle (e & He & Ht).
    destruct (memConsume_cases nw now n' d s) as (m & _ & Hk & [(e' & _ & _ & Hc)|[He' Hc]]);
      unfold Consume, memNonce_store; rewrite Hc; simpl;
      specialize (Hk t n e He ltac:(lia)); [eauto|].
    destruct (decide (n = n')) as [->|Hne]; [specialize (He' e Hk); lia|].
    exists e. by rewrite lookup_insert_ne.
Defined.

#[global] Instance redisNonce_laws `{Redis} : NonceLaws redis.
Proof.
  refine {| burnt t n r := is_Some (r_get t (nonceKey n) r) |}.
  - intros nw now n d s s' t Hd Hc Ht. unfold Consume, redisNonce_store, RedisConsume, call in Hc.
    destruct (r_get now (nonceKey n) s) as [w|] eqn:E.
    + destruct (r_setnx_taken now _ "1" d s w E) as (r' & Hr & _). rewrite Hr in Hc.
      by destruct nw; simplify_eq.
    + destruct (r_setnx_free now _ "1" d s Hd E) as (r' & Hr & Hg). rewrite Hr in Hc.
      destruct nw; simplify_eq. rewrite Hg by lia. rewrite decide_True by done.
      rewrite (proj2 (Z.ltb_lt _ _)) by lia. done.
  - intros nw now n d s [w E]. unfold Consume, redisNonce_store, RedisConsume, call.
    destruct (r_setnx_taken now _ "1" d s w E) as (r' & Hr & _). rewrite Hr. by destruct nw.
  - intros nw now n n' d s t Hd Hle [w Hw].
    assert (is_Some (r_get t (nonceKey n) (r_setnx now (nonceKey n') "1" d s).2)) as Hs.
    { destruct (r_get now (nonceKey n') s) as [w'|] eqn:E.
      - destruct (r_setnx_taken now _ "1" d s w' E) as (r' & Hr & Hg). rewrite Hr. simpl.
        rewrite Hg by done. by rewrite Hw.
      - destruct (r_setnx_free now _ "1" d s Hd E) as (r' & Hr & Hg). rewrite Hr. simpl.
        rewrite Hg by done. case_decide as Hk; [|by rewrite Hw].
        rewrite Hk in Hw. apply (r_get_expires now t) in Hw; [congruence|done]. }
    unfold Consume, redisNonce_store, RedisConsume, call.
    destruct nw; simpl in *; [|by rewrite Hw|done].
    by destruct (r_setnx now (nonceKey n') "1" d s).
Defined.

(** ** Lemmas on claims and validation *)

Section lemmas.
Context `{U : UUID}.

Lemma lower_hex_no_colon s : isLowerHex s = true -> str_forall no_colon s = true.
Proof.
  apply str_forall_impl. intros c. unfold no_colon.
  case_bool_decide; [subst; by vm_compute | done].
Qed.

Lemma endpoint_no_colon s : isEndpointSafe s = true -> str_forall no_colon s = true.
Proof.
  apply str_forall_impl. intros c. unfold no_colon.
  case_bool_decide; [subst; by vm_compute | done].
Qed.

Lemma uuid_no_colon u : str_forall no_colon (uuid_String u) = true.
Proof.
  eapply str_forall_impl, uuid_String_chars. intros c Hc. unfold no_colon.
  destruct (decide (c = ":"%char)) as [->|Hne]; [done | by rewrite bool_decide_false].
Qed.

Lemma valid_ok c : valid c = Ok tt <->
  slen (BlockHash c) = 64 /\ isLowerHex (BlockHash c) = true /\
  EndpointID c <> "" /\ slen (EndpointID c) <= 64 /\ isEndpointSafe (EndpointID c) = true /\
  1 <= KeyVersion c <= 1000000 /\ slen (NonceHex c) = 32 /\ isLowerHex (NonceHex c) = true.
Proof.
  unfold valid. change (NonceSize * 2) with 32. split.
  - intros H. repeat (case_match; try discriminate). bool_hyps. repeat split; try done; lia.
  - intros (H1 & H2 & H3 & H4 & H5 & H6 & H7 & H8).
    rewrite bool_decide_false by (intros E; rewrite E in H1; discriminate H1).
    rewrite H1, H2, H5, H7, H8, (bool_decide_false (EndpointID c = "")) by done. simpl.
    rewrite (proj2 (Z.ltb_ge 64 _)), (proj2 (Z.ltb_ge _ 1)), (proj2 (Z.ltb_ge 1000000 _)) by lia.
    done.
Qed.

Lemma signature_shape key msg :
  slen (hex_encode (computeMAC key msg)) = 64 /\
  isLowerHex (hex_encode (computeMAC key msg)) = true.
Proof.
  split; [|apply hex_encode_lower]. unfold slen.
  by rewrite length_hex_encode, length_hmac_sha256.
Qed.

Lemma checkMAC_ok key tok :
  isLowerHex (SignatureHex tok) = true -> slen (SignatureHex tok) = 64 ->
  checkMAC key tok = Ok tt <->
  SignatureHex tok = hex_encode (computeMAC key (message (tokClaims tok))).
Proof.
  intros Hl Hn. unfold checkMAC. split.
  - intros H. inv_result. bool_hyps. subst.
    destruct (hex_encode_decode (SignatureHex tok)) as (b & Hb & Hb'); [done| |].
    { exists 32%nat. unfold slen in Hn. lia. }
    congruence.
  - intros ->. rewrite hex_decode_encode. simpl. by rewrite bool_decide_true.
Qed.

Lemma checkFresh_ok g now tok : checkFresh g now tok = Ok tt <->
  valid (tokClaims tok) = Ok tt /\
  slen (SignatureHex tok) = 64 /\ isLowerHex (SignatureHex tok) = true /\
  Unix now <= int64 (ExpiryUnix (tokClaims tok) + Seconds (skew g)) /\
  ExpiryUnix (tokClaims tok) <= int64 (Unix now + Seconds (ttl g + skew g)).
Proof.
  unfold checkFresh. split.
  - intros H. inv_result. case_match; [done|]. case_match; [done|]. bool_hyps.
    split_and!; try done; lia.
  - intros (-> & H1 & H2 & H3 & H4). simpl. rewrite H1, H2. simpl.
    by rewrite (proj2 (Z.ltb_ge _ _) H3), (proj2 (Z.ltb_ge _ _) H4).
Qed.

Lemma tokenQuery_Get s :
  Get (tokenQuery s) "tenant" = uuid_String (TenantID (tokClaims s)) /\
  Get (tokenQuery s) "ts" = format_int (ExpiryUnix (tokClaims s)) /\
  Get (tokenQuery s) "kv" = format_int (KeyVersion (tokClaims s)) /\
  Get (tokenQuery s) "sig" = SignatureHex s /\
  Get (tokenQuery s) "ep" = EndpointID (tokClaims s) /\
  Get (tokenQuery s) "nonce" = NonceHex (tokClaims s).
Proof. done. Qed.

Lemma tokenPath h :
  0 < slen h ->
  (if 8 <? slen ("/chunks/" +:+ h) then str_drop 8 ("/chunks/" +:+ h) else "") = h.
Proof.
  intros Hh. rewrite (proj2 (Z.ltb_lt 8 (slen ("/chunks/" +:+ h)))); [done|].
  unfold slen in *. rewrite length_append. simpl. lia.
Qed.

Section validate.
Context {K N : Type} `{KMS : KMSClient K} `{NL : NonceLaws N}.

(** Everything an accepted token passed. *)
Lemma Validate_ok_inv g now rnd nw tok (s s' : K * N) :
  Validate g now rnd nw tok s = (Ok tt, s') ->
  exists key, checkFresh g now tok = Ok tt /\
    VerificationKey now rnd (TenantID (tokClaims tok)) (KeyVersion (tokClaims tok)) s.1
      = (Ok (key, true), s'.1) /\
    checkMAC key tok = Ok tt /\
    Consume nw now (NonceHex (tokClaims tok)) (ttl g + skew g) s.2 = (Ok true, s'.2) /\
    checkOwner g tok = Ok tt.
Proof.
  unfold Validate. intros Hv.
  destruct (checkFresh g now tok) as [[]|e]; [|done].
  destruct (VerificationKey _ _ _ _ _) as [[[key active]|e] k']; [|done].
  destruct active; simpl in Hv; [|done].
  destruct (checkMAC key tok) as [[]|e] eqn:EM; [|done].
  destruct (Consume _ _ _ _ _) as [[[]|e] n']; try done.
  simplify_eq. exists key. split_and!; done.
Qed.

Lemma Validate_accepts g now rnd nw tok (s : K * N) key k' n' :
  checkFresh g now tok = Ok tt ->
  VerificationKey now rnd (TenantID (tokClaims tok)) (KeyVersion (tokClaims tok)) s.1
      = (Ok (key, true), k') ->
  checkMAC key tok = Ok tt ->
  Consume nw now (NonceHex (tokClaims tok)) (ttl g + skew g) s.2 = (Ok true, n') ->
  Validate g now rnd nw tok s = (checkOwner g tok, (k', n')).
Proof. intros H1 H2 H3 H4. unfold Validate. by rewrite H1, H2; simpl; rewrite H3, H4. Qed.

(** A validation either leaves the nonce store alone or consumes its own nonce. *)
Lemma Validate_nonce_effect g now rnd nw tok (s : K * N) :
  (Validate g now rnd nw tok s).2.2 = s.2 \/
  (Validate g now rnd nw tok s).2.2
    = (Consume nw now (NonceHex (tokClaims tok)) (ttl g + skew g) s.2).2.
Proof.
  unfold Validate. destruct (checkFresh g now tok); [|by left].
  destruct (VerificationKey _ _ _ _ _) as [[[key active]|e] k']; [|by left].
  destruct active; simpl; [|by left].
  destruct (checkMAC key tok); [|by left]. right.
  by destruct (Consume _ _ _ _ _) as [[[]|e] n'].
Qed.

(** One validation request: clock, entropy, network outcome and token. *)
Record vreq := mkReq { rqNow : Z; rqRnd : option string; rqNet : net; rqTok : SignedToken }.

Definition step_req (g : TokenGenerator) (s : K * N) (r : vreq) : K * N :=
  (Validate g (rqNow r) (rqRnd r) (rqNet r) (rqTok r) s).2.

Definition run_reqs (g : TokenGenerator) (rs : list vreq) (s : K * N) : K * N :=
  foldl (step_req g) s rs.

Lemma run_reqs_burnt g rs (s : K * N) t n :
  0 < ttl g + skew g -> Forall (fun r => rqNow r <= t) rs ->
  burnt t n s.2 -> burnt t n (run_reqs g rs s).2.
Proof.
  intros Hd. revert s. induction rs as [|r rs IH]; intros s Ht Hb; [done|].
  apply Forall_cons in Ht as [Hr Ht]. simpl. apply IH; [done|]. unfold step_req.
  destruct (Validate_nonce_effect g (rqNow r) (rqRnd r) (rqNet r) (rqTok r) s) as [-> | ->];
    [done | by apply burnt_keep].
Qed.

End validate.
End lemmas.

(** ** StaticKMS: life of a key version *)

Section kms.
Context `{U : UUID}.

Inductive kmsOp :=
| OpProvision (now : Z) (u : uuid) (v : Z) (key : string)
| OpRotate (now : Z) (rnd : option string) (u : uuid)
| OpSign (now : Z) (rnd : option string) (u : uuid)
| OpVerify (now : Z) (rnd : option string) (u : uuid) (v : Z).

Definition opTime (o : kmsOp) : Z :=
  match o with
  | OpProvision t _ _ _ | OpRotate t _ _ | OpSign t _ _ | OpVerify t _ _ _ => t
  end.

Definition kmsStep (s : StaticKMS) (o : kmsOp) : StaticKMS :=
  match o with
  | OpProvision now u v key => Provision now u v key s
  | OpRotate now rnd u => (Rotate now rnd u s).2
  | OpSign now rnd u => (StaticSigningKey now rnd u s).2
  | OpVerify now rnd u v => (StaticVerificationKey now rnd u v s).2
  end.

Definition kmsRun (s : StaticKMS) (ops : list kmsOp) : StaticKMS := foldl kmsStep s ops.

(** The current version of every tenant is not superseded. *)
Definition kms_wf (s : StaticKMS) : Prop :=
  forall u tk rec, tenants s !! u = Some tk -> versions tk !! current tk = Some rec ->
    SupersededAt rec = None.

Lemma tenantOrProvision_state now rnd u s :
  (tenantOrProvision now rnd u s).2 = s \/
  tenants s !! u = None /\ exists raw, (tenantOrProvision now rnd u s).2
    = mkKMS (<[u := mkTenantKeys 1 {[1 := mkKey raw now None]}]> (tenants s)) (autoProvision s).
Proof.
  unfold tenantOrProvision. destruct (tenants s !! u) as [tk|] eqn:E; [by left|].
  destruct (negb _); [by left|]. destruct rnd; [right; eauto | by left].
Qed.

Lemma StaticSigningKey_state now rnd u s :
  (StaticSigningKey now rnd u s).2 = (tenantOrProvision now rnd u s).2.
Proof. unfold StaticSigningKey. by destruct (tenantOrProvision now rnd u s). Qed.

Lemma StaticVerificationKey_state now rnd u v s :
  (StaticVerificationKey now rnd u v s).2 = (tenantOrProvision now rnd u s).2.
Proof. unfold StaticVerificationKey. by destruct (tenantOrProvision now rnd u s). Qed.

Lemma kms_wf_insert s u tk b :
  kms_wf s -> (forall rec, versions tk !! current tk = Some rec -> SupersededAt rec = None) ->
  kms_wf (mkKMS (<[u := tk]> (tenants s)) b).
Proof.
  intros Hs Hu u' tk' rec. simpl. destruct (decide (u = u')) as [<-|Hne].
  - rewrite lookup_insert_eq. intros [= <-]. apply Hu.
  - rewrite lookup_insert_ne by done. apply Hs.
Qed.

Lemma kms_wf_step s o : kms_wf s -> kms_wf (kmsStep s o).
Proof.
  intros Hs. assert (forall now rnd u, kms_wf (tenantOrProvision now rnd u s).2) as Ht.
  { intros now rnd u. destruct (tenantOrProvision_state now rnd u s) as [->|[_ [raw ->]]]; [done|].
    apply kms_wf_insert; [done|]. simpl. intros rec. rewrite lookup_singleton_eq. by intros [= <-]. }
  destruct o as [now u v key|now rnd u|now rnd u|now rnd u v]; simpl.
  - apply kms_wf_insert; [done|]. simpl. intros rec. rewrite lookup_insert_eq. by intros [= <-].
  - unfold Rotate. destruct (tenants s !! u) as [tk|] eqn:E; [|done].
    destruct rnd as [raw|]; [|done]. apply kms_wf_insert; [done|]. simpl. intros rec.
    rewrite lookup_insert_eq. by intros [= <-].
  - by rewrite StaticSigningKey_state.
  - by rewrite StaticVerificationKey_state.
Qed.

(** Version [v] of [u] holds [key], is not newer than the current version, and if it was
    superseded, then not before [t0]. *)
Definition keyAlive (t0 : Z) (u : uuid) (v : Z) (key : string) (b : Z) (s : StaticKMS) : Prop :=
  exists tk rec, tenants s !! u = Some tk /\ versions tk !! v = Some rec /\ Key rec = key /\
    v <= current tk <= b /\ (forall st, SupersededAt rec = Some st -> t0 <= st).

Lemma keyAlive_step t0 u v key b s o :
  (forall now u' v' k, o = OpProvision now u' v' k -> u' <> u) -> t0 <= opTime o ->
  1 <= v -> b < maxInt64 -> keyAlive t0 u v key b s -> keyAlive t0 u v key (b + 1) (kmsStep s o).
Proof.
  intros Hp Ht Hv Hb (tk & rec & E & Er & Hk & Hc & Hs).
  assert (keyAlive t0 u v key (b + 1) s) as Hkeep by (exists tk, rec; split_and!; try done; lia).
  assert (forall now rnd u', keyAlive t0 u v key (b + 1) (tenantOrProvision now rnd u' s).2) as Htp.
  { intros now rnd u'. destruct (tenantOrProvision_state now rnd u' s) as [->|[Hn [raw ->]]]; [done|].
    exists tk, rec. simpl. rewrite lookup_insert_ne by congruence. split_and!; try done; lia. }
  destruct o as [now u' v' k'|now rnd u'|now rnd u'|now rnd u' v']; simpl in *.
  - specialize (Hp now u' v' k' eq_refl). exists tk, rec. simpl.
    rewrite lookup_insert_ne by done. split_and!; try done; lia.
  - unfold Rotate. destruct (tenants s !! u') as [tk'|] eqn:E'; [|done].
    destruct rnd as [raw|]; [|done]. simpl.
    destruct (decide (u' = u)) as [->|Hne].
    + rewrite E in E'. injection E' as <-.
      assert (int64 (current tk + 1) = current tk + 1) as Hi.
      { apply int64_id. unfold is_int64, maxInt64, minInt64 in *. lia. }
      unfold keyAlive. simpl. rewrite Hi, lookup_insert_eq.
      eexists. destruct (decide (v = current tk)) as [Hvc|Hvc].
      * exists (mkKey (Key rec) (ActivatedAt rec) (Some now)). split; [reflexivity|]. simpl.
        rewrite lookup_insert_ne by lia. rewrite <- Hvc, lookup_insert_eq, Er. simpl.
        split_and!; try done; try lia. by intros st [= <-].
      * exists rec. split; [reflexivity|]. simpl.
        rewrite !lookup_insert_ne by lia. split_and!; try done; lia.
    + exists tk, rec. simpl. rewrite lookup_insert_ne by done. split_and!; try done; lia.
  - by rewrite StaticSigningKey_state.
  - by rewrite StaticVerificationKey_state.
Qed.

(** No explicit re-provisioning of [u] in [ops]. *)
Definition noProvision (u : uuid) (ops : list kmsOp) : Prop :=
  Forall (fun o => match o with OpProvision _ u' _ _ => u' <> u | _ => True end) ops.

Lemma keyAlive_run t0 u v key b s ops :
  noProvision u ops -> Forall (fun o => t0 <= opTime o) ops -> 1 <= v ->
  b + zlen ops <= maxInt64 -> keyAlive t0 u v key b s ->
  keyAlive t0 u v key (b + zlen ops) (kmsRun s ops).
Proof.
  revert b s. induction ops as [|o ops IH]; intros b s Hp Ht Hv Hb Hk.
  - change (zlen []) with 0. by rewrite Z.add_0_r.
  - apply Forall_cons in Hp as [Ho Hp]. apply Forall_cons in Ht as [Hto Ht].
    assert (zlen (o :: ops) = 1 + zlen ops) as Hl by (unfold zlen; simpl; lia).
    pose proof (zlen_nonneg ops). rewrite Hl, Z.add_assoc in *.
    apply IH; try done.
    apply keyAlive_step; try done; [|lia]. intros now u' v' k ->. done.
Qed.

Lemma keyAlive_verifies t0 t rnd u v key b s :
  keyAlive t0 u v key b s -> t < t0 + OverlapWindow ->
  StaticVerificationKey t rnd u v s = (Ok (key, true), s).
Proof.
  intros (tk & rec & E & Er & Hk & _ & Hs) Ht. unfold StaticVerificationKey, tenantOrProvision.
  rewrite E. simpl. rewrite Er. unfold Active.
  destruct (SupersededAt rec) as [st|] eqn:Es; [|by subst].
  specialize (Hs st eq_refl). rewrite (proj2 (Z.ltb_lt _ _)) by lia. by subst.
Qed.

(** A signing key long enough to be used is alive from the moment it is handed out. *)
Lemma SigningKey_alive now rnd u s v key s' :
  kms_wf s -> StaticSigningKey now rnd u s = (Ok (v, key), s') -> 32 <= slen key ->
  keyAlive now u v key v s'.
Proof.
  intros Hwf H Hl.
  assert (exists tk, tenants s' !! u = Some tk /\ v = current tk /\
            key = Key (default zeroKey (versions tk !! current tk)) /\
            forall rec, versions tk !! current tk = Some rec -> SupersededAt rec = None)
    as (tk & Et & -> & -> & Hc).
  { revert H. unfold StaticSigningKey, tenantOrProvision.
    destruct (tenants s !! u) as [tk|] eqn:E.
    - intros H. simplify_eq/=. exists tk. split_and!; eauto.
    - destruct (negb _); [done|]. destruct rnd as [raw|]; [|done]. intros H. simplify_eq/=.
      eexists. rewrite lookup_insert_eq. split_and!; try done. simpl.
      intros rec. rewrite lookup_singleton_eq. by intros [= <-]. }
  destruct (versions tk !! current tk) as [rec|] eqn:Er; simpl in *; [|done].
  exists tk, rec. split_and!; try done; try lia. intros st Hst.
  by rewrite (Hc rec eq_refl) in Hst.
Qed.

End kms.

(** ** Properties *)

Section properties.
Context `{U : UUID}.

(** The signed message is unambiguous: two structurally valid claim sets with the same
    [message] are equal, so no field can take the place of a separator or of another
    field, and a signature binds tenant, block, expiry, key version, endpoint and nonce. *)
Theorem message_injective (c1 c2 : Claims)
    (H1 : valid c1 = Ok tt) (H2 : valid c2 = Ok tt) (Hm : message c1 = message c2) : c1 = c2.
Proof.
  apply valid_ok in H1 as (_ & B1 & _ & _ & E1 & _).
  apply valid_ok in H2 as (_ & B2 & _ & _ & E2 & _).
  unfold message, msgDomain in Hm. repeat (rewrite append_cons in Hm || rewrite append_nil_l in Hm).
  injection Hm as Hm.
  apply sep_join_inj in Hm as [Hv%(inj pretty) Hm]; [|apply int_no_colon..].
  apply sep_join_inj in Hm as [Hu%(f_equal uuid_Parse) Hm]; [|apply uuid_no_colon..].
  apply sep_join_inj in Hm as [Hb Hm]; [|by apply lower_hex_no_colon..].
  apply sep_join_inj in Hm as [He%(inj pretty) Hm]; [|apply int_no_colon..].
  apply sep_join_inj in Hm as [Hp Hm]; [|by apply endpoint_no_colon..].
  rewrite !uuid_Parse_String in Hu. destruct c1, c2; simpl in *. simplify_eq. done.
Qed.

(** C18. Soundness of [Validate] for every key client and nonce store: an accepted token
    is structurally valid, inside its freshness window, carries exactly the HMAC of its
    own message under the active key of its tenant and version, its nonce was consumed
    by this call, and the ownership probe (when installed) confirmed it. *)
Theorem Validate_sound {K N : Type} `{KMSClient K} `{NonceStore N} (g : TokenGenerator)
    (now : Z) (rnd : option string) (nw : net) (tok : SignedToken) (s s' : K * N)
    (Hv : Validate g now rnd nw tok s = (Ok tt, s')) :
  exists key, valid (tokClaims tok) = Ok tt /\
    Unix now <= int64 (ExpiryUnix (tokClaims tok) + Seconds (skew g)) /\
    ExpiryUnix (tokClaims tok) <= int64 (Unix now + Seconds (ttl g + skew g)) /\
    VerificationKey now rnd (TenantID (tokClaims tok)) (KeyVersion (tokClaims tok)) s.1
      = (Ok (key, true), s'.1) /\
    SignatureHex tok = hex_encode (hmac_sha256 key (message (tokClaims tok))) /\
    Consume nw now (NonceHex (tokClaims tok)) (ttl g + skew g) s.2 = (Ok true, s'.2) /\
    (forall probe, ownership g = Some probe ->
       probe (TenantID (tokClaims tok)) (BlockHash (tokClaims tok)) = Ok true).
Proof.
  apply Validate_ok_inv in Hv as (key & Hf & Hk & Hm & Hc & Ho).
  apply checkFresh_ok in Hf as (Hva & Hl & Hx & H1 & H2).
  apply checkMAC_ok in Hm; [|done|done].
  exists key. split_and!; try done.
  intros probe Hp. unfold checkOwner in Ho. rewrite Hp in Ho.
  destruct (probe _ _) as [[]|]; done.
Qed.

(** A request that does not carry the right MAC never burns a nonce: unless the token
    is fresh, its key version active and its signature correct, the nonce store after
    [Validate] is the one before. *)
Theorem Validate_bad_signature_keeps_nonces {K N : Type} `{KMSClient K} `{NonceStore N}
    (g : TokenGenerator) (now : Z) (rnd : option string) (nw : net) (tok : SignedToken) (s : K * N)
    (Hbad : forall key k', VerificationKey now rnd (TenantID (tokClaims tok))
                             (KeyVersion (tokClaims tok)) s.1 = (Ok (key, true), k') ->
              SignatureHex tok <> hex_encode (hmac_sha256 key (message (tokClaims tok)))) :
  (Validate g now rnd nw tok s).2.2 = s.2 /\ (Validate g now rnd nw tok s).1 <> Ok tt.
Proof.
  unfold Validate. destruct (checkFresh g now tok) as [[]|] eqn:Hf; [|done].
  apply checkFresh_ok in Hf as (_ & Hl & Hx & _).
  destruct (VerificationKey _ _ _ _ _) as [[[key []]|e] k']; simpl; try done.
  destruct (checkMAC key tok) as [[]|e] eqn:Hm; [|done].
  apply checkMAC_ok in Hm; [|done|done]. by destruct (Hbad key k' eq_refl).
Qed.

(** C10. Single use: once a nonce was accepted at [now0], no request carrying the same nonce
    is accepted at any [now1 < now0 + ttl + skew], whatever other validation requests run
    in between, for every store that satisfies the nonce-store laws (the in-memory store
    and Redis [SETNX] both do). *)
Theorem Validate_single_use {K N : Type} `{KMSClient K} `{NonceLaws N} (g : TokenGenerator)
    (now0 now1 : Z) (rnd0 rnd1 : option string) (nw0 nw1 : net) (tok0 tok1 : SignedToken)
    (rs : list vreq) (s0 s1 : K * N)
    (Hd : 0 < ttl g + skew g)
    (Hv : Validate g now0 rnd0 nw0 tok0 s0 = (Ok tt, s1))
    (Hn : NonceHex (tokClaims tok1) = NonceHex (tokClaims tok0))
    (Ht : now0 <= now1 < now0 + (ttl g + skew g))
    (Hrs : Forall (fun r => rqNow r <= now1) rs) :
  (Validate g now1 rnd1 nw1 tok1 (run_reqs g rs s1)).1 <> Ok tt.
Proof.
  apply Validate_ok_inv in Hv as (key & _ & _ & _ & Hc & _).
  apply (burnt_consume _ _ _ _ _ _ now1) in Hc; [|done|lia].
  apply (run_reqs_burnt g rs s1 now1) in Hc; [|done|done].
  intros Hok. destruct (Validate g now1 rnd1 nw1 tok1 (run_reqs g rs s1)) as [r s2] eqn:Hv1.
  simpl in Hok. subst r. apply Validate_ok_inv in Hv1 as (key1 & _ & _ & _ & Hc1 & _).
  rewrite Hn in Hc1. apply (burnt_reject nw1 now1 _ (ttl g + skew g)) in Hc.
  by rewrite Hc1 in Hc.
Qed.

(** C19. Signing and validating agree across key rotation: a token signed at [t0] with
    [StaticKMS] is accepted at any [t] of its validity window, after any sequence of
    rotations, signings and verifications (of any tenant) in between, provided the window
    is shorter than the seven-day overlap and the nonce store accepts the nonce.  (With a
    time to live that is not a whole number of seconds and a skew below one second, the
    rounding of [Unix] makes a fresh token look too far in the future.) *)
Theorem SignClaims_Validate {N : Type} `{NonceStore N} (g : TokenGenerator) (t0 t : Z)
    (rnd nonce rnd' : option string) (nw : net) (tenant : uuid) (hash ep : string)
    (k k1 : StaticKMS) (n n' : N) (tok : SignedToken) (ops : list kmsOp)
    (Hwf : kms_wf k)
    (Hsign : SignClaims g t0 rnd nonce tenant hash ep k = (Ok tok, k1))
    (Hg : 0 <= ttl g /\ 0 <= skew g /\ ttl g < OverlapWindow /\ ownership g = None)
    (Hskew : second <= skew g \/ ttl g mod second = 0)
    (Ht : t0 <= t <= t0 + ttl g)
    (Hbig : 0 <= t0 /\ t0 + 2 * ttl g + skew g < maxInt64)
    (Hops : noProvision tenant ops /\ Forall (fun o => t0 <= opTime o) ops /\ zlen ops < 2 ^ 62)
    (Hfresh : Consume nw t (NonceHex (tokClaims tok)) (ttl g + skew g) n = (Ok true, n')) :
  Validate g t rnd' nw tok (kmsRun k1 ops, n) = (Ok tt, (kmsRun k1 ops, n')).
Proof.
  destruct Hg as (Hg1 & Hg2 & Hg3 & Hown). unfold SignClaims in Hsign. simpl in Hsign.
  destruct (StaticSigningKey t0 rnd tenant k) as [[[v key]|e] k'] eqn:Hs; [|done].
  injection Hsign as Hsign ->. destruct (slen key <? 32) eqn:Hl; [done|]. bool_hyps.
  destruct nonce as [nb|]; [|done].
  destruct (valid _) as [[]|] eqn:Hva in Hsign; [|done]. simpl in Hsign. injection Hsign as <-.
  pose proof Hva as Hva'. apply valid_ok in Hva' as (_ & _ & _ & _ & _ & Hver & _). simpl in Hver.
  destruct (keyAlive_run t0 tenant v key v k1 ops) as (tk & rec & Hka);
    [tauto|tauto|lia|unfold maxInt64; lia|by eapply SigningKey_alive|].
  rewrite (Validate_accepts g t rnd' nw _ _ key (kmsRun k1 ops) n'); [| | | |done].
  - unfold checkOwner. by rewrite Hown.
  - apply checkFresh_ok. destruct (signature_shape key (message (mkClaims tenant hash
      (Unix (t0 + ttl g)) v ep (hex_encode nb)))) as [S1 S2].
    split_and!; try done; simpl; unfold Unix, Seconds, second in *;
      rewrite Z.quot_div_nonneg by lia;
      rewrite int64_id by (unfold is_int64, minInt64, maxInt64 in *;
        Z.div_mod_to_equations; lia); Z.div_mod_to_equations; lia.
  - apply (keyAlive_verifies t0 t _ _ _ _ (v + zlen ops)); [by exists tk, rec | lia].
  - by apply checkMAC_ok; apply signature_shape || done.
Qed.

(** The wire format loses nothing: the path and query of a token that [SignClaims]
    issued parse back to the same token. *)
Lemma ParsePreSignedURL_tokenURL {K : Type} `{KMSClient K} (g : TokenGenerator) (now : Z)
    (rnd nonce : option string) (tenant : uuid) (hash ep base : string) (k k' : K)
    (tok : SignedToken)
    (Hsign : SignClaims g now rnd nonce tenant hash ep k = (Ok tok, k'))
    (Hnow : is_int64 (Unix (now + ttl g))) :
  ParsePreSignedURL (Some (tokenURL tok base)) = Ok tok.
Proof.
  unfold SignClaims in Hsign.
  destruct (SigningKey now rnd tenant k) as [[[v key]|e] k0]; [|done].
  injection Hsign as Hsign ->. destruct (slen key <? 32); [done|].
  destruct nonce as [nb|]; [|done].
  destruct (valid _) as [[]|] eqn:Hva in Hsign; [|done]. simpl in Hsign. injection Hsign as <-.
  pose proof Hva as (Hb & _ & _ & _ & _ & Hver & _)%valid_ok. simpl in Hb, Hver.
  set (c := mkClaims tenant hash (Unix (now + ttl g)) v ep (hex_encode nb)) in *.
  destruct (signature_shape key (message c)) as [S1 S2].
  unfold ParsePreSignedURL, tokenURL. cbn [of_option Query Path tokClaims mbind result_bind].
  rewrite tokenPath by (simpl; lia). destruct (tokenQuery_Get (mkToken c (hex_encode
    (computeMAC key (message c))))) as (-> & -> & -> & -> & -> & ->).
  cbn [tokClaims TenantID ExpiryUnix KeyVersion EndpointID NonceHex SignatureHex c].
  rewrite uuid_Parse_String. cbn [of_option mbind result_bind].
  rewrite !parse_format_int by (unfold is_int64, minInt64, maxInt64 in *; lia).
  cbn [of_option mbind result_bind]. rewrite S1, S2. cbn [negb orb Z.eqb Pos.eqb require].
  fold c. cbn [BlockHash tokClaims c]. fold c. by rewrite Hva.
Qed.

End properties.

(** ** Witnesses: a sixteen-byte UUID, a provisioned key and the in-memory nonce store *)

Definition demoTenant : uuid := uuid_nil.
Definition demoKey : string := "0123456789abcdef0123456789abcdef".
Definition demoHash : string := "00112233445566778899aabbccddeeff00112233445566778899aabbccddeeff".
Definition demoKMS : StaticKMS := Provision 0 demoTenant 1 demoKey NewStaticKMS.
Definition demoClaims : Claims := mkClaims demoTenant demoHash 900 1 "edge-1" (hex_encode "noncenoncenonce!").
Definition demoToken : SignedToken :=
  mkToken demoClaims (hex_encode (computeMAC demoKey (message demoClaims))).
Definition demoNonces : InMemoryNonceStore := NewInMemoryNonceStore 0.

Lemma demoClaims_valid : valid demoClaims = Ok tt.
Proof. reflexivity. Qed.

Lemma demo_sign :
  SignClaims NewTokenGenerator 0 None (Some "noncenoncenonce!") demoTenant demoHash "edge-1" demoKMS
  = (Ok demoToken, demoKMS).
Proof. reflexivity. Qed.

(** The demo token is accepted whenever it is fresh and the store takes its nonce. *)
Lemma demo_accept now nw (n n' : InMemoryNonceStore) :
  0 <= now < 961 * second ->
  Consume nw now (NonceHex demoClaims) (DefaultTokenTTL + DefaultClockSkew) n = (Ok true, n') ->
  Validate NewTokenGenerator now None nw demoToken (demoKMS, n) = (Ok tt, (demoKMS, n')).
Proof.
  intros Hn Hc. rewrite (Validate_accepts NewTokenGenerator now None nw demoToken _ demoKey demoKMS n');
    [reflexivity| | | |exact Hc].
  - apply checkFresh_ok. destruct (signature_shape demoKey (message demoClaims)) as [S1 S2].
    split; [exact demoClaims_valid|]. split; [exact S1|]. split; [exact S2|].
    change (ExpiryUnix (tokClaims demoToken)) with 900.
    change (Seconds (skew NewTokenGenerator)) with 60.
    change (Seconds (ttl NewTokenGenerator + skew NewTokenGenerator)) with 960.
    clear S1 S2 Hc. unfold Unix, second in *. rewrite !int64_id;
      unfold is_int64, minInt64, maxInt64; Z.div_mod_to_equations; lia.
  - reflexivity.
  - destruct (signature_shape demoKey (message demoClaims)) as [S1 S2].
    apply checkMAC_ok; [exact S2 | exact S1 | reflexivity].
Qed.

Lemma message_injective_witness : demoClaims = demoClaims.
Proof. apply (message_injective demoClaims demoClaims); reflexivity. Defined.

Lemma Validate_sound_witness :
  exists key, SignatureHex demoToken = hex_encode (hmac_sha256 key (message demoClaims)).
Proof.
  destruct (Validate_sound NewTokenGenerator 1 None NetOk demoToken (demoKMS, demoNonces)
              (demoKMS, (memConsume NetOk 1 (NonceHex demoClaims) (960 * second) demoNonces).2))
    as (key & _ & _ & _ & _ & H & _).
  - apply demo_accept; [unfold second; lia | reflexivity].
  - exists key. exact H.
Defined.

Lemma Validate_bad_signature_keeps_nonces_witness :
  let tok := mkToken demoClaims "junk" in
  (Validate NewTokenGenerator 1 None NetOk tok (demoKMS, demoNonces)).2.2 = demoNonces /\
  (Validate NewTokenGenerator 1 None NetOk tok (demoKMS, demoNonces)).1 <> Ok tt.
Proof.
  intros tok. apply (Validate_bad_signature_keeps_nonces NewTokenGenerator 1 None NetOk tok
                       (demoKMS, demoNonces)).
  intros key k' _ H. pose proof (proj1 (signature_shape key (message demoClaims))) as Hs.
  unfold computeMAC in Hs. simpl in H. rewrite <- H in Hs. discriminate Hs.
Defined.

Lemma Validate_single_use_witness :
  (Validate NewTokenGenerator (5 * second) None NetOk demoToken
     (run_reqs NewTokenGenerator [mkReq (2 * second) None NetOk demoToken]
       (demoKMS, (memConsume NetOk 1 (NonceHex demoClaims) (960 * second) demoNonces).2))).1 <> Ok tt.
Proof.
  apply (Validate_single_use NewTokenGenerator 1 (5 * second) None None NetOk NetOk demoToken demoToken
    [mkReq (2 * second) None NetOk demoToken] (demoKMS, demoNonces)
    (demoKMS, (memConsume NetOk 1 (NonceHex demoClaims) (960 * second) demoNonces).2)).
  - reflexivity.
  - apply demo_accept; [unfold second; lia | reflexivity].
  - reflexivity.
  - vm_compute. split; [discriminate|reflexivity].
  - constructor; [vm_compute; discriminate | constructor].
Defined.

Lemma SignClaims_Validate_witness :
  let ops := [OpRotate (3 * second) (Some demoHash) demoTenant;
              OpVerify (4 * second) None demoTenant 1] in
  Validate NewTokenGenerator (800 * second) None NetOk demoToken (kmsRun demoKMS ops, demoNonces)
  = (Ok tt, (kmsRun demoKMS ops,
       (memConsume NetOk (800 * second) (NonceHex demoClaims) (960 * second) demoNonces).2)).
Proof.
  intros ops. apply (SignClaims_Validate NewTokenGenerator 0 (800 * second) None
    (Some "noncenoncenonce!") None NetOk demoTenant demoHash "edge-1" demoKMS demoKMS demoNonces
    (memConsume NetOk (800 * second) (NonceHex demoClaims) (960 * second) demoNonces).2 demoToken ops).
  - intros u tk rec. unfold demoKMS, Provision. simpl. destruct (decide (demoTenant = u)) as [<-|Hne].
    + rewrite lookup_insert_eq. intros [= <-]. simpl. rewrite lookup_insert_eq. by intros [= <-].
    + rewrite lookup_insert_ne by done. rewrite lookup_empty. done.
  - apply demo_sign.
  - vm_compute. repeat split; discriminate.
  - left. vm_compute. discriminate.
  - vm_compute. split; discriminate.
  - vm_compute. split; [discriminate|reflexivity].
  - repeat constructor; vm_compute; discriminate.
  - reflexivity.
Defined.

(** The single-use window ends before the token does: the nonce of a token signed and
    used at time 0 is forgotten after [ttl + skew], but freshness is tested in whole
    seconds, so for the rest of that second the same token is accepted again. *)
Theorem Validate_replay_after_nonce_expiry (frac : Z) (Hfrac : 0 <= frac < second) :
  let accept now s s' := Validate NewTokenGenerator now None NetOk demoToken s = (Ok tt, s') in
  exists s1 s2, accept 0 (demoKMS, demoNonces) s1 /\ accept (960 * second + frac) s1 s2.
Proof.
  set (n1 := (memConsume NetOk 0 (NonceHex demoClaims) (960 * second) demoNonces).2).
  destruct (memConsume_cases NetOk (960 * second + frac) (NonceHex demoClaims)
    (DefaultTokenTTL + DefaultClockSkew) n1) as (m & Hm & _ & Hcase).
  assert (0 <= 0 < 961 * second) as H0 by (unfold second; lia).
  assert (0 <= 960 * second + frac < 961 * second) as H1 by (unfold second in *; lia).
  exists (demoKMS, n1). destruct Hcase as [(e & He & Hlt & _)|[_ Hc]].
  - assert (seen n1 !! NonceHex demoClaims = Some e) as Hs
      by (apply (Hm (960 * second + frac)); [done|lia]).
    vm_compute in Hs. injection Hs as <-. unfold second in *. lia.
  - eexists. split; [by apply demo_accept | by apply demo_accept].
Qed.

Lemma Validate_replay_after_nonce_expiry_witness :
  exists s1 s2, Validate NewTokenGenerator 0 None NetOk demoToken (demoKMS, demoNonces) = (Ok tt, s1) /\
    Validate NewTokenGenerator (960 * second + 5) None NetOk demoToken s1 = (Ok tt, s2).
Proof. apply (Validate_replay_after_nonce_expiry 5). vm_compute. split; [discriminate|reflexivity]. Defined.
