(* ===== verification/Database.v ===== *)
(** * internal/database: the pooled, failover-aware database client

    [failover.go] (circuit breaker, replica routing, one health probe), [client.go]
    (connection acquisition, routed queries, instrumented writes, transactions),
    [config.go] (defaults) and the wait reservoir of [metrics.go].

    The client runs against a [world]: the database contents (of any type [D]), the
    clock, the client's atomics, and a schedule.  Every statement takes the next [slot]
    of the schedule: how much time passes, what other clients commit just before it,
    and whether acquiring the connection or the statement itself fails.  An empty
    schedule is the undisturbed, fault-free run. *)
From stdpp Require Import sorting.
From S2P Require Import Prelude.

(** ** Errors: a chain of causes, outermost first, as [errors.Is] and [errors.As] walk it *)

Inductive errnode :=
| EPoolTimeout
| EPrimaryUnavailable
| EUnknownClass (class : string)
| EPg (code : string)
| ENet (timeout : bool)
| EDeadline
| ECanceled
| ERefused
| EConnect
| ENoRows
| EOther (msg : string).

#[global] Instance errnode_eq_dec : EqDecision errnode.
Proof. solve_decision. Defined.

Definition dberr := list errnode.

Definition errIs (e : dberr) (n : errnode) : bool := bool_decide (n ∈ e).

Fixpoint firstSome {A B} (f : A -> option B) (l : list A) : option B :=
  match l with
  | [] => None
  | a :: l' => match f a with Some b => Some b | None => firstSome f l' end
  end.

Definition asPg (n : errnode) : option string := match n with EPg c => Some c | _ => None end.

(** The nodes that have a [Timeout() bool] method: network errors, the deadline error and
    [syscall.Errno], whose [Timeout] is false for [ECONNREFUSED]. *)
Definition asTimeout (n : errnode) : option bool :=
  match n with ENet b => Some b | EDeadline => Some true | ERefused => Some false | _ => None end.

(** The platform's constant: [errors_unix.go] and [errors_windows.go] name the same error. *)
Definition syscallECONNREFUSED : errnode := ERefused.

Definition isTransportErr (err : dberr) : bool :=
  if errIs err EPoolTimeout || errIs err EPrimaryUnavailable then true
  else match firstSome asPg err with
  | Some code => bool_decide (code ∈ ["53300"; "57P01"; "57P02"; "57P03"])
  | None =>
      match firstSome asTimeout err with
      | Some b => b
      | None =>
          if errIs err EDeadline || errIs err syscallECONNREFUSED then true
          else errIs err EConnect
      end
  end.

(** ** Circuit breaker *)

Inductive breakerState := breakerClosed | breakerOpen | breakerHalfOpen.

#[global] Instance breakerState_eq_dec : EqDecision breakerState.
Proof. solve_decision. Defined.

Definition breakerString (s : breakerState) : string :=
  match s with
  | breakerOpen => "open"
  | breakerHalfOpen => "half-open"
  | breakerClosed => "closed"
  end.

Definition breakerFailureThreshold : Z := 3.
Definition breakerCooldown : Z := 2000000000.

Record CircuitBreaker := mkBreaker {
  bState : breakerState;
  failures : Z;
  openedAt : Z;
  probing : bool
}.

(** [State]. *)
Definition breakerStateText (cb : CircuitBreaker) : string := breakerString (bState cb).

Definition newCircuitBreaker : CircuitBreaker := mkBreaker breakerClosed 0 0 false.

Definition Allow (now : Z) (cb : CircuitBreaker) : bool * CircuitBreaker :=
  match bState cb with
  | breakerClosed => (true, cb)
  | breakerOpen =>
      if now - openedAt cb <? breakerCooldown then (false, cb)
      else if negb (probing cb)
      then (true, mkBreaker breakerHalfOpen (failures cb) (openedAt cb) true)
      else (false, cb)
  | breakerHalfOpen => (false, cb)
  end.

Definition RecordSuccess (cb : CircuitBreaker) : CircuitBreaker :=
  mkBreaker breakerClosed 0 (openedAt cb) false.

Definition RecordFailure (now : Z) (cb : CircuitBreaker) : CircuitBreaker :=
  let n := wrapS 32 (failures cb + 1) in
  if (breakerFailureThreshold <=? n) && bool_decide (bState cb = breakerClosed)
  then mkBreaker breakerOpen n now (probing cb)
  else mkBreaker (bState cb) n (openedAt cb) (probing cb).

(** ** Configuration *)

Definition DefaultSlowQueryThreshold : Z := 50 * 1000000.
Definition DefaultAcquireTimeout : Z := 250 * 1000000.
Definition DefaultHealthInterval : Z := 500 * 1000000.
Definition DefaultCacheTTL : Z := 5 * 60 * 1000000000.

Record DbConfig := mkDbConfig {
  PrimaryDSN : string;
  ReplicaDSNs : list string;
  MetadataDSN : string;
  MinConnsPerPool : Z;
  MaxConnsPerPool : Z;
  MaxTotalConns : Z;
  MaxConnLifetime : Z;
  MaxConnIdleTime : Z;
  AcquireTimeout : Z;
  HealthCheckInterval : Z;
  SlowQueryThreshold : Z;
  CacheEnabled : bool;
  CacheTTL : Z
}.

Definition dflt (v d : Z) : Z := if v <=? 0 then d else v.

(** [numCPU] is [runtime.NumCPU()]; the products are [int32]. *)
Definition applyDefaults (numCPU : Z) (c : DbConfig) : DbConfig :=
  let minC := dflt (MinConnsPerPool c) (wrapS 32 (numCPU * 2)) in
  let maxC := dflt (MaxConnsPerPool c) (wrapS 32 (numCPU * 4)) in
  mkDbConfig (PrimaryDSN c) (ReplicaDSNs c)
    (if bool_decide (MetadataDSN c = "") then PrimaryDSN c else MetadataDSN c)
    minC (if maxC <? minC then minC else maxC) (dflt (MaxTotalConns c) 96)
    (dflt (MaxConnLifetime c) (30 * 60 * 1000000000)) (dflt (MaxConnIdleTime c) (5 * 60 * 1000000000))
    (dflt (AcquireTimeout c) DefaultAcquireTimeout)
    (dflt (HealthCheckInterval c) DefaultHealthInterval)
    (dflt (SlowQueryThreshold c) DefaultSlowQueryThreshold)
    (CacheEnabled c) (dflt (CacheTTL c) DefaultCacheTTL).

(** The size [newPool] gives each pool under the global budget. *)
Definition poolMax (c : DbConfig) : Z :=
  let budget := Z.quot (MaxTotalConns c) 4 in
  if (budget <? MaxConnsPerPool c) && (MinConnsPerPool c <=? budget) then budget
  else MaxConnsPerPool c.

(** ** Wait reservoir *)

Record waitReservoir := mkRes { resBuf : list Z; resIdx : Z; resFull : bool }.

Definition resSize : Z := 1024.
Definition newReservoir : waitReservoir := mkRes (replicate 1024 0) 0 false.

Definition resAdd (d : Z) (r : waitReservoir) : waitReservoir :=
  let i := resIdx r in
  mkRes (<[Z.to_nat (i mod resSize) := d]> (resBuf r)) (uint64 (i + 1))
        (if resSize <=? uint64 (i + 1) then true else resFull r).

Definition p95 (r : waitReservoir) : option Z :=
  let n := if resFull r then resSize else resIdx r in
  if n =? 0 then None
  else
    let s := merge_sort Z.le (ztake n (resBuf r)) in
    s !! Z.to_nat ((n * 95 + 99) / 100 - 1).

(** ** The client *)

Section client.
Context {D : Type}.

Record slot := mkSlot {
  s_elapse : Z;
  s_before : D -> D;
  s_acquire : option dberr;
  s_fault : option dberr;
  s_lost : bool
}.

Definition quiet : slot := mkSlot 0 (fun d => d) None None false.

(** [gens = None] is a client without cache; otherwise the Redis generation counters. *)
Record world := mkWorld {
  contents : D;
  clock : Z;
  sched : list slot;
  breaker : CircuitBreaker;
  readRR : Z;
  readPools : Z;
  acquired : Z;
  released : Z;
  gens : option (gmap string Z)
}.

Inductive pool := PWrite | PMetadata | PAnalytical | PRead (i : Z).

Definition OpWrite : string := "write".
Definition OpRead : string := "read".
Definition OpMetadata : string := "metadata".
Definition OpAnalytical : string := "analytical".

Definition setBreaker (cb : CircuitBreaker) (w : world) : world :=
  mkWorld (contents w) (clock w) (sched w) cb (readRR w) (readPools w) (acquired w) (released w) (gens w).
Definition setContents (d : D) (w : world) : world :=
  mkWorld d (clock w) (sched w) (breaker w) (readRR w) (readPools w) (acquired w) (released w) (gens w).
Definition countAcquired (w : world) : world :=
  mkWorld (contents w) (clock w) (sched w) (breaker w) (readRR w) (readPools w) (acquired w + 1) (released w) (gens w).
Definition countReleased (w : world) : world :=
  mkWorld (contents w) (clock w) (sched w) (breaker w) (readRR w) (readPools w) (acquired w) (released w + 1) (gens w).

(** Take the next slot: time passes and other clients act. *)
Definition popSlot (w : world) : slot * world :=
  let '(s, rest) := match sched w with [] => (quiet, []) | s :: rest => (s, rest) end in
  (s, mkWorld (s_before s (contents w)) (clock w + s_elapse s) rest (breaker w) (readRR w)
              (readPools w) (acquired w) (released w) (gens w)).

Definition breakerAllow (w : world) : bool * world :=
  let '(ok, cb) := Allow (clock w) (breaker w) in (ok, setBreaker cb w).

(** [nextReplica]: round robin; the caller has checked that there is a replica. *)
Definition nextReplica (w : world) : option pool * world :=
  if readPools w =? 0 then (None, w)
  else (Some (PRead (readRR w mod readPools w)),
        mkWorld (contents w) (clock w) (sched w) (breaker w) (uint64 (readRR w + 1)) (readPools w)
                (acquired w) (released w) (gens w)).

Definition readTarget (w : world) : option pool * world :=
  if 0 <? readPools w then nextReplica w
  else let '(ok, w') := breakerAllow w in (if ok then Some PWrite else None, w').

Definition pickPool (class : string) (w : world) : option pool * world :=
  if bool_decide (class = OpWrite) then (Some PWrite, w)
  else if bool_decide (class = OpMetadata) then (Some PMetadata, w)
  else if bool_decide (class = OpAnalytical) then (Some PAnalytical, w)
  else if bool_decide (class = OpRead) then readTarget w
  else (None, w).

(** The error [pool.Acquire] reports to the callers. *)
Definition acquireErr (e : dberr) : dberr :=
  if errIs e EDeadline || errIs e ECanceled then [EPoolTimeout] else e.

(** [acquire]: routing, breaker, bounded wait; the release is counted by the caller. *)
Definition acquire (class : string) (w : world) : result dberr pool * slot * world :=
  let '(target, w1) :=
    if bool_decide (class = OpWrite) then
      let '(ok, w') := breakerAllow w in
      (if ok then Ok PWrite else Err [EPrimaryUnavailable], w')
    else if bool_decide (class = OpMetadata) then (Ok PMetadata, w)
    else if bool_decide (class = OpAnalytical) then (Ok PAnalytical, w)
    else if bool_decide (class = OpRead) then
      let '(t, w') := readTarget w in (of_option t [EPrimaryUnavailable], w')
    else (Err [EUnknownClass class], w) in
  match target with
  | Err e => (Err e, quiet, w1)
  | Ok p =>
      let '(s, w2) := popSlot w1 in
      match s_acquire s with
      | Some e => (Err (acquireErr e), s, w2)
      | None => (Ok p, s, countAcquired w2)
      end
  end.

(** [queryOnce]: one statement on one freshly acquired connection (these acquisitions are
    not counted in [poolStats]). *)
Definition queryOnce {A} (q : Z -> D -> result dberr A) (w : world) : result dberr A * world :=
  let '(s, w1) := popSlot w in
  match s_acquire s with
  | Some e => (Err (acquireErr e), w1)
  | None =>
      match s_fault s with
      | Some e => (Err e, w1)
      | None => (q (clock w1) (contents w1), w1)
      end
  end.

Definition queryRouted {A} (class : string) (q : Z -> D -> result dberr A) (w : world)
    : result dberr A * world :=
  match pickPool class w with
  | (None, w1) => (Err [EPrimaryUnavailable], w1)
  | (Some _, w1) =>
      match queryOnce q w1 with
      | (Ok a, w2) => (Ok a, w2)
      | (Err e, w2) =>
          if negb (isTransportErr e) || negb (bool_decide (class = OpRead)) || (readPools w2 =? 0)
          then (Err e, w2)
          else
            let w3 := setBreaker (RecordFailure (clock w2) (breaker w2)) w2 in
            match nextReplica w3 with
            | (None, w4) => (Err e, w4)
            | (Some _, w4) => queryOnce q w4
            end
      end
  end.

Definition QueryWithMetrics {A} (class : string) (q : Z -> D -> result dberr A) (w : world)
    : result dberr A * world := queryRouted class q w.

Definition recordPrimaryOutcome (class : string) (err : option dberr) (w : world) : world :=
  if negb (bool_decide (class = OpWrite)) then w
  else match err with
  | None => setBreaker (RecordSuccess (breaker w)) w
  | Some e =>
      if errIs e EPrimaryUnavailable then w
      else if isTransportErr e then setBreaker (RecordFailure (clock w) (breaker w)) w
      else w
  end.

Definition errOf {E A} (r : result E A) : option E := match r with Ok _ => None | Err e => Some e end.

(** Run a statement on an acquired connection. *)
Definition runStmt {A} (s : slot) (q : Z -> D -> result dberr A * D) (w : world)
    : result dberr A * world :=
  match s_fault s with
  | Some e => (Err e, w)
  | None =>
      match q (clock w) (contents w) with
      | (Ok a, d) => (Ok a, setContents d w)
      | (Err e, _) => (Err e, w)
      end
  end.

Definition ExecWithMetrics {A} (class : string) (q : Z -> D -> result dberr A * D) (w : world)
    : result dberr A * world :=
  let '(r, w1) :=
    match acquire class w with
    | (Err e, _, w1) => (Err e, w1)
    | (Ok _, s, w1) => let '(r, w2) := runStmt s q w1 in (r, countReleased w2)
    end in
  (r, recordPrimaryOutcome class (errOf r) w1).

(** ** Transactions

    The transaction sees its own writes ([contents] of [txWorld]); [txBase] is what the
    other clients see.  What they commit in between is applied to both, as under READ
    COMMITTED with the rows the transaction locked left alone. *)
Record txst := mkTxst { txWorld : world; txBase : D }.

Definition BeginWriteTx (w : world) : result dberr txst * world :=
  match acquire OpWrite w with
  | (Err e, _, w1) => (Err e, w1)
  | (Ok _, s, w1) =>
      match s_fault s with
      | Some e =>
          let w2 := countReleased w1 in
          (Err e, recordPrimaryOutcome OpWrite (Some e) w2)
      | None => (Ok (mkTxst w1 (contents w1)), w1)
      end
  end.

Definition txExec {A} (q : Z -> D -> result dberr A * D) (t : txst) : result dberr A * txst :=
  let '(s, w1) := popSlot (txWorld t) in
  let base := s_before s (txBase t) in
  match s_fault s with
  | Some e => (Err e, mkTxst w1 base)
  | None =>
      match q (clock w1) (contents w1) with
      | (Ok a, d) => (Ok a, mkTxst (setContents d w1) base)
      | (Err e, _) => (Err e, mkTxst w1 base)
      end
  end.

Definition txRollback (t : txst) : world := countReleased (setContents (txBase t) (txWorld t)).

(** A failed [Commit] leaves the transaction undone, unless only the answer was lost. *)
Definition txCommit (t : txst) : result dberr unit * world :=
  let '(s, w1) := popSlot (txWorld t) in
  let base := s_before s (txBase t) in
  match s_fault s with
  | Some e => (Err e, countReleased (if s_lost s then w1 else setContents base w1))
  | None => (Ok tt, countReleased w1)
  end.

(** Begin, run the body, commit; every error return of the body rolls back. *)
Definition withTx {E A} (beginE commitE : dberr -> E) (body : txst -> result E A * txst)
    (w : world) : result E A * world :=
  match BeginWriteTx w with
  | (Err e, w1) => (Err (beginE e), w1)
  | (Ok t, _) =>
      match body t with
      | (Err e, t') => (Err e, txRollback t')
      | (Ok a, t') =>
          match txCommit t' with
          | (Err e, w2) => (Err (commitE e), w2)
          | (Ok _, w2) => (Ok a, w2)
          end
      end
  end.

(** [bumpGenerationOnSuccess] and [BumpGeneration]: Redis INCR, errors only logged. *)
Definition BumpGeneration (tenant : string) (w : world) : result dberr Z * world :=
  let '(s, w1) := popSlot w in
  match s_fault s, gens w1 with
  | Some e, _ => (Err e, w1)
  | None, None => (Err [EOther "cache disabled"], w1)
  | None, Some g =>
      let n := default 0 (g !! tenant) + 1 in
      (Ok n, mkWorld (contents w1) (clock w1) (sched w1) (breaker w1) (readRR w1) (readPools w1)
                     (acquired w1) (released w1) (Some (<[tenant := n]> g)))
  end.

Definition bumpGenerationOnSuccess (tenant : string) (err : option dberr) (w : world) : world :=
  match err, gens w with
  | None, Some _ => (BumpGeneration tenant w).2
  | _, _ => w
  end.

(** The mutating wrappers [MoveDirectory], [GrantACLEntry] and [CommitFileVersion]: one
    transaction of the given statements, then the generation bump. *)
Definition mutateAndBump {A} (tenant : string) (body : txst -> result dberr A * txst) (w : world)
    : result dberr A * world :=
  let '(r, w1) := withTx (fun e => e) (fun e => e) body w in
  (r, bumpGenerationOnSuccess tenant (errOf r) w1).

(** [move_directory_status], the ACL insert, the version fence and the version insert are
    SQL statements, passed as arguments. *)
Definition MoveDirectory (proc : Z -> D -> result dberr unit * D) (tenant : string) (w : world)
    : result dberr unit * world := mutateAndBump tenant (txExec proc) w.

Definition GrantACLEntry (insert : Z -> D -> result dberr unit * D) (tenant : string) (w : world)
    : result dberr unit * world := mutateAndBump tenant (txExec insert) w.

Definition CommitFileVersion (nextVersion : Z -> D -> result dberr Z * D)
    (insert : Z -> Z -> D -> result dberr unit * D) (tenant : string) (w : world)
    : result dberr Z * world :=
  mutateAndBump tenant (fun t =>
    match txExec nextVersion t with
    | (Err e, t1) => (Err e, t1)
    | (Ok v, t1) =>
        match txExec (insert v) t1 with
        | (Err e, t2) => (Err e, t2)
        | (Ok _, t2) => (Ok v, t2)
        end
    end) w.

(** One probe of [healthLoop]. *)
Definition healthProbe (w : world) : world :=
  let '(s, w1) := popSlot w in
  match s_acquire s, s_fault s with
  | None, None => setBreaker (RecordSuccess (breaker w1)) w1
  | _, _ => setBreaker (RecordFailure (clock w1) (breaker w1)) w1
  end.

End client.

Arguments slot : clear implicits.
Arguments world : clear implicits.
Arguments txst : clear implicits.

(** ** Circuit-breaker runs *)

Inductive bop := BAllow (now : Z) | BSuccess | BFailure (now : Z).

Definition bopTime (o : bop) : option Z :=
  match o with BAllow t | BFailure t => Some t | BSuccess => None end.

(** One event of the breaker and whether it let a request through. *)
Definition bstep (cb : CircuitBreaker) (o : bop) : bool * CircuitBreaker :=
  match o with
  | BAllow now => Allow now cb
  | BSuccess => (false, RecordSuccess cb)
  | BFailure now => (false, RecordFailure now cb)
  end.

(** The times at which requests were let through. *)
Fixpoint grants (cb : CircuitBreaker) (ops : list bop) : list Z :=
  match ops with
  | [] => []
  | o :: ops' =>
      let '(ok, cb') := bstep cb o in
      match ok, o with
      | true, BAllow now => now :: grants cb' ops'
      | _, _ => grants cb' ops'
      end
  end.

Definition noSuccess (ops : list bop) : Prop := BSuccess ∉ ops.

Lemma grants_half_open cb ops : bState cb = breakerHalfOpen -> noSuccess ops -> grants cb ops = [].
Proof.
  revert cb. induction ops as [|o ops IH]; intros cb Hs Hn; [done|].
  apply not_elem_of_cons in Hn as [Ho Hn]. simpl.
  destruct o as [now| |now]; simpl; [unfold Allow; rewrite Hs; by apply IH|done|].
  apply IH; [|done]. unfold RecordFailure.
  rewrite (bool_decide_false (bState cb = breakerClosed)) by congruence. by rewrite andb_false_r.
Qed.

Lemma grants_open cb ops :
  bState cb = breakerOpen -> noSuccess ops ->
  grants cb ops = [] \/ exists t, grants cb ops = [t] /\ openedAt cb + breakerCooldown <= t.
Proof.
  revert cb. induction ops as [|o ops IH]; intros cb Hs Hn; [by left|].
  apply not_elem_of_cons in Hn as [Ho Hn]. simpl. destruct o as [now| |now]; simpl; [|done|].
  - unfold Allow. rewrite Hs.
    destruct (now - openedAt cb <? breakerCooldown) eqn:E; [by apply IH|]. bool_hyps.
    destruct (negb (probing cb)); [|by apply IH]. right. exists now. split; [|lia].
    by rewrite grants_half_open.
  - unfold RecordFailure.
    rewrite (bool_decide_false (bState cb = breakerClosed)) by congruence. rewrite andb_false_r.
    by apply (IH (mkBreaker _ _ _ _)).
Qed.

(** ** Connection accounting and environment-only changes *)

Section accounting.
Context {D : Type}.
Implicit Types (w : world D) (t : txst D).

Definition inUse w : Z := acquired w - released w.

(** [w'] differs from [w] only by time, atomics and what the consumed slots' other
    clients did to the contents. *)
Definition envOnly w w' : Prop :=
  exists used, sched w = used ++ sched w' /\
    contents w' = foldl (fun d s => s_before s d) (contents w) used.

#[global] Instance envOnly_preorder : PreOrder envOnly.
Proof.
  split.
  - intros w. by exists [].
  - intros w1 w2 w3 (u1 & Hs1 & Hc1) (u2 & Hs2 & Hc2). exists (u1 ++ u2).
    rewrite Hs1, Hs2, Hc2, Hc1, foldl_app. split; [by rewrite app_assoc | done].
Qed.

Lemma envOnly_same w w' : sched w' = sched w -> contents w' = contents w -> envOnly w w'.
Proof. intros Hs Hc. exists []. by rewrite Hs, Hc. Qed.

Lemma popSlot_envOnly w s w' : popSlot w = (s, w') -> envOnly w w'.
Proof.
  unfold popSlot. destruct (sched w) as [|s0 rest] eqn:E; intros H; simplify_eq/=.
  - exists []. by rewrite E.
  - exists [s]. by rewrite E.
Qed.

Lemma popSlot_inUse w s w' : popSlot w = (s, w') -> inUse w' = inUse w.
Proof. unfold popSlot. destruct (sched w) as [|s0 rest]; intros H; by simplify_eq/=. Qed.

Lemma breakerAllow_same w ok w' : breakerAllow w = (ok, w') ->
  sched w' = sched w /\ contents w' = contents w /\ inUse w' = inUse w.
Proof. unfold breakerAllow. destruct (Allow _ _). intros H. by simplify_eq/=. Qed.

Lemma nextReplica_same w p w' : nextReplica w = (p, w') ->
  sched w' = sched w /\ contents w' = contents w /\ inUse w' = inUse w.
Proof. unfold nextReplica. case_match; intros H'; by simplify_eq/=. Qed.

Lemma readTarget_same w p w' : readTarget w = (p, w') ->
  sched w' = sched w /\ contents w' = contents w /\ inUse w' = inUse w.
Proof.
  unfold readTarget. case_match; [apply nextReplica_same|].
  destruct (breakerAllow w) as [ok w1] eqn:E. intros H'. simplify_eq/=. by eapply breakerAllow_same.
Qed.

Lemma acquire_spec class w r s w' : acquire class w = (r, s, w') ->
  envOnly w w' /\ inUse w' = inUse w + (if is_ok r then 1 else 0).
Proof.
  unfold acquire. set (tw := if bool_decide (class = OpWrite) then _ else _).
  assert (sched tw.2 = sched w /\ contents tw.2 = contents w /\ inUse tw.2 = inUse w) as Htw.
  { subst tw. repeat case_bool_decide; try done.
    - destruct (breakerAllow w) as [ok w1] eqn:E. by apply breakerAllow_same in E.
    - destruct (readTarget w) as [ok w1] eqn:E. by apply readTarget_same in E. }
  destruct tw as [[p|e] w1]; simpl in Htw; destruct Htw as (H1 & H2 & H3).
  - destruct (popSlot w1) as [s1 w2] eqn:E. pose proof (popSlot_envOnly _ _ _ E) as He.
    pose proof (popSlot_inUse _ _ _ E) as Hu.
    assert (envOnly w w2) as Hw by (etrans; [by apply envOnly_same|done]).
    destruct (s_acquire s1); intros H; simplify_eq/=; (split; [|unfold inUse in *; simpl; lia]); [done|].
    etrans; [exact Hw|]. by apply envOnly_same.
  - intros H. simplify_eq/=. split; [by apply envOnly_same|lia].
Qed.

Lemma recordPrimaryOutcome_same class e w :
  sched (recordPrimaryOutcome class e w) = sched w /\
  contents (recordPrimaryOutcome class e w) = contents w /\
  inUse (recordPrimaryOutcome class e w) = inUse w.
Proof. unfold recordPrimaryOutcome. by repeat case_match. Qed.

(** Releasing the connection and telling the breaker change neither contents nor schedule. *)
Lemma finish_envOnly class e w : envOnly w (recordPrimaryOutcome class e (countReleased w)).
Proof.
  destruct (recordPrimaryOutcome_same class e (countReleased w)) as (Hs & Hc & _).
  by apply envOnly_same.
Qed.

Lemma ExecWithMetrics_inUse {A} class (q : Z -> D -> result dberr A * D) w :
  inUse (ExecWithMetrics class q w).2 = inUse w.
Proof.
  unfold ExecWithMetrics. destruct (acquire class w) as [[[p|e] s] w1] eqn:E;
    apply acquire_spec in E as [_ Hu]; simpl in Hu.
  - assert (inUse (runStmt s q w1).2 = inUse w1) as Hr.
    { unfold runStmt. destruct (s_fault s); [done|]. by destruct (q (clock w1) (contents w1)) as [[]]. }
    destruct (runStmt s q w1) as [r w2]. simpl in *.
    rewrite (proj2 (proj2 (recordPrimaryOutcome_same _ _ _))). unfold inUse in *. simpl. lia.
  - simpl. rewrite (proj2 (proj2 (recordPrimaryOutcome_same _ _ _))). lia.
Qed.

(** A failed instrumented write leaves the contents to the other clients. *)
Lemma ExecWithMetrics_failed {A} class (q : Z -> D -> result dberr A * D) w e w' :
  ExecWithMetrics class q w = (Err e, w') -> envOnly w w'.
Proof.
  unfold ExecWithMetrics. destruct (acquire class w) as [[[p|e1] s] w1] eqn:E;
    apply acquire_spec in E as [He _]; simpl.
  - unfold runStmt. destruct (s_fault s).
    + intros H. simplify_eq/=. etrans; [exact He | apply finish_envOnly].
    + destruct (q (clock w1) (contents w1)) as [[a|e2] d]; intros H; simplify_eq/=.
      etrans; [exact He | apply finish_envOnly].
  - intros H. simplify_eq/=. etrans; [exact He|]. apply envOnly_same; apply recordPrimaryOutcome_same.
Qed.

(** A successful instrumented write ran its statement once, on what the other clients had
    left by then. *)
Lemma ExecWithMetrics_ok {A} class (q : Z -> D -> result dberr A * D) w a w' :
  ExecWithMetrics class q w = (Ok a, w') ->
  exists w1, envOnly w w1 /\ q (clock w1) (contents w1) = (Ok a, contents w') /\
    sched w' = sched w1 /\ clock w' = clock w1.
Proof.
  unfold ExecWithMetrics. destruct (acquire class w) as [[[p|e1] s] w1] eqn:E;
    apply acquire_spec in E as [He _]; simpl; [|done].
  unfold runStmt. destruct (s_fault s); [done|].
  destruct (q (clock w1) (contents w1)) as [[a'|e2] d] eqn:Hq; intros H; simplify_eq/=.
  exists w1. split; [done|]. unfold recordPrimaryOutcome. simpl.
  by destruct (negb (bool_decide (class = OpWrite))).
Qed.

Lemma queryOnce_spec {A} (q : Z -> D -> result dberr A) w r w' :
  queryOnce q w = (r, w') -> envOnly w w' /\
  (forall a, r = Ok a -> q (clock w') (contents w') = Ok a).
Proof.
  unfold queryOnce. destruct (popSlot w) as [s w1] eqn:E.
  pose proof (popSlot_envOnly _ _ _ E) as He.
  destruct (s_acquire s); [|destruct (s_fault s)]; intros H; simplify_eq/=; split; try done.
Qed.

(** A routed query changes nothing; its rows are those of the contents it saw. *)
Lemma QueryWithMetrics_spec {A} class (q : Z -> D -> result dberr A) w r w' :
  QueryWithMetrics class q w = (r, w') -> envOnly w w' /\
  (forall a, r = Ok a -> q (clock w') (contents w') = Ok a).
Proof.
  unfold QueryWithMetrics, queryRouted. destruct (pickPool class w) as [t w1] eqn:Ep.
  assert (sched w1 = sched w /\ contents w1 = contents w) as [Hs Hc].
  { revert Ep. unfold pickPool. repeat case_bool_decide; intros Ep; simplify_eq; try done.
    by apply readTarget_same in Ep as (? & ? & _). }
  assert (envOnly w w1) as Hw1 by by apply envOnly_same.
  destruct t; [|intros; simplify_eq; by split].
  destruct (queryOnce q w1) as [r2 w2] eqn:E2. apply queryOnce_spec in E2 as [He2 Hq2].
  assert (envOnly w w2) as Hw2 by by etrans.
  destruct r2 as [a|e]; [intros; simplify_eq; naive_solver|].
  case_match; [intros; simplify_eq; by split|].
  destruct (nextReplica _) as [p4 w4] eqn:E4. apply nextReplica_same in E4 as (Hs4 & Hc4 & _).
  assert (envOnly w w4) as Hw4 by (etrans; [exact Hw2|]; by apply envOnly_same).
  destruct p4; [|intros; simplify_eq; by split].
  intros Hq. apply queryOnce_spec in Hq as [He Hq]. split; [by etrans | done].
Qed.

(** The other clients of a schedule keep [P] true. *)
Definition envKeeps (P : D -> Prop) w : Prop :=
  Forall (fun s => forall d, P d -> P (s_before s d)) (sched w).

Lemma envOnly_keeps P w w' : envOnly w w' -> envKeeps P w ->
  envKeeps P w' /\ (P (contents w) -> P (contents w')).
Proof.
  intros (u & Hs & Hc) Hk. unfold envKeeps in *. rewrite Hs in Hk. apply Forall_app in Hk as [Hu Hk].
  split; [done|]. rewrite Hc. generalize (contents w). clear - Hu.
  induction Hu as [|s u Hs Hu IH]; intros d Hd; simpl; auto.
Qed.

(** Statements that keep [P] keep it through [ExecWithMetrics]. *)
Lemma ExecWithMetrics_keeps {A} (P : D -> Prop) class (q : Z -> D -> result dberr A * D) w r w' :
  (forall now d a d', q now d = (Ok a, d') -> P d -> P d') ->
  ExecWithMetrics class q w = (r, w') -> envKeeps P w -> P (contents w) ->
  envKeeps P w' /\ P (contents w').
Proof.
  intros Hq H Hk HP. destruct r as [a|e].
  - apply ExecWithMetrics_ok in H as (w1 & He & Hr & Hs & _).
    destruct (envOnly_keeps P _ _ He Hk) as [Hk1 HP1].
    split; [unfold envKeeps in *; by rewrite Hs | eauto].
  - apply ExecWithMetrics_failed in H. destruct (envOnly_keeps P _ _ H Hk) as [Hk1 HP1]. auto.
Qed.

(** What a transaction body may do: it only moves the transaction forward. *)
Definition txStep t t' : Prop :=
  (inUse (txWorld t') = inUse (txWorld t) /\ breaker (txWorld t') = breaker (txWorld t)) /\
  exists used, sched (txWorld t) = used ++ sched (txWorld t') /\
    txBase t' = foldl (fun d s => s_before s d) (txBase t) used.

#[global] Instance txStep_preorder : PreOrder txStep.
Proof.
  split.
  - intros t. split; [done|]. by exists [].
  - intros t1 t2 t3 ([] & u1 & Hs1 & Hc1) ([] & u2 & Hs2 & Hc2). split; [split; congruence|].
    exists (u1 ++ u2). rewrite Hs1, Hs2, Hc2, Hc1, foldl_app. split; [by rewrite app_assoc | done].
Qed.

Lemma txExec_step {A} (q : Z -> D -> result dberr A * D) t : txStep t (txExec q t).2.
Proof.
  unfold txExec, popSlot. destruct (sched (txWorld t)) as [|s rest] eqn:E; simpl.
  - destruct (q _ _) as [[] d]; (split; [done|]); exists []; by rewrite E.
  - destruct (s_fault s); [|destruct (q _ _) as [[] d]]; (split; [done|]); exists [s]; by rewrite E.
Qed.

(** Accounting and rollback of any transaction built from such steps. *)
Lemma withTx_spec {E A} (b c : dberr -> E) (body : txst D -> result E A * txst D) w r w' :
  (forall t, txStep t (body t).2) -> withTx b c body w = (r, w') ->
  inUse w' = inUse w /\
  (forall e, r = Err e -> Forall (fun s => s_lost s = false) (sched w) -> envOnly w w').
Proof.
  intros Hb. unfold withTx, BeginWriteTx.
  destruct (acquire OpWrite w) as [[[p|e1] s] w1] eqn:Ha;
    apply acquire_spec in Ha as [He Hu]; simpl in Hu.
  2:{ intros H; simplify_eq/=. split; [lia|]. by intros. }
  destruct (s_fault s) as [ef|] eqn:Hf.
  { intros H; simplify_eq/=. rewrite (proj2 (proj2 (recordPrimaryOutcome_same _ _ _))).
    unfold inUse in *. simpl. split; [lia|]. intros e _ _.
    etrans; [exact He | apply finish_envOnly]. }
  specialize (Hb (mkTxst w1 (contents w1))).
  destruct (body (mkTxst w1 (contents w1))) as [[a|e2] t'] eqn:Hbody;
    destruct Hb as ([Hu' _] & used & Hs & Hc); simpl in *.
  - unfold txCommit. destruct (popSlot (txWorld t')) as [s2 w2] eqn:Hp.
    pose proof (popSlot_inUse _ _ _ Hp) as Hu2.
    unfold popSlot in Hp. destruct (s_fault s2) eqn:Hf2; intros H; simplify_eq/=.
    + destruct (sched (txWorld t')) as [|s3 rest] eqn:Hs3; simplify_eq/=.
      split; [unfold inUse in *; destruct (s_lost s2); simpl in *; lia|].
      intros e _ Hl. etrans; [exact He|]. exists (used ++ [s2]). rewrite Hs, foldl_app.
      destruct He as (u0 & Hs0 & _). rewrite Hs0, Hs in Hl.
      assert (s_lost s2 = false) as ->.
      { apply Forall_app in Hl as [_ Hl]. apply Forall_app in Hl as [_ Hl].
        by apply Forall_cons in Hl as [? _]. }
      simpl. rewrite <- Hc, <- app_assoc. done.
    + split; [unfold inUse in *; simpl in *; lia|]. done.
  - intros H. simplify_eq/=. unfold txRollback. split; [unfold inUse in *; simpl in *; lia|].
    intros e _ _. etrans; [exact He|]. exists used. by rewrite Hs.
Qed.

(** Turn an update that may fail into a statement; a failing statement changes nothing. *)
Definition stmt {A} (f : D -> result dberr (A * D)) (d : D) : result dberr A * D :=
  match f d with Ok (a, d') => (Ok a, d') | Err e => (Err e, d) end.

Lemma stmt_ok {A} (f : D -> result dberr (A * D)) d a d' :
  stmt f d = (Ok a, d') <-> f d = Ok (a, d').
Proof. unfold stmt. destruct (f d) as [[a1 d1]|e]; split; intros; by simplify_eq. Qed.

End accounting.

(** A world in which nothing else happens. *)
Definition calm {D} (w : world D) : Prop := sched w = [] /\ bState (breaker w) = breakerClosed.

Lemma calm_exec {D A} (q : Z -> D -> result dberr A * D) (w : world D) a d :
  calm w -> q (clock w) (contents w) = (Ok a, d) ->
  exists w', ExecWithMetrics OpWrite q w = (Ok a, w') /\ contents w' = d /\ calm w' /\ clock w' = clock w.
Proof.
  intros [Hs Hb] Hq. unfold ExecWithMetrics, acquire, breakerAllow, Allow. rewrite Hb.
  rewrite bool_decide_true by done. unfold popSlot. simpl. rewrite Hs. simpl. unfold runStmt. simpl.
  rewrite Z.add_0_r, Hq. eexists. split; [done|]. unfold recordPrimaryOutcome. simpl.
  by split_and!.
Qed.

(** Queries that are not balanced over the replicas see the contents as they are. *)
Lemma calm_query_primary {D A} class (q : Z -> D -> result dberr A) (w : world D) :
  calm w -> class = OpMetadata \/ class = OpWrite ->
  exists w', QueryWithMetrics class q w = (q (clock w) (contents w), w') /\
    contents w' = contents w /\ calm w' /\ clock w' = clock w.
Proof.
  intros [Hs Hb] Hc. unfold QueryWithMetrics, queryRouted, pickPool.
  exists (mkWorld (contents w) (clock w) [] (breaker w) (readRR w) (readPools w)
            (acquired w) (released w) (gens w)).
  split; [|by split_and!].
  destruct Hc as [-> | ->]; simpl; unfold queryOnce, popSlot; rewrite Hs; simpl; rewrite Z.add_0_r;
    (destruct (q (clock w) (contents w)) as [a|e]; [done|]; by rewrite orb_true_r).
Qed.

Lemma calm_query {D A} class (q : Z -> D -> result dberr A) (w : world D) :
  calm w -> class = OpMetadata ->
  exists w', QueryWithMetrics class q w = (q (clock w) (contents w), w') /\
    contents w' = contents w /\ calm w' /\ clock w' = clock w.
Proof. intros Hc Hcl. apply calm_query_primary; auto. Qed.

Lemma calm_withTx {D E A} (b c : dberr -> E) (body : txst D -> result E A * txst D) (w : world D) :
  calm w -> exists t, sched (txWorld t) = [] /\ clock (txWorld t) = clock w /\
    contents (txWorld t) = contents w /\ txBase t = contents w /\
    (forall t', txStep t t' -> forall a, body t = (Ok a, t') ->
       exists w', withTx b c body w = (Ok a, w') /\ contents w' = contents (txWorld t') /\ calm w' /\
         clock w' = clock (txWorld t')) /\
    (forall t' e, body t = (Err e, t') -> (withTx b c body w).1 = Err e).
Proof.
  intros [Hs Hb].
  exists (mkTxst (countAcquired (setBreaker (breaker w) w)) (contents w)).
  assert (BeginWriteTx w = (Ok (mkTxst (countAcquired (setBreaker (breaker w) w)) (contents w)),
            countAcquired (setBreaker (breaker w) w))) as Hbegin.
  { unfold BeginWriteTx, acquire, breakerAllow, Allow. rewrite Hb. rewrite bool_decide_true by done.
    unfold popSlot. simpl. rewrite Hs. simpl. rewrite Z.add_0_r.
    unfold countAcquired, setBreaker. simpl. by rewrite Hs. }
  simpl. split_and!; try done.
  - intros t' ([_ Hbr] & used & Hu & _) a Hbody. unfold withTx. rewrite Hbegin, Hbody. unfold txCommit, popSlot.
    simpl in Hu. rewrite Hs in Hu. symmetry in Hu. apply app_eq_nil in Hu as [_ Hu]. rewrite Hu. simpl.
    rewrite Z.add_0_r. eexists. split; [done|]. simpl. simpl in Hbr. split_and!; try done. by rewrite Hbr.
  - intros t' e Hbody. unfold withTx. rewrite Hbegin, Hbody. done.
Qed.

(** ** Lemmas on the reservoir and the defaults *)

Lemma dflt_pos v d : 0 < d -> 0 < dflt v d.
Proof. unfold dflt. case_match; bool_hyps; lia. Qed.

Lemma dflt_id v d : 0 < v -> dflt v d = v.
Proof. intros Hv. unfold dflt. by rewrite (proj2 (Z.leb_gt v 0)). Qed.

Definition resWf (r : waitReservoir) : Prop :=
  length (resBuf r) = 1024%nat /\ 0 <= resIdx r /\ (resFull r = false -> resIdx r < resSize).

(** [v] is a nearest-rank 95th percentile of the samples [l]: it is one of them, at least
    95% of them are not above it, and fewer than 95% are below it. *)
Definition isP95 (l : list Z) (v : Z) : Prop :=
  exists below above, l ≡ₚ below ++ v :: above /\
    Forall (fun x => x <= v) below /\ Forall (fun x => v <= x) above /\
    95 * zlen l <= 100 * (zlen below + 1) /\ 100 * zlen below < 95 * zlen l.

Lemma sorted_split (s : list Z) (k : nat) v :
  Sorted Z.le s -> s !! k = Some v ->
  exists below above, s = below ++ v :: above /\ length below = k /\
    Forall (fun x => x <= v) below /\ Forall (fun x => v <= x) above.
Proof.
  intros Hs Hk. apply Sorted_StronglySorted in Hs; [|intros x y z; lia].
  exists (take k s), (drop (S k) s). split; [by rewrite take_drop_middle|].
  pose proof (lookup_lt_Some _ _ _ Hk) as Hlt. split; [rewrite length_take; lia|].
  rewrite <- (take_drop_middle s k v Hk) in Hs.
  apply StronglySorted_app in Hs as (Hb & _ & Ha). split.
  - apply Forall_forall. intros x Hx. apply Hb; [done|]. apply list_elem_of_here.
  - by apply StronglySorted_cons in Ha as [? _].
Qed.

Lemma p95_rank n : 0 < n ->
  0 <= (n * 95 + 99) / 100 - 1 < n /\
  95 * n <= 100 * ((n * 95 + 99) / 100) /\ 100 * ((n * 95 + 99) / 100 - 1) < 95 * n.
Proof. intros Hn. Z.div_mod_to_equations. lia. Qed.

Lemma CommitFileVersion_steps {D} (nextV : Z -> D -> result dberr Z * D)
    (insert : Z -> Z -> D -> result dberr unit * D) (t : txst D) :
  txStep t (match txExec nextV t with
    | (Err e, t1) => (Err e, t1)
    | (Ok v, t1) =>
        match txExec (insert v) t1 with
        | (Err e, t2) => (Err e, t2)
        | (Ok _, t2) => (@Ok dberr Z v, t2)
        end
    end).2.
Proof.
  pose proof (txExec_step nextV t) as H1. destruct (txExec nextV t) as [[v|e] t1]; [|done].
  pose proof (txExec_step (insert v) t1) as H2.
  destruct (txExec (insert v) t1) as [[u|e] t2]; simpl in *; by etrans.
Qed.

Lemma BumpGeneration_inUse {D} tenant (w : world D) : inUse (BumpGeneration tenant w).2 = inUse w.
Proof.
  unfold BumpGeneration. destruct (popSlot w) as [s w1] eqn:E.
  pose proof (popSlot_inUse _ _ _ E) as Hu. by destruct (s_fault s), (gens w1).
Qed.

(** ** Properties *)

(** Tripping and probing of the circuit breaker.  Three failures in a row open a fresh
    breaker; from then until a success is recorded, whatever mix of requests and further
    failures arrives, at most one request is let through, and not before the cooldown
    counted from the third failure has passed. *)
Theorem breaker_single_probe (t1 t2 t3 : Z) (ops : list bop) (Hns : noSuccess ops) :
  let cb := RecordFailure t3 (RecordFailure t2 (RecordFailure t1 newCircuitBreaker)) in
  bState cb = breakerOpen /\ (length (grants cb ops) <= 1)%nat /\
  Forall (fun t => t3 + breakerCooldown <= t) (grants cb ops).
Proof.
  intros cb. assert (bState cb = breakerOpen /\ openedAt cb = t3) as [Ho Ht] by done.
  split; [done|]. destruct (grants_open cb ops Ho Hns) as [-> | (t & -> & Hle)]; simpl.
  - split; [lia | constructor].
  - rewrite Ht in Hle. split; [lia | by repeat constructor].
Qed.

Lemma breaker_single_probe_witness :
  let cb := RecordFailure 3 (RecordFailure 2 (RecordFailure 1 newCircuitBreaker)) in
  bState cb = breakerOpen /\
  (length (grants cb [BAllow 5; BAllow 2000000003; BFailure 2000000004; BAllow 2000000005]) <= 1)%nat /\
  Forall (fun t => 3 + breakerCooldown <= t)
    (grants cb [BAllow 5; BAllow 2000000003; BFailure 2000000004; BAllow 2000000005]).
Proof.
  apply (breaker_single_probe 1 2 3). unfold noSuccess. intros H.
  repeat (apply elem_of_cons in H as [H|H]; [discriminate H|]). by apply not_elem_of_nil in H.
Defined.

(** A failed probe locks writes out: once the breaker is half-open, recording further
    failures leaves it half-open, and every write through [ExecWithMetrics] or
    [BeginWriteTx] is rejected at once with [ErrPrimaryUnavailable], leaving the world
    unchanged, no matter how much time passes (only a recorded success reopens it). *)
Theorem half_open_rejects_writes {D A : Type} (q : Z -> D -> result dberr A * D) (w : world D)
    (ts : list Z) (Hho : bState (breaker w) = breakerHalfOpen) :
  let w' := setBreaker (foldl (fun cb t => RecordFailure t cb) (breaker w) ts) w in
  ExecWithMetrics OpWrite q w' = (Err [EPrimaryUnavailable], w') /\
  BeginWriteTx w' = (Err [EPrimaryUnavailable], w').
Proof.
  intros w'. assert (bState (breaker w') = breakerHalfOpen) as Hb.
  { subst w'. simpl. revert Hho. generalize (breaker w). induction ts as [|t ts IH]; intros cb Hcb; [done|].
    simpl. apply IH. unfold RecordFailure.
    rewrite (bool_decide_false (bState cb = breakerClosed)) by congruence. by rewrite andb_false_r. }
  assert (acquire OpWrite w' = (Err [EPrimaryUnavailable], quiet, w')) as Ha.
  { clearbody w'. unfold acquire, breakerAllow, Allow. rewrite bool_decide_true by done.
    rewrite Hb. by destruct w'. }
  unfold ExecWithMetrics, BeginWriteTx. by rewrite Ha.
Qed.

Definition demoWorld : world Z :=
  mkWorld 0 0 [] (mkBreaker breakerHalfOpen 3 0 true) 0 0 0 0 None.

Lemma half_open_rejects_writes_witness :
  (ExecWithMetrics OpWrite (fun _ (d : Z) => (@Ok dberr unit tt, d + 1)) (setBreaker
     (foldl (fun cb t => RecordFailure t cb) (breaker demoWorld) [7; 8]) demoWorld)).1
  = Err [EPrimaryUnavailable].
Proof.
  destruct (half_open_rejects_writes (fun _ (d : Z) => (@Ok dberr unit tt, d + 1)) demoWorld [7; 8] eq_refl)
    as [-> _]. reflexivity.
Defined.

(** The versioned commit of the client is atomic and leaks no connection: on every
    schedule of faults and other clients, every connection it acquired is released; when
    it fails (and no commit answer was lost) the contents are exactly what the other
    clients made of them and no cache generation was bumped. *)
Theorem CommitFileVersion_atomic {D : Type} (nextV : Z -> D -> result dberr Z * D)
    (insert : Z -> Z -> D -> result dberr unit * D) (tenant : string) (w w' : world D)
    (r : result dberr Z) (Hrun : CommitFileVersion nextV insert tenant w = (r, w')) :
  inUse w' = inUse w /\
  (forall e, r = Err e -> Forall (fun s => s_lost s = false) (sched w) -> envOnly w w').
Proof.
  unfold CommitFileVersion, mutateAndBump in Hrun.
  destruct (withTx _ _ _ w) as [r1 w1] eqn:Ht in Hrun. simplify_eq/=.
  destruct (withTx_spec _ _ _ _ _ _ (CommitFileVersion_steps nextV insert) Ht) as [Hu He].
  split; [|intros e Hr Hl; rewrite Hr; simpl; exact (He e Hr Hl)].
  rewrite <- Hu. unfold bumpGenerationOnSuccess.
  destruct (errOf r), (gens w1); try done. apply BumpGeneration_inUse.
Qed.

Definition busyWorld : world Z :=
  mkWorld 5 0 [mkSlot 1 (fun d => d + 1) None None false; mkSlot 1 (fun d => d * 2) None None false;
               mkSlot 1 (fun d => d) None (Some [EPg "40001"]) false]
    newCircuitBreaker 0 0 0 0 (Some ∅).

Lemma CommitFileVersion_atomic_witness :
  inUse (CommitFileVersion (fun _ d => (Ok d, d)) (fun v _ d => (Ok tt, v + 100)) "t" busyWorld).2 = 0 /\
  envOnly busyWorld (CommitFileVersion (fun _ d => (Ok d, d)) (fun v _ d => (Ok tt, v + 100)) "t" busyWorld).2.
Proof.
  destruct (CommitFileVersion_atomic (fun _ d => (Ok d, d)) (fun v _ d => (Ok tt, v + 100)) "t" busyWorld
    _ _ (surjective_pairing _)) as [H1 H2].
  split; [exact H1|]. apply (H2 [EPg "40001"]); [reflexivity|].
  repeat constructor.
Defined.

(** The wait KPI is the nearest-rank 95th percentile: for every well-formed reservoir
    with at least one sample, [p95] returns a value (never an index out of range), and it
    is a 95th percentile of the recorded samples. *)
Theorem p95_nearest_rank (r : waitReservoir) (Hwf : resWf r)
    (Hsome : resFull r = true \/ 0 < resIdx r) :
  exists v, p95 r = Some v /\
    isP95 (ztake (if resFull r then resSize else resIdx r) (resBuf r)) v.
Proof.
  destruct Hwf as (Hlen & Hidx & Hfull). unfold p95. set (n := if resFull r then resSize else resIdx r).
  assert (0 < n <= 1024) as Hn.
  { subst n. unfold resSize in *. destruct (resFull r); [lia|]. specialize (Hfull eq_refl).
    destruct Hsome as [?|?]; [done|lia]. }
  rewrite (proj2 (Z.eqb_neq n 0)) by lia.
  set (l := ztake n (resBuf r)). assert (zlen l = n) as Hl.
  { apply zlen_ztake. unfold zlen. lia. }
  pose proof (p95_rank n ltac:(lia)) as (Hr & Hr1 & Hr2).
  assert (length (merge_sort Z.le l) = length l) as Hms by apply Permutation_length, merge_sort_Permutation.
  destruct (lookup_lt_is_Some_2 (merge_sort Z.le l) (Z.to_nat ((n * 95 + 99) / 100 - 1))) as [v Hv].
  { rewrite Hms. unfold zlen in Hl. lia. }
  exists v. split; [done|].
  destruct (sorted_split _ _ _ (Sorted_merge_sort Z.le l) Hv) as (b & a & Hs & Hb & Hfb & Hfa).
  exists b, a. split; [by rewrite <- Hs, merge_sort_Permutation|].
  rewrite Hl. unfold zlen. rewrite Hb, Z2Nat.id by lia. split_and!; try done; lia.
Qed.

Lemma p95_nearest_rank_witness :
  exists v, p95 (resAdd 30 (resAdd 10 (resAdd 20 newReservoir))) = Some v /\ isP95 [20; 10; 30] v.
Proof.
  apply (p95_nearest_rank (resAdd 30 (resAdd 10 (resAdd 20 newReservoir)))).
  - vm_compute. split; [reflexivity|]. split; [discriminate|reflexivity].
  - right. reflexivity.
Defined.

(** Configuration defaults: they are idempotent, every sizing and timing field becomes
    positive, the per-pool minimum never exceeds the maximum, and the size given to each
    of the four pool tiers is at least the minimum and stays within a quarter of the
    global budget whenever the minimum does. *)
Theorem applyDefaults_sound (numCPU : Z) (c : DbConfig) (Hcpu : 0 < numCPU < 2 ^ 28) :
  let d := applyDefaults numCPU c in
  applyDefaults numCPU d = d /\
  0 < MinConnsPerPool d <= MaxConnsPerPool d /\ 0 < MaxTotalConns d /\ 0 < AcquireTimeout d /\
  0 < HealthCheckInterval d /\ 0 < SlowQueryThreshold d /\ 0 < CacheTTL d /\
  MinConnsPerPool d <= poolMax d /\
  (MinConnsPerPool d <= Z.quot (MaxTotalConns d) 4 -> 4 * poolMax d <= MaxTotalConns d).
Proof.
  assert (forall k, 0 < k <= 4 -> wrapS 32 (numCPU * k) = numCPU * k) as Hw.
  { intros k Hk. unfold wrapS. rewrite Z.mod_small; [lia|]. change (2 ^ (32 - 1)) with (2 ^ 31). nia. }
  intros d. subst d. unfold applyDefaults. rewrite !Hw by lia. cbn [MinConnsPerPool MaxConnsPerPool
    MaxTotalConns MaxConnLifetime MaxConnIdleTime AcquireTimeout HealthCheckInterval SlowQueryThreshold
    CacheTTL CacheEnabled MetadataDSN PrimaryDSN ReplicaDSNs].
  pose proof (dflt_pos (MinConnsPerPool c) (numCPU * 2) ltac:(lia)) as Hmin.
  pose proof (dflt_pos (MaxConnsPerPool c) (numCPU * 4) ltac:(lia)) as Hmax.
  pose proof (dflt_pos (MaxTotalConns c) 96 ltac:(lia)) as Htot.
  set (mn := dflt (MinConnsPerPool c) _) in *. set (mx := dflt (MaxConnsPerPool c) _) in *.
  set (tot := dflt (MaxTotalConns c) 96) in *.
  assert (0 < mn <= (if mx <? mn then mn else mx)) as Hle by (case_match; bool_hyps; lia).
  split_and!; try (apply dflt_pos; vm_compute; reflexivity); try lia.
  - rewrite (dflt_id mn), (dflt_id (if mx <? mn then mn else mx)), (dflt_id tot) by lia.
    rewrite !(dflt_id (dflt _ _)) by (apply dflt_pos; vm_compute; reflexivity).
    rewrite (proj2 (Z.ltb_ge _ mn)) by lia. f_equal. repeat case_bool_decide; congruence.
  - unfold poolMax. cbn [MinConnsPerPool MaxConnsPerPool MaxTotalConns].
    clear - Hle. set (m := if mx <? mn then mn else mx) in *. clearbody m mn tot.
    destruct ((_ <? m) && _) eqn:E; bool_hyps; lia.
  - unfold poolMax. cbn [MinConnsPerPool MaxConnsPerPool MaxTotalConns]. intros Hb.
    clear - Hle Hb. set (m := if mx <? mn then mn else mx) in *. clearbody m mn tot.
    destruct ((_ <? m) && _) eqn:E; bool_hyps; [Z.quot_rem_to_equations; lia|].
    destruct E as [E|E]; bool_hyps; Z.quot_rem_to_equations; lia.
Qed.

Lemma applyDefaults_sound_witness :
  MinConnsPerPool (applyDefaults 8 (mkDbConfig "p" [] "" 0 0 0 0 0 0 0 0 false 0)) = 16 /\
  4 * poolMax (applyDefaults 8 (mkDbConfig "p" [] "" 0 0 0 0 0 0 0 0 false 0)) <= 96.
Proof.
  split; [reflexivity|].
  apply (applyDefaults_sound 8 (mkDbConfig "p" [] "" 0 0 0 0 0 0 0 0 false 0));
    vm_compute; [split; reflexivity | discriminate].
Defined.

(** A refused dial is not classified as a transport fault: [ECONNREFUSED] carries its
    own [Timeout] method, so the generic timeout test answers false before the test for
    it is reached; a write that cannot reach the primary therefore does not count toward
    the breaker, whatever wrappers without a timeout method surround it. *)
Theorem refused_dial_not_transport {D : Type} (w : world D) (wrap : list string) :
  let err := (EOther <$> wrap) ++ [EConnect; ENet false; ERefused] in
  isTransportErr err = false /\
  isTransportErr [EConnect] = true /\
  breaker (recordPrimaryOutcome OpWrite (Some err) w) = breaker w.
Proof.
  intros err.
  assert (forall (B : Type) (f : errnode -> option B) l, (forall m, f (EOther m) = None) ->
            firstSome f ((EOther <$> wrap) ++ l) = firstSome f l) as Hfs.
  { intros B f l Hf. induction wrap as [|m ms IH]; [done|]. simpl. by rewrite Hf. }
  assert (forall n, (forall m, n <> EOther m) -> errIs err n = errIs [EConnect; ENet false; ERefused] n) as He.
  { intros n Hn. subst err. unfold errIs. apply bool_decide_ext. rewrite elem_of_app.
    split; [|by right]. intros [Hm|Hm]; [|done]. apply list_elem_of_fmap in Hm as (m & -> & _).
    by destruct (Hn m). }
  assert (isTransportErr err = false) as Ht.
  { unfold isTransportErr. rewrite !He by done. subst err. rewrite !Hfs by done. reflexivity. }
  split_and!; [done|reflexivity|].
  unfold recordPrimaryOutcome. simpl. rewrite He by done. by rewrite Ht.
Qed.
