(* ===== verification/Pools.v ===== *)
(** * internal/database: construction and teardown of the client's pools

    [NewDatabaseClient], [newPool], [Close], [Stats] and [refreshWaitP95] of client.go.
    The driver (pgxpool) decides which steps fail; the pools that exist in the process are
    kept in a registry, so that the theorems can speak of pools nobody closes. *)
From S2P Require Import Prelude GoLib Database.

Record PoolSpec := mkSpec {
  psName : string; psDSN : string; psMin : Z; psMax : Z; psLifetime : Z; psIdle : Z; psHealth : Z
}.

(** pgxpool: the errors of [ParseConfig], of [NewWithConfig] and of [Ping] (with its time
    limit), for the pool with the given identity. *)
Class PgxPool := {
  ParseConfig : string -> option string;
  pgxNew : nat -> PoolSpec -> option string;
  Ping : nat -> PoolSpec -> Z -> option string
}.

(** The pools of the process: the next identity and the ones that are open. *)
Record PoolWorld := mkPW { pwNext : nat; pwOpen : gmap nat PoolSpec }.

Record DatabaseClient := mkDC {
  dcConfig : DbConfig; dcWrite : nat; dcMetadata : nat; dcRead : list nat; dcAnalytical : nat;
  dcHealth : bool; dcClosed : bool
}.

Definition clientPools (c : DatabaseClient) : list nat := [dcWrite c; dcMetadata c] ++ dcRead c ++ [dcAnalytical c].

Section construction.
Context `{DRV : PgxPool} (numCPU : Z) (skipPing : bool).

Definition poolSpec (c : DbConfig) (name dsn : string) : PoolSpec :=
  mkSpec name dsn (MinConnsPerPool c) (poolMax c) (MaxConnLifetime c) (MaxConnIdleTime c) (HealthCheckInterval c).

Definition closePool (i : nat) (w : PoolWorld) : PoolWorld := mkPW (pwNext w) (delete i (pwOpen w)).

Definition newPool (c : DbConfig) (name dsn : string) (w : PoolWorld) : result string nat * PoolWorld :=
  match ParseConfig dsn with
  | Some e => (Err ("parse " +:+ name +:+ " DSN: " +:+ e), w)
  | None =>
      let spec := poolSpec c name dsn in
      let i := pwNext w in
      match pgxNew i spec with
      | Some e => (Err e, mkPW (S i) (pwOpen w))
      | None =>
          let w1 := mkPW (S i) (<[i := spec]> (pwOpen w)) in
          if skipPing then (Ok i, w1)
          else match Ping i spec (wrapS 64 (4 * AcquireTimeout c)) with
               | Some e => (Err (name +:+ " pool ping: " +:+ e), closePool i w1)
               | None => (Ok i, w1)
               end
      end
  end.

(** The replica loop, from replica [k] on. *)
Fixpoint newReadPools (c : DbConfig) (k : Z) (dsns : list string) (w : PoolWorld) : result string (list nat) * PoolWorld :=
  match dsns with
  | [] => (Ok [], w)
  | dsn :: rest =>
      match newPool c "read" dsn w with
      | (Err e, w1) => (Err ("replica " +:+ format_int k +:+ ": " +:+ e), w1)
      | (Ok i, w1) =>
          match newReadPools c (k + 1) rest w1 with
          | (Err e, w2) => (Err e, w2)
          | (Ok ids, w2) => (Ok (i :: ids), w2)
          end
      end
  end.

Definition analyticalDSN (c : DbConfig) : string := match ReplicaDSNs c with dsn :: _ => dsn | [] => PrimaryDSN c end.

Definition prefixErr {A} (p : string) (r : result string A * PoolWorld) : result string A * PoolWorld :=
  match r with (Err e, w) => (Err (p +:+ e), w) | _ => r end.

Definition NewDatabaseClient (cfg0 : DbConfig) (w : PoolWorld) : result string DatabaseClient * PoolWorld :=
  if bool_decide (PrimaryDSN cfg0 = "") then (Err "database: PrimaryDSN ids required", w)
  else
    let cfg := applyDefaults numCPU cfg0 in
    match prefixErr "write pool: " (newPool cfg "write" (PrimaryDSN cfg) w) with
    | (Err e, w1) => (Err e, w1)
    | (Ok wr, w1) =>
        match prefixErr "metadata pool: " (newPool cfg "metadata" (MetadataDSN cfg) w1) with
        | (Err e, w2) => (Err e, w2)
        | (Ok md, w2) =>
            match newReadPools cfg 0 (ReplicaDSNs cfg) w2 with
            | (Err e, w3) => (Err e, w3)
            | (Ok rd, w3) =>
                match prefixErr "analytical pool: " (newPool cfg "analytical" (analyticalDSN cfg) w3) with
                | (Err e, w4) => (Err e, w4)
                | (Ok an, w4) => (Ok (mkDC cfg wr md rd an true false), w4)
                end
            end
        end
    end.

End construction.

(** [Close], behind [closeOnce]: the health loops stop and every pool is closed. *)
Definition Close (c : DatabaseClient) (w : PoolWorld) : DatabaseClient * PoolWorld :=
  if dcClosed c then (c, w)
  else (mkDC (dcConfig c) (dcWrite c) (dcMetadata c) (dcRead c) (dcAnalytical c) false true,
        foldl (flip closePool) w (clientPools c)).

(** The client starts to serve with a closed breaker and cold counters. *)
Definition servingWorld {D : Type} (c : DatabaseClient) (contents : D) (now : Z) (sched : list (slot D)) : world D :=
  mkWorld contents now sched newCircuitBreaker 0 (zlen (dcRead c)) 0 0
    (if CacheEnabled (dcConfig c) then Some ∅ else None).

(** [refreshWaitP95]: the published value is kept while the reservoir is empty. *)
Definition refreshWaitP95 (r : waitReservoir) (published : Z) : Z := default published (p95 r).

Record Stats (T : Type) := mkStats {
  stPools : gmap string T; stAcquired : Z; stReleased : Z; stWaitP95 : Z
}.

(** [stat] is the driver's statistics of a pool. *)
Definition clientStats {D T : Type} (stat : nat -> T) (c : DatabaseClient) (w : world D) (published : Z) : Stats T :=
  let base := <["analytical" := stat (dcAnalytical c)]>
               (<["metadata" := stat (dcMetadata c)]> {["write" := stat (dcWrite c)]}) in
  mkStats T
    (foldl (fun m '(k, p) => <["read" +:+ format_int (Z.of_nat k) := stat p]> m) base (imap pair (dcRead c)))
    (acquired w) (released w) published.

(** ** What a successful or failed construction leaves behind *)

Definition poolWf (w : PoolWorld) : Prop := forall i, (pwNext w <= i)%nat -> pwOpen w !! i = None.

(** [ids] are new pools, all of the configured size, opened on top of [w]. *)
Definition opened (c : DbConfig) (ids : list nat) (w w' : PoolWorld) : Prop :=
  poolWf w' /\ (pwNext w <= pwNext w')%nat /\ NoDup ids /\
  Forall (fun i => (pwNext w <= i < pwNext w')%nat) ids /\
  Forall (fun i => exists n d, pwOpen w' !! i = Some (poolSpec c n d)) ids /\
  (forall i, i ∉ ids -> pwOpen w' !! i = pwOpen w !! i).

Lemma opened_nil c w : poolWf w -> opened c [] w w.
Proof. repeat split; try done; constructor. Qed.

Lemma opened_app c ids js w w1 w2 : opened c ids w w1 -> opened c js w1 w2 -> opened c (ids ++ js) w w2.
Proof.
  intros (W1 & N1 & D1 & B1 & O1 & K1) (W2 & N2 & D2 & B2 & O2 & K2).
  rewrite !Forall_forall in *. assert (forall i, i ∈ ids -> i ∉ js) as Hd.
  { intros i Hi Hj. apply B1 in Hi. apply B2 in Hj. lia. }
  split_and!; [done|lia|by apply NoDup_app|apply Forall_forall|apply Forall_forall|].
  - intros i [Hi|Hi]%elem_of_app; [apply B1 in Hi|apply B2 in Hi]; lia.
  - intros i [Hi|Hi]%elem_of_app; [|by apply O2]. rewrite K2 by auto. by apply O1.
  - intros i Hi. rewrite elem_of_app in Hi. rewrite K2, K1; tauto.
Qed.

Section laws.
Context `{DRV : PgxPool} (numCPU : Z) (skipPing : bool).

Lemma newPool_spec c name dsn w : poolWf w ->
  match newPool skipPing c name dsn w with
  | (Ok i, w') => opened c [i] w w'
  | (Err _, w') => opened c [] w w'
  end.
Proof.
  intros Hw. unfold newPool. destruct (ParseConfig dsn); [by apply opened_nil|].
  assert (pwOpen w !! pwNext w = None) as Hn by (apply Hw; lia).
  assert (forall i, (S (pwNext w) <= i)%nat -> pwOpen w !! i = None) as Hw' by (intros; apply Hw; lia).
  assert (opened c [pwNext w] w (mkPW (S (pwNext w)) (<[pwNext w := poolSpec c name dsn]> (pwOpen w)))) as Hopen.
  { split_and!; simpl; [|lia|apply NoDup_singleton|..]; rewrite ?Forall_singleton.
    - intros i Hi. simpl in *. rewrite lookup_insert_ne by lia. by apply Hw'.
    - lia.
    - rewrite lookup_insert_eq. eauto.
    - intros i Hi. rewrite lookup_insert_ne; [done|]. set_solver. }
  destruct (pgxNew _ _).
  - split_and!; simpl; try done; [lia|constructor..].
  - destruct skipPing; [done|]. destruct (Ping _ _ _); [|done].
    unfold closePool. simpl. rewrite delete_insert_id by done.
    split_and!; simpl; try done; [lia|constructor..].
Qed.

Lemma newReadPools_spec c k dsns w : poolWf w ->
  match newReadPools skipPing c k dsns w with
  | (Ok ids, w') => opened c ids w w' /\ length ids = length dsns
  | (Err _, w') => exists ids, opened c ids w w'
  end.
Proof.
  revert k w. induction dsns as [|dsn rest IH]; intros k w Hw; simpl; [split; [by apply opened_nil|done]|].
  pose proof (newPool_spec c "read" dsn w Hw) as Hp. destruct (newPool _ _ _ _ _) as [[i|e] w1]; [|by eexists].
  specialize (IH (k + 1) w1 (proj1 Hp)). destruct (newReadPools _ _ _ _ w1) as [[ids|e] w2].
  - destruct IH as [Ho Hl]. split; [|simpl; by f_equal]. by eapply (opened_app _ [i]).
  - destruct IH as [ids Ho]. eexists. by eapply opened_app.
Qed.

Lemma foldl_close ids w : pwOpen (foldl (flip closePool) w ids) = foldl (flip delete) (pwOpen w) ids.
Proof. revert w. induction ids as [|i ids IH]; intros w; simpl; [done|]. by rewrite IH. Qed.

Lemma close_opened c ids w w' : poolWf w -> opened c ids w w' -> foldl (flip delete) (pwOpen w') ids = pwOpen w.
Proof.
  intros Hw (_ & _ & _ & Hb & _ & Hk). apply map_eq. intros i.
  assert (forall l (m : gmap nat PoolSpec), foldl (flip delete) m l !! i = if decide (i ∈ l) then None else m !! i) as H.
  { clear. induction l as [|j l IH]; intros m; cbn [foldl flip]; [case_decide; set_solver|]. rewrite IH.
    destruct (decide (i = j)) as [->|Hn]; [rewrite lookup_delete_eq|rewrite lookup_delete_ne by done];
      repeat case_decide; set_solver. }
  rewrite H. destruct (decide (i ∈ ids)) as [Hi|Hi]; [|by apply Hk].
  rewrite Forall_forall in Hb. apply Hb in Hi. symmetry. apply Hw. lia.
Qed.

Lemma NewDatabaseClient_config cfg w c w' : NewDatabaseClient numCPU skipPing cfg w = (Ok c, w') ->
  dcConfig c = applyDefaults numCPU cfg.
Proof. unfold NewDatabaseClient. intros H. repeat case_match; by simplify_eq/=. Qed.

Lemma NewDatabaseClient_opened cfg w : poolWf w ->
  match NewDatabaseClient numCPU skipPing cfg w with
  | (Ok c, w') => opened (dcConfig c) (clientPools c) w w' /\ dcConfig c = applyDefaults numCPU cfg /\
      length (dcRead c) = length (ReplicaDSNs cfg) /\ dcClosed c = false
  | (Err _, w') => exists ids, opened (applyDefaults numCPU cfg) ids w w'
  end.
Proof.
  intros Hw. unfold NewDatabaseClient. case_bool_decide; [exists []; by apply opened_nil|].
  set (c := applyDefaults numCPU cfg).
  pose proof (newPool_spec c "write" (PrimaryDSN c) w Hw) as H1.
  destruct (newPool _ _ "write" _ _) as [[i1|e] w1]; [|by eexists]. cbn [prefixErr].
  pose proof (newPool_spec c "metadata" (MetadataDSN c) w1 (proj1 H1)) as H2.
  destruct (newPool _ _ "metadata" _ _) as [[i2|e] w2]; cbn [prefixErr];
    pose proof (opened_app _ _ _ _ _ _ H1 H2) as H12; [|by eexists].
  pose proof (newReadPools_spec c 0 (ReplicaDSNs c) w2 (proj1 H2)) as H3.
  destruct (newReadPools _ _ _ _ _) as [[is3|e] w3].
  2: { destruct H3 as [is3 H3]. eexists. by eapply opened_app. }
  destruct H3 as [H3 Hl]. pose proof (newPool_spec c "analytical" (analyticalDSN c) w3 (proj1 H3)) as H4.
  pose proof (opened_app _ _ _ _ _ _ H12 H3) as H13.
  destruct (newPool _ _ "analytical" _ _) as [[i4|e] w4]; cbn [prefixErr];
    pose proof (opened_app _ _ _ _ _ _ H13 H4) as H14; [|by eexists].
  split_and!; [by rewrite <- app_assoc in H14|done..].
Qed.

End laws.

(** C27. A client has one write, one metadata and one analytical pool and a pool per replica,
    all distinct and open with the configured limits; [Close] closes exactly those pools
    and a second [Close] does nothing.  A failed construction never closes a pool that
    existed before. *)
Theorem client_owns_its_pools `{DRV : PgxPool} (numCPU : Z) (skipPing : bool) (cfg : DbConfig) (w : PoolWorld)
    (Hw : poolWf w) :
  match NewDatabaseClient numCPU skipPing cfg w with
  | (Ok c, w') =>
      length (clientPools c) = (3 + length (ReplicaDSNs cfg))%nat /\ NoDup (clientPools c) /\
      Forall (fun i => pwOpen w !! i = None /\ exists p, pwOpen w' !! i = Some p /\
                psMin p = MinConnsPerPool (applyDefaults numCPU cfg) /\ psMax p = poolMax (applyDefaults numCPU cfg))
        (clientPools c) /\
      pwOpen (Close c w').2 = pwOpen w /\
      Close (Close c w').1 (Close c w').2 = Close c w' /\ dcHealth (Close c w').1 = false
  | (Err _, w') => pwOpen w ⊆ pwOpen w'
  end.
Proof.
  pose proof (NewDatabaseClient_opened numCPU skipPing cfg w Hw) as H.
  destruct (NewDatabaseClient _ _ _ _) as [[c|e] w'].
  - destruct H as (Ho & Hc & Hl & Hcl). pose proof Ho as (_ & _ & Hnd & Hb & Hs & _). unfold Close. rewrite Hcl.
    cbn [fst snd]. split_and!; [|done| |by rewrite foldl_close; eapply close_opened|done|done].
    { unfold clientPools. rewrite !length_app. simpl. lia. }
    rewrite Forall_forall in *. intros i Hi. split; [apply Hw; apply Hb in Hi; lia|].
    destruct (Hs i Hi) as (n & d & Hd). rewrite Hd, Hc. by eexists.
  - destruct H as (ids & _ & _ & _ & Hb & _ & Hk). apply map_subseteq_spec. intros i p Hi.
    rewrite Hk; [done|]. intros Hin. rewrite Forall_forall in Hb. apply Hb in Hin.
    rewrite Hw in Hi by lia. done.
Qed.

(** A server that answers every ping but the one of the analytical pool. *)
Definition flakyDriver : PgxPool :=
  {| ParseConfig _ := None; pgxNew _ _ := None;
     Ping _ p _ := if String.eqb (psName p) "analytical" then Some "too many connections" else None |}.

Definition calmDriver : PgxPool := {| ParseConfig _ := None; pgxNew _ _ := None; Ping _ _ _ := None |}.

Definition twoReplicas : DbConfig := mkDbConfig "primary" ["r0"; "r1"] "" 0 0 0 0 0 0 0 0 false 0.

Lemma client_owns_its_pools_witness :
  let r := NewDatabaseClient (DRV := calmDriver) 8 false twoReplicas (mkPW 0 ∅) in
  match r with
  | (Ok c, w') => length (clientPools c) = 5%nat /\ pwOpen (Close c w').2 = ∅
  | (Err _, _) => False
  end.
Proof.
  pose proof (client_owns_its_pools (DRV := calmDriver) 8 false twoReplicas (mkPW 0 ∅)
    (fun i _ => lookup_empty i)) as H.
  revert H. cbv zeta. destruct (NewDatabaseClient _ _ _ _) as [[c|e] w'] eqn:E.
  - intros (H1 & _ & _ & H2 & _). exact (conj H1 H2).
  - vm_compute in E. discriminate E.
Defined.

(** A failed construction leaves the pools it had opened to nobody: the write, metadata and
    replica pools stay open, and there is no client to close them. *)
Lemma failed_construction_leaks :
  exists e w', NewDatabaseClient (DRV := flakyDriver) 8 false twoReplicas (mkPW 0 ∅) = (Err e, w') /\
    e = "analytical pool: analytical pool ping: too many connections" /\ size (pwOpen w') = 4%nat.
Proof. do 2 eexists. split; [vm_compute; reflexivity|]. split; reflexivity. Qed.

(** The budget counts four pools: with two replicas the five pools may open more
    connections than [MaxTotalConns]. *)
Lemma replicas_exceed_budget :
  let cfg := applyDefaults 8 twoReplicas in
  MaxTotalConns cfg = 96 /\ (3 + zlen (ReplicaDSNs cfg)) * poolMax cfg = 120.
Proof. split; reflexivity. Qed.
