(* ===== verification/Rows.v ===== *)
(** * internal/database/client.go: rows give their connection back

    [releasedRows] wraps the rows of a query and releases the connection behind them when they
    are exhausted or closed.  The rows underneath ([pgx.Rows]) are a count of rows left;
    [tkReleased] counts the calls of the release function. *)
From S2P Require Import Prelude.

(** The wrapper: the rows left, whether they were closed, whether the [sync.Once] has
    fired, and how often the connection was released. *)
Record releasedRows := mkRows { rrLeft : nat; rrClosed : bool; rrOnce : bool; rrReleases : Z }.

(** The result of a successful query. *)
Definition newRows (n : nat) : releasedRows := mkRows n false false 0.

Definition rowsDone (r : releasedRows) : releasedRows :=
  if rrOnce r then r else mkRows (rrLeft r) (rrClosed r) true (rrReleases r + 1).

Definition rowsClose (r : releasedRows) : releasedRows :=
  rowsDone (mkRows (rrLeft r) true (rrOnce r) (rrReleases r)).

(** Closed rows have no next row. *)
Definition rowsNext (r : releasedRows) : bool * releasedRows :=
  match rrClosed r, rrLeft r with
  | false, S n => (true, mkRows n false (rrOnce r) (rrReleases r))
  | _, _ => (false, rowsDone (mkRows (rrLeft r) true (rrOnce r) (rrReleases r)))
  end.

Inductive rowsOp := RNext | RClose | RErr.

Definition rowsStep (r : releasedRows) (o : rowsOp) : releasedRows :=
  match o with RNext => (rowsNext r).2 | RClose => rowsClose r | RErr => r end.

Definition rowsRun (ops : list rowsOp) (r : releasedRows) : releasedRows := foldl rowsStep r ops.

Definition isNext (o : rowsOp) : Prop := o = RNext.
#[global] Instance rowsOp_eq_dec : EqDecision rowsOp.
Proof. solve_decision. Defined.
#[global] Instance isNext_dec o : Decision (isNext o).
Proof. unfold isNext. apply _. Defined.

(** Released exactly when closed, and then once. *)
Definition rowsInv (r : releasedRows) : Prop :=
  rrReleases r = (if rrClosed r then 1 else 0) /\ rrOnce r = rrClosed r.

Lemma rowsStep_inv r o : rowsInv r -> rowsInv (rowsStep r o).
Proof.
  unfold rowsInv. destruct r as [n c once k]. simpl. intros [-> ->].
  destruct o; simpl; [|unfold rowsClose, rowsDone; simpl; by destruct c|done].
  unfold rowsNext, rowsDone. simpl. by destruct c, n.
Qed.

Lemma rowsRun_inv ops r : rowsInv r -> rowsInv (rowsRun ops r).
Proof. revert r. induction ops as [|o ops IH]; intros r Hr; [done|]. simpl. by apply IH, rowsStep_inv. Qed.

Lemma rowsRun_closed ops r : rrClosed r = true -> rrClosed (rowsRun ops r) = true.
Proof.
  revert r. induction ops as [|o ops IH]; intros r Hr; [done|]. simpl. apply IH.
  destruct o; simpl; [|by unfold rowsClose, rowsDone; simpl; case_match|done].
  unfold rowsNext. rewrite Hr. unfold rowsDone. simpl. by case_match.
Qed.

Lemma rowsRun_open ops r : rrClosed r = false ->
  rrClosed (rowsRun ops r) = bool_decide (RClose ∈ ops \/ (rrLeft r < length (filter isNext ops))%nat).
Proof.
  revert r. induction ops as [|o ops IH]; intros r Hr;
    [|change (rowsRun (o :: ops) r) with (rowsRun ops (rowsStep r o))].
  - unfold rowsRun. cbn [foldl]. rewrite Hr, bool_decide_false; [done|]. intros [H|H]; [by apply elem_of_nil in H|simpl in H; lia].
  - destruct o; cbn [rowsStep].
    + rewrite filter_cons_True by done. cbn [length]. unfold rowsNext. rewrite Hr. destruct (rrLeft r) as [|n] eqn:El.
      * rewrite rowsRun_closed by (unfold rowsDone; simpl; by case_match).
        rewrite bool_decide_true; [done|]. right. lia.
      * rewrite IH by done. simpl. apply bool_decide_ext. rewrite elem_of_cons. split; intros [H|H]; try (by left).
        -- left. by right.
        -- right. lia.
        -- destruct H as [H|H]; [done|by left].
        -- right. lia.
    + rewrite rowsRun_closed by (unfold rowsClose, rowsDone; simpl; by case_match).
      rewrite bool_decide_true; [done|]. left. left.
    + rewrite filter_cons_False by done. rewrite IH by done. apply bool_decide_ext. rewrite elem_of_cons.
      split; intros [H|H]; try (by right); left; [by right|by destruct H].
Qed.

(** A query's connection is released at most once, whatever the caller does, and exactly when
    the rows were closed or [Next] was called once more than there are rows. *)
Theorem rows_release_once (n : nat) (ops : list rowsOp) :
  rrReleases (rowsRun ops (newRows n)) =
    if bool_decide (RClose ∈ ops \/ (n < length (filter isNext ops))%nat) then 1 else 0.
Proof.
  destruct (rowsRun_inv ops (newRows n)) as [-> _]; [done|]. by rewrite rowsRun_open.
Qed.

(** A caller that stops early and forgets [Close] keeps the connection. *)
Lemma abandoned_rows_leak n k : (k <= n)%nat -> rrReleases (rowsRun (replicate k RNext) (newRows n)) = 0.
Proof.
  intros Hk. destruct (rowsRun_inv (replicate k RNext) (newRows n)) as [-> _]; [done|].
  rewrite rowsRun_open by done. rewrite bool_decide_false; [done|]. intros [H|H].
  - by apply elem_of_replicate_inv in H.
  - pose proof (length_filter isNext (replicate k RNext)) as Hl. rewrite length_replicate in Hl. simpl in H. lia.
Qed.
