(* ===== verification/NsCache.v ===== *)
(** * internal/database/cache.go: the namespace cache

    Cache-aside node metadata in Redis, keyed by a per-tenant generation that every
    mutation increments after its transaction commits.  Readers and mutators run
    concurrently: every Redis command, loader call, commit and increment is one event, and
    a run is a sequence of events.  The database is the list of its committed states,
    oldest first; [load] is the loader's SELECT.  A cached payload either decodes to a
    [NodeMeta] or is corrupt ([None]). *)
From S2P Require Import Prelude GoLib.

Record NodeMeta := mkMeta {
  nmNode : string; nmTenant : string; nmParent : option string; nmName : string;
  nmType : string; nmLineage : string; nmACLEpoch : Z
}.

Definition generationKey (tenant : string) : string := "aegis:ns:gen:" +:+ tenant.

Definition nodeKey (tenant : string) (generation : Z) (node : string) : string :=
  "aegis:ns:" +:+ tenant +:+ ":g" +:+ format_int generation +:+ ":" +:+ node.

Section cache.
Context {D : Type} (load : D -> string -> string -> option NodeMeta).

(** A call of [singleflight.Do] in progress: before or after its loader. *)
Inductive flight := FRun (tenant node : string) | FLoaded (m : NodeMeta).

(** A call of [GetNodeMetadata]: entered, generation read, bypassing the cache, waiting
    for the flight of its key, returned.  [f0] is the commit the caller has a right to
    see: the last one whose increment was answered when the call began. *)
Inductive reader :=
| RBegin (tenant node : string) (f0 : nat)
| RGen (tenant node : string) (f0 : nat) (gen : Z)
| RBypass (tenant node : string) (f0 : nat)
| RWait (tenant node : string) (f0 : nat) (key : string)
| RDone (tenant node : string) (f0 : nat) (r : result string NodeMeta).

Record nstate := mkNs {
  hist : list D;                        (* committed database states, oldest first *)
  genCtr : gmap string Z;               (* Redis: generation counters *)
  entries : gmap string (option NodeMeta); (* Redis: cached payloads *)
  flights : gmap string flight;         (* singleflight.Group *)
  readers : gmap nat reader;
  pending : list (string * nat);        (* committed mutations not yet incremented *)
  floors : gmap (string * Z) nat;       (* per generation: the newest incremented commit *)
  hits : Z; misses : Z
}.

Definition setReader (i : nat) (r : reader) (s : nstate) : nstate :=
  mkNs (hist s) (genCtr s) (entries s) (flights s) (<[i := r]> (readers s)) (pending s) (floors s)
       (hits s) (misses s).
Definition setFlights (f : gmap string flight) (s : nstate) : nstate :=
  mkNs (hist s) (genCtr s) (entries s) f (readers s) (pending s) (floors s) (hits s) (misses s).
Definition setReaders (r : gmap nat reader) (s : nstate) : nstate :=
  mkNs (hist s) (genCtr s) (entries s) (flights s) r (pending s) (floors s) (hits s) (misses s).
Definition setEntries (e : gmap string (option NodeMeta)) (s : nstate) : nstate :=
  mkNs (hist s) (genCtr s) e (flights s) (readers s) (pending s) (floors s) (hits s) (misses s).
Definition count (h m : Z) (s : nstate) : nstate :=
  mkNs (hist s) (genCtr s) (entries s) (flights s) (readers s) (pending s) (floors s)
       (hits s + h) (misses s + m).

(** [Stats]. *)
Definition cacheStats (s : nstate) : Z * Z := (hits s, misses s).

(** [generation]: a missing counter is generation 0. *)
Definition generation (tenant : string) (s : nstate) : Z :=
  default 0 (genCtr s !! generationKey tenant).

Definition floorOf (tenant : string) (g : Z) (s : nstate) : nat := default 0%nat (floors s !! (tenant, g)).

(** The loader reads the current database. *)
Definition loader (fault : option string) (tenant node : string) (s : nstate) : result string NodeMeta :=
  match fault, last (hist s) with
  | Some e, _ => Err e
  | None, None => Err "no database"
  | None, Some d => of_option (load d tenant node) "no rows in result set"
  end.

(** Everybody who waits for the key gets the flight's result. *)
Definition deliver (key : string) (res : result string NodeMeta) (r : reader) : reader :=
  match r with
  | RWait t n f0 k => if bool_decide (k = key) then RDone t n f0 res else r
  | _ => r
  end.

Definition endFlight (key : string) (res : result string NodeMeta) (s : nstate) : nstate :=
  setReaders (deliver key res <$> readers s) (setFlights (delete key (flights s)) s).

(** The miss path: join the flight of the key, or start it. *)
Definition joinFlight (i : nat) (tenant node : string) (f0 : nat) (key : string) (s : nstate) : nstate :=
  let s1 := count 0 1 (setReader i (RWait tenant node f0 key) s) in
  match flights s1 !! key with
  | Some _ => s1
  | None => setFlights (<[key := FRun tenant node]> (flights s1)) s1
  end.

Inductive event :=
| EvCall (i : nat) (tenant node : string)
| EvGeneration (i : nat) (fault : option string)
| EvGet (i : nat) (fault : option string)
| EvBypass (i : nat) (fault : option string)
| EvLoad (key : string) (fault : option string)
| EvSet (key : string) (fault : option string)
| EvCommit (tenant : string) (d : D)
| EvIncr (p : nat) (fault : option string)
| EvExpire (key : string).

(** One event of [GetNodeMetadata] ([EvGeneration], [EvGet], [EvBypass], [EvLoad], [EvSet]),
    of [BumpGeneration] ([EvIncr]), or of the world ([EvCall], [EvCommit], [EvExpire]);
    [None]: the event is not enabled. *)
Definition nstep (e : event) (s : nstate) : option nstate :=
  match e with
  | EvCall i t n =>
      match readers s !! i with
      | None => Some (setReader i (RBegin t n (floorOf t (generation t s) s)) s)
      | Some _ => None
      end
  | EvGeneration i fault =>
      match readers s !! i with
      | Some (RBegin t n f0) =>
          Some (setReader i (match fault with
                             | Some _ => RBypass t n f0
                             | None => RGen t n f0 (generation t s)
                             end) s)
      | _ => None
      end
  | EvGet i fault =>
      match readers s !! i with
      | Some (RGen t n f0 g) =>
          let key := nodeKey t g n in
          Some (match fault, entries s !! key with
                | Some _, _ => setReader i (RBypass t n f0) s
                | None, Some (Some m) => count 1 0 (setReader i (RDone t n f0 (Ok m)) s)
                | None, Some None => joinFlight i t n f0 key (count 1 0 s)
                | None, None => joinFlight i t n f0 key s
                end)
      | _ => None
      end
  | EvBypass i fault =>
      match readers s !! i with
      | Some (RBypass t n f0) => Some (setReader i (RDone t n f0 (loader fault t n s)) s)
      | _ => None
      end
  | EvLoad key fault =>
      match flights s !! key with
      | Some (FRun t n) =>
          Some (match loader fault t n s with
                | Ok m => setFlights (<[key := FLoaded m]> (flights s)) s
                | Err e => endFlight key (Err e) s
                end)
      | _ => None
      end
  | EvSet key fault =>
      match flights s !! key with
      | Some (FLoaded m) =>
          Some (endFlight key (Ok m)
                  (match fault with Some _ => s | None => setEntries (<[key := Some m]> (entries s)) s end))
      | _ => None
      end
  | EvCommit t d =>
      Some (mkNs (hist s ++ [d]) (genCtr s) (entries s) (flights s) (readers s)
                 ((t, length (hist s)) :: pending s) (floors s) (hits s) (misses s))
  | EvIncr p fault =>
      match pending s !! p with
      | None => None
      | Some (t, i) =>
          let rest := delete p (pending s) in
          match fault with
          | Some _ => Some (mkNs (hist s) (genCtr s) (entries s) (flights s) (readers s) rest (floors s)
                                 (hits s) (misses s))
          | None =>
              let g := generation t s in
              Some (mkNs (hist s) (<[generationKey t := g + 1]> (genCtr s)) (entries s) (flights s) (readers s)
                     rest (<[(t, g + 1) := Nat.max (floorOf t g s) i]> (floors s)) (hits s) (misses s))
          end
      end
  | EvExpire key => Some (setEntries (delete key (entries s)) s)
  end.

(** Tenants are identified by text without colons (they are UUIDs). *)
Definition goodEvent (e : event) : bool :=
  match e with
  | EvCall _ t _ | EvCommit t _ => str_forall no_colon t
  | _ => true
  end.

Inductive reachable (d0 : D) : nstate -> Prop :=
| reach_init : reachable d0 (mkNs [d0] ∅ ∅ ∅ ∅ [] ∅ 0 0)
| reach_step e s s' : reachable d0 s -> goodEvent e = true -> nstep e s = Some s' -> reachable d0 s'.

(** ** The invariant *)

(** [m] is the row of a state committed at or after [f]. *)
Definition seenSince (f : nat) (t n : string) (m : NodeMeta) (s : nstate) : Prop :=
  exists i d, (f <= i)%nat /\ hist s !! i = Some d /\ load d t n = Some m.

(** The key of a generation that was live at some time. *)
Definition ownKey (key t n : string) (g : Z) (s : nstate) : Prop :=
  key = nodeKey t g n /\ str_forall no_colon t = true /\ 0 <= g <= generation t s.

Definition readerOk (r : reader) (s : nstate) : Prop :=
  match r with
  | RBegin t n f0 | RBypass t n f0 => str_forall no_colon t = true /\ (f0 <= floorOf t (generation t s) s)%nat
  | RGen t n f0 g => str_forall no_colon t = true /\ 0 <= g <= generation t s /\ (f0 <= floorOf t g s)%nat
  | RWait t n f0 key => exists g, ownKey key t n g s /\ (f0 <= floorOf t g s)%nat
  | RDone t n f0 (Ok m) => seenSince f0 t n m s
  | RDone _ _ _ (Err _) => True
  end.

Record ninv (s : nstate) : Prop := {
  ni_gen : forall t, 0 <= generation t s;
  ni_mono : forall t g, 0 <= g < generation t s -> (floorOf t g s <= floorOf t (g + 1) s)%nat;
  ni_live : forall t, (floorOf t (generation t s) s < length (hist s))%nat;
  ni_pending : Forall (fun p => str_forall no_colon p.1 = true /\ (p.2 < length (hist s))%nat) (pending s);
  ni_entries : forall key m, entries s !! key = Some (Some m) ->
      exists t n g, ownKey key t n g s /\ seenSince (floorOf t g s) t n m s;
  ni_run : forall key t n, flights s !! key = Some (FRun t n) -> exists g, ownKey key t n g s;
  ni_loaded : forall key m, flights s !! key = Some (FLoaded m) ->
      exists t n g, ownKey key t n g s /\ seenSince (floorOf t g s) t n m s;
  ni_readers : forall i r, readers s !! i = Some r -> readerOk r s
}.

(** ** Lemmas *)

Lemma nodeKey_inj t g n t' g' n' :
  str_forall no_colon t = true -> str_forall no_colon t' = true ->
  nodeKey t g n = nodeKey t' g' n' -> t = t' /\ g = g' /\ n = n'.
Proof.
  intros Ht Ht' Hk. unfold nodeKey in Hk. apply (inj (String.append "aegis:ns:")) in Hk.
  change (":g" +:+ ?x) with (String ":" ("g" +:+ x)) in Hk.
  apply sep_join_inj in Hk as [-> Hk]; [|done..]. apply (inj (String.append "g")) in Hk.
  apply sep_join_inj in Hk as [Hg ->]; [|apply int_no_colon..]. by apply (inj pretty) in Hg as ->.
Qed.

Lemma generationKey_inj t t' : generationKey t = generationKey t' -> t = t'.
Proof. apply (inj (String.append "aegis:ns:gen:")). Qed.

Lemma ownKey_inj key t n g t' n' g' s :
  ownKey key t n g s -> ownKey key t' n' g' s -> t = t' /\ n = n' /\ g = g'.
Proof. intros (-> & ? & _) (Hk & ? & _). by apply nodeKey_inj in Hk as (-> & -> & ->). Qed.

Lemma floor_le s t g g' : ninv s -> 0 <= g -> g <= g' <= generation t s ->
  (floorOf t g s <= floorOf t g' s)%nat.
Proof.
  intros Hinv Hg Hle. assert (g' = g + Z.of_nat (Z.to_nat (g' - g))) as Heq by lia. rewrite Heq in *. clear Heq. revert Hle.
  generalize (Z.to_nat (g' - g)) as k. induction k as [|k IH]; intros Hk; [by rewrite Z.add_0_r|].
  etrans; [apply IH; lia|]. replace (g + Z.of_nat (S k)) with (g + Z.of_nat k + 1) by lia.
  apply (ni_mono s Hinv). lia.
Qed.

(** [s'] continues [s]: commits are appended, generations grow, old floors stay. *)
Definition ext (s s' : nstate) : Prop :=
  (exists l, hist s' = hist s ++ l) /\ (forall t, generation t s <= generation t s') /\
  (forall t g, g <= generation t s -> floorOf t g s' = floorOf t g s) /\
  (forall t, (floorOf t (generation t s) s <= floorOf t (generation t s') s')%nat).

Lemma ext_same s s' : hist s' = hist s -> genCtr s' = genCtr s -> floors s' = floors s -> ext s s'.
Proof.
  intros Hh Hg Hf. unfold ext, generation, floorOf. rewrite Hh, Hg, Hf.
  split_and!; [exists []; by rewrite app_nil_r|done..].
Qed.

Lemma seenSince_ext s s' f t n m : ext s s' -> seenSince f t n m s -> seenSince f t n m s'.
Proof.
  intros [[l Hl] _] (i & d & Hi & Hd & Hm). exists i, d. split_and!; [done| |done].
  rewrite Hl. by apply lookup_app_l_Some.
Qed.

Lemma ownKey_ext s s' key t n g : ext s s' -> ownKey key t n g s -> ownKey key t n g s'.
Proof. intros (_ & Hg & _) (-> & Ht & ?). split_and!; try done; try lia. specialize (Hg t). lia. Qed.

Lemma entry_ext s s' key m : ext s s' ->
  (exists t n g, ownKey key t n g s /\ seenSince (floorOf t g s) t n m s) ->
  exists t n g, ownKey key t n g s' /\ seenSince (floorOf t g s') t n m s'.
Proof.
  intros He (t & n & g & Hk & Hs). exists t, n, g. split; [by eapply ownKey_ext|].
  pose proof He as (_ & _ & Hf & _). rewrite Hf by apply Hk. by eapply seenSince_ext.
Qed.

Lemma readerOk_ext s s' r : ext s s' -> readerOk r s -> readerOk r s'.
Proof.
  intros He. pose proof He as (_ & Hg & Hf & Hl).
  destruct r as [t n f0|t n f0 g|t n f0|t n f0 key|t n f0 [m|e]]; simpl.
  - intros [? ?]. split; [done|]. specialize (Hl t). lia.
  - intros (? & ? & ?). specialize (Hg t). rewrite Hf by lia. split_and!; try done; lia.
  - intros [? ?]. split; [done|]. specialize (Hl t). lia.
  - intros (g & Hk & ?). exists g. rewrite Hf by apply Hk. split; [by eapply ownKey_ext|done].
  - by apply seenSince_ext.
  - done.
Qed.

(** The invariant survives every change that continues the state and whose new entries,
    flights and readers are accounted for. *)
Lemma ninv_step s s' :
  ninv s -> ext s s' -> (forall t, 0 <= generation t s') ->
  (forall t g, 0 <= g < generation t s' -> (floorOf t g s' <= floorOf t (g + 1) s')%nat) ->
  (forall t, (floorOf t (generation t s') s' < length (hist s'))%nat) ->
  Forall (fun p => str_forall no_colon p.1 = true /\ (p.2 < length (hist s'))%nat) (pending s') ->
  (forall key m, entries s' !! key = Some (Some m) -> entries s !! key = Some (Some m) \/
     exists t n g, ownKey key t n g s' /\ seenSince (floorOf t g s') t n m s') ->
  (forall key t n, flights s' !! key = Some (FRun t n) ->
     flights s !! key = Some (FRun t n) \/ exists g, ownKey key t n g s') ->
  (forall key m, flights s' !! key = Some (FLoaded m) -> flights s !! key = Some (FLoaded m) \/
     exists t n g, ownKey key t n g s' /\ seenSince (floorOf t g s') t n m s') ->
  (forall i r, readers s' !! i = Some r -> readers s !! i = Some r \/ readerOk r s') ->
  ninv s'.
Proof.
  intros Hinv He Hgen Hmono Hlive Hpend Hent Hrun Hload Hread. constructor; try done.
  - intros key m [Hm|Hm]%Hent; [|done]. eapply entry_ext; [done|]. by apply (ni_entries s Hinv).
  - intros key t n [Hm|Hm]%Hrun; [|done]. apply (ni_run s Hinv) in Hm as [g Hk]. exists g. by eapply ownKey_ext.
  - intros key m [Hm|Hm]%Hload; [|done]. eapply entry_ext; [done|]. by apply (ni_loaded s Hinv).
  - intros i r [Hm|Hm]%Hread; [|done]. eapply readerOk_ext; [done|]. by apply (ni_readers s Hinv i).
Qed.

(** Changes that leave database, generations and pending increments alone. *)
Lemma ninv_local s s' :
  ninv s -> hist s' = hist s -> genCtr s' = genCtr s -> floors s' = floors s -> pending s' = pending s ->
  (forall key m, entries s' !! key = Some (Some m) -> entries s !! key = Some (Some m) \/
     exists t n g, ownKey key t n g s /\ seenSince (floorOf t g s) t n m s) ->
  (forall key t n, flights s' !! key = Some (FRun t n) ->
     flights s !! key = Some (FRun t n) \/ exists g, ownKey key t n g s) ->
  (forall key m, flights s' !! key = Some (FLoaded m) -> flights s !! key = Some (FLoaded m) \/
     exists t n g, ownKey key t n g s /\ seenSince (floorOf t g s) t n m s) ->
  (forall i r, readers s' !! i = Some r -> readers s !! i = Some r \/ readerOk r s) ->
  ninv s'.
Proof.
  intros Hinv Hh Hg Hf Hp Hent Hrun Hload Hread. pose proof (ext_same s s' Hh Hg Hf) as He.
  assert (forall t, generation t s' = generation t s) as Eg by (intros t; unfold generation; by rewrite Hg).
  assert (forall t g, floorOf t g s' = floorOf t g s) as Ef by (intros t g; unfold floorOf; by rewrite Hf).
  eapply (ninv_step s s'); try done.
  - intros t. rewrite Eg. apply (ni_gen s Hinv).
  - intros t g. rewrite Eg, !Ef. apply (ni_mono s Hinv).
  - intros t. rewrite Eg, Ef, Hh. apply (ni_live s Hinv).
  - rewrite Hp, Hh. apply (ni_pending s Hinv).
  - intros key m [Hm|Hm]%Hent; [by left|right]. by eapply entry_ext.
  - intros key t n [Hm|[g Hm]]%Hrun; [by left|right]. exists g. by eapply ownKey_ext.
  - intros key m [Hm|Hm]%Hload; [by left|right]. by eapply entry_ext.
  - intros i r [Hm|Hm]%Hread; [by left|right]. by eapply readerOk_ext.
Qed.

(** What the loader returns now is recent enough for every live or past generation. *)
Lemma loader_fresh s t n g fault m :
  ninv s -> 0 <= g <= generation t s -> loader fault t n s = Ok m -> seenSince (floorOf t g s) t n m s.
Proof.
  intros Hinv Hg Hl. unfold loader in Hl. destruct fault; [done|].
  destruct (last (hist s)) as [d|] eqn:Hd; [|done]. apply of_option_ok in Hl.
  rewrite last_lookup in Hd. exists (Nat.pred (length (hist s))), d. split_and!; try done.
  pose proof (floor_le s t g (generation t s) Hinv ltac:(lia) ltac:(lia)).
  pose proof (ni_live s Hinv t). lia.
Qed.

(** The reader [i] of a state after it moved. *)
Lemma readers_insert i r s j r' :
  readers (setReader i r s) !! j = Some r' -> readers s !! j = Some r' \/ r' = r.
Proof.
  simpl. destruct (decide (i = j)) as [->|Hne]; [rewrite lookup_insert_eq | rewrite lookup_insert_ne by done];
    intros; simplify_eq; auto.
Qed.

Lemma ninv_count h m s : ninv s -> ninv (count h m s).
Proof. intros Hinv. apply (ninv_local s); try done; by left. Qed.

Lemma ninv_setReader i r s : ninv s -> readerOk r s -> ninv (setReader i r s).
Proof.
  intros Hinv Hr. apply (ninv_local s); try done; try by left.
  intros j r' [Hj| ->]%readers_insert; auto.
Qed.

Lemma ninv_endFlight key res s :
  ninv s -> (forall t n f0, readerOk (RWait t n f0 key) s -> readerOk (RDone t n f0 res) s) ->
  ninv (endFlight key res s).
Proof.
  intros Hinv Hres. apply (ninv_local s); try done; try by left.
  - intros k t n. simpl. rewrite lookup_delete_Some. intros [_ ?]. by left.
  - intros k m. simpl. rewrite lookup_delete_Some. intros [_ ?]. by left.
  - intros i r. simpl. rewrite lookup_fmap. destruct (readers s !! i) as [r0|] eqn:Hr; [|done].
    simpl. intros. simplify_eq. pose proof (ni_readers s Hinv i _ Hr) as Hok.
    destruct r0; simpl; auto. case_bool_decide; [|auto]. subst. right. by apply Hres.
Qed.

Lemma ninv_joinFlight i t n f0 g s :
  ninv s -> ownKey (nodeKey t g n) t n g s -> (f0 <= floorOf t g s)%nat ->
  ninv (joinFlight i t n f0 (nodeKey t g n) s).
Proof.
  intros Hinv Hk Hf. assert (ninv (count 0 1 (setReader i (RWait t n f0 (nodeKey t g n)) s))) as H1
    by (apply ninv_count, ninv_setReader; [done|exists g; done]).
  unfold joinFlight. case_match eqn:E; [done|]. apply (ninv_local _ _ H1); try done; try by left.
  - intros k t' n'. simpl. rewrite lookup_insert_Some. intros [[<- Hx]|[_ Hx]]; [right|by left].
    simplify_eq. exists g. exact Hk.
  - intros k m. simpl. rewrite lookup_insert_Some. intros [[<- Hx]|[_ Hx]]; [done|by left].
Qed.

Lemma ninv_get i t n f0 g fault s s' :
  ninv s -> readers s !! i = Some (RGen t n f0 g) -> nstep (EvGet i fault) s = Some s' -> ninv s'.
Proof.
  intros Hinv Hr Hs. simpl in Hs. rewrite Hr in Hs.
  pose proof (ni_readers s Hinv i _ Hr) as (Ht & Hg & Hf). injection Hs as <-.
  assert (ownKey (nodeKey t g n) t n g s) as Hk by done.
  destruct fault as [e|].
  { apply ninv_setReader; [done|].
    split; [done|]. etrans; [exact Hf|]. apply floor_le; [done|lia|lia]. }
  destruct (entries s !! nodeKey t g n) as [[m|]|] eqn:He.
  - apply ninv_count, ninv_setReader; [done|]. simpl.
    destruct (ni_entries s Hinv _ _ He) as (t' & n' & g' & Hk' & i' & d & Hi & Hrest).
    destruct (ownKey_inj _ _ _ _ _ _ _ _ Hk Hk') as (<- & <- & <-). exists i', d. split; [lia|done].
  - apply ninv_joinFlight; [by apply ninv_count|done|done].
  - by apply ninv_joinFlight.
Qed.

Lemma ninv_incr t k p s s' :
  ninv s -> pending s !! p = Some (t, k) -> nstep (EvIncr p None) s = Some s' -> ninv s'.
Proof.
  intros Hinv Hp Hs. simpl in Hs. rewrite Hp in Hs. injection Hs as Hs.
  pose proof (Forall_lookup_1 _ _ _ _ (ni_pending s Hinv) Hp) as [Ht Hk]. simpl in Ht, Hk.
  assert (generation t s' = generation t s + 1) as Hgt
    by (subst s'; unfold generation; simpl; by rewrite lookup_insert_eq).
  assert (forall t', t' <> t -> generation t' s' = generation t' s) as Hgo.
  { intros t' Hne. subst s'. unfold generation. simpl. rewrite lookup_insert_ne; [done|].
    intros He. by apply generationKey_inj in He. }
  assert (forall t' g, (t', g) <> (t, generation t s + 1) -> floorOf t' g s' = floorOf t' g s) as Hfo
    by (intros t' g Hne; subst s'; unfold floorOf; simpl; rewrite lookup_insert_ne; [done|congruence]).
  assert (floorOf t (generation t s + 1) s' = Nat.max (floorOf t (generation t s) s) k) as Hfn
    by (subst s'; unfold floorOf; simpl; by rewrite lookup_insert_eq).
  assert (hist s' = hist s) as Hh by by subst s'.
  assert (ext s s') as He.
  { split_and!.
    - exists []. by rewrite app_nil_r.
    - intros t'. destruct (decide (t' = t)) as [->|Hne]; [lia|]. by rewrite Hgo.
    - intros t' g Hle. apply Hfo. intros Heq. simplify_eq. lia.
    - intros t'. destruct (decide (t' = t)) as [->|Hne]; [rewrite Hgt, Hfn; lia|].
      rewrite Hgo by done. rewrite Hfo; [done|congruence]. }
  eapply (ninv_step s s'); try done; try (by subst s'; left).
  - intros t'. destruct (decide (t' = t)) as [->|Hne]; [pose proof (ni_gen s Hinv t); lia|].
    rewrite Hgo by done. apply (ni_gen s Hinv).
  - intros t' g Hg. destruct (decide (t' = t)) as [->|Hne].
    + rewrite Hgt in Hg. destruct (decide (g = generation t s)) as [->|Hg'].
      * rewrite Hfn, Hfo by (intros Heq; simplify_eq; lia). lia.
      * rewrite !Hfo by (intros Heq; simplify_eq; lia). apply (ni_mono s Hinv). lia.
    + rewrite Hgo in Hg by done. rewrite !Hfo by congruence. by apply (ni_mono s Hinv).
  - intros t'. rewrite Hh. destruct (decide (t' = t)) as [->|Hne].
    + rewrite Hgt, Hfn. pose proof (ni_live s Hinv t). lia.
    + rewrite Hgo, Hfo by congruence. apply (ni_live s Hinv).
  - rewrite Hh. subst s'. simpl. apply Forall_delete, (ni_pending s Hinv).
Qed.

Lemma ninv_set key fault m s s' :
  ninv s -> flights s !! key = Some (FLoaded m) -> nstep (EvSet key fault) s = Some s' -> ninv s'.
Proof.
  intros Hinv Hfl Hs. simpl in Hs. rewrite Hfl in Hs. injection Hs as <-.
  pose proof (ni_loaded s Hinv _ _ Hfl) as Hm.
  apply ninv_endFlight.
  - destruct fault; [done|]. apply (ninv_local s); try done; try by left.
    intros k m'. simpl. rewrite lookup_insert_Some. intros [[<- ?]|[_ ?]]; [right|by left]. by simplify_eq.
  - assert (forall s1, hist s1 = hist s -> genCtr s1 = genCtr s -> floors s1 = floors s ->
      forall t n f0, readerOk (RWait t n f0 key) s1 -> readerOk (RDone t n f0 (Ok m)) s1) as Hdel.
    { intros s1 E1 E2 E3 t n f0 (g & Hk & Hf).
      pose proof (entry_ext s s1 key m (ext_same s s1 E1 E2 E3) Hm) as (t' & n' & g' & Hk' & j & d & Hj & Hd).
      destruct (ownKey_inj _ _ _ _ _ _ _ _ Hk Hk') as (<- & <- & <-). exists j, d. split; [lia|done]. }
    destruct fault; by apply Hdel.
Qed.

Lemma ninv_commit t d s s' :
  ninv s -> str_forall no_colon t = true -> nstep (EvCommit t d) s = Some s' -> ninv s'.
Proof.
  intros Hinv Hgood Hs. simpl in Hs. injection Hs as <-.
  apply (ninv_step s); try done; try by left.
  - split_and!; [by exists [d]|done..].
  - apply (ni_gen s Hinv).
  - apply (ni_mono s Hinv).
  - intros t'. simpl. rewrite length_app. simpl. pose proof (ni_live s Hinv t') as Hl.
    unfold floorOf, generation in *. simpl in *. lia.
  - simpl. rewrite length_app. simpl. constructor; [split; [done|simpl; lia]|].
    eapply Forall_impl; [apply (ni_pending s Hinv)|]. intros [? ?] [? ?]. simpl in *. split; [done|lia].
Qed.

Lemma ninv_preserved e s s' : ninv s -> goodEvent e = true -> nstep e s = Some s' -> ninv s'.
Proof.
  intros Hinv Hgood Hs. destruct e as [i t n|i fault|i fault|i fault|key fault|key fault|t d|p fault|key]; simpl in *.
  - destruct (readers s !! i); [done|]. simplify_eq.
    by apply ninv_setReader.
  - destruct (readers s !! i) as [[t n f0| | | |]|] eqn:Hr; try done. simplify_eq.
    pose proof (ni_readers s Hinv i _ Hr) as [Ht Hf].
    apply ninv_setReader; [done|]. pose proof (ni_gen s Hinv t). destruct fault; split_and!; done.
  - destruct (readers s !! i) as [[| t n f0 g| | |]|] eqn:Hr; try done.
    eapply (ninv_get i t n f0 g fault s s' Hinv Hr). simpl. by rewrite Hr.
  - destruct (readers s !! i) as [[| |t n f0| |]|] eqn:Hr; try done. simplify_eq.
    pose proof (ni_readers s Hinv i _ Hr) as [Ht Hf].
    apply ninv_setReader; [done|].
    simpl. destruct (loader fault t n s) as [m|] eqn:Hl; [|done]. pose proof (ni_gen s Hinv t).
    destruct (loader_fresh s t n (generation t s) fault m Hinv ltac:(lia) Hl) as (k & d & Hk & Hrest).
    exists k, d. split; [lia|done].
  - destruct (flights s !! key) as [[t n|]|] eqn:Hfl; try done. simplify_eq.
    destruct (ni_run s Hinv _ _ _ Hfl) as [g Hk]. destruct (loader fault t n s) as [m|e] eqn:Hl.
    + apply (ninv_local s); try done; try by left.
      * intros k t' n'. simpl. rewrite lookup_insert_Some. intros [[_ ?]|[_ ?]]; [done|by left].
      * intros k m'. simpl. rewrite lookup_insert_Some. intros [[<- ?]|[_ ?]]; [right|by left]. simplify_eq.
        exists t, n, g. split; [done|]. eapply loader_fresh; [done|apply Hk|done].
    + apply ninv_endFlight; [done|]. done.
  - destruct (flights s !! key) as [[|m]|] eqn:Hfl; try done.
    eapply (ninv_set key fault m s s' Hinv Hfl). simpl. by rewrite Hfl.
  - by eapply (ninv_commit t d s s').
  - destruct (pending s !! p) as [[t k]|] eqn:Hp; [|done]. destruct fault as [e|].
    + simplify_eq. apply (ninv_step s); try done; try by left.
      * by apply ext_same.
      * apply (ni_gen s Hinv).
      * apply (ni_mono s Hinv).
      * apply (ni_live s Hinv).
      * simpl. apply Forall_delete, (ni_pending s Hinv).
    + eapply ninv_incr; [done|done|]. simpl. by rewrite Hp.
  - simplify_eq. apply (ninv_local s); try done; try by left.
    intros k m. simpl. rewrite lookup_delete_Some. intros [_ ?]. by left.
Qed.

Lemma reachable_ninv d0 s : reachable d0 s -> ninv s.
Proof.
  induction 1 as [|e s s' _ IH Hg Hs]; [|by eapply ninv_preserved].
  constructor; unfold generation, floorOf; simpl; intros; rewrite ?lookup_empty in *; simpl in *; try done; lia.
Qed.

(** ** Runs *)

(** A sequence of events, all enabled. *)
Fixpoint nrun (es : list event) (s : nstate) : option nstate :=
  match es with
  | [] => Some s
  | e :: es' => s1 ← nstep e s; nrun es' s1
  end.

Lemma reachable_run d0 es s s' :
  reachable d0 s -> forallb goodEvent es = true -> nrun es s = Some s' -> reachable d0 s'.
Proof.
  revert s. induction es as [|e es IH]; intros s Hr Hg Hs; simpl in *; [by simplify_eq|].
  apply andb_true_iff in Hg as [Hg1 Hg2]. destruct (nstep e s) as [s1|] eqn:E; [|done]. simpl in Hs.
  eapply IH; [|done|done]. by eapply reach_step.
Qed.

(** Acknowledged mutations stay acknowledged. *)
Lemma floor_step e s s' t : nstep e s = Some s' ->
  (floorOf t (generation t s) s <= floorOf t (generation t s') s')%nat.
Proof.
  intros Hs. destruct e; simpl in Hs; repeat case_match; simplify_eq; try done.
  all: try (unfold joinFlight; case_match; done).
  match goal with |- context [generationKey ?u] => destruct (decide (t = u)) as [->|Hne] end.
  - unfold generation at 2. simpl. rewrite lookup_insert_eq. simpl.
    unfold floorOf at 2. simpl. rewrite lookup_insert_eq. simpl. lia.
  - unfold generation at 2. simpl. rewrite lookup_insert_ne by (intros He; by apply generationKey_inj in He).
    unfold floorOf at 2. simpl. rewrite lookup_insert_ne by congruence. done.
Qed.

Lemma floor_run es s s' t : nrun es s = Some s' ->
  (floorOf t (generation t s) s <= floorOf t (generation t s') s')%nat.
Proof.
  revert s. induction es as [|e es IH]; intros s Hs; simpl in *; [by simplify_eq|].
  destruct (nstep e s) as [s1|] eqn:E; [|done]. etrans; [by eapply floor_step|]. by apply IH.
Qed.

(** What a call is about never changes. *)
Definition subject (r : reader) : string * string * nat :=
  match r with
  | RBegin t n f0 | RGen t n f0 _ | RBypass t n f0 | RWait t n f0 _ | RDone t n f0 _ => (t, n, f0)
  end.

Lemma deliver_subject key res r : subject (deliver key res r) = subject r.
Proof. destruct r; simpl; try done. by case_bool_decide. Qed.

Lemma setReader_subject i r s j r0 : subject r = subject r0 -> readers s !! i = Some r0 ->
  subject <$> readers (setReader i r s) !! j = subject <$> readers s !! j.
Proof.
  intros Hs Hi. simpl. destruct (decide (i = j)) as [->|Hne].
  - rewrite lookup_insert_eq, Hi. simpl. by rewrite Hs.
  - by rewrite lookup_insert_ne.
Qed.

Lemma subject_step e s s' i r : nstep e s = Some s' -> readers s !! i = Some r ->
  exists r', readers s' !! i = Some r' /\ subject r' = subject r.
Proof.
  intros Hs Hi. cut (subject <$> readers s' !! i = subject <$> readers s !! i).
  { rewrite Hi. simpl. destruct (readers s' !! i) as [r'|]; [|done]. simpl. intros. simplify_eq. eauto. }
  assert (forall key res, subject <$> (deliver key res <$> readers s) !! i = subject <$> readers s !! i) as Hd.
  { intros key res. rewrite lookup_fmap, <- option_fmap_compose. destruct (readers s !! i); [|done].
    simpl. by rewrite deliver_subject. }
  destruct e as [j t n|j fault|j fault|j fault|key fault|key fault|t d|p fault|key]; simpl in Hs.
  - destruct (readers s !! j) eqn:Hj; [done|]. simplify_eq. simpl. by rewrite lookup_insert_ne by congruence.
  - destruct (readers s !! j) as [[| | | |]|] eqn:Hj; try done. simplify_eq.
    eapply setReader_subject; [|exact Hj]. by destruct fault.
  - destruct (readers s !! j) as [[|t n f0 g| | |]|] eqn:Hj; try done.
    assert (forall k s0, readers s0 = readers s ->
      subject <$> readers (joinFlight j t n f0 k s0) !! i = subject <$> readers s !! i) as Hjoin.
    { intros k s0 He. rewrite <- (setReader_subject j (RWait t n f0 k) s i (RGen t n f0 g) eq_refl Hj). simpl.
      unfold joinFlight. destruct (flights _ !! k); simpl; by rewrite He. }
    injection Hs as <-.
    destruct fault; [exact (setReader_subject j (RBypass t n f0) s i (RGen t n f0 g) eq_refl Hj)|].
    destruct (entries s !! nodeKey t g n) as [[m|]|]; [|by apply Hjoin..].
    by apply (setReader_subject j (RDone t n f0 (Ok m)) s i (RGen t n f0 g) eq_refl Hj).
  - destruct (readers s !! j) as [[| | | |]|] eqn:Hj; try done. simplify_eq.
    eapply setReader_subject; [|exact Hj]. done.
  - destruct (flights s !! key) as [[]|]; try done. simplify_eq. case_match; simpl; [done|apply Hd].
  - destruct (flights s !! key) as [[]|]; try done. simplify_eq. destruct fault; simpl; apply Hd.
  - by simplify_eq.
  - repeat case_match; by simplify_eq.
  - by simplify_eq.
Qed.

Lemma subject_run es s s' i r : nrun es s = Some s' -> readers s !! i = Some r ->
  exists r', readers s' !! i = Some r' /\ subject r' = subject r.
Proof.
  revert s r. induction es as [|e es IH]; intros s r Hs Hi; simpl in *; [simplify_eq; eauto|].
  destruct (nstep e s) as [s1|] eqn:E; [|done]. destruct (subject_step _ _ _ _ _ E Hi) as (r1 & H1 & <-).
  by apply (IH s1).
Qed.

End cache.

(** ** Properties *)

(** C30. An acknowledged mutation is visible at once: in every interleaving of readers,
    shared loaders, commits, increments, expiries and Redis faults, if a mutation of the
    tenant was committed as database state [k] and its generation increment was answered
    before a call of [GetNodeMetadata] began, then metadata returned by that call, from
    the cache, from another reader's loader or from its own, is the row of state [k] or
    of a later one. *)
Theorem acknowledged_mutation_visible {D : Type} (load : D -> string -> string -> option NodeMeta)
    (d0 : D) (es1 es2 : list (@event D)) (s s1 s2 s3 s4 : @nstate D) (p i k : nat) (t n u v : string) (f0 : nat)
    (m : NodeMeta) (Hreach : reachable load d0 s)
    (Hgood : forallb goodEvent (es1 ++ EvCall i t n :: es2) = true)
    (Hpending : pending s !! p = Some (t, k)) (Hincr : nstep load (EvIncr p None) s = Some s1)
    (Hbefore : nrun load es1 s1 = Some s2) (Hcall : nstep load (EvCall i t n) s2 = Some s3)
    (Hafter : nrun load es2 s3 = Some s4) (Hdone : readers s4 !! i = Some (RDone u v f0 (Ok m))) :
  u = t /\ v = n /\ exists j d, (k <= j)%nat /\ hist s4 !! j = Some d /\ load d t n = Some m.
Proof.
  rewrite forallb_app in Hgood. simpl in Hgood. bool_hyps.
  assert (reachable load d0 s4) as Hr4.
  { eapply (reachable_run _ _ es2); [|done|done]. eapply reach_step; [|by instantiate (1 := EvCall i t n)|done].
    eapply (reachable_run _ _ es1); [|done|done]. eapply reach_step; [done|by instantiate (1 := EvIncr p None)|done]. }
  assert (k <= floorOf t (generation t s1) s1)%nat as Hk.
  { simpl in Hincr. rewrite Hpending in Hincr. injection Hincr as <-. unfold generation. simpl.
    rewrite lookup_insert_eq. simpl. unfold floorOf. simpl. rewrite lookup_insert_eq. simpl. lia. }
  pose proof (floor_run load es1 s1 s2 t Hbefore) as Hfl.
  assert (readers s3 !! i = Some (RBegin t n (floorOf t (generation t s2) s2))) as H3.
  { simpl in Hcall. destruct (readers s2 !! i); [done|]. simplify_eq. simpl. by rewrite lookup_insert_eq. }
  destruct (subject_run load es2 s3 s4 i _ Hafter H3) as (r & Hr & Hs). rewrite Hdone in Hr. simplify_eq/=.
  split_and!; try done.
  destruct (ni_readers load s4 (reachable_ninv load d0 s4 Hr4) i _ Hdone) as (j & d & Hj & Hd).
  exists j, d. split; [lia|done].
Qed.

(** ** Witness *)

Definition demoLoad (d : Z) (t n : string) : option NodeMeta := Some (mkMeta n t None "name" "FILE" "" d).
Definition demoNs : @nstate Z := mkNs [0] ∅ ∅ ∅ ∅ [] ∅ 0 0.
Definition after (es : list (@event Z)) (s : @nstate Z) : @nstate Z := default s (nrun demoLoad es s).

(** A reader fills the cache, then the row changes. *)
Definition demoFill : list (@event Z) :=
  [EvCall 0 "t" "n"; EvGeneration 0 None; EvGet 0 None; EvLoad (nodeKey "t" 0 "n") None;
   EvSet (nodeKey "t" 0 "n") None; EvCommit "t" 1].
Definition demoRead : list (@event Z) :=
  [EvGeneration 1 None; EvGet 1 None; EvLoad (nodeKey "t" 1 "n") None; EvSet (nodeKey "t" 1 "n") None].

Lemma acknowledged_mutation_visible_witness :
  exists m, readers (after demoRead (after [EvCall 1 "t" "n"] (after [EvIncr 0 None] (after demoFill demoNs)))) !! 1%nat
      = Some (RDone "t" "n" 1 (Ok m)) /\
    exists j d, (1 <= j)%nat /\ hist (after demoRead (after [EvCall 1 "t" "n"] (after [EvIncr 0 None]
      (after demoFill demoNs)))) !! j = Some d /\ demoLoad d "t" "n" = Some m.
Proof.
  exists (mkMeta "n" "t" None "name" "FILE" "" 1). split; [vm_compute; reflexivity|].
  destruct (acknowledged_mutation_visible demoLoad 0 [] demoRead (after demoFill demoNs)
    (after [EvIncr 0 None] (after demoFill demoNs)) (after [EvIncr 0 None] (after demoFill demoNs))
    (after [EvCall 1 "t" "n"] (after [EvIncr 0 None] (after demoFill demoNs)))
    (after demoRead (after [EvCall 1 "t" "n"] (after [EvIncr 0 None] (after demoFill demoNs))))
    0 1 1 "t" "n" "t" "n" 1 (mkMeta "n" "t" None "name" "FILE" "" 1)) as (_ & _ & H).
  - apply (reachable_run demoLoad 0 demoFill demoNs); [constructor|reflexivity|vm_compute; reflexivity].
  - reflexivity.
  - vm_compute. reflexivity.
  - vm_compute. reflexivity.
  - reflexivity.
  - vm_compute. reflexivity.
  - vm_compute. reflexivity.
  - vm_compute. reflexivity.
  - exact H.
Defined.
