(* ===== verification/Schema.v ===== *)
(** * db/: the tables, triggers and statements the Go stores execute

    The tables of [schema.sql] that the stores touch, the triggers and procedures of
    [stored-procedures.sql] that maintain them, and one function per SQL statement.  A
    statement returns the error Postgres raises (its SQLSTATE) or its rows and the new
    tables; a failing statement changes nothing.  Values the server generates
    ([gen_random_uuid()]) are arguments. *)
From stdpp Require Import sorting.
From S2P Require Import Prelude GoLib External Database.

Section schema.
Context `{U : UUID}.

Record casRow := mkCas {
  c_tenant : uuid; c_size : Z; c_tier : string; c_ref : Z; c_verified : bool;
  c_created : Z; c_updated : Z
}.

Record manRow := mkMan { m_hash : string; m_offset : Z; m_size : Z }.
Record verRow := mkVer { v_node : uuid; v_number : Z; v_size : Z; v_sha : string; v_by : uuid }.
(** [n_path] is the [ltree] column: its labels from the root down. *)
Record nodeRow := mkNode { n_tenant : uuid; n_parent : option uuid; n_name : string;
  n_type : string; n_deleted : bool; n_path : list string; n_epoch : Z }.
Record aclRow := mkAcl { a_tenant : uuid; a_node : uuid; a_ptype : string; a_principal : uuid;
  a_role : string; a_by : uuid; a_expires : option Z; a_granted : Z }.
Record sesRow := mkSes { ss_tenant : uuid; ss_node : option uuid; ss_status : string;
  ss_total : Z; ss_expected : Z; ss_received : Z; ss_expires : Z; ss_done : bool }.
Record tenantRow := mkTenant { t_quota : Z; t_used : Z }.

(** [db_status]: the table [upload_sessions] has a [status] column; [db_lease]: the default
    of its [expires_at] column, if it has one.  The Go statements need both; [schema.sql]
    declares neither; [ss_done] is its column [is_completed]. *)
Record db := mkDb {
  cas : gmap string casRow;
  manifests : gmap (uuid * Z) manRow;
  fversions : gmap uuid verRow;
  nodes : gmap uuid nodeRow;
  sessions : gmap uuid sesRow;
  tenantsT : gmap uuid tenantRow;
  db_status : bool;
  db_lease : option Z;
  acls : gmap uuid aclRow
}.

Definition setCas (m : gmap string casRow) (d : db) : db :=
  mkDb m (manifests d) (fversions d) (nodes d) (sessions d) (tenantsT d) (db_status d) (db_lease d) (acls d).
Definition setManifests (m : gmap (uuid * Z) manRow) (d : db) : db :=
  mkDb (cas d) m (fversions d) (nodes d) (sessions d) (tenantsT d) (db_status d) (db_lease d) (acls d).
Definition setVersions (m : gmap uuid verRow) (d : db) : db :=
  mkDb (cas d) (manifests d) m (nodes d) (sessions d) (tenantsT d) (db_status d) (db_lease d) (acls d).
Definition setNodes (m : gmap uuid nodeRow) (d : db) : db :=
  mkDb (cas d) (manifests d) (fversions d) m (sessions d) (tenantsT d) (db_status d) (db_lease d) (acls d).
Definition setSessions (m : gmap uuid sesRow) (d : db) : db :=
  mkDb (cas d) (manifests d) (fversions d) (nodes d) m (tenantsT d) (db_status d) (db_lease d) (acls d).

Definition setAcls (m : gmap uuid aclRow) (d : db) : db :=
  mkDb (cas d) (manifests d) (fversions d) (nodes d) (sessions d) (tenantsT d) (db_status d) (db_lease d) m.

Definition pg (code : string) : dberr := [EPg code].
Definition check_violation : dberr := pg "23514".
Definition unique_violation : dberr := pg "23505".
Definition foreign_key_violation : dberr := pg "23503".
Definition not_null_violation : dberr := pg "23502".
Definition undefined_column : dberr := pg "42703".

Definition is_int32 (z : Z) : bool := (- 2 ^ 31 <=? z) && (z <? 2 ^ 31).

(** ** cas_blocks *)

(** One row of [INSERT INTO cas_blocks ... ON CONFLICT (block_hash) DO NOTHING]: the checks
    run for every row, the foreign key only for a row that is really inserted.  The
    boolean says whether it was. *)
Definition cas_insert1 (now rc : Z) (h : string) (tenant : uuid) (size : Z) (d : db)
    : result dberr (bool * db) :=
  _ ← require (is_int32 size) (pg "22003");
  _ ← require ((slen h =? 32) && (0 <? size) && (0 <=? rc)) check_violation;
  match cas d !! h with
  | Some _ => Ok (false, d)
  | None =>
      _ ← require (bool_decide (is_Some (tenantsT d !! tenant))) foreign_key_violation;
      Ok (true, setCas (<[h := mkCas tenant size "HOT" rc false now now]> (cas d)) d)
  end.

Fixpoint cas_insert (now rc : Z) (rows : list (string * uuid * Z)) (d : db) : result dberr (Z * db) :=
  match rows with
  | [] => Ok (0, d)
  | (h, tenant, size) :: rows' =>
      '(new, d1) ← cas_insert1 now rc h tenant size d;
      '(n, d2) ← cas_insert now rc rows' d1;
      Ok ((if new : bool then 1 else 0) + n, d2)
  end.

(** [DELETE FROM cas_blocks WHERE block_hash = ANY(hashes) AND ref_count = 0]; the foreign
    key of [file_manifest_blocks] is [ON DELETE RESTRICT]. *)
Definition cas_delete_unreferenced (hashes : list string) (d : db) : result dberr (Z * db) :=
  let gone := filter (fun kv => kv.1 ∈ hashes /\ c_ref kv.2 = 0) (cas d) in
  _ ← require (bool_decide (map_Forall (fun _ r => gone !! m_hash r = None) (manifests d)))
              foreign_key_violation;
  Ok (Z.of_nat (size gone), setCas (cas d ∖ gone) d).

(** [SELECT ... FROM cas_blocks WHERE ref_count = 0 AND created_at < NOW() - window
    ORDER BY created_at LIMIT n]. *)
Definition older_le (a b : string * casRow) : Prop := c_created a.2 <= c_created b.2.
#[global] Instance older_le_dec : RelDecision older_le := fun a b => Z.le_dec _ _.

Definition cas_find_orphans (now window : Z) (limit : Z) (d : db) : list (string * casRow) :=
  ztake limit (merge_sort older_le
    (map_to_list (filter (fun kv => c_ref kv.2 = 0 /\ c_created kv.2 < now - window) (cas d)))).

(** The functions the database offers for collection; the count is of the rows deleted. *)
Definition gc_find_unreferenced (now older_than limit : Z) (d : db) : list (string * casRow) :=
  cas_find_orphans now older_than (Z.min (Z.max limit 1) 10000) d.

Definition gc_delete_unreferenced (batch : list string) (d : db) : result dberr (Z * db) :=
  cas_delete_unreferenced batch d.

Definition set_verified (now : Z) (r : casRow) : casRow :=
  mkCas (c_tenant r) (c_size r) (c_tier r) (c_ref r) true (c_created r) now.

Definition cas_mark_verified (now : Z) (h : string) (d : db) : db :=
  setCas (alter (set_verified now) h (cas d)) d.

(** ** Manifest rows and the reference-count triggers *)

Definition bump_ref (now : Z) (r : casRow) : casRow :=
  mkCas (c_tenant r) (c_size r) (if 100 <? c_ref r + 1 then "HOT" else c_tier r) (c_ref r + 1)
        (c_verified r) (c_created r) now.

Definition drop_ref (now : Z) (r : casRow) : casRow :=
  mkCas (c_tenant r) (c_size r) (c_tier r) (c_ref r - 1) (c_verified r) (c_created r) now.

(** Trigger [manifest_block_added]. *)
Definition manifest_block_added (now : Z) (h : string) (d : db) : result dberr db :=
  match cas d !! h with
  | None => Err foreign_key_violation
  | Some r => Ok (setCas (<[h := bump_ref now r]> (cas d)) d)
  end.

(** Trigger [manifest_block_removed]; the [ref_count >= 0] check may refuse it. *)
Definition manifest_block_removed (now : Z) (h : string) (d : db) : result dberr db :=
  match cas d !! h with
  | None => Err (pg "P0001")
  | Some r =>
      _ ← require (1 <=? c_ref r) check_violation;
      Ok (setCas (<[h := drop_ref now r]> (cas d)) d)
  end.

Definition manifest_insert1 (now : Z) (vid : uuid) (h : string) (idx off size : Z) (d : db)
    : result dberr db :=
  _ ← require (is_int32 idx && is_int32 size) (pg "22003");
  _ ← require ((0 <=? idx) && (0 <=? off) && (0 <? size)) check_violation;
  _ ← require (bool_decide (manifests d !! (vid, idx) = None)) unique_violation;
  _ ← require (bool_decide (is_Some (fversions d !! vid))) foreign_key_violation;
  manifest_block_added now h (setManifests (<[(vid, idx) := mkMan h off size]> (manifests d)) d).

Fixpoint manifest_insert (now : Z) (vid : uuid) (rows : list (string * Z * Z * Z)) (d : db)
    : result dberr db :=
  match rows with
  | [] => Ok d
  | (h, idx, off, size) :: rows' =>
      d1 ← manifest_insert1 now vid h idx off size d; manifest_insert now vid rows' d1
  end.

(** Deleting one manifest row (the cascade of a deleted version goes row by row). *)
Definition manifest_delete1 (now : Z) (k : uuid * Z) (d : db) : result dberr db :=
  match manifests d !! k with
  | None => Ok d
  | Some r => manifest_block_removed now (m_hash r) (setManifests (delete k (manifests d)) d)
  end.

(** ** Versions *)

Definition versionsOf (node : uuid) (d : db) : list Z :=
  v_number <$> filter (fun r => v_node r = node) (snd <$> map_to_list (fversions d)).

(** [next_version_number]: [COALESCE(MAX(version_number), 0) + 1]. *)
Definition next_version_number (node : uuid) (d : db) : Z := foldr Z.max 0 (versionsOf node d) + 1.

Definition version_insert (vid node : uuid) (num size : Z) (sha : string) (by_ : uuid) (d : db)
    : result dberr db :=
  _ ← require (is_int32 num) (pg "22003");
  _ ← require ((1 <=? num) && (0 <=? size) && (slen sha =? 32)) check_violation;
  _ ← require (bool_decide (fversions d !! vid = None)) unique_violation;
  _ ← require (bool_decide (num ∉ versionsOf node d)) unique_violation;
  _ ← require (bool_decide (is_Some (nodes d !! node))) foreign_key_violation;
  Ok (setVersions (<[vid := mkVer node num size sha by_]> (fversions d)) d).

(** ** Namespace nodes *)

(** [node_label]: the identifier with underscores, one label of an [ltree]. *)
Definition underscore (c : ascii) : ascii := if bool_decide (c = "-"%char) then "_"%char else c.
Fixpoint str_map (f : ascii -> ascii) (s : string) : string :=
  match s with EmptyString => EmptyString | String c s' => String (f c) (str_map f s') end.
Definition node_label (id : uuid) : string := str_map underscore (uuid_String id).

(** [nodes_lineage_guard], INSERT branch: the path of the new row. *)
Definition lineage_insert (nid tenant : uuid) (parent : option uuid) (d : db) : result dberr (list string) :=
  match parent with
  | None => Ok [node_label nid]
  | Some p =>
      pr ← of_option (nodes d !! p) foreign_key_violation;
      _ ← require (bool_decide (n_tenant pr = tenant)) (pg "P0001");
      _ ← require (bool_decide (n_type pr = "DIRECTORY")) (pg "P0001");
      _ ← require (negb (n_deleted pr)) (pg "P0001");
      Ok (n_path pr ++ [node_label nid])
  end.

(** [uq_parent_name]: null parents are distinct. *)
Definition sameSlot (a b : nodeRow) : Prop :=
  n_tenant a = n_tenant b /\ n_parent a = n_parent b /\ is_Some (n_parent a) /\ n_name a = n_name b /\
  n_deleted a = n_deleted b.
#[global] Instance sameSlot_dec a b : Decision (sameSlot a b).
Proof. unfold sameSlot. apply _. Defined.

(** [uq_tenant_root]. *)
Definition sameRoot (a b : nodeRow) : Prop := n_tenant a = n_tenant b /\ n_parent a = None /\ n_parent b = None.
#[global] Instance sameRoot_dec a b : Decision (sameRoot a b).
Proof. unfold sameRoot. apply _. Defined.

Definition blankName (name : string) : bool := str_forall (fun c => bool_decide (c = " "%char)) name.

(** [INSERT INTO namespace_nodes (tenant_id, parent_id, name, type)], with the trigger. *)
Definition node_insert (nid tenant : uuid) (parent : option uuid) (name type : string) (d : db) : result dberr db :=
  _ ← require (slen name <=? 255) (pg "22001");
  path ← lineage_insert nid tenant parent d;
  let row := mkNode tenant parent name type false path 1 in
  _ ← require (bool_decide (type = "DIRECTORY" \/ is_Some parent)) check_violation;
  _ ← require (negb (blankName name)) check_violation;
  _ ← require (bool_decide (nodes d !! nid = None)) unique_violation;
  _ ← require (bool_decide (map_Forall (fun _ r => ~ sameSlot r row /\ ~ sameRoot r row) (nodes d))) unique_violation;
  _ ← require (bool_decide (is_Some (tenantsT d !! tenant))) foreign_key_violation;
  Ok (setNodes (<[nid := row]> (nodes d)) d).

Definition node_insert_file (nid tenant : uuid) (parent : option uuid) (name : string) : db -> result dberr db :=
  node_insert nid tenant parent name "FILE".

(** ** Upload sessions *)

Definition session_insert (now : Z) (sid tenant node : uuid) (total expected : Z) (d : db)
    : result dberr (Z * db) :=
  _ ← require (is_int32 expected) (pg "22003");
  lease ← of_option (db_lease d) not_null_violation;
  _ ← require ((0 <=? total) && (0 <? expected)) check_violation;
  _ ← require (bool_decide (sessions d !! sid = None)) unique_violation;
  _ ← require (bool_decide (is_Some (tenantsT d !! tenant) /\ is_Some (nodes d !! node)))
              foreign_key_violation;
  Ok (now + lease,
      setSessions (<[sid := mkSes tenant (Some node) "INITIATED" total expected 0 (now + lease) false]>
                     (sessions d)) d).

(** [SELECT ... status ... FROM upload_sessions WHERE session_id = sid]. *)
Definition session_select (sid : uuid) (d : db) : result dberr sesRow :=
  _ ← require (db_status d) undefined_column;
  of_option (sessions d !! sid) [ENoRows].

Definition set_status (st : string) (received : option Z) (r : sesRow) : sesRow :=
  mkSes (ss_tenant r) (ss_node r) st (ss_total r) (ss_expected r)
        (default (ss_received r) received) (ss_expires r) (ss_done r).

(** [UPDATE upload_sessions SET status = 'COMPLETED', chunks_received = n]. *)
Definition session_complete (sid : uuid) (n : Z) (d : db) : result dberr db :=
  _ ← require (db_status d) undefined_column;
  Ok (setSessions (alter (set_status "COMPLETED" (Some n)) sid (sessions d)) d).

(** [expire_stale_upload_sessions()] with its default grace of seven days.  It looks at
    [is_completed], which no statement of the Go code sets. *)
Definition sessions_expire (now : Z) (d : db) : Z * db :=
  let dead := filter (fun kv => ss_expires kv.2 < now - 7 * 24 * 3600 * 1000000000 /\
                                ss_done kv.2 = false) (sessions d) in
  (Z.of_nat (size dead), setSessions (sessions d ∖ dead) d).

(** ** The reference-count invariant (I-1) *)

(** Number of manifest rows that name the block [h]. *)
Definition refs (h : string) (d : db) : nat :=
  size (filter (fun kv => m_hash kv.2 = h) (manifests d)).

(** [ref_count] of every block equals the number of manifest rows naming it, and every
    manifest row names a block that exists. *)
Definition refcount_ok (d : db) : Prop :=
  (forall h r, cas d !! h = Some r -> c_ref r = Z.of_nat (refs h d)) /\
  (forall k r, manifests d !! k = Some r -> is_Some (cas d !! m_hash r)).

End schema.

(** ** Lemmas: what each statement does to the invariant *)

Section lemmas.
Context `{U : UUID}.
Implicit Types (d : db) (h : string).

Lemma refs_setCas h m d : refs h (setCas m d) = refs h d.
Proof. done. Qed.

Lemma refs_insert h d k r :
  manifests d !! k = None ->
  refs h (setManifests (<[k := r]> (manifests d)) d)
  = (refs h d + if decide (m_hash r = h) then 1 else 0)%nat.
Proof.
  intros Hk. unfold refs. simpl. case_decide as Hh.
  - rewrite map_filter_insert_True by done. rewrite map_size_insert_None; [lia|].
    apply map_lookup_filter_None. by left.
  - rewrite map_filter_insert_False by done. rewrite delete_id by done. lia.
Qed.

Lemma refs_delete h d k r :
  manifests d !! k = Some r ->
  refs h d = (refs h (setManifests (delete k (manifests d)) d)
              + if decide (m_hash r = h) then 1 else 0)%nat.
Proof.
  intros Hk. pose proof (refs_insert h (setManifests (delete k (manifests d)) d) k r) as Hi.
  unfold refs in *. simpl in *. rewrite <- Hi by apply lookup_delete_eq.
  by rewrite insert_delete_id.
Qed.

Lemma refs_zero h d :
  refs h d = 0%nat <-> forall k r, manifests d !! k = Some r -> m_hash r <> h.
Proof.
  unfold refs. rewrite map_size_empty_iff, map_empty. setoid_rewrite map_lookup_filter_None. simpl.
  split; [|naive_solver]. intros H k r Hk. destruct (H k) as [?|Hn]; [congruence|]. by apply Hn.
Qed.

Lemma cas_insert1_spec now rc h t sz d b d' :
  cas_insert1 now rc h t sz d = Ok (b, d') ->
  manifests d' = manifests d /\ fversions d' = fversions d /\ nodes d' = nodes d /\
  sessions d' = sessions d /\ tenantsT d' = tenantsT d /\ db_status d' = db_status d /\
  (if b then cas d !! h = None /\ cas d' = <[h := mkCas t sz "HOT" rc false now now]> (cas d)
   else is_Some (cas d !! h) /\ cas d' = cas d).
Proof.
  unfold cas_insert1. intros H. inv_result.
  destruct (cas d !! h) as [r|] eqn:E; inv_result; simplify_eq/=; split_and!; eauto.
Qed.

(** The other tables and every existing block row survive a block insert. *)
Lemma cas_insert_spec now rc rows d n d' :
  cas_insert now rc rows d = Ok (n, d') ->
  manifests d' = manifests d /\ fversions d' = fversions d /\ nodes d' = nodes d /\
  sessions d' = sessions d /\ tenantsT d' = tenantsT d /\ db_status d' = db_status d /\
  cas d ⊆ cas d' /\
  (forall h r, cas d' !! h = Some r -> cas d !! h = Some r \/ cas d !! h = None /\ c_ref r = rc) /\
  Forall (fun '(h, _, _) => is_Some (cas d' !! h)) rows.
Proof.
  revert d n d'. induction rows as [|[[h t] sz] rows IH]; intros d n d' H; simpl in H.
  { simplify_eq. split_and!; try done. eauto. }
  inv_result. destruct x as [b d1]. inv_result. destruct x as [n1 d2]. simplify_eq/=.
  match goal with H : cas_insert1 _ _ _ _ _ _ = _ |- _ => apply cas_insert1_spec in H as (?&?&?&?&?&?&Hb) end.
  match goal with H : cas_insert _ _ _ _ = _ |- _ => apply IH in H as (?&?&?&?&?&?&Hsub&Hnew&Hall) end.
  assert (cas d ⊆ cas d1) as Hs1.
  { destruct b; destruct Hb as [Hn ->]; [|done]. by apply insert_subseteq. }
  split_and!; try congruence.
  - by etrans.
  - intros h' r Hr. destruct (Hnew h' r Hr) as [Hr1|[Hr1 Hc]].
    + destruct b; destruct Hb as [Hn Hb]; rewrite Hb in Hr1; [|by left].
      destruct (decide (h = h')) as [->|Hne].
      * rewrite lookup_insert_eq in Hr1. simplify_eq/=. by right.
      * rewrite lookup_insert_ne in Hr1 by done. by left.
    + right. split; [|done]. destruct (cas d !! h') eqn:E; [|done].
      eapply lookup_weaken in E; [|exact Hs1]. congruence.
  - constructor; [|done]. assert (is_Some (cas d1 !! h)) as [r Hr].
    { destruct b; destruct Hb as [Hn ->]; [rewrite lookup_insert_eq; eauto | done]. }
    exists r. by eapply lookup_weaken.
Qed.

Lemma cas_insert_refcount now rows d n d' :
  cas_insert now 0 rows d = Ok (n, d') -> refcount_ok d -> refcount_ok d'.
Proof.
  intros H [H1 H2]. apply cas_insert_spec in H as (Hm & _ & _ & _ & _ & _ & Hsub & Hnew & _).
  assert (forall h, refs h d' = refs h d) as Hr by (intros h; unfold refs; by rewrite Hm).
  split.
  - intros h r Hh. rewrite Hr. destruct (Hnew h r Hh) as [Ho|[Ho ->]]; [by apply H1|].
    assert (refs h d = 0%nat) as ->; [|done]. apply refs_zero. intros k x Hk <-.
    destruct (H2 k x Hk) as [? Hs]. congruence.
  - intros k x Hk. rewrite Hm in Hk. destruct (H2 k x Hk) as [y Hy]. exists y.
    by eapply lookup_weaken.
Qed.

Lemma manifest_insert1_spec now vid h idx off sz d d' :
  manifest_insert1 now vid h idx off sz d = Ok d' ->
  exists r, cas d !! h = Some r /\ cas d' = <[h := bump_ref now r]> (cas d) /\
    manifests d !! (vid, idx) = None /\
    manifests d' = <[(vid, idx) := mkMan h off sz]> (manifests d) /\
    fversions d' = fversions d /\ nodes d' = nodes d /\ sessions d' = sessions d /\
    tenantsT d' = tenantsT d /\ db_status d' = db_status d.
Proof.
  unfold manifest_insert1. intros H. inv_result. bool_hyps.
  unfold manifest_block_added in H. simpl in H.
  destruct (cas d !! h) as [r|] eqn:E; [|done]. simplify_eq/=. exists r. split_and!; done.
Qed.

Lemma manifest_insert1_refcount now vid h idx off sz d d' :
  manifest_insert1 now vid h idx off sz d = Ok d' -> refcount_ok d -> refcount_ok d'.
Proof.
  intros H [H1 H2].
  apply manifest_insert1_spec in H as (r & Hr & Hc & Hn & Hm & _).
  assert (forall h', refs h' d' = (refs h' d + if decide (h = h') then 1 else 0)%nat) as Hrefs.
  { intros h'. pose proof (refs_insert h' d (vid, idx) (mkMan h off sz) Hn) as Hi.
    unfold refs in *. rewrite Hm. exact Hi. }
  split.
  - intros h' r' Hh'. rewrite Hrefs, Hc in *. case_decide as Hd.
    + subst h'. rewrite lookup_insert_eq in Hh'. simplify_eq/=. rewrite (H1 h r Hr). lia.
    + rewrite lookup_insert_ne in Hh' by done. rewrite (H1 h' r' Hh'). lia.
  - intros k x. rewrite Hm, Hc. intros Hk. destruct (decide (m_hash x = h)) as [->|Hne].
    + rewrite lookup_insert_eq. eauto.
    + rewrite lookup_insert_ne by done.
      destruct (decide (k = (vid, idx))) as [->|Hk'].
      * rewrite lookup_insert_eq in Hk. by simplify_eq/=.
      * rewrite lookup_insert_ne in Hk by done. by apply (H2 k).
Qed.

Lemma manifest_insert_refcount now vid rows d d' :
  manifest_insert now vid rows d = Ok d' -> refcount_ok d -> refcount_ok d'.
Proof.
  revert d. induction rows as [|[[[h idx] off] sz] rows IH]; intros d H Hd; simpl in H; [by simplify_eq|].
  inv_result. eapply IH; [done|]. by eapply manifest_insert1_refcount.
Qed.

(** The rows a manifest insert adds, and what it leaves alone. *)
Lemma manifest_insert_spec now vid rows d d' :
  manifest_insert now vid rows d = Ok d' ->
  fversions d' = fversions d /\ nodes d' = nodes d /\ sessions d' = sessions d /\
  tenantsT d' = tenantsT d /\ db_status d' = db_status d /\
  dom (cas d') = dom (cas d) /\ manifests d ⊆ manifests d' /\
  Forall (fun '(h, idx, off, sz) => manifests d' !! (vid, idx) = Some (mkMan h off sz)) rows /\
  size (manifests d') = (size (manifests d) + length rows)%nat.
Proof.
  revert d. induction rows as [|[[[h idx] off] sz] rows IH]; intros d H; simpl in H.
  { simplify_eq. split_and!; done || (simpl; lia). }
  inv_result. match goal with H : manifest_insert1 _ _ _ _ _ _ _ = _ |- _ =>
    apply manifest_insert1_spec in H as (r & Hr & Hc & Hn & Hm & ? & ? & ? & ? & ?) end.
  destruct (IH _ H) as (?&?&?&?&?&Hdom&Hsub&Hall&Hsz).
  assert (manifests d ⊆ manifests x) as Hs1 by (rewrite Hm; by apply insert_subseteq).
  split_and!; try congruence.
  - rewrite Hdom, Hc, dom_insert_L. apply elem_of_dom_2 in Hr. set_solver.
  - by etrans.
  - constructor; [|done]. eapply lookup_weaken; [|exact Hsub]. rewrite Hm. apply lookup_insert_eq.
  - rewrite Hsz, Hm, map_size_insert_None by done. simpl. lia.
Qed.

Lemma manifest_delete1_refcount now k d d' :
  manifest_delete1 now k d = Ok d' -> refcount_ok d -> refcount_ok d'.
Proof.
  unfold manifest_delete1. destruct (manifests d !! k) as [r|] eqn:Ek; [|intros; by simplify_eq].
  unfold manifest_block_removed. simpl. destruct (cas d !! m_hash r) as [c|] eqn:Ec; [|done].
  intros H [H1 H2]. inv_result. simplify_eq.
  set (d1 := setManifests (delete k (manifests d)) d).
  assert (forall h, refs h d = (refs h d1 + if decide (m_hash r = h) then 1 else 0)%nat) as Hrefs
    by (intros h; by apply refs_delete).
  split.
  - intros h x. simpl. rewrite refs_setCas. fold d1. specialize (Hrefs h). case_decide as Hd.
    + subst h. rewrite lookup_insert_eq. intros [= <-]. simpl. rewrite (H1 _ _ Ec). lia.
    + rewrite lookup_insert_ne by done. intros Hx. rewrite (H1 _ _ Hx). lia.
  - intros k' x. simpl. intros Hk. apply lookup_delete_Some in Hk as [_ Hk].
    destruct (H2 k' x Hk) as [y Hy]. destruct (decide (m_hash r = m_hash x)) as [<-|Hne].
    + rewrite lookup_insert_eq. eauto.
    + rewrite lookup_insert_ne by done. eauto.
Qed.

Lemma cas_delete_lookup hashes d n d' h r :
  cas_delete_unreferenced hashes d = Ok (n, d') ->
  (cas d' !! h = Some r <-> cas d !! h = Some r /\ ~ (h ∈ hashes /\ c_ref r = 0)).
Proof.
  unfold cas_delete_unreferenced. intros H. inv_result. simplify_eq/=.
  rewrite lookup_difference_Some, map_lookup_filter_None. simpl. naive_solver.
Qed.

Lemma cas_delete_manifests hashes d n d' :
  cas_delete_unreferenced hashes d = Ok (n, d') ->
  manifests d' = manifests d /\ fversions d' = fversions d /\ nodes d' = nodes d /\
  sessions d' = sessions d /\ tenantsT d' = tenantsT d /\
  n = Z.of_nat (size (filter (fun kv => kv.1 ∈ hashes /\ c_ref kv.2 = 0) (cas d))).
Proof. unfold cas_delete_unreferenced. intros H. inv_result. by simplify_eq/=. Qed.

Lemma cas_delete_refcount hashes d n d' :
  cas_delete_unreferenced hashes d = Ok (n, d') -> refcount_ok d -> refcount_ok d'.
Proof.
  intros H [H1 H2]. pose proof (cas_delete_lookup hashes d n d') as Hl.
  destruct (cas_delete_manifests _ _ _ _ H) as (Hm & _).
  assert (forall h, refs h d' = refs h d) as Hr by (intros h; unfold refs; by rewrite Hm).
  split.
  - intros h r Hh. rewrite Hr. apply H1. by apply (Hl h r H) in Hh as [? _].
  - intros k x Hk. rewrite Hm in Hk. destruct (H2 k x Hk) as [r Hx]. exists r.
    apply (Hl _ _ H). split; [done|]. intros [_ Hz]. specialize (H1 _ _ Hx). rewrite Hz in H1.
    assert (refs (m_hash x) d = 0%nat) as H0 by lia. rewrite refs_zero in H0. by apply (H0 k x).
Qed.

Lemma cas_mark_verified_refcount now h d : refcount_ok d -> refcount_ok (cas_mark_verified now h d).
Proof.
  intros [H1 H2]. split.
  - intros h' r. simpl. rewrite lookup_alter_Some.
    intros [(-> & x & Hx & ->)|[_ Hr]]; simpl; by apply H1.
  - intros k x Hk. simpl in *. rewrite lookup_alter_is_Some. by apply (H2 k).
Qed.

(** Every element of the orphan query is an unreferenced block older than the window. *)
Lemma cas_find_orphans_sound now window limit d h r :
  (h, r) ∈ cas_find_orphans now window limit d ->
  cas d !! h = Some r /\ c_ref r = 0 /\ c_created r < now - window.
Proof.
  unfold cas_find_orphans, ztake. intros H%elem_of_take.
  destruct H as (i & Hi & _). apply list_elem_of_lookup_2 in Hi.
  rewrite merge_sort_Permutation in Hi. apply elem_of_map_to_list in Hi.
  apply map_lookup_filter_Some in Hi as [? [? ?]]. done.
Qed.

Lemma foldr_max_ge l x : x ∈ l -> x <= foldr Z.max 0 l.
Proof. induction l as [|y l IH]; simpl; intros H; [by apply not_elem_of_nil in H|].
  apply elem_of_cons in H as [->|H]; [lia|]. specialize (IH H). lia.
Qed.

Lemma next_version_fresh node d : next_version_number node d ∉ versionsOf node d.
Proof. intros H%foldr_max_ge. unfold next_version_number in H. lia. Qed.

Lemma foldr_max_nonneg l : 0 <= foldr Z.max 0 l.
Proof. induction l; simpl; lia. Qed.

(** The two phases of collection in the database: whatever consistent state the reaping phase
    meets, it never fails, and of the batch it removes exactly the blocks no manifest row uses;
    what the marking phase selected is unreferenced, old enough and within the limit. *)
Theorem gc_two_phase now older_than limit batch d :
  refcount_ok d ->
  zlen (gc_find_unreferenced now older_than limit d) <= Z.max limit 1 /\
  (forall h r, (h, r) ∈ gc_find_unreferenced now older_than limit d ->
     refs h d = 0%nat /\ c_created r < now - older_than) /\
  exists n d', gc_delete_unreferenced batch d = Ok (n, d') /\ manifests d' = manifests d /\
    forall h r, cas d' !! h = Some r <-> cas d !! h = Some r /\ (h ∈ batch -> refs h d <> 0%nat).
Proof.
  intros [H1 H2]. unfold gc_find_unreferenced, gc_delete_unreferenced. split_and!.
  - unfold cas_find_orphans, ztake, zlen. rewrite length_take. lia.
  - intros h r Hin. apply cas_find_orphans_sound in Hin as (Hc & Hz & Ho). specialize (H1 _ _ Hc). split; [lia|done].
  - destruct (cas_delete_unreferenced batch d) as [[n d']|e] eqn:E.
    + exists n, d'. split; [done|]. split; [by apply cas_delete_manifests in E as (-> & _)|]. intros h r.
      rewrite (cas_delete_lookup _ _ _ _ h r E). split; intros [Hc Hn]; (split; [done|]); specialize (H1 _ _ Hc).
      * intros Hb H0. apply Hn. split; [done|lia].
      * intros [Hb Hz]. apply (Hn Hb). lia.
    + exfalso. unfold cas_delete_unreferenced, require in E. case_bool_decide as Hb; [done|]. apply Hb. intros k m Hk.
      apply map_lookup_filter_None. right. intros r Hr [_ Hz]. simpl in Hz. specialize (H1 _ _ Hr). rewrite Hz in H1.
      assert (refs (m_hash m) d = 0%nat) as H0 by lia. rewrite refs_zero in H0. by apply (H0 k m).
Qed.

End lemmas.
