(* ===== verification/Cas.v ===== *)
(** * internal/cas: the content-addressable block registry

    [registry.go] ([PgRegistry] over the database client), [gc.go] (the periodic sweep and
    its hand-written hex decoder) and [bloom.go] (the Redis-backed filter, whose commands
    are an interface, and the in-memory filter). *)
From stdpp Require Import sorting.
From S2P Require Import Prelude GoLib External Database Schema.

Section registry.
Context `{U : UUID}.

Definition TierThresholdWarm : Z := 10.
Definition TierThresholdHot : Z := 100.
Definition GCSafetyWindow : Z := 7 * 24 * 3600 * 1000000000.

Record BlockInfo := mkBlockInfo {
  biHash : string; biTenant : string; biSize : Z; biRef : Z; biTier : string;
  biVerified : bool; biCreated : Z; biUpdated : Z
}.

Inductive caserr := ErrBlockNotFound | CasDb (op : string) (e : dberr).

Definition mapErr {E F A} (f : E -> F) (r : result E A) : result F A :=
  match r with Ok a => Ok a | Err e => Err (f e) end.

(** The scan of one row; the hash leaves the registry hex-encoded. *)
Definition blockInfo (h : string) (r : casRow) : BlockInfo :=
  mkBlockInfo (hex_encode h) (uuid_String (c_tenant r)) (c_size r) (c_ref r) (c_tier r)
              (c_verified r) (c_created r) (c_updated r).

(** [NewPgRegistryFromClient]: the registry's statements run on the primary, its queries on the
    metadata pool. *)
Definition registryExec {A} (stmt : Z -> db -> result dberr A * db) (w : world db) : result dberr A * world db :=
  ExecWithMetrics OpWrite stmt w.

Definition registryQuery {A} (query : Z -> db -> result dberr A) (w : world db) : result dberr A * world db :=
  QueryWithMetrics OpMetadata query w.

(** The transactions [NewPgRegistryFromClient] offers the registry: a write transaction of the
    client, behind an adapter that forwards each statement to it. *)
Definition registryTx (w : world db) : result dberr (txst db) * world db := BeginWriteTx w.
Definition pgxTxExec {A} (q : Z -> db -> result dberr A * db) (t : txst db) : result dberr A * txst db := txExec q t.

(** The tenant column is a [uuid]: text that does not parse is refused by the server. *)
Definition EnsureBlock (blockHash tenantID : string) (sizeBytes : Z) (w : world db)
    : result caserr bool * world db :=
  let '(r, w') := registryExec (fun now => stmt (fun d =>
      t ← of_option (uuid_Parse tenantID) (pg "22P02");
      cas_insert now 1 [(blockHash, t, sizeBytes)] d)) w in
  (mapErr (CasDb "ensure block") ((fun n => 0 <? n) <$> r), w').

Definition BatchQueryExisting (hashes : list string) (w : world db)
    : result caserr (gmap string bool) * world db :=
  match hashes with
  | [] => (Ok ∅, w)
  | _ =>
      let '(r, w') := registryQuery (fun _ d =>
          Ok (filter (fun h => is_Some (cas d !! h)) hashes)) w in
      (mapErr (CasDb "batch query")
         ((fun found : list string => list_to_map (map (fun h => (hex_encode h, true)) found)) <$> r), w')
  end.

Definition GetBlock (blockHash : string) (w : world db) : result caserr BlockInfo * world db :=
  let '(r, w') := registryQuery (fun _ d => Ok (cas d !! blockHash)) w in
  (row ← mapErr (CasDb "get block") r;
   row ← of_option row ErrBlockNotFound;
   Ok (blockInfo blockHash row), w').

(** The clamp of [FindOrphans]. *)
Definition clampBatch (n : Z) : Z :=
  let n := if n <=? 0 then 1000 else n in if 10000 <? n then 10000 else n.

Definition FindOrphans (batchSize : Z) (w : world db)
    : result caserr (list BlockInfo) * world db :=
  let '(r, w') := registryQuery (fun now d =>
      Ok (cas_find_orphans now GCSafetyWindow (clampBatch batchSize) d)) w in
  (mapErr (CasDb "find orphans") ((fun l : list (string * casRow) => map (fun hr => blockInfo hr.1 hr.2) l) <$> r), w').

Definition DeleteBlocks (hashes : list string) (w : world db) : result caserr Z * world db :=
  match hashes with
  | [] => (Ok 0, w)
  | _ =>
      let '(r, w') := registryExec (fun _ => stmt (cas_delete_unreferenced hashes)) w in
      (mapErr (CasDb "delete blocks") r, w')
  end.

Record StorageStats := mkStats {
  TotalBlocks : Z; TotalBytes : Z; OrphanBlocks : Z; OrphanBytes : Z;
  HotBlocks : Z; WarmBlocks : Z; ColdBlocks : Z; UnverifiedBlocks : Z;
  SumRefCount : Z;                 (** [AVG(ref_count)] is [SumRefCount / TotalBlocks] *)
  MaxRefCount : Z
}.

Definition countRows (p : casRow -> bool) (rows : list casRow) : Z := zlen (filter (fun r => p r = true) rows).
Definition sumRows (f : casRow -> Z) (rows : list casRow) : Z := foldr (fun r acc => f r + acc) 0 rows.

Definition cas_stats (d : db) : StorageStats :=
  let rows := snd <$> map_to_list (cas d) in
  let orphan r := c_ref r =? 0 in
  mkStats (zlen rows) (sumRows c_size rows)
    (countRows orphan rows) (sumRows c_size (filter (fun r => orphan r = true) rows))
    (countRows (fun r => bool_decide (c_tier r = "HOT")) rows)
    (countRows (fun r => bool_decide (c_tier r = "WARM")) rows)
    (countRows (fun r => bool_decide (c_tier r = "COLD")) rows)
    (countRows (fun r => negb (c_verified r)) rows)
    (sumRows c_ref rows) (foldr (fun r acc => Z.max (c_ref r) acc) 0 rows).

Definition GetStorageStats (w : world db) : result caserr StorageStats * world db :=
  let '(r, w') := registryQuery (fun _ d => Ok (cas_stats d)) w in
  (mapErr (CasDb "storage stats") r, w').

Definition tierOf (ref : Z) : string :=
  if TierThresholdHot <? ref then "HOT" else if TierThresholdWarm <=? ref then "WARM" else "COLD".

Definition set_tier (now : Z) (r : casRow) : casRow :=
  mkCas (c_tenant r) (c_size r) (tierOf (c_ref r)) (c_ref r) (c_verified r) (c_created r) now.

Definition UpdateTier (blockHash : string) (w : world db) : result caserr unit * world db :=
  let '(r, w') := registryExec (fun now => stmt (fun d =>
      Ok (tt, setCas (alter (set_tier now) blockHash (cas d)) d))) w in
  (mapErr (CasDb "update tier") r, w').

(** What the rest of the system may ask of a registry ([Registry] of registry.go). *)
Class Registry (R : Type) := {
  rgEnsureBlock : string -> string -> Z -> R -> result caserr bool * R;
  rgBatchQueryExisting : list string -> R -> result caserr (gmap string bool) * R;
  rgGetBlock : string -> R -> result caserr BlockInfo * R;
  rgFindOrphans : Z -> R -> result caserr (list BlockInfo) * R;
  rgDeleteBlocks : list string -> R -> result caserr Z * R;
  rgGetStorageStats : R -> result caserr StorageStats * R;
  rgUpdateTier : string -> R -> result caserr unit * R
}.

#[global] Instance PgRegistry : Registry (world db) := {|
  rgEnsureBlock := EnsureBlock; rgBatchQueryExisting := BatchQueryExisting; rgGetBlock := GetBlock;
  rgFindOrphans := FindOrphans; rgDeleteBlocks := DeleteBlocks; rgGetStorageStats := GetStorageStats;
  rgUpdateTier := UpdateTier
|}.

(** ** The sweep *)

(** [decodeHex] of [gc.go]: one [switch] per nibble. *)
Definition nibble (c : ascii) : option N :=
  if in_range 48 57 c then Some (code c - 48)%N
  else if in_range 97 102 c then Some (code c - 97 + 10)%N
  else if in_range 65 70 c then Some (code c - 65 + 10)%N
  else None.

Fixpoint decodePairs (s : string) : option string :=
  match s with
  | EmptyString => Some EmptyString
  | String _ EmptyString => None
  | String a (String b s') =>
      hi ← nibble a; lo ← nibble b; rest ← decodePairs s';
      Some (String (ascii_of_N (N.lor (N.shiftl hi 4) lo)) rest)
  end.

Definition decodeHex (s : string) : option string :=
  if negb (slen s mod 2 =? 0) then None else decodePairs s.

Record GCConfig := mkGCConfig { gcInterval : Z; gcBatchSize : Z }.

Definition gcApplyDefaults (c : GCConfig) : GCConfig :=
  mkGCConfig (if gcInterval c <=? 0 then 5 * 60 * 1000000000 else gcInterval c)
             (if gcBatchSize c <=? 0 then 1000 else gcBatchSize c).

(** [blobDeleter] deletes one blob (hex name) of the blob store [B]; [None]: database only. *)
Definition sweep {R B} `{Registry R} (blobDeleter : option (string -> B -> result string unit * B)) (batchSize : Z)
    (b : B) (w : R) : option Z * B * R :=
  match rgFindOrphans batchSize w with
  | (Err _, w1) => (None, b, w1)
  | (Ok [], w1) => (None, b, w1)
  | (Ok orphans, w1) =>
      let hashes := omap (fun o => decodeHex (biHash o)) orphans in
      let b' := match blobDeleter with
                | None => b
                | Some del => foldl (fun b o => (del (biHash o) b).2) b orphans
                end in
      match rgDeleteBlocks hashes w1 with
      | (Err _, w2) => (None, b', w2)
      | (Ok deleted, w2) => (Some deleted, b', w2)
      end
  end.

End registry.

(** ** Bloom filter *)

Definition bloomKeyPrefix : string := "aegis:cas:bloom".

(** [RedisCmdRunner]: the RedisBloom commands. *)
Class RedisCmdRunner (R : Type) := {
  BFReserve : string -> R -> result string unit * R;
  BFAdd : string -> string -> R -> result string bool * R;
  BFExists : string -> string -> R -> result string bool * R;
  BFDel : string -> R -> result string Z * R
}.

Section bloom.
Context {R : Type} `{RedisCmdRunner R}.

Definition bloomKey (endpointID : string) : string := bloomKeyPrefix +:+ ":" +:+ endpointID.

Definition bloomAdd (key hash : string) (r : R) : result string bool * R :=
  match BFAdd key hash r with
  | (Ok created, r1) => (Ok created, r1)
  | (Err e, r1) =>
      match BFReserve key r1 with
      | (Ok _, r2) =>
          let '(_, r3) := BFDel key r2 in
          match BFReserve key r3 with
          | (Err e2, r4) => (Err e2, r4)
          | (Ok _, r4) => BFAdd key hash r4
          end
      | (Err _, r2) => (Err e, r2)
      end
  end.

(** Fails open: an error is reported together with the answer [true]. *)
Definition bloomMightContain (key hash : string) (r : R) : bool * option string * R :=
  match BFExists key hash r with
  | (Err e, r1) => (true, Some e, r1)
  | (Ok b, r1) => (b, None, r1)
  end.

Fixpoint bloomAddBatch (key : string) (hashes : list string) (added : Z) (r : R)
    : Z * option string * R :=
  match hashes with
  | [] => (added, None, r)
  | h :: hs =>
      match bloomAdd key h r with
      | (Err e, r1) => (added, Some e, r1)
      | (Ok isNew, r1) => bloomAddBatch key hs (if isNew then added + 1 else added) r1
      end
  end.

Definition bloomReset (key : string) (r : R) : result string unit * R :=
  match BFDel key r with
  | (Err e, r1) => (Err e, r1)
  | (Ok _, r1) => BFReserve key r1
  end.

End bloom.

(** [FakeBloomFilter]: an exact set, with injectable errors. *)
Record FakeBloomFilter := mkFakeBloom { entries : gset string; addErr : option string; existErr : option string }.

Definition NewFakeBloomFilter : FakeBloomFilter := mkFakeBloom ∅ None None.

Definition SetAddErr (e : option string) (f : FakeBloomFilter) : FakeBloomFilter :=
  mkFakeBloom (entries f) e (existErr f).
Definition SetExistErr (e : option string) (f : FakeBloomFilter) : FakeBloomFilter :=
  mkFakeBloom (entries f) (addErr f) e.

Definition fakeBloomAdd (hash : string) (f : FakeBloomFilter) : result string bool * FakeBloomFilter :=
  match addErr f with
  | Some e => (Err e, f)
  | None =>
      if bool_decide (hash ∈ entries f) then (Ok false, f)
      else (Ok true, mkFakeBloom ({[hash]} ∪ entries f) (addErr f) (existErr f))
  end.

Definition fakeBloomMightContain (hash : string) (f : FakeBloomFilter) : bool * option string :=
  match existErr f with
  | Some e => (true, Some e)
  | None => (bool_decide (hash ∈ entries f), None)
  end.

Fixpoint fakeBloomAddBatch (hashes : list string) (added : Z) (f : FakeBloomFilter)
    : Z * option string * FakeBloomFilter :=
  match hashes with
  | [] => (added, None, f)
  | h :: hs =>
      match fakeBloomAdd h f with
      | (Err e, f1) => (added, Some e, f1)
      | (Ok isNew, f1) => fakeBloomAddBatch hs (if isNew then added + 1 else added) f1
      end
  end.

Definition fakeBloomReset (f : FakeBloomFilter) : FakeBloomFilter :=
  mkFakeBloom ∅ (addErr f) (existErr f).

Definition ContainsCount (f : FakeBloomFilter) : Z := Z.of_nat (size (entries f)).

(** ** Lemmas *)

Lemma nibble_hex_val c : nibble c = hex_val c.
Proof. destruct c as [[][][][][][][][]]; reflexivity. Qed.

Lemma hex_val_bound c n : hex_val c = Some n -> (n < 16)%N.
Proof.
  destruct c as [[][][][][][][][]]; vm_compute; intros H; simplify_eq; reflexivity.
Qed.

Lemma lor_shift_nibbles (a b : N) : (a < 16)%N -> (b < 16)%N -> N.lor (N.shiftl a 4) b = (16 * a + b)%N.
Proof.
  intros Ha Hb. do 16 (destruct a as [|a] using N.peano_ind;
    [do 16 (destruct b as [|b] using N.peano_ind; [reflexivity | clear IHb]); lia | clear IHa]). lia.
Qed.

Lemma decodeHex_eq (s : string) : decodeHex s = hex_decode s.
Proof.
  assert (forall n s, (String.length s <= n)%nat -> decodePairs s = hex_decode s) as Hp.
  { induction n as [|n IH]; intros [|a [|b s']] Hl; try done; [simpl in *; lia|].
    cbn [decodePairs hex_decode]. simpl in Hl. rewrite !nibble_hex_val. destruct (hex_val a) as [x|] eqn:Ea; [|done].
    destruct (hex_val b) as [y|] eqn:Eb; [|done]. cbn [mbind option_bind]. rewrite IH by lia.
    destruct (hex_decode s'); [|done]. cbn [mbind option_bind].
    by rewrite lor_shift_nibbles by (by eapply hex_val_bound). }
  assert (forall n s, (String.length s <= n)%nat -> slen s mod 2 <> 0 -> hex_decode s = None) as Ho.
  { induction n as [|n IH]; intros [|a [|b s']] Hl Hm; simpl in *; try done; try lia.
    assert (slen s' mod 2 <> 0) as Hm'.
    { unfold slen in *. simpl in Hm. revert Hm. rewrite !Nat2Z.inj_succ. intros Hm.
      Z.div_mod_to_equations. lia. }
    rewrite (IH s') by (done || lia). destruct (hex_val a), (hex_val b); done. }
  unfold decodeHex. destruct (slen s mod 2 =? 0) eqn:E; bool_hyps; simpl.
  - by eapply Hp.
  - symmetry. by eapply Ho.
Qed.

Section cas_lemmas.
Context `{U : UUID}.

Lemma clampBatch_range n : 1 <= clampBatch n <= 10000.
Proof. unfold clampBatch. repeat case_match; bool_hyps; lia. Qed.

(** The keys returned by the orphan query are distinct. *)
Lemma cas_find_orphans_NoDup now window limit (d : db) :
  NoDup (cas_find_orphans now window limit d).*1.
Proof.
  unfold cas_find_orphans, ztake. eapply sublist_NoDup; [|apply fmap_sublist, sublist_take].
  rewrite merge_sort_Permutation. apply NoDup_fst_map_to_list.
Qed.

Lemma FindOrphans_spec n (w w' : world db) r :
  FindOrphans n w = (r, w') -> envOnly w w' /\
  (forall l, r = Ok l -> l = (fun hr => blockInfo hr.1 hr.2) <$>
     cas_find_orphans (clock w') GCSafetyWindow (clampBatch n) (contents w')).
Proof.
  unfold FindOrphans, registryQuery. destruct (QueryWithMetrics _ _ w) as [r1 w1] eqn:E.
  apply QueryWithMetrics_spec in E as [He Hq]. intros H. simplify_eq/=. split; [done|].
  intros l Hl. destruct r1 as [x|e]; simplify_eq/=. specialize (Hq x eq_refl). by simplify_eq.
Qed.

Lemma DeleteBlocks_keeps hashes (w w' : world db) r :
  DeleteBlocks hashes w = (r, w') -> envKeeps refcount_ok w -> refcount_ok (contents w) ->
  envKeeps refcount_ok w' /\ refcount_ok (contents w').
Proof.
  unfold DeleteBlocks, registryExec. destruct hashes as [|h hs]; [intros; by simplify_eq|].
  destruct (ExecWithMetrics _ _ w) as [r1 w1] eqn:E. intros H. simplify_eq/=.
  eapply ExecWithMetrics_keeps; [|exact E]. intros now d a d' Hs%stmt_ok.
  by eapply cas_delete_refcount.
Qed.

End cas_lemmas.

(** ** Properties *)

(** The hand-written hex decoder of the sweep is [hex.DecodeString]: the two agree on
    every input, in particular it inverts the encoding [FindOrphans] applies. *)
Theorem decodeHex_is_hex_decode (s : string) :
  decodeHex s = hex_decode s /\ decodeHex (hex_encode s) = Some s.
Proof. rewrite !decodeHex_eq. split; [done | apply hex_decode_encode]. Qed.

(** The sweep keeps the registry consistent on every schedule: whatever faults occur
    and whatever consistent changes other clients commit between its statements,
    reference counts still equal the number of manifest rows afterwards and no manifest
    row is left without its block. *)
Theorem sweep_keeps_refcounts `{U : UUID} {B : Type}
    (del : option (string -> B -> result string unit * B)) (batch : Z) (b : B) (w : world db)
    (Henv : envKeeps refcount_ok w) (Hok : refcount_ok (contents w)) :
  refcount_ok (contents (sweep del batch b w).2).
Proof.
  unfold sweep. cbn [rgFindOrphans rgDeleteBlocks PgRegistry]. destruct (FindOrphans batch w) as [r w1] eqn:Ef.
  apply FindOrphans_spec in Ef as [He _].
  destruct (envOnly_keeps refcount_ok _ _ He Henv) as [Hk1 H1]. specialize (H1 Hok).
  destruct r as [[|o os]|e]; simpl; try done.
  destruct (DeleteBlocks _ w1) as [r2 w2] eqn:Ed.
  destruct (DeleteBlocks_keeps _ _ _ _ Ed Hk1 H1) as [_ H2]. by destruct r2.
Qed.

Section quiet_lemmas.
Context `{U : UUID}.

Lemma orphan_delete_ok now window limit (d : db) :
  refcount_ok d ->
  let found := cas_find_orphans now window limit d in
  exists d', cas_delete_unreferenced found.*1 d = Ok (zlen found, d').
Proof.
  intros [H1 H2] found. unfold cas_delete_unreferenced.
  set (gone := filter _ (cas d)).
  assert (forall h r, gone !! h = Some r <-> (h, r) ∈ found) as Hg.
  { intros h r. subst gone. rewrite map_lookup_filter_Some. simpl. split.
    - intros (Hc & Hin & _). apply list_elem_of_fmap in Hin as ([h' r'] & Hh & Hin). simpl in Hh. subst h'.
      pose proof (cas_find_orphans_sound _ _ _ _ _ _ Hin) as (Hc' & _). by simplify_eq.
    - intros Hin. pose proof (cas_find_orphans_sound _ _ _ _ _ _ Hin) as (Hc' & Hz & _).
      split_and!; try done. apply list_elem_of_fmap. by exists (h, r). }
  rewrite bool_decide_true.
  - assert (Z.of_nat (size gone) = zlen found) as ->; [|by eexists].
    assert (map_to_list gone ≡ₚ found) as Hp.
    { apply NoDup_Permutation; [apply NoDup_map_to_list| |].
      - eapply NoDup_fmap_1, cas_find_orphans_NoDup.
      - intros [h r]. by rewrite elem_of_map_to_list, Hg. }
    unfold zlen. by rewrite <- (Permutation_length Hp), length_map_to_list.
  - intros k r Hk. destruct (gone !! m_hash r) as [x|] eqn:E; [|done].
    apply map_lookup_filter_Some in E as (Ec & _ & Hz). simpl in Hz.
    specialize (H1 _ _ Ec). rewrite Hz in H1.
    assert (refs (m_hash r) d = 0%nat) as H0 by lia. rewrite refs_zero in H0.
    by destruct (H0 k r Hk).
Qed.

End quiet_lemmas.

(** What a sweep does when nothing interferes: on a consistent registry it removes
    exactly the blocks [FindOrphans] selects (unreferenced, older than seven days, the
    oldest first, at most the clamped batch size), reports their number, asks the blob
    store to delete exactly those blobs, and leaves every other block and every manifest
    row in place. *)
Theorem sweep_collects_orphans `{U : UUID} {B : Type}
    (del : string -> B -> result string unit * B) (batch : Z) (b : B) (w : world db)
    (Hcalm : calm w) (Hok : refcount_ok (contents w)) :
  let found := cas_find_orphans (clock w) GCSafetyWindow (clampBatch batch) (contents w) in
  found <> [] ->
  exists w', sweep (Some del) batch b w
      = (Some (zlen found), foldl (fun b hr => (del (hex_encode hr.1) b).2) b found, w') /\
    manifests (contents w') = manifests (contents w) /\
    zlen found <= clampBatch batch /\
    (forall h r, cas (contents w') !! h = Some r <->
       cas (contents w) !! h = Some r /\ h ∉ found.*1).
Proof.
  intros found Hne.
  destruct (calm_query OpMetadata (fun now d =>
    @Ok dberr _ (cas_find_orphans now GCSafetyWindow (clampBatch batch) d)) w Hcalm eq_refl)
    as (w1 & Hq & Hc1 & Hcalm1 & Hck).
  unfold sweep. cbn [rgFindOrphans rgDeleteBlocks PgRegistry]. unfold FindOrphans, registryQuery. rewrite Hq. cbn [fmap result_fmap mapErr]. fold found.
  destruct (orphan_delete_ok (clock w) GCSafetyWindow (clampBatch batch) (contents w) Hok) as [d' Hd].
  fold found in Hd.
  assert (omap (fun o => decodeHex (biHash o)) (map (fun hr => blockInfo hr.1 hr.2) found) = found.*1) as Hh.
  { clear. induction found as [|[h r] l IH]; [done|]. cbn [map omap list_omap].
    change (biHash (blockInfo (h, r).1 (h, r).2)) with (hex_encode h).
    rewrite decodeHex_eq, hex_decode_encode. simpl. f_equal. exact IH. }
  rewrite Hh. destruct (calm_exec (fun _ => stmt (cas_delete_unreferenced found.*1)) w1
    (zlen found) d' Hcalm1) as (w2 & He & Hc2 & _ & _).
  { rewrite Hc1. by apply stmt_ok. }
  unfold DeleteBlocks, registryExec. destruct found as [|hr0 rest] eqn:Ef; [done|]. cbn [map fmap list_fmap].
  change (hr0.1 :: (fst <$> rest)) with ((hr0 :: rest).*1). rewrite He. cbn [mapErr fmap result_fmap].
  rewrite <- Ef in *. exists w2. split_and!.
  - f_equal. f_equal. rewrite Ef. cbn [foldl map].
    change (biHash (blockInfo hr0.1 hr0.2)) with (hex_encode hr0.1).
    generalize ((del (hex_encode hr0.1) b).2). clear. induction rest as [|hr l IH]; intros b0; [done|].
    cbn [foldl map]. apply IH.
  - rewrite Hc2. by apply cas_delete_manifests in Hd as (-> & _).
  - subst found. unfold cas_find_orphans, ztake, zlen. rewrite length_take.
    pose proof (clampBatch_range batch). lia.
  - intros h r. rewrite Hc2, (cas_delete_lookup _ _ _ _ h r Hd). split.
    + intros [Hc Hn]. split; [done|]. intros Hin. apply Hn. split; [done|].
      apply list_elem_of_fmap in Hin as ([h' r'] & -> & Hin).
      apply cas_find_orphans_sound in Hin as (Hc' & Hz & _). simpl in *. by simplify_eq.
    + intros [Hc Hn]. split; [done|]. by intros [? _].
Qed.

(** ** Witnesses *)

Definition demoT : uuid := uuid_nil.
Definition demoV : uuid := mkUuid16 ("v", "v", "v", "v")%char ("v", "v")%char ("v", "v")%char
  ("v", "v")%char ("v", "v", "v", "v", "v", "v")%char.
Definition orphanHash : string := "orphan-block-orphan-block-orphan".
Definition liveHash : string := "live-block-live-block-live-block".

(** One referenced and one old unreferenced block. *)
Definition demoDb : db :=
  mkDb {[orphanHash := mkCas demoT 10 "HOT" 0 false 0 0; liveHash := mkCas demoT 20 "HOT" 1 false 0 0]}
       {[(demoV, 0) := mkMan liveHash 0 20]} ∅ ∅ ∅ {[demoT := mkTenant 1000 0]} true (Some 900) ∅.

Definition demoCalm : world db :=
  mkWorld demoDb (GCSafetyWindow + 5) [] newCircuitBreaker 0 0 0 0 None.

Lemma demoDb_ok : refcount_ok demoDb.
Proof.
  split.
  - change (map_Forall (fun h r => c_ref r = Z.of_nat (refs h demoDb)) (cas demoDb)).
    refine (bool_decide_unpack _ _). vm_compute. exact I.
  - change (map_Forall (fun _ r => is_Some (cas demoDb !! m_hash r)) (manifests demoDb)).
    refine (bool_decide_unpack _ _). vm_compute. exact I.
Qed.

Lemma sweep_keeps_refcounts_witness :
  refcount_ok (contents (sweep None 5 tt
    (mkWorld demoDb (GCSafetyWindow + 5) [mkSlot 3 (cas_mark_verified 0 liveHash) None None false]
       newCircuitBreaker 0 0 0 0 None)).2).
Proof.
  apply (sweep_keeps_refcounts None 5 tt).
  - constructor; [|constructor]. intros d. apply cas_mark_verified_refcount.
  - exact demoDb_ok.
Defined.

Lemma sweep_collects_orphans_witness :
  exists w', sweep (Some (fun h (b : list string) => (Ok tt, h :: b))) 5 [] demoCalm
    = (Some 1, [hex_encode orphanHash], w') /\ cas (contents w') !! orphanHash = None.
Proof.
  destruct (sweep_collects_orphans (fun h (b : list string) => (Ok tt, h :: b)) 5 [] demoCalm)
    as (w' & H1 & _ & _ & H2).
  - split; reflexivity.
  - exact demoDb_ok.
  - intros H%(f_equal length). vm_compute in H. discriminate H.
  - exists w'. split; [exact H1|]. destruct (cas (contents w') !! orphanHash) as [r|] eqn:E; [|reflexivity].
    apply H2 in E as [_ Hn]. exfalso. apply Hn. refine (bool_decide_unpack _ _). vm_compute. exact I.
Defined.

(** [EnsureBlock] breaks the reference-count protocol: it inserts a block with
    [ref_count = 1] although no manifest row names it, so the registry is inconsistent
    afterwards and the block is never an orphan, whatever its age; called again it leaves
    the count as it is (the [ON CONFLICT] branch does nothing). *)
Theorem EnsureBlock_breaks_refcounts (h : string) (size now : Z) (Hh : slen h = 32)
    (Hs : 0 < size < 2 ^ 31) :
  let w := mkWorld (mkDb ∅ ∅ ∅ ∅ ∅ {[demoT := mkTenant 1000 0]} true None ∅) now []
             newCircuitBreaker 0 0 0 0 None in
  let '(r1, w1) := EnsureBlock h (uuid_String demoT) size w in
  let '(r2, w2) := EnsureBlock h (uuid_String demoT) size w1 in
  refcount_ok (contents w) /\ r1 = Ok true /\ ~ refcount_ok (contents w1) /\
  r2 = Ok false /\ cas (contents w2) = cas (contents w1) /\
  (forall t window limit, cas_find_orphans t window limit (contents w1) = []).
Proof.
  set (d0 := mkDb ∅ ∅ ∅ ∅ ∅ _ true None ∅). intros w.
  set (row := mkCas demoT size "HOT" 1 false now now).
  set (d1 := setCas (<[h := row]> (cas d0)) d0).
  assert (forall d, cas_insert now 1 [(h, demoT, size)] d
    = ('(new, d1) ← match cas d !! h with
        | Some _ => Ok (false, d)
        | None => _ ← require (bool_decide (is_Some (tenantsT d !! demoT))) foreign_key_violation;
                  Ok (true, setCas (<[h := row]> (cas d)) d)
        end; Ok ((if new : bool then 1 else 0) + 0, d1))) as Hci.
  { intros d. simpl. unfold cas_insert1. rewrite Hh.
    assert (is_int32 size = true) as -> by (unfold is_int32; apply andb_true_iff; rewrite Z.leb_le, Z.ltb_lt; lia).
    rewrite (proj2 (Z.ltb_lt 0 size)) by lia. done. }
  assert (forall ww a d, calm ww -> clock ww = now -> cas_insert now 1 [(h, demoT, size)] (contents ww) = Ok (a, d) ->
    exists w', EnsureBlock h (uuid_String demoT) size ww = (Ok (0 <? a), w') /\ contents w' = d /\
      calm w' /\ clock w' = now) as He.
  { intros ww a d Hc Hn Hd. destruct (calm_exec (fun now => stmt (fun d =>
      t ← of_option (uuid_Parse (uuid_String demoT)) (pg "22P02");
      cas_insert now 1 [(h, t, size)] d)) ww a d Hc) as (w' & Hw & ? & ? & ?).
    { rewrite Hn. apply stmt_ok. rewrite uuid_Parse_String. exact Hd. }
    exists w'. unfold EnsureBlock, registryExec. rewrite Hw. split_and!; try done. congruence. }
  assert (cas_insert now 1 [(h, demoT, size)] d0 = Ok (1, d1)) as H1.
  { rewrite Hci. reflexivity. }
  destruct (He w 1 d1) as (w1 & E1 & Hc1 & Hcalm1 & Hn1); [by split|done|exact H1|].
  destruct (He w1 0 d1 Hcalm1 Hn1) as (w2 & E2 & Hc2 & _ & _).
  { rewrite Hc1, Hci. subst d1. simpl. by rewrite lookup_insert_eq. }
  rewrite E1, E2, Hc1, Hc2. split_and!; try done.
  - intros [Hr _]. specialize (Hr h row). simpl in Hr. rewrite lookup_insert_eq in Hr.
    specialize (Hr eq_refl). vm_compute in Hr. discriminate Hr.
  - intros t window limit. destruct (cas_find_orphans t window limit d1) as [|[h' r] l] eqn:E; [done|].
    destruct (cas_find_orphans_sound t window limit d1 h' r) as (Hc & Hz & _).
    { rewrite E. apply list_elem_of_here. }
    subst d1. simpl in Hc. destruct (decide (h = h')) as [->|Hne].
    + rewrite lookup_insert_eq in Hc. by simplify_eq/=.
    + rewrite lookup_insert_ne in Hc by done. by rewrite lookup_empty in Hc.
Qed.

Lemma EnsureBlock_breaks_refcounts_witness :
  let w := mkWorld (mkDb ∅ ∅ ∅ ∅ ∅ {[demoT := mkTenant 1000 0]} true None ∅) 7 []
             newCircuitBreaker 0 0 0 0 None in
  ~ refcount_ok (contents (EnsureBlock orphanHash (uuid_String demoT) 4096 w).2).
Proof.
  pose proof (EnsureBlock_breaks_refcounts orphanHash 4096 7 eq_refl ltac:(lia)) as H.
  intros w. fold w in H. cbv zeta in H. fold w in H.
  destruct (EnsureBlock orphanHash (uuid_String demoT) 4096 w) as [r1 w1].
  destruct (EnsureBlock orphanHash (uuid_String demoT) 4096 w1) as [r2 w2]. apply H.
Defined.
