(* ===== verification/Lock.v ===== *)
(** * internal/lock: distributed locks and leader election

    [redlock.go] (SETNX acquire, compare-and-delete release, compare-and-expire refresh),
    [advisory.go] (session-level Postgres advisory locks taken through a connection
    pool) and [leader.go] (one step of the campaign and the resignation). *)
From S2P Require Import Prelude External.

Inductive lockerr := ErrLockHeld | ErrLockExpired | LockBackend (msg : string).

Record LockToken := mkTok { tokResource : string; tokID : string; tokTTL : Z; tokLockID : Z }.

(** The [Locker] interface: each call takes the network outcome and the clock; [Acquire]
    also takes the fresh token id ([uuid.New().String()]). *)
Class Locker (L : Type) := {
  Acquire : net -> Z -> string -> string -> Z -> L -> result lockerr LockToken * L;
  Release : net -> Z -> LockToken -> L -> result lockerr unit * L;
  Refresh : net -> Z -> LockToken -> Z -> L -> result lockerr unit * L
}.

(** ** Redis *)

Section redis_locker.
Context `{R : Redis}.

Definition lockKey (resource : string) : string := "aegis:lock:" +:+ resource.

Definition redisAcquire (nw : net) (now : Z) (tokenID resource : string) (ttl : Z) (r : redis)
    : result lockerr LockToken * redis :=
  match call nw (r_setnx now (lockKey resource) tokenID ttl) r with
  | (Err e, r') => (Err (LockBackend e), r')
  | (Ok false, r') => (Err ErrLockHeld, r')
  | (Ok true, r') => (Ok (mkTok resource tokenID ttl 0), r')
  end.

(** The two Lua scripts, which the server runs atomically. *)
Definition unlockScript (now : Z) (key id : string) (r : redis) : Z * redis :=
  if bool_decide (r_get now key r = Some id)
  then let '(gone, r') := r_del now key r in (if gone then 1 else 0, r')
  else (0, r).

(** [pexpire] with a time in the past deletes the key. *)
Definition refreshScript (now : Z) (key id : string) (ms : Z) (r : redis) : Z * redis :=
  if bool_decide (r_get now key r = Some id)
  then (1, if 0 <? ms then r_set now key id (ms * 1000000) r else (r_del now key r).2)
  else (0, r).

Definition redisRelease (nw : net) (now : Z) (tok : LockToken) (r : redis)
    : result lockerr unit * redis :=
  match call nw (unlockScript now (lockKey (tokResource tok)) (tokID tok)) r with
  | (Err e, r') => (Err (LockBackend e), r')
  | (Ok res, r') => (if res =? 0 then Err ErrLockExpired else Ok tt, r')
  end.

Definition redisRefresh (nw : net) (now : Z) (tok : LockToken) (ttl : Z) (r : redis)
    : result lockerr unit * redis :=
  match call nw (refreshScript now (lockKey (tokResource tok)) (tokID tok) (Z.quot ttl 1000000)) r with
  | (Err e, r') => (Err (LockBackend e), r')
  | (Ok res, r') => (if res =? 0 then Err ErrLockExpired else Ok tt, r')
  end.

#[global] Instance RedisLocker : Locker redis := {|
  Acquire := redisAcquire; Release := redisRelease; Refresh := redisRefresh
|}.

End redis_locker.

(** ** Postgres advisory locks *)

(** FNV-1a, 64 bits. *)
Fixpoint fnv64a (h : Z) (s : string) : Z :=
  match s with
  | EmptyString => h
  | String c s' => fnv64a (uint64 (Z.lxor h (Z.of_N (code c)) * 1099511628211)) s'
  end.

Definition hashKey (resource : string) : Z := int64 (fnv64a 14695981039346656037 resource).

(** Lock id to the holding session (connection) and its hold count. *)
Definition pgLocks := gmap Z (Z * Z).

(** [pg_try_advisory_lock] and [pg_advisory_unlock] in session [conn]: re-entrant for the
    session that holds the lock. *)
Definition pg_try_advisory_lock (conn id : Z) (l : pgLocks) : bool * pgLocks :=
  match l !! id with
  | None => (true, <[id := (conn, 1)]> l)
  | Some (c, n) => if c =? conn then (true, <[id := (c, n + 1)]> l) else (false, l)
  end.

Definition pg_advisory_unlock (conn id : Z) (l : pgLocks) : bool * pgLocks :=
  match l !! id with
  | None => (false, l)
  | Some (c, n) =>
      if c =? conn then (true, if n <=? 1 then delete id l else <[id := (c, n - 1)]> l)
      else (false, l)
  end.

(** [conn] is the connection the pool hands out for this one [QueryRow]. *)
Definition pgAcquire (conn : Z) (nw : net) (tokenID resource : string) (ttl : Z) (l : pgLocks)
    : result lockerr LockToken * pgLocks :=
  let lockID := hashKey resource in
  match call nw (pg_try_advisory_lock conn lockID) l with
  | (Err e, l') => (Err (LockBackend e), l')
  | (Ok false, l') => (Err ErrLockHeld, l')
  | (Ok true, l') => (Ok (mkTok resource tokenID ttl lockID), l')
  end.

Definition pgRelease (conn : Z) (nw : net) (tok : LockToken) (l : pgLocks)
    : result lockerr unit * pgLocks :=
  match call nw (pg_advisory_unlock conn (tokLockID tok)) l with
  | (Err e, l') => (Err (LockBackend e), l')
  | (Ok released, l') => (if released : bool then Ok tt else Err ErrLockExpired, l')
  end.

Definition pgRefresh (l : pgLocks) : result lockerr unit * pgLocks := (Ok tt, l).

(** ** Leader election *)

Record LeaderConfig := mkLeaderConfig { lcResource : string; LeaseDuration : Z; RenewInterval : Z }.

Definition leaderDefaults (c : LeaderConfig) : LeaderConfig :=
  mkLeaderConfig (if bool_decide (lcResource c = "") then "aegis:gc:leader" else lcResource c)
    (if LeaseDuration c <=? 0 then 15 * 1000000000 else LeaseDuration c)
    (if RenewInterval c <=? 0 then 5 * 1000000000 else RenewInterval c).

Record LeaderElection := mkLeader { leCfg : LeaderConfig; isLeader : bool; activeTok : option LockToken }.

Definition NewLeaderElection (c : LeaderConfig) : LeaderElection := mkLeader (leaderDefaults c) false None.

Definition IsLeader (l : LeaderElection) : bool := isLeader l.

Section leader.
Context {L : Type} `{Locker L}.

(** One tick of the campaign; [freshID] is the id [Acquire] would draw. *)
Definition leaderStep (nw : net) (now : Z) (freshID : string) (e : LeaderElection) (l : L)
    : LeaderElection * L :=
  match isLeader e, activeTok e with
  | true, Some tok =>
      match Refresh nw now tok (LeaseDuration (leCfg e)) l with
      | (Err _, l') => (mkLeader (leCfg e) false None, l')
      | (Ok _, l') => (e, l')
      end
  | _, _ =>
      match Acquire nw now freshID (lcResource (leCfg e)) (LeaseDuration (leCfg e)) l with
      | (Ok tok, l') => (mkLeader (leCfg e) true (Some tok), l')
      | (Err _, l') => (mkLeader (leCfg e) false (activeTok e), l')
      end
  end.

Definition Resign (nw : net) (now : Z) (e : LeaderElection) (l : L)
    : result lockerr unit * LeaderElection * L :=
  match isLeader e, activeTok e with
  | true, Some tok =>
      let '(r, l') := Release nw now tok l in (r, mkLeader (leCfg e) false None, l')
  | _, _ => (Ok tt, e, l)
  end.

End leader.

(** ** Lemmas *)

Section redis_lemmas.
Context `{R : Redis}.

(** One request of some client to the Redis locker. *)
Inductive lockOp :=
| LAcquire (nw : net) (now : Z) (id resource : string) (ttl : Z)
| LRelease (nw : net) (now : Z) (tok : LockToken)
| LRefresh (nw : net) (now : Z) (tok : LockToken) (ttl : Z).

Definition lockOpTime (o : lockOp) : Z :=
  match o with LAcquire _ t _ _ _ | LRelease _ t _ | LRefresh _ t _ _ => t end.

Definition lockRun (r : redis) (o : lockOp) : redis :=
  match o with
  | LAcquire nw now id res ttl => (redisAcquire nw now id res ttl r).2
  | LRelease nw now tok => (redisRelease nw now tok r).2
  | LRefresh nw now tok ttl => (redisRefresh nw now tok ttl r).2
  end.

(** The request does not present the token [id]. *)
Definition foreign (id : string) (o : lockOp) : Prop :=
  match o with
  | LAcquire _ _ _ _ ttl => 0 < ttl
  | LRelease _ _ tok | LRefresh _ _ tok _ => tokID tok <> id
  end.

Lemma call_state {S A} nw (cmd : S -> A * S) s :
  (call nw cmd s).2 = s \/ (call nw cmd s).2 = (cmd s).2.
Proof. destruct nw; simpl; [right; by destruct (cmd s)|by left|by right]. Qed.

(** [id] stays in the key [k] until [t]: no request of another client removes it. *)
Lemma lockRun_keeps id k t o (r : redis) :
  foreign id o -> lockOpTime o <= t -> r_get t k r = Some id -> r_get t k (lockRun r o) = Some id.
Proof.
  intros Hf Ht Hk.
  assert (forall nw {A} (cmd : redis -> A * redis), r_get t k (cmd r).2 = Some id ->
            r_get t k (call nw cmd r).2 = Some id) as Hcall.
  { intros nw A cmd Hc. destruct (call_state nw cmd r) as [-> | ->]; done. }
  destruct o as [nw now id' res ttl|nw now tok|nw now tok ttl]; simpl in *.
  - unfold redisAcquire. specialize (Hcall nw bool (r_setnx now (lockKey res) id' ttl)).
    assert (r_get t k (r_setnx now (lockKey res) id' ttl r).2 = Some id) as Hs.
    { destruct (r_get now (lockKey res) r) as [v|] eqn:E.
      - destruct (r_setnx_taken now _ id' ttl r v E) as (r' & -> & Hg). simpl. by rewrite Hg.
      - destruct (r_setnx_free now _ id' ttl r Hf E) as (r' & -> & Hg). simpl. rewrite Hg by done.
        case_decide as Hd; [|done]. subst k.
        apply (r_get_expires now t) in Hk; [congruence|done]. }
    specialize (Hcall Hs). destruct (call nw _ r) as [[[]|] r']; done.
  - unfold redisRelease. specialize (Hcall nw Z (unlockScript now (lockKey (tokResource tok)) (tokID tok))).
    assert (r_get t k (unlockScript now (lockKey (tokResource tok)) (tokID tok) r).2 = Some id) as Hs.
    { unfold unlockScript. case_bool_decide as Hg; [|done].
      pose proof (r_del_get now (lockKey (tokResource tok)) r t k Ht) as Hd.
      destruct (r_del _ _ r) as [g r']. simpl in *. rewrite Hd. case_decide as Hkk; [|done]. subst k.
      apply (r_get_expires now t) in Hk; [congruence|done]. }
    specialize (Hcall Hs). destruct (call nw _ r) as [[?|?] r']; done.
  - unfold redisRefresh. specialize (Hcall nw Z (refreshScript now (lockKey (tokResource tok)) (tokID tok)
      (Z.quot ttl 1000000))).
    assert (r_get t k (refreshScript now (lockKey (tokResource tok)) (tokID tok) (Z.quot ttl 1000000) r).2
            = Some id) as Hs.
    { unfold refreshScript. case_bool_decide as Hg; [|done].
      assert (k <> lockKey (tokResource tok)) as Hne.
      { intros ->. apply (r_get_expires now t) in Hk; [congruence|done]. }
      case_match eqn:E; bool_hyps; simpl.
      - rewrite r_set_get by lia. by rewrite decide_False.
      - rewrite r_del_get by done. by rewrite decide_False. }
    specialize (Hcall Hs). destruct (call nw _ r) as [[?|?] r']; done.
Qed.

Lemma lockRuns_keep id k t ops (r : redis) :
  Forall (foreign id) ops -> Forall (fun o => lockOpTime o <= t) ops -> r_get t k r = Some id ->
  r_get t k (foldl lockRun r ops) = Some id.
Proof.
  revert r. induction ops as [|o ops IH]; intros r Hf Ht Hk; [done|].
  apply Forall_cons in Hf as [? ?]. apply Forall_cons in Ht as [? ?]. simpl.
  apply IH; [done|done|]. by apply lockRun_keeps.
Qed.

Lemma redisAcquire_ok nw now id res ttl r tok r' t :
  0 < ttl -> redisAcquire nw now id res ttl r = (Ok tok, r') -> now <= t < now + ttl ->
  r_get t (lockKey res) r' = Some id /\ tok = mkTok res id ttl 0.
Proof.
  intros Httl H Ht. unfold redisAcquire in H.
  destruct nw as [|m|m]; simpl in H; [|done|done].
  destruct (r_get now (lockKey res) r) as [v|] eqn:E.
  - destruct (r_setnx_taken now _ id ttl r v E) as (r1 & Hr & _). by rewrite Hr in H.
  - destruct (r_setnx_free now _ id ttl r Httl E) as (r1 & Hr & Hg). rewrite Hr in H. simplify_eq.
    split; [|done]. rewrite Hg by lia. rewrite decide_True by done.
    by rewrite (proj2 (Z.ltb_lt _ _)) by lia.
Qed.

Lemma redisAcquire_taken nw now id res ttl r v :
  r_get now (lockKey res) r = Some v -> is_ok (redisAcquire nw now id res ttl r).1 = false.
Proof.
  intros Hv. unfold redisAcquire. destruct (r_setnx_taken now _ id ttl r v Hv) as (r1 & Hr & _).
  destruct nw; simpl; rewrite ?Hr; done.
Qed.

End redis_lemmas.

(** ** Properties *)



(** The advisory locker is not exclusive behind a pool: when the pool serves two
    callers from the same connection, both acquire the lock on the same resource; and
    when it serves a release from another connection, the release is refused and the
    lock stays held. *)
Theorem advisory_lock_not_exclusive (res id1 id2 : string) (ttl c1 c2 : Z) (l : pgLocks)
    (Hfree : l !! hashKey res = None) (Hc : c1 <> c2) :
  exists tok1 tok2 l1 l2,
    pgAcquire c1 NetOk id1 res ttl l = (Ok tok1, l1) /\
    pgAcquire c1 NetOk id2 res ttl l1 = (Ok tok2, l2) /\
    pgRelease c2 NetOk tok1 l1 = (Err ErrLockExpired, l1).
Proof.
  unfold pgAcquire, pgRelease, pg_try_advisory_lock, pg_advisory_unlock, pgLocks in *.
  cbn [call]. rewrite Hfree.
  exists (mkTok res id1 ttl (hashKey res)), (mkTok res id2 ttl (hashKey res)),
    (<[hashKey res := (c1, 1)]> l), (<[hashKey res := (c1, 2)]> (<[hashKey res := (c1, 1)]> l)).
  cbn [tokLockID]. rewrite !lookup_insert_eq, Z.eqb_refl, (proj2 (Z.eqb_neq c1 c2)) by done. done.
Qed.

Lemma advisory_lock_not_exclusive_witness :
  exists tok1 tok2 l1 l2,
    pgAcquire 1 NetOk "x" "gc:leader" 15 ∅ = (Ok tok1, l1) /\
    pgAcquire 1 NetOk "y" "gc:leader" 15 l1 = (Ok tok2, l2) /\
    pgRelease 2 NetOk tok1 l1 = (Err ErrLockExpired, l1).
Proof.
  apply (advisory_lock_not_exclusive "gc:leader" "x" "y" 15 1 2 ∅); [reflexivity | discriminate].
Defined.

(** Leadership follows the lock: starting from one election round in which node [a]
    was elected at [now] with a lease, every other node that takes a step before the
    lease ends stays (or becomes) a follower, whatever the other clients of the lock do
    with their own tokens in between; and after [a] resigns over a working network, the
    next node to step is elected. *)
Theorem leader_unique `{Redis} (a b : LeaderElection) (ida idb : string) (now t : Z) (nwb : net)
    (r r1 : redis) (ops : list lockOp)
    (Hres : lcResource (leCfg a) = lcResource (leCfg b))
    (Hlease : 0 < LeaseDuration (leCfg a)) (Hleaseb : 0 < LeaseDuration (leCfg b))
    (Ha : isLeader a = false) (Hb : isLeader b = false)
    (Helect : leaderStep NetOk now ida a r = (mkLeader (leCfg a) true
                (Some (mkTok (lcResource (leCfg a)) ida (LeaseDuration (leCfg a)) 0)), r1))
    (Hops : Forall (foreign ida) ops) (Htimes : Forall (fun o => lockOpTime o <= t) ops)
    (Ht : now <= t < now + LeaseDuration (leCfg a)) :
  let r2 := foldl lockRun r1 ops in
  let a' := mkLeader (leCfg a) true
              (Some (mkTok (lcResource (leCfg a)) ida (LeaseDuration (leCfg a)) 0)) in
  IsLeader (leaderStep nwb t idb b r2).1 = false /\
  let '(_, a'', r3) := Resign NetOk t a' r2 in
  IsLeader a'' = false /\ IsLeader (leaderStep NetOk t idb b r3).1 = true.
Proof.
  intros r2 a'. unfold leaderStep in Helect. rewrite Ha in Helect. simpl in Helect.
  destruct (redisAcquire NetOk now ida _ _ r) as [[tok|e] r1'] eqn:Eacq; simplify_eq.
  destruct (redisAcquire_ok NetOk now ida _ _ r _ r1 t Hlease Eacq Ht) as [Hg _].
  pose proof (lockRuns_keep ida _ t ops r1 Hops Htimes Hg) as Hk. fold r2 in Hk. split.
  - unfold leaderStep. rewrite Hb. simpl. rewrite <- Hres.
    pose proof (redisAcquire_taken nwb t idb (lcResource (leCfg a)) (LeaseDuration (leCfg b)) r2 ida Hk) as Hn.
    by destruct (redisAcquire nwb t idb _ _ r2) as [[tok|e] r3].
  - unfold Resign. simpl. unfold redisRelease. simpl. unfold unlockScript. rewrite bool_decide_true by done.
    pose proof (r_del_get t (lockKey (lcResource (leCfg a))) r2 t) as Hd.
    destruct (r_del t (lockKey (lcResource (leCfg a))) r2) as [g r3]. simpl in Hd. split; [done|].
    unfold leaderStep. rewrite Hb. simpl. unfold redisAcquire. simpl. rewrite <- Hres.
    destruct (r_setnx_free t (lockKey (lcResource (leCfg a))) idb (LeaseDuration (leCfg b)) r3 Hleaseb)
      as (r4 & -> & _); [|done].
    rewrite Hd by lia. by rewrite decide_True.
Qed.

Definition demoNode : LeaderElection := NewLeaderElection (mkLeaderConfig "" 0 0).

Lemma leader_unique_witness :
  IsLeader (leaderStep NetOk 5 "b" demoNode
    (foldl lockRun (leaderStep NetOk 0 "a" demoNode emptyRedis).2 [LAcquire NetOk 3 "z" "other" 9])).1
  = false.
Proof.
  apply (leader_unique demoNode demoNode "a" "b" 0 5 NetOk emptyRedis
    (leaderStep NetOk 0 "a" demoNode emptyRedis).2 [LAcquire NetOk 3 "z" "other" 9]).
  all: try reflexivity.
  - repeat constructor.
  - repeat constructor; simpl; lia.
  - vm_compute. split; [discriminate|reflexivity].
Defined.
