(* ===== verification/Gc.v ===== *)
(** * internal/gc: the generational garbage-collection pipeline

    [gc.go] (session cleanup, orphan sweep with rate limit, double check, dry run,
    tombstones and audit trail; the tombstone consumer), [leader.go] (the lock-protected
    sweep) and the adapter of [cmd/ingest/gc_adapter.go] that runs the [Store] interface
    on the database client.  The store, the tombstone publisher and the blob store are
    interfaces; their states are threaded through. *)
From S2P Require Import Prelude GoLib Json External Database Schema Lock.

Definition hourNs : Z := 3600 * 1000000000.

Record GCfg := mkGCfg {
  SessionCleanupInterval : Z; BlockSweepInterval : Z; SafetyWindow : Z;
  BatchSize : Z; MaxBlocksPerHour : Z; DryRun : bool
}.

Definition gcDefaults (c : GCfg) : GCfg :=
  let dflt v d := if v <=? 0 then d else v in
  mkGCfg (dflt (SessionCleanupInterval c) hourNs) (dflt (BlockSweepInterval c) (24 * hourNs))
    (dflt (SafetyWindow c) (7 * 24 * hourNs)) (dflt (BatchSize c) 1000)
    (dflt (MaxBlocksPerHour c) 5000) (DryRun c).

Record SessionInfo := mkSI { siID : string; siTenant : string; siExpiresAt : Z }.
Record GBlock := mkGBlock { gbHash : string; gbTenant : string; gbSize : Z; gbRef : Z }.

Record TombstoneEvent := mkTombstone { teHash : string; teTenant : string; teSize : Z;
  teTimestamp : string; teReason : string }.

(** [time.Now().UTC().Format(time.RFC3339)] at [now]. *)
Definition utcStamp (now : Z) : string := rfc3339 0 (now / 1000000000).

Record AuditEntry := mkAudit { auTime : Z; auAction : string; auHash : string; auSession : string;
  auTenant : string; auSize : Z; auReason : string; auDetail : string }.

(** ** Interfaces *)

Class GCStore (S : Type) := {
  GetExpiredSessions : Z -> S -> result dberr (list SessionInfo) * S;
  MarkSessionExpired : string -> S -> result dberr unit * S;
  FindOrphanedBlocks : Z -> Z -> S -> result dberr (list GBlock) * S;
  DoubleCheckBlock : string -> S -> result dberr bool * S;
  HardDeleteBlocks : list string -> S -> result dberr Z * S
}.

Class TombstonePublisher (P : Type) :=
  PublishBlockTombstone : string -> TombstoneEvent -> P -> result string unit * P.

Class BlobDeleter (B : Type) := DeleteBlob : string -> B -> result string unit * B.

(** ** The collector *)

Record GCMetrics := mkGCM { mSessions : Z; mTombstoned : Z; mDeleted : Z; mFailed : Z;
  mRateLimit : Z; mSaved : Z }.

(** The model counts the calls of the six hooks; hooks that do nothing count as well. *)
Definition nopMetrics : GCMetrics := mkGCM 0 0 0 0 0 0.

Section collector.
Context {S P B : Type} `{GCStore S} `{TombstonePublisher P} `{BlobDeleter B}.

(** [gBlob = None] is a collector without blob store. *)
Record GC := mkGC {
  gStore : S; gPub : P; gBlob : option B; gCfg : GCfg;
  auditLog : list AuditEntry; deletionCount : Z; rateResetAt : Z; gMetrics : GCMetrics
}.

Definition gcNew (st : S) (p : P) (b : option B) (cfg : GCfg) : GC :=
  mkGC st p b (gcDefaults cfg) [] 0 0 nopMetrics.

Definition setStore (s : S) (g : GC) : GC :=
  mkGC s (gPub g) (gBlob g) (gCfg g) (auditLog g) (deletionCount g) (rateResetAt g) (gMetrics g).
Definition setPub (p : P) (g : GC) : GC :=
  mkGC (gStore g) p (gBlob g) (gCfg g) (auditLog g) (deletionCount g) (rateResetAt g) (gMetrics g).
Definition setBlob (b : option B) (g : GC) : GC :=
  mkGC (gStore g) (gPub g) b (gCfg g) (auditLog g) (deletionCount g) (rateResetAt g) (gMetrics g).
Definition setMetrics (m : GCMetrics) (g : GC) : GC :=
  mkGC (gStore g) (gPub g) (gBlob g) (gCfg g) (auditLog g) (deletionCount g) (rateResetAt g) m.
Definition setCount (n : Z) (g : GC) : GC :=
  mkGC (gStore g) (gPub g) (gBlob g) (gCfg g) (auditLog g) n (rateResetAt g) (gMetrics g).

Definition audit (e : AuditEntry) (g : GC) : GC :=
  mkGC (gStore g) (gPub g) (gBlob g) (gCfg g) (auditLog g ++ [e]) (deletionCount g)
       (rateResetAt g) (gMetrics g).

Definition addM (ds dt dd df dr dv : Z) (g : GC) : GC :=
  let m := gMetrics g in
  setMetrics (mkGCM (mSessions m + ds) (mTombstoned m + dt) (mDeleted m + dd) (mFailed m + df)
                    (mRateLimit m + dr) (mSaved m + dv)) g.

(** The audit trail, copied. *)
Definition AuditLog (g : GC) : list AuditEntry := auditLog g.

(** Phase 1. *)
Fixpoint expireLoop (now : Z) (l : list SessionInfo) (g : GC) : GC :=
  match l with
  | [] => g
  | s :: l' =>
      match MarkSessionExpired (siID s) (gStore g) with
      | (Err _, st) => expireLoop now l' (setStore st g)
      | (Ok _, st) =>
          expireLoop now l'
            (audit (mkAudit now "session_expired" "" (siID s) (siTenant s) 0
                     "stale upload not committed within grace period" "") (addM 1 0 0 0 0 0 (setStore st g)))
      end
  end.

Definition cleanupExpiredSessions (now : Z) (g : GC) : GC :=
  match GetExpiredSessions (BatchSize (gCfg g)) (gStore g) with
  | (Err _, st) => setStore st g
  | (Ok sessions, st) => expireLoop now sessions (setStore st g)
  end.

(** The last steps for one block: blob deletion, then the guarded database delete.  The
    [option] is the [continue] of the Go loop body. *)
Definition deleteBlobStep (now : Z) (gb : GBlock) (g : GC) : bool * GC :=
  match gBlob g with
  | None => (true, g)
  | Some b =>
      match DeleteBlob (gbHash gb) b with
      | (Err e, b') =>
          (false, audit (mkAudit now "blob_delete_failed" (gbHash gb) "" (gbTenant gb) 0 "" e) (addM 0 0 0 1 0 0 (setBlob (Some b') g)))
      | (Ok _, b') =>
          (true, audit (mkAudit now "blob_deleted" (gbHash gb) "" (gbTenant gb) (gbSize gb) "" "") (addM 0 0 1 0 0 0 (setBlob (Some b') g)))
      end
  end.

Definition hardDeleteStep (h : string) (g : GC) : GC :=
  match HardDeleteBlocks [h] (gStore g) with
  | (Err _, st) => setStore st g
  | (Ok deleted, st) =>
      let g' := setStore st g in
      if 0 <? deleted then setCount (int64 (deletionCount g' + 1)) g' else g'
  end.

(** One iteration of the loop of [processBatch] after the rate-limit check. *)
Definition processBlock (now : Z) (b : GBlock) (g : GC) : GC :=
  match DoubleCheckBlock (gbHash b) (gStore g) with
  | (Err _, st) => setStore st g
  | (Ok false, st) =>
      audit (mkAudit now "double_check_saved" (gbHash b) "" (gbTenant b) 0 ""
               "block re-referenced before deletion, skipping") (addM 0 0 0 0 0 1 (setStore st g))
  | (Ok true, st) =>
      let g1 := setStore st g in
      let tombstone := mkTombstone (gbHash b) (gbTenant b) (gbSize b) (utcStamp now) "orphan_gc" in
      if DryRun (gCfg g1) then audit (mkAudit now "dry_run_tombstone" (gbHash b) "" (gbTenant b) (gbSize b)
                                       "dry_run" "") g1
      else match PublishBlockTombstone "cas-tombstones" tombstone (gPub g1) with
      | (Err _, p) => setPub p g1
      | (Ok _, p) =>
          let g2 := audit (mkAudit now "tombstone_emitted" (gbHash b) "" (gbTenant b) (gbSize b) "orphan_gc" "")
                          (addM 0 1 0 0 0 0 (setPub p g1)) in
          let '(go, g3) := deleteBlobStep now b g2 in
          if go then hardDeleteStep (gbHash b) g3 else g3
      end
  end.

Fixpoint processBatch (now : Z) (batch : list GBlock) (g : GC) : GC :=
  match batch with
  | [] => g
  | b :: rest =>
      if MaxBlocksPerHour (gCfg g) <=? deletionCount g then addM 0 0 0 0 1 0 g
      else processBatch now rest (processBlock now b g)
  end.

(** The batching loop [for i := 0; i < len(blocks); i += BatchSize]; [fuel] bounds the
    number of batches (the length of the list is enough for a positive batch size). *)
Fixpoint batches (fuel : nat) (now : Z) (blocks : list GBlock) (g : GC) : GC :=
  match fuel, blocks with
  | O, _ | _, [] => g
  | Datatypes.S f, _ =>
      batches f now (zdrop (BatchSize (gCfg g)) blocks)
        (processBatch now (ztake (BatchSize (gCfg g)) blocks) g)
  end.

Definition sweepOrphanedBlocks (now : Z) (g : GC) : GC :=
  let g0 := if hourNs <? now - rateResetAt g
            then mkGC (gStore g) (gPub g) (gBlob g) (gCfg g) (auditLog g) 0 now (gMetrics g)
            else g in
  match FindOrphanedBlocks (SafetyWindow (gCfg g0)) (BatchSize (gCfg g0)) (gStore g0) with
  | (Err _, st) => setStore st g0
  | (Ok blocks, st) => batches (length blocks) now blocks (setStore st g0)
  end.

(** ** Tombstone consumer (phase 3)

    The message source is the subject of [Loops]. *)
Record TombstoneConsumer := mkTombstoneConsumer {
  tcBlob : B; tcStore : S; tcMetrics : GCMetrics; tcDryRun : bool
}.

(** The hooks start where the collector's do. *)
Definition NewTombstoneConsumer (b : B) (st : S) (dryRun : bool) : TombstoneConsumer :=
  mkTombstoneConsumer b st nopMetrics dryRun.

Definition countDelete (dd df : Z) (m : GCMetrics) : GCMetrics :=
  mkGCM (mSessions m) (mTombstoned m) (mDeleted m + dd) (mFailed m + df) (mRateLimit m) (mSaved m).

(** The message carries the decoded event ([None]: it does not unmarshal); the result
    says whether the message is committed. *)
Definition processMessage (msg : option TombstoneEvent) (tc : TombstoneConsumer) : bool * TombstoneConsumer :=
  match msg with
  | None => (false, tc)
  | Some event =>
      if tcDryRun tc then (true, tc)
      else match DeleteBlob (teHash event) (tcBlob tc) with
      | (Err _, b') =>
          (false, mkTombstoneConsumer b' (tcStore tc) (countDelete 0 1 (tcMetrics tc)) (tcDryRun tc))
      | (Ok _, b') =>
          let '(_, st') := HardDeleteBlocks [teHash event] (tcStore tc) in
          (true, mkTombstoneConsumer b' st' (countDelete 1 0 (tcMetrics tc)) (tcDryRun tc))
      end
  end.

(** ** Leader-protected sweep *)

Section leader_sweep.
Context {L : Type} `{Locker L}.

(** The collector, the elector ([None]: no election) and the locker. *)
Record LeaderGCSweeper := mkLeaderGC { lgGC : GC; lgElector : option LeaderElection; lgLocker : L }.

Definition NewLeaderGCSweeper (g : GC) (elector : option LeaderElection) (l : L) : LeaderGCSweeper :=
  mkLeaderGC g elector l.

(** One block under its lock: the blob store is not asked.  [off]: the local time zone. *)
Definition leaderBlock (off now : Z) (b : GBlock) (g : GC) : GC :=
  match DoubleCheckBlock (gbHash b) (gStore g) with
  | (Ok true, st) =>
      let g1 := setStore st g in
      let '(_, p) := PublishBlockTombstone "cas-tombstones"
          (mkTombstone (gbHash b) (gbTenant b) (gbSize b) (rfc3339 off (now / 1000000000)) "orphan_gc") (gPub g1) in
      let '(_, st') := HardDeleteBlocks [gbHash b] (gStore g1) in
      setStore st' (setPub p g1)
  | (_, st) => setStore st g
  end.

(** [ids] supplies the token ids; every lock call happens at [now] over [nw]. *)
Fixpoint leaderBlocks (nw : net) (off now : Z) (ids : nat -> string) (blocks : list GBlock)
    (g : GC) (l : L) : GC * L :=
  match blocks with
  | [] => (g, l)
  | b :: rest =>
      match Acquire nw now (ids (length rest)) ("gc:block:" +:+ gbHash b) (10 * 1000000000) l with
      | (Err _, l1) => leaderBlocks nw off now ids rest g l1
      | (Ok tok, l1) =>
          let g2 := leaderBlock off now b g in
          let '(_, l2) := Release nw now tok l1 in
          leaderBlocks nw off now ids rest g2 l2
      end
  end.

Definition follower (s : LeaderGCSweeper) : bool :=
  match lgElector s with Some e => negb (IsLeader e) | None => false end.

Definition RunLeaderSweep (nw : net) (off now : Z) (ids : nat -> string) (s : LeaderGCSweeper)
    : result dberr unit * LeaderGCSweeper :=
  if follower s then (Ok tt, s)
  else let g := lgGC s in
    match FindOrphanedBlocks (SafetyWindow (gCfg g)) (BatchSize (gCfg g)) (gStore g) with
    | (Err er, st) => (Err er, mkLeaderGC (setStore st g) (lgElector s) (lgLocker s))
    | (Ok blocks, st) =>
        let '(g', l') := leaderBlocks nw off now ids blocks (setStore st g) (lgLocker s) in
        (Ok tt, mkLeaderGC g' (lgElector s) l')
    end.

End leader_sweep.
End collector.
Arguments GC : clear implicits.
Arguments TombstoneConsumer : clear implicits.
Arguments LeaderGCSweeper : clear implicits.

(** ** The database adapter ([gc_adapter.go])

    The routing class is a parameter; the adapter passes ["gc"].  The safety window is
    passed in whole seconds.  The two session
    statements name the column [id], which [upload_sessions] does not have. *)
Section adapter.
Context `{U : UUID}.

Definition adapterStore (class : string) : GCStore (world db) := {|
  GetExpiredSessions _ w := QueryWithMetrics class (fun _ _ => Err undefined_column) w;
  MarkSessionExpired _ w := ExecWithMetrics class (fun _ d => (Err undefined_column, d)) w;
  FindOrphanedBlocks window limit w :=
    QueryWithMetrics class (fun now d =>
      Ok ((fun hr => mkGBlock hr.1 (uuid_String (c_tenant hr.2)) (c_size hr.2) (c_ref hr.2)) <$>
          cas_find_orphans now (Z.quot window 1000000000 * 1000000000) limit d)) w;
  DoubleCheckBlock h w :=
    QueryWithMetrics class (fun _ d =>
      Ok (match cas d !! h with Some r => c_ref r =? 0 | None => false end)) w;
  HardDeleteBlocks hs w := ExecWithMetrics class (fun _ => stmt (cas_delete_unreferenced hs)) w
|}.

(** The class the adapter passes to every call. *)
Definition gcOpClass : string := "gc".

End adapter.

(** An in-memory publisher and blob store, for runs of the model. *)
#[global] Instance logPublisher : TombstonePublisher (list TombstoneEvent) :=
  fun _ e l => (Ok tt, l ++ [e]).
#[global] Instance setBlobs : BlobDeleter (gset string) := fun h b => (Ok tt, b ∖ {[h]}).

(** ** Lemmas *)

Section collector_lemmas.
Context {S P B : Type} `{GCStore S} `{TombstonePublisher P} `{BlobDeleter B}.
Implicit Types g : GC S P B.

Lemma hardDeleteStep_spec h g :
  let g' := hardDeleteStep h g in
  gCfg g' = gCfg g /\ gPub g' = gPub g /\ gBlob g' = gBlob g /\
  gStore g' = (HardDeleteBlocks [h] (gStore g)).2 /\
  (deletionCount g' = deletionCount g \/ deletionCount g' = int64 (deletionCount g + 1)).
Proof.
  unfold hardDeleteStep. destruct (HardDeleteBlocks [h] (gStore g)) as [[n|e] st]; simpl.
  - case_match; simpl; split_and!; auto.
  - split_and!; auto.
Qed.

Lemma deleteBlobStep_spec now h g :
  let g' := (deleteBlobStep now h g).2 in
  gCfg g' = gCfg g /\ gPub g' = gPub g /\ gStore g' = gStore g /\ deletionCount g' = deletionCount g.
Proof.
  unfold deleteBlobStep. destruct (gBlob g) as [b|]; [|done].
  by destruct (DeleteBlob (gbHash h) b) as [[]].
Qed.

(** One block: which stores it may touch, and how. *)
Lemma processBlock_spec now b g :
  let g' := processBlock now b g in
  let st := (DoubleCheckBlock (gbHash b) (gStore g)).2 in
  gCfg g' = gCfg g /\
  (gStore g' = st \/ DryRun (gCfg g) = false /\ gStore g' = (HardDeleteBlocks [gbHash b] st).2) /\
  (deletionCount g' = deletionCount g \/ deletionCount g' = int64 (deletionCount g + 1)) /\
  (DryRun (gCfg g) = true -> gPub g' = gPub g /\ gBlob g' = gBlob g /\ deletionCount g' = deletionCount g).
Proof.
  unfold processBlock.
  destruct (DoubleCheckBlock (gbHash b) (gStore g)) as [[[]|e] st]; simpl;
    [|split_and!; auto; done|split_and!; auto; done].
  destruct (DryRun (gCfg g)) eqn:Hd; simpl; [split_and!; auto; done|].
  destruct (PublishBlockTombstone _ _ _) as [[[]|e] p]; simpl; [|split_and!; auto; done].
  set (g2 := audit _ _). pose proof (deleteBlobStep_spec now b g2) as (J1 & J2 & J3 & J4).
  destruct (deleteBlobStep now b g2) as [go g3]. simpl in *.
  destruct go.
  - pose proof (hardDeleteStep_spec (gbHash b) g3) as (K1 & K2 & K3 & K4 & K5).
    rewrite K1, J1, K4, J3, J4 in *. split_and!; auto; done.
  - rewrite J1, J3, J4. split_and!; auto; done.
Qed.

Lemma processBatch_rate now batch g :
  is_int64 (MaxBlocksPerHour (gCfg g)) -> is_int64 (deletionCount g) ->
  deletionCount g <= Z.max (deletionCount g) (MaxBlocksPerHour (gCfg g)) ->
  deletionCount (processBatch now batch g) <= Z.max (deletionCount g) (MaxBlocksPerHour (gCfg g)) /\
  gCfg (processBatch now batch g) = gCfg g /\ is_int64 (deletionCount (processBatch now batch g)).
Proof.
  revert g. induction batch as [|b rest IH]; intros g Hm Hd Hle; simpl; [done|].
  destruct (MaxBlocksPerHour (gCfg g) <=? deletionCount g) eqn:E; bool_hyps; [by simpl|].
  destruct (processBlock_spec now b g) as (Hc & _ & Hn & _).
  assert (deletionCount (processBlock now b g) <= Z.max (deletionCount g) (MaxBlocksPerHour (gCfg g))
          /\ is_int64 (deletionCount (processBlock now b g))) as [Hb Hi].
  { destruct Hn as [-> | ->]; [done|]. rewrite int64_id by (unfold is_int64 in *; lia).
    unfold is_int64 in *. split; lia. }
  destruct (IH (processBlock now b g)) as (H1' & H2' & H3'); rewrite ?Hc; try done; [lia|].
  rewrite Hc in H1', H2'. split_and!; [lia|done|done].
Qed.

(** A property of the store that the two store calls of a block keep survives the batch. *)
Lemma processBatch_store (I : S -> Prop) now batch g :
  (forall h s, I s -> I (DoubleCheckBlock h s).2) ->
  (DryRun (gCfg g) = false -> forall hs s, I s -> I (HardDeleteBlocks hs s).2) ->
  I (gStore g) -> I (gStore (processBatch now batch g)) /\ gCfg (processBatch now batch g) = gCfg g /\
  (DryRun (gCfg g) = true -> gPub (processBatch now batch g) = gPub g /\
     gBlob (processBatch now batch g) = gBlob g /\
     deletionCount (processBatch now batch g) = deletionCount g).
Proof.
  intros Hdc. revert g. induction batch as [|b rest IH]; intros g Hhd HI; simpl; [done|].
  case_match; [done|]. destruct (processBlock_spec now b g) as (Hc & Hs & _ & Hdry).
  assert (I (gStore (processBlock now b g))) as HI'.
  { destruct Hs as [-> | [Hd ->]]; [by apply Hdc|]. apply Hhd; [done|]. by apply Hdc. }
  destruct (IH (processBlock now b g)) as (H1' & H2' & H3'); [by rewrite Hc|done|].
  rewrite Hc in H2', H3'. split_and!; [done|done|]. intros Hd.
  destruct (Hdry Hd) as (<- & <- & <-). auto.
Qed.

Lemma batches_store (I : S -> Prop) fuel now blocks g :
  (forall h s, I s -> I (DoubleCheckBlock h s).2) ->
  (DryRun (gCfg g) = false -> forall hs s, I s -> I (HardDeleteBlocks hs s).2) ->
  I (gStore g) -> I (gStore (batches fuel now blocks g)) /\
  (DryRun (gCfg g) = true -> gPub (batches fuel now blocks g) = gPub g /\
     gBlob (batches fuel now blocks g) = gBlob g /\
     deletionCount (batches fuel now blocks g) = deletionCount g).
Proof.
  intros Hdc. revert blocks g. induction fuel as [|f IH]; intros blocks g Hhd HI; [done|].
  destruct blocks as [|b bs]; [done|]. cbn [batches].
  destruct (processBatch_store I now (ztake (BatchSize (gCfg g)) (b :: bs)) g Hdc Hhd HI) as (H1' & Hc & Hdry).
  destruct (IH (zdrop (BatchSize (gCfg g)) (b :: bs))
    (processBatch now (ztake (BatchSize (gCfg g)) (b :: bs)) g)) as [H2' H3']; [by rewrite Hc|done|].
  rewrite Hc in H3'. split; [done|]. intros Hd. destruct (Hdry Hd) as (<- & <- & <-). auto.
Qed.

Lemma processBatch_cfg now batch g : gCfg (processBatch now batch g) = gCfg g.
Proof. by destruct (processBatch_store (fun _ => True) now batch g) as (_ & ? & _). Qed.

(** The fuel of [sweepOrphanedBlocks] is enough: any larger one gives the same sweep. *)
Lemma batches_fuel fuel now blocks g :
  0 < BatchSize (gCfg g) -> (length blocks <= fuel)%nat ->
  batches fuel now blocks g = batches (length blocks) now blocks g.
Proof.
  enough (forall f1 f2 l g', 0 < BatchSize (gCfg g') -> (length l <= f1)%nat -> (length l <= f2)%nat ->
    batches f1 now l g' = batches f2 now l g') as Hgen by (intros; by apply Hgen).
  induction f1 as [|f1 IH]; intros f2 [|b l] g' Hb H1' H2'; simpl in H1'; [by destruct f2|lia|by destruct f2|].
  destruct f2 as [|f2]; simpl in H2'; [lia|]. cbn [batches].
  apply IH; [by rewrite processBatch_cfg| |]; unfold zdrop; rewrite length_drop; simpl; lia.
Qed.

End collector_lemmas.

Section adapter_lemmas.
Context `{U : UUID}.

Definition consistent (w : world db) : Prop := envKeeps refcount_ok w /\ refcount_ok (contents w).

Lemma consistent_env w w' : envOnly w w' -> consistent w -> consistent w'.
Proof. intros He [Hk Hr]. destruct (envOnly_keeps _ _ _ He Hk) as [? ?]. split; auto. Qed.

Lemma consistent_query {A} class (q : Z -> db -> result dberr A) w :
  consistent w -> consistent (QueryWithMetrics class q w).2.
Proof.
  intros Hc. destruct (QueryWithMetrics class q w) as [r w'] eqn:E.
  apply QueryWithMetrics_spec in E as [He _]. by eapply consistent_env.
Qed.

Lemma consistent_delete class hs w :
  consistent w -> consistent (ExecWithMetrics class (fun _ => stmt (cas_delete_unreferenced hs)) w).2.
Proof.
  intros [Hk Hr]. destruct (ExecWithMetrics _ _ w) as [r w'] eqn:E. simpl.
  eapply ExecWithMetrics_keeps; [|exact E|done|done].
  intros now d a d' Hs%stmt_ok. by eapply cas_delete_refcount.
Qed.

Lemma unknown_class_query {A} (q : Z -> db -> result dberr A) w :
  QueryWithMetrics gcOpClass q w = (Err [EPrimaryUnavailable], w).
Proof. reflexivity. Qed.

End adapter_lemmas.

(** ** Properties *)

(** The orphan sweep never breaks the registry: on every schedule of faults and of
    consistent commits by other clients, before and between its statements, a sweep
    through the database adapter (whatever the routing class) leaves reference counts
    equal to the number of manifest rows and every manifest row with its block. *)
Lemma sweep_consistent `{U : UUID} {P B : Type} `{TombstonePublisher P} `{BlobDeleter B}
    (class : string) (now : Z) (g : GC (world db) P B) (Hc : consistent (gStore g)) :
  consistent (gStore (@sweepOrphanedBlocks _ _ _ (adapterStore class) _ _ now g)).
Proof.
  unfold sweepOrphanedBlocks. set (g0 := if hourNs <? now - rateResetAt g then _ else g).
  assert (gStore g0 = gStore g) as Hs by (subst g0; by case_match).
  simpl. pose proof (consistent_query class (fun now d => Ok
    ((fun hr => mkGBlock hr.1 (uuid_String (c_tenant hr.2)) (c_size hr.2) (c_ref hr.2)) <$>
      cas_find_orphans now (Z.quot (SafetyWindow (gCfg g0)) 1000000000 * 1000000000) (BatchSize (gCfg g0)) d))
    (gStore g0)) as Hq.
  destruct (QueryWithMetrics class _ (gStore g0)) as [[blocks|e] st]; simpl in *;
    rewrite Hs in Hq; specialize (Hq Hc); [|done].
  apply (@batches_store _ _ _ (adapterStore class) _ _ consistent).
  - intros h s. apply consistent_query.
  - intros _ hs s. apply consistent_delete.
  - done.
Qed.

(** The sweep under election and locks, whatever the locker answers: a follower does nothing;
    a leader keeps the registry consistent on every schedule, gives every lock call back to
    the same elector, and never touches the blob store (blobs are left to the tombstone
    consumer) nor the hourly counter, so the limit does not bind it. *)
Theorem leader_sweep_consistent `{U : UUID} {P B L : Type} `{TombstonePublisher P} `{Locker L}
    (class : string) (nw : net) (off now : Z) (ids : nat -> string) (s : LeaderGCSweeper (world db) P B L)
    (Hc : consistent (gStore (lgGC s))) :
  let r := @RunLeaderSweep _ _ _ (adapterStore class) _ _ _ nw off now ids s in
  (follower s = true -> r = (Ok tt, s)) /\
  consistent (gStore (lgGC r.2)) /\ lgElector r.2 = lgElector s /\
  gBlob (lgGC r.2) = gBlob (lgGC s) /\ deletionCount (lgGC r.2) = deletionCount (lgGC s).
Proof.
  unfold RunLeaderSweep. destruct (follower s); [done|]. cbn [FindOrphanedBlocks adapterStore].
  match goal with |- context [QueryWithMetrics class ?q ?w] => pose proof (consistent_query class q w Hc) as Hq;
    destruct (QueryWithMetrics class q w) as [[blocks|e] st] end; simpl in Hq; [|done].
  enough (forall blocks (g : GC (world db) P B) (l : L), consistent (gStore g) ->
    let r := @leaderBlocks _ _ _ (adapterStore class) _ _ _ nw off now ids blocks g l in
    consistent (gStore r.1) /\ gBlob r.1 = gBlob g /\ deletionCount r.1 = deletionCount g) as Hgen.
  { destruct (Hgen blocks (setStore st (lgGC s)) (lgLocker s) Hq) as (? & ? & ?).
    by destruct (leaderBlocks _ _ _ _ _ _) as [g' l']. }
  clear. induction blocks as [|b rest IH]; intros g l Hc; cbn [leaderBlocks]; [done|].
  destruct (Acquire _ _ _ _ _ l) as [[tok|e] l1]; [|by apply IH].
  assert (consistent (gStore (@leaderBlock _ _ _ (adapterStore class) _ off now b g)) /\
    gBlob (@leaderBlock _ _ _ (adapterStore class) _ off now b g) = gBlob g /\
    deletionCount (@leaderBlock _ _ _ (adapterStore class) _ off now b g) = deletionCount g) as (H1 & H2 & H3).
  { unfold leaderBlock. cbn [DoubleCheckBlock HardDeleteBlocks adapterStore].
    match goal with |- context [QueryWithMetrics class ?q ?w] => pose proof (consistent_query class q w Hc) as Hq;
      destruct (QueryWithMetrics class q w) as [[[]|e] st] end; simpl in Hq; [|done..].
    destruct (PublishBlockTombstone _ _ _) as [rp p]. cbn [setStore gStore].
    pose proof (consistent_delete class [gbHash b] st Hq) as Hd.
    by destruct (ExecWithMetrics class _ st) as [rd st']. }
  destruct (Release _ _ tok l1) as [rr l2]. destruct (IH (leaderBlock off now b g) l2 H1) as (? & -> & ->). done.
Qed.

(** A dry run destroys nothing: with [DryRun] set, a sweep publishes no tombstone,
    deletes no blob, counts no deletion, and every change of the database contents comes
    from the other clients of the schedule. *)
Theorem gc_dry_run_is_harmless `{U : UUID} {P B : Type} `{TombstonePublisher P} `{BlobDeleter B}
    (class : string) (now : Z) (g : GC (world db) P B) (Hdry : DryRun (gCfg g) = true) :
  let g' := @sweepOrphanedBlocks _ _ _ (adapterStore class) _ _ now g in
  gPub g' = gPub g /\ gBlob g' = gBlob g /\ envOnly (gStore g) (gStore g') /\
  (deletionCount g' = deletionCount g \/ deletionCount g' = 0).
Proof.
  unfold sweepOrphanedBlocks. set (g0 := if hourNs <? now - rateResetAt g then _ else g).
  assert (gStore g0 = gStore g /\ gPub g0 = gPub g /\ gBlob g0 = gBlob g /\ gCfg g0 = gCfg g /\
          (deletionCount g0 = deletionCount g \/ deletionCount g0 = 0)) as (Hs & Hp & Hb & Hcf & Hn)
    by (subst g0; case_match; simpl; split_and!; auto).
  cbn [FindOrphanedBlocks adapterStore].
  destruct (QueryWithMetrics class _ (gStore g0)) as [r st] eqn:E.
  apply QueryWithMetrics_spec in E as [He _]. rewrite Hs in He.
  destruct r as [blocks|e]; simpl; [|rewrite Hp, Hb; auto].
  destruct (@batches_store _ _ _ (adapterStore class) _ _ (envOnly (gStore g)) (length blocks) now blocks
    (setStore st g0)) as [HI Hd].
  - intros h s Hi. cbn [DoubleCheckBlock adapterStore].
    destruct (QueryWithMetrics class _ s) as [r' s'] eqn:E'.
    apply QueryWithMetrics_spec in E' as [He' _]. by etrans.
  - simpl. rewrite Hcf, Hdry. done.
  - done.
  - simpl in Hd. rewrite Hcf in Hd. destruct (Hd Hdry) as (-> & -> & ->). rewrite Hp, Hb. auto.
Qed.

Lemma leader_sweep_consistent_witness :
  consistent (gStore (lgGC (@RunLeaderSweep _ _ _ (adapterStore OpWrite) _ _ _ NetOk 0 9 (fun _ => "id")
    (NewLeaderGCSweeper (gcNew (mkWorld (mkDb ∅ ∅ ∅ ∅ ∅ ∅ true None ∅) 0 [] newCircuitBreaker 0 0 0 0 None)
       ([] : list TombstoneEvent) (Some (∅ : gset string)) (mkGCfg 0 0 0 0 0 false)) None emptyRedis)).2)).
Proof.
  apply leader_sweep_consistent. split; [constructor|].
  split; [intros h r | intros k r]; simpl; rewrite lookup_empty; discriminate.
Defined.

Lemma gc_dry_run_is_harmless_witness :
  gPub (@sweepOrphanedBlocks _ _ _ (adapterStore OpWrite) _ _ 9
    (mkGC (mkWorld (mkDb ∅ ∅ ∅ ∅ ∅ ∅ true None ∅) 0 [] newCircuitBreaker 0 0 0 0 None)
          ([] : list TombstoneEvent) (Some (∅ : gset string)) (gcDefaults (mkGCfg 0 0 0 0 0 true))
          [] 0 0 (mkGCM 0 0 0 0 0 0))) = [].
Proof.
  destruct (gc_dry_run_is_harmless OpWrite 9
    (mkGC (mkWorld (mkDb ∅ ∅ ∅ ∅ ∅ ∅ true None ∅) 0 [] newCircuitBreaker 0 0 0 0 None)
          ([] : list TombstoneEvent) (Some (∅ : gset string)) (gcDefaults (mkGCfg 0 0 0 0 0 true))
          [] 0 0 (mkGCM 0 0 0 0 0 0)) eq_refl) as [Hp _]. exact Hp.
Defined.

(** The hourly limit holds for every store, publisher and blob backend: a batch never
    raises the deletion counter above the configured maximum (a counter already above it
    stays where it is). *)
Theorem gc_rate_limit {S P B : Type} `{GCStore S} `{TombstonePublisher P} `{BlobDeleter B}
    (now : Z) (batch : list GBlock) (g : GC S P B)
    (Hmax : is_int64 (MaxBlocksPerHour (gCfg g))) (Hcnt : is_int64 (deletionCount g)) :
  deletionCount (processBatch now batch g) <= Z.max (deletionCount g) (MaxBlocksPerHour (gCfg g)).
Proof. apply processBatch_rate; [done|done|lia]. Qed.

(** A registry with one old orphan, and what a commit that reuses it does to it. *)
Definition raceHash : string := "0123456789abcdef0123456789abcdef".
Definition raceDb `{UUID} : db :=
  mkDb {[raceHash := mkCas uuid_nil 10 "HOT" 0 false 0 0]} ∅ ∅ ∅ ∅ ∅ true None ∅.
Definition reuseBlock `{UUID} (d : db) : db :=
  match manifest_block_added 0 raceHash
          (setManifests (<[(uuid_nil, 0) := mkMan raceHash 0 10]> (manifests d)) d) with
  | Ok d' => d' | Err _ => d end.
Definition raceWorld `{UUID} : world db :=
  mkWorld raceDb (8 * 24 * hourNs)
    [mkSlot 0 (fun d => d) None None false; mkSlot 0 (fun d => d) None None false;
     mkSlot 0 reuseBlock None None false] newCircuitBreaker 0 0 0 0 None.
Definition raceGC `{UUID} : GC (world db) (list TombstoneEvent) (gset string) :=
  mkGC raceWorld [] (Some {[raceHash]}) (gcDefaults (mkGCfg 0 0 0 0 0 false)) [] 0 0 (mkGCM 0 0 0 0 0 0).

Lemma gc_rate_limit_witness :
  deletionCount (@processBatch _ _ _ (adapterStore OpWrite) _ _ 1
    [mkGBlock raceHash "t" 10 0] (@raceGC uuid16_UUID)) <= 5000.
Proof.
  apply (@gc_rate_limit _ _ _ (adapterStore OpWrite) _ _ 1 [mkGBlock raceHash "t" 10 0] (@raceGC uuid16_UUID));
    vm_compute; split; discriminate.
Defined.

(** The double check does not protect the blob: the blob is deleted before the guarded
    database delete, so a commit that reuses the block between the two keeps its row (with
    a reference) while its bytes are gone; and the tombstone consumer deletes the blob of
    a referenced block without any check. *)
Theorem gc_blob_race :
  let g' := @sweepOrphanedBlocks _ _ _ (adapterStore OpWrite) _ _ (8 * 24 * hourNs) (@raceGC uuid16_UUID) in
  (exists r, cas (contents (gStore g')) !! raceHash = Some r /\ c_ref r = 1) /\
  (exists k m, manifests (contents (gStore g')) !! k = Some m /\ m_hash m = raceHash) /\
  gBlob g' = Some ∅ /\
  (forall (w : world db) (row : casRow) (t : string) (sz : Z), sched w = [] -> cas (contents w) !! raceHash = Some row ->
     c_ref row = 1 ->
     tcBlob (@processMessage _ _ (adapterStore OpWrite) _ (Some (mkTombstone raceHash "t" sz t "orphan_gc"))
        (NewTombstoneConsumer ({[raceHash]} : gset string) w false)).2 = ∅).
Proof.
  split_and!.
  - assert (c_ref <$> cas (contents (gStore (@sweepOrphanedBlocks _ _ _ (adapterStore OpWrite) _ _
      (8 * 24 * hourNs) (@raceGC uuid16_UUID)))) !! raceHash = Some 1) as H by (vm_compute; reflexivity).
    apply fmap_Some in H as (r & Hr & Hc). eauto.
  - assert (m_hash <$> manifests (contents (gStore (@sweepOrphanedBlocks _ _ _ (adapterStore OpWrite) _ _
      (8 * 24 * hourNs) (@raceGC uuid16_UUID)))) !! (uuid_nil, 0) = Some raceHash) as H
      by (vm_compute; reflexivity).
    apply fmap_Some in H as (m & Hm & Hc). eauto.
  - assert (elements <$> gBlob (@sweepOrphanedBlocks _ _ _ (adapterStore OpWrite) _ _
      (8 * 24 * hourNs) (@raceGC uuid16_UUID)) = Some []) as H by (vm_compute; reflexivity).
    apply fmap_Some in H as (b & -> & Hb). f_equal. symmetry in Hb. by apply elements_empty_inv, leibniz_equiv in Hb.
  - intros w row t sz Hs Hr Hc. unfold processMessage. simpl.
    destruct (ExecWithMetrics OpWrite _ w) as [r w']. simpl. set_solver.
Qed.

(** As deployed the collector does nothing: the adapter passes the operation class
    ["gc"], which the client does not route, so every query is refused, and a sweep
    leaves store, publisher, blobs, counters and audit trail untouched (apart from the
    hourly counter reset). *)
Theorem gc_adapter_never_collects `{U : UUID} {P B : Type} `{TombstonePublisher P} `{BlobDeleter B}
    (now : Z) (g : GC (world db) P B) :
  let g' := @sweepOrphanedBlocks _ _ _ (adapterStore gcOpClass) _ _ now g in
  gStore g' = gStore g /\ gPub g' = gPub g /\ gBlob g' = gBlob g /\ auditLog g' = auditLog g /\
  @cleanupExpiredSessions _ _ _ (adapterStore gcOpClass) now g = g.
Proof.
  unfold sweepOrphanedBlocks, cleanupExpiredSessions. cbn [FindOrphanedBlocks GetExpiredSessions adapterStore].
  rewrite !unknown_class_query. simpl. case_match; simpl; split_and!; try done; by destruct g.
Qed.

(** ... and the collector announced a block that it did not delete: the tombstone is published
    before the guarded delete. *)
Lemma tombstone_of_kept_block :
  let g' := @sweepOrphanedBlocks _ _ _ (adapterStore OpWrite) _ _ (8 * 24 * hourNs) (@raceGC uuid16_UUID) in
  (teHash <$> gPub g') = [raceHash] /\ is_Some (cas (contents (gStore g')) !! raceHash).
Proof.
  split; [vm_compute; reflexivity|].
  assert (c_ref <$> cas (contents (gStore (@sweepOrphanedBlocks _ _ _ (adapterStore OpWrite) _ _
    (8 * 24 * hourNs) (@raceGC uuid16_UUID)))) !! raceHash = Some 1) as H by (vm_compute; reflexivity).
  apply fmap_Some in H as (r & -> & _). eauto.
Qed.

(** The leader-gated sweep honours neither [DryRun] nor the hourly limit: with both set against
    it, it still deletes the row of an orphan, and it leaves the blob. *)
Definition dryLeader `{UUID} : LeaderGCSweeper (world db) (list TombstoneEvent) (gset string) redis :=
  NewLeaderGCSweeper
    (mkGC (mkWorld raceDb (8 * 24 * hourNs) [] newCircuitBreaker 0 0 0 0 None) [] (Some {[raceHash]})
       (gcDefaults (mkGCfg 0 0 0 0 1 true)) [] 1 0 nopMetrics) None emptyRedis.

Lemma leader_sweep_ignores_dry_run :
  let s' := (@RunLeaderSweep _ _ _ (adapterStore OpWrite) _ _ _ NetOk 0 (8 * 24 * hourNs) (fun _ => "id")
               (@dryLeader uuid16_UUID)).2 in
  DryRun (gCfg (lgGC s')) = true /\ MaxBlocksPerHour (gCfg (lgGC s')) = deletionCount (lgGC s') /\
  size (cas (contents (gStore (lgGC s')))) = 0%nat /\ gBlob (lgGC s') = Some {[raceHash]}.
Proof. vm_compute. repeat split. Qed.
