(* ===== verification/Ingress.v ===== *)
(** * internal/ingress: models and stores

    [models.go] (sentinels, status mapping, request validation) and [store.go] (the
    [Store] interface, [PgStore] on the database client with its commit transaction, and
    the in-memory [FakeStore]). *)
From S2P Require Import Prelude GoLib External Database Schema.

(** ** Errors *)

Inductive sentinel :=
| ErrUnauthorized | ErrBadRequest | ErrTenantNotFound | ErrQuotaExceeded | ErrSessionNotFound
| ErrSessionExpired | ErrSessionCompleted | ErrSessionTenantMismatch | ErrNodeNotFound
| ErrNodeNotFile | ErrDBUnavailable | ErrSerialization.

#[global] Instance sentinel_eq_dec : EqDecision sentinel.
Proof. solve_decision. Defined.

(** An error that wraps a sentinel (with some text), one that wraps a database error, any
    other error, and a panic (recovered by the middleware). *)
Inductive ierr := Sent (s : sentinel) | RawDb (e : dberr) | Plain (msg : string) | IPanic.

Definition errors_Is (e : ierr) (s : sentinel) : bool :=
  match e with Sent s' => bool_decide (s' = s) | _ => false end.

Definition HTTPStatus (err : option ierr) : Z :=
  match err with
  | None => 200
  | Some e =>
      if errors_Is e ErrUnauthorized then 401
      else if errors_Is e ErrQuotaExceeded then 402
      else if errors_Is e ErrSessionTenantMismatch then 403
      else if errors_Is e ErrTenantNotFound || errors_Is e ErrSessionNotFound || errors_Is e ErrNodeNotFound
      then 404
      else if errors_Is e ErrBadRequest then 400
      else if errors_Is e ErrSessionCompleted then 409
      else if errors_Is e ErrSessionExpired then 410
      else if errors_Is e ErrNodeNotFile then 400
      else if errors_Is e ErrDBUnavailable || errors_Is e ErrSerialization then 503
      else 500
  end.

(** ** Requests *)

Record ChunkInfo := mkChunkInfo { ciHash : string; ciSize : Z }.

Record InitiateRequest := mkInit {
  irTenant : string; irFile : string; irParent : option string; irNode : option string;
  irTotal : Z; irChunks : list ChunkInfo
}.

Record BlockMeta := mkBlock { bmHash : string; bmIndex : Z; bmOffset : Z; bmSize : Z; bmETag : string }.

Record CommitRequest := mkCommit {
  crSession : string; crSHA : string; crMime : string; crBlocks : list BlockMeta
}.

Definition badRequest : ierr := Sent ErrBadRequest.

Fixpoint validChunks (l : list ChunkInfo) : result ierr unit :=
  match l with
  | [] => Ok tt
  | c :: l' =>
      _ ← require (slen (ciHash c) =? 64) badRequest;
      _ ← require (bool_decide (is_Some (hex_decode (ciHash c)))) badRequest;
      _ ← require (0 <? ciSize c) badRequest;
      validChunks l'
  end.

Definition InitiateValidate (r : InitiateRequest) : result ierr unit :=
  _ ← require (negb (bool_decide (irTenant r = ""))) badRequest;
  _ ← require (negb (bool_decide (irFile r = ""))) badRequest;
  _ ← require (0 <? irTotal r) badRequest;
  _ ← require (negb (zlen (irChunks r) =? 0)) badRequest;
  validChunks (irChunks r).

Fixpoint validBlocks (l : list BlockMeta) : result ierr unit :=
  match l with
  | [] => Ok tt
  | b :: l' =>
      _ ← require (slen (bmHash b) =? 64) badRequest;
      _ ← require (bool_decide (is_Some (hex_decode (bmHash b)))) badRequest;
      _ ← require (0 <? bmSize b) badRequest;
      validBlocks l'
  end.

Definition CommitValidate (r : CommitRequest) : result ierr unit :=
  _ ← require (negb (bool_decide (crSession r = ""))) badRequest;
  _ ← require (slen (crSHA r) =? 64) badRequest;
  _ ← require (bool_decide (is_Some (hex_decode (crSHA r)))) badRequest;
  validBlocks (crBlocks r).

(** Panics on invalid hex. *)
Definition MustDecodeHash (h : string) : result ierr string := of_option (hex_decode h) IPanic.

Fixpoint mustDecodeAll (hs : list string) : result ierr (list string) :=
  match hs with
  | [] => Ok []
  | h :: hs' => b ← MustDecodeHash h; bs ← mustDecodeAll hs'; Ok (b :: bs)
  end.

Record TenantQuota := mkQuota { StorageQuotaBytes : Z; UsedBytes : Z }.

Section store.
Context `{U : UUID}.

(** The identifiers are the text columns of the row ([node_id] may be NULL). *)
Record SessionRecord := mkSession {
  srID : string; srTenant : string; srNode : string; srStatus : string; srTotal : Z; srExpected : Z; srExpires : Z
}.

(** ** The Store interface

    [Now] is [time.Now()]; the operations that draw identifiers take them. *)
Class Store (S : Type) := {
  Now : S -> Z;
  Ping : S -> result ierr unit * S;
  GetTenantQuota : uuid -> S -> result ierr TenantQuota * S;
  CreateFileNode : uuid -> uuid -> option uuid -> string -> S -> result ierr uuid * S;
  ValidateFileNode : uuid -> uuid -> S -> result ierr unit * S;
  BatchQueryExistingCAS : list string -> S -> result ierr (gmap string bool) * S;
  CreateUploadSession : uuid -> uuid -> uuid -> Z -> Z -> S -> result ierr (uuid * Z) * S;
  GetSession : uuid -> S -> result ierr SessionRecord * S;
  CommitFile : uuid -> uuid -> uuid -> string -> list BlockMeta -> S -> result ierr (string * Z) * S;
  BumpCacheGeneration : uuid -> S -> result ierr unit * S;
  ExpireStaleSessions : S -> result ierr Z * S;
  MarkBlockVerified : string -> S -> result ierr unit * S
}.

(** ** PgStore *)

Definition wrapDb {A} (f : dberr -> ierr) (r : result dberr A) : result ierr A :=
  match r with Ok a => Ok a | Err e => Err (f e) end.

Definition unavailable (_ : dberr) : ierr := Sent ErrDBUnavailable.

Definition pgPing (w : world db) : result ierr unit * world db :=
  let '(r, w') := ExecWithMetrics OpWrite (fun _ d => (Ok tt, d)) w in (wrapDb unavailable r, w').

Definition pgGetTenantQuota (tenant : uuid) (w : world db) : result ierr TenantQuota * world db :=
  let '(r, w') := QueryWithMetrics OpMetadata (fun _ d => Ok (tenantsT d !! tenant)) w in
  (row ← wrapDb unavailable r;
   row ← of_option row (Sent ErrTenantNotFound);
   Ok (mkQuota (t_quota row) (t_used row)), w').

(** ** The commit transaction *)

Definition txM (A : Type) : Type := txst db -> result ierr A * txst db.

#[global] Instance txM_ret : MRet txM := fun A a t => (Ok a, t).
#[global] Instance txM_bind : MBind txM := fun A B f m t =>
  match m t with (Ok a, t') => f a t' | (Err e, t') => (Err e, t') end.

Definition txFail {A} (e : ierr) : txM A := fun t => (Err e, t).
Definition txRequire (b : bool) (e : ierr) : txM unit := fun t => (require b e, t).
Definition txLift {A} (r : result ierr A) : txM A := fun t => (r, t).
Definition txNow : txM Z := fun t => (Ok (clock (txWorld t)), t).

(** One statement of the transaction, with the error wrapping of its call site. *)
Definition txStmt {A} (f : dberr -> ierr) (q : Z -> db -> result dberr A * db) : txM A := fun t =>
  let '(r, t') := txExec q t in (wrapDb f r, t').

Definition query {A} (q : db -> result dberr A) (d : db) : result dberr A * db := (q d, d).
Definition update (q : db -> result dberr db) (d : db) : result dberr unit * db :=
  match q d with Ok d' => (Ok tt, d') | Err e => (Err e, d) end.

Definition pgCreateFileNode (nid tenant : uuid) (parent : option uuid) (name : string) (w : world db)
    : result ierr uuid * world db :=
  withTx unavailable RawDb (fun t =>
    (_ ← txStmt RawDb (fun _ => update (node_insert_file nid tenant parent name)); mret nid) t) w.

Definition pgValidateFileNode (tenant node : uuid) (w : world db) : result ierr unit * world db :=
  let '(r, w') := QueryWithMetrics OpMetadata (fun _ d =>
      Ok (match nodes d !! node with
          | Some n => if bool_decide (n_tenant n = tenant) then Some (n_type n) else None
          | None => None
          end)) w in
  (row ← wrapDb RawDb r;
   nodeType ← of_option row (Sent ErrNodeNotFound);
   require (bool_decide (nodeType = "FILE")) (Sent ErrNodeNotFile), w').

Definition pgBatchQueryExistingCAS (hashes : list string) (w : world db)
    : result ierr (gmap string bool) * world db :=
  match hashes with
  | [] => (Ok ∅, w)
  | _ =>
      let '(r, w') := QueryWithMetrics OpMetadata (fun _ d =>
          Ok (filter (fun h => is_Some (cas d !! h)) hashes)) w in
      (wrapDb unavailable
         ((fun found : list string => list_to_map (map (fun h => (hex_encode h, true)) found)) <$> r), w')
  end.

Definition pgCreateUploadSession (sid tenant node : uuid) (total chunks : Z) (w : world db)
    : result ierr (uuid * Z) * world db :=
  withTx unavailable RawDb (fun t =>
    (expires ← txStmt RawDb (fun now => stmt (session_insert now sid tenant node total chunks));
     mret (sid, expires)) t) w.

Definition sessionRecord (sid : uuid) (r : sesRow) : SessionRecord :=
  mkSession (uuid_String sid) (uuid_String (ss_tenant r))
    (match ss_node r with Some n => uuid_String n | None => "" end)
    (ss_status r) (ss_total r) (ss_expected r) (ss_expires r).

Definition noRows (e : dberr) : ierr := if errIs e ENoRows then Sent ErrSessionNotFound else RawDb e.

Definition pgGetSession (sid : uuid) (w : world db) : result ierr SessionRecord * world db :=
  let '(r, w') := QueryWithMetrics OpMetadata (fun _ d =>
      _ ← require (db_status d) undefined_column; Ok (sessions d !! sid)) w in
  (row ← wrapDb RawDb r;
   row ← of_option row (Sent ErrSessionNotFound);
   Ok (sessionRecord sid row), w').

(** Steps 6 and 7: block rows, then manifest rows; skipped for an empty block list. *)
Definition insertBlocks (tenant vid : uuid) (blocks : list BlockMeta) : txM unit :=
  if zlen blocks =? 0 then mret tt
  else
    hashes ← txLift (mustDecodeAll (bmHash <$> blocks));
    _ ← txStmt RawDb (fun now => stmt (cas_insert now 0
          (zip_with (fun h b => (h, tenant, bmSize b)) hashes blocks)));
    txStmt RawDb (fun now => update (manifest_insert now vid
          (zip_with (fun h b => (h, bmIndex b, bmOffset b, bmSize b)) hashes blocks))).

Definition commitBody (vid tenant sid : uuid) (sha : string) (blocks : list BlockMeta) : txM (string * Z) :=
  row ← txStmt noRows (fun _ => query (session_select sid));
  let rec := sessionRecord sid row in
  _ ← txRequire (negb (bool_decide (srStatus rec = "COMPLETED"))) (Sent ErrSessionCompleted);
  now ← txNow;
  _ ← txRequire (negb (srExpires rec <? now)) (Sent ErrSessionExpired);
  _ ← txRequire (bool_decide (srTenant rec = uuid_String tenant)) (Sent ErrSessionTenantMismatch);
  _ ← txRequire (zlen blocks =? srExpected rec) (Sent ErrBadRequest);
  _ ← txRequire (negb (bool_decide (srNode rec = ""))) (Sent ErrBadRequest);
  node ← txLift (of_option (uuid_Parse (srNode rec)) (Plain "invalid node_id in session"));
  _ ← txStmt RawDb (fun _ => query (fun _ => Ok tt));
  version ← txStmt RawDb (fun _ => query (fun d => Ok (next_version_number node d)));
  _ ← txStmt RawDb (fun _ => update (version_insert vid node version (srTotal rec) sha tenant));
  _ ← insertBlocks tenant vid blocks;
  _ ← txStmt RawDb (fun _ => update (session_complete sid (zlen blocks)));
  mret (uuid_String vid, version).

Definition commitErr (e : dberr) : ierr :=
  match firstSome asPg e with
  | Some code => if bool_decide (code = "40001") then Sent ErrSerialization else RawDb e
  | None => RawDb e
  end.

Definition pgCommitFile (vid tenant sid : uuid) (sha : string) (blocks : list BlockMeta) (w : world db)
    : result ierr (string * Z) * world db :=
  withTx unavailable commitErr (commitBody vid tenant sid sha blocks) w.

Definition pgBumpCacheGeneration (tenant : uuid) (w : world db) : result ierr unit * world db :=
  match gens w with
  | None => (Ok tt, w)
  | Some _ => let '(r, w') := BumpGeneration (uuid_String tenant) w in
              ((fun _ => tt) <$> wrapDb RawDb r, w')
  end.

(** The function returns its count in one row; [RowsAffected] of a SELECT is the number
    of rows, 1. *)
Definition pgExpireStaleSessions (w : world db) : result ierr Z * world db :=
  let '(r, w') := ExecWithMetrics OpWrite (fun now d => (Ok 1, (sessions_expire now d).2)) w in
  (wrapDb RawDb r, w').

Definition pgMarkBlockVerified (h : string) (w : world db) : result ierr unit * world db :=
  let '(r, w') := ExecWithMetrics OpWrite (fun now d => (Ok tt, cas_mark_verified now h d)) w in
  (wrapDb RawDb r, w').

#[global] Instance PgStore : Store (world db) := {|
  Now := clock;
  Ping := pgPing;
  GetTenantQuota := pgGetTenantQuota;
  CreateFileNode := pgCreateFileNode;
  ValidateFileNode := pgValidateFileNode;
  BatchQueryExistingCAS := pgBatchQueryExistingCAS;
  CreateUploadSession := pgCreateUploadSession;
  GetSession := pgGetSession;
  CommitFile := pgCommitFile;
  BumpCacheGeneration := pgBumpCacheGeneration;
  ExpireStaleSessions := pgExpireStaleSessions;
  MarkBlockVerified := pgMarkBlockVerified
|}.

(** ** FakeStore *)

Record FakeStore := mkFake {
  fNow : Z;
  fTenants : gmap uuid TenantQuota;
  fNodes : gmap uuid uuid;
  fSessions : gmap uuid SessionRecord;
  casSet : gset string;
  nextVer : Z;
  pingErr : option ierr
}.

Definition NewFakeStore (now : Z) : FakeStore := mkFake now ∅ ∅ ∅ ∅ 0 None.

Definition SeedTenant (id : uuid) (quota used : Z) (f : FakeStore) : FakeStore :=
  mkFake (fNow f) (<[id := mkQuota quota used]> (fTenants f)) (fNodes f) (fSessions f) (casSet f)
         (nextVer f) (pingErr f).

Definition SeedCASBlock (hexHash : string) (f : FakeStore) : FakeStore :=
  mkFake (fNow f) (fTenants f) (fNodes f) (fSessions f) ({[hexHash]} ∪ casSet f) (nextVer f) (pingErr f).

Definition fakeGetTenantQuota (t : uuid) (f : FakeStore) : result ierr TenantQuota * FakeStore :=
  (of_option (fTenants f !! t) (Sent ErrTenantNotFound), f).

Definition fakeCreateFileNode (nid t : uuid) (_ : option uuid) (_ : string) (f : FakeStore)
    : result ierr uuid * FakeStore :=
  (Ok nid, mkFake (fNow f) (fTenants f) (<[nid := t]> (fNodes f)) (fSessions f) (casSet f) (nextVer f) (pingErr f)).

Definition fakeValidateFileNode (t n : uuid) (f : FakeStore) : result ierr unit * FakeStore :=
  (tid ← of_option (fNodes f !! n) (Sent ErrNodeNotFound);
   require (bool_decide (tid = t)) (Sent ErrNodeNotFound), f).

Definition fakeBatchQuery (hashes : list string) (f : FakeStore)
    : result ierr (gmap string bool) * FakeStore :=
  (Ok (list_to_map (map (fun h => (hex_encode h, bool_decide (hex_encode h ∈ casSet f))) hashes)), f).

Definition fakeLease : Z := 15 * 60 * 1000000000.

Definition setFakeSession (sid : uuid) (r : SessionRecord) (f : FakeStore) : FakeStore :=
  mkFake (fNow f) (fTenants f) (fNodes f) (<[sid := r]> (fSessions f)) (casSet f) (nextVer f) (pingErr f).

Definition fakeCreateUploadSession (sid t n : uuid) (total chunks : Z) (f : FakeStore)
    : result ierr (uuid * Z) * FakeStore :=
  (Ok (sid, fNow f + fakeLease),
   setFakeSession sid (mkSession (uuid_String sid) (uuid_String t) (uuid_String n) "INITIATED" total chunks (fNow f + fakeLease)) f).

Definition fakeGetSession (sid : uuid) (f : FakeStore) : result ierr SessionRecord * FakeStore :=
  (of_option (fSessions f !! sid) (Sent ErrSessionNotFound), f).

(** The checks of the commit, in the order of the code. *)
Definition fakeCommitChecks (t sid : uuid) (blocks : list BlockMeta) (f : FakeStore)
    : result ierr SessionRecord :=
  rec ← of_option (fSessions f !! sid) (Sent ErrSessionNotFound);
  _ ← require (negb (bool_decide (srStatus rec = "COMPLETED"))) (Sent ErrSessionCompleted);
  _ ← require (negb (srExpires rec <? fNow f)) (Sent ErrSessionExpired);
  _ ← require (bool_decide (srTenant rec = uuid_String t)) (Sent ErrSessionTenantMismatch);
  _ ← require (zlen blocks =? srExpected rec) (Sent ErrBadRequest);
  Ok rec.

Definition fakeCommitFile (vid t sid : uuid) (_ : string) (blocks : list BlockMeta) (f : FakeStore)
    : result ierr (string * Z) * FakeStore :=
  match fakeCommitChecks t sid blocks f with
  | Err e => (Err e, f)
  | Ok rec =>
      let v := nextVer f + 1 in
      (Ok (uuid_String vid, v),
       mkFake (fNow f) (fTenants f) (fNodes f)
         (<[sid := mkSession (srID rec) (srTenant rec) (srNode rec) "COMPLETED" (srTotal rec) (srExpected rec) (srExpires rec)]>
            (fSessions f))
         (list_to_set (bmHash <$> blocks) ∪ casSet f) v (pingErr f))
  end.

Definition SetPingErr (e : option ierr) (f : FakeStore) : FakeStore :=
  mkFake (fNow f) (fTenants f) (fNodes f) (fSessions f) (casSet f) (nextVer f) e.

Definition fakePing (f : FakeStore) : result ierr unit * FakeStore :=
  (match pingErr f with Some e => Err e | None => Ok tt end, f).

#[global] Instance FakeStore_store : Store FakeStore := {|
  Now := fNow;
  Ping := fakePing;
  GetTenantQuota := fakeGetTenantQuota;
  CreateFileNode := fakeCreateFileNode;
  ValidateFileNode := fakeValidateFileNode;
  BatchQueryExistingCAS := fakeBatchQuery;
  CreateUploadSession := fakeCreateUploadSession;
  GetSession := fakeGetSession;
  CommitFile := fakeCommitFile;
  BumpCacheGeneration _ f := (Ok tt, f);
  ExpireStaleSessions f := (Ok 0, f);
  MarkBlockVerified _ f := (Ok tt, f)
|}.

End store.

(** ** Lemmas on transactions *)

Section tx_lemmas.
Context `{U : UUID}.

(** The computation moves the transaction forward and keeps [P] true of what it sees. *)
Definition txKeeps (P : db -> Prop) {E A} (m : txst db -> result E A * txst db) : Prop := forall t,
  txStep t (m t).2 /\
  (envKeeps P (txWorld t) -> P (contents (txWorld t)) ->
   envKeeps P (txWorld (m t).2) /\ P (contents (txWorld (m t).2))).

Lemma txKeeps_pure P {E A} (m : txst db -> result E A * txst db) : (forall t, (m t).2 = t) -> txKeeps P m.
Proof. intros H t. rewrite H. split; [reflexivity|auto]. Qed.

Lemma txKeeps_bind P {A B} (m : txM A) (f : A -> txM B) :
  txKeeps P m -> (forall a, txKeeps P (f a)) -> txKeeps P (m ≫= f).
Proof.
  intros Hm Hf t. unfold mbind, txM_bind. destruct (Hm t) as [H1 H2].
  destruct (m t) as [[a|e] t1]; simpl in *; [|done].
  destruct (Hf a t1) as [H3 H4]. split; [by etrans|].
  intros He HP. destruct (H2 He HP). auto.
Qed.

Lemma txKeeps_exec P {A} (q : Z -> db -> result dberr A * db) :
  (forall now d a d', q now d = (Ok a, d') -> P d -> P d') -> txKeeps P (txExec q).
Proof.
  intros Hq t. split; [apply txExec_step|]. intros He HP. unfold txExec.
  destruct (popSlot (txWorld t)) as [s w1] eqn:Ep.
  apply popSlot_envOnly in Ep. destruct (envOnly_keeps P _ _ Ep He) as [He1 HP1]. specialize (HP1 HP).
  destruct (s_fault s); [done|].
  destruct (q (clock w1) (contents w1)) as [[a|e] d] eqn:Eq; simpl; [|done].
  split; [done|]. by eapply Hq.
Qed.

Lemma txKeeps_stmt P {A} f (q : Z -> db -> result dberr A * db) :
  (forall now d a d', q now d = (Ok a, d') -> P d -> P d') -> txKeeps P (txStmt f q).
Proof.
  intros Hq t. unfold txStmt. pose proof (txKeeps_exec P q Hq t) as Hk. by destruct (txExec q t).
Qed.

Lemma txKeeps_query P {A} f (q : Z -> db -> result dberr A) : txKeeps P (txStmt f (fun now => query (q now))).
Proof. apply txKeeps_stmt. unfold query. intros; by simplify_eq. Qed.

Lemma txKeeps_update P f (q : Z -> db -> result dberr db) :
  (forall now d d', q now d = Ok d' -> P d -> P d') -> txKeeps P (txStmt f (fun now => update (q now))).
Proof.
  intros Hq. apply txKeeps_stmt. unfold update. intros now d a d'.
  destruct (q now d) eqn:E; intros; simplify_eq. by eapply Hq.
Qed.

(** A transaction that keeps [P] keeps it whether it commits, fails or loses its answer. *)
Lemma withTx_keeps (P : db -> Prop) {E A} (b c : dberr -> E) (body : txst db -> result E A * txst db) (w : world db) :
  txKeeps P body -> envKeeps P w -> P (contents w) ->
  envKeeps P (withTx b c body w).2 /\ P (contents (withTx b c body w).2).
Proof.
  intros Hb He HP. unfold withTx, BeginWriteTx.
  destruct (acquire OpWrite w) as [[[p|e1] s] w1] eqn:Ha; apply acquire_spec in Ha as [Henv _];
    destruct (envOnly_keeps P _ _ Henv He) as [He1 HP1]; specialize (HP1 HP); [|done].
  destruct (s_fault s) as [ef|].
  { simpl. eapply envOnly_keeps in He1; [|apply (finish_envOnly OpWrite (Some ef))]. naive_solver. }
  destruct (Hb (mkTxst w1 (contents w1))) as [Hst Hk]. simpl in *. specialize (Hk He1 HP1) as [Hk1 Hk2].
  destruct (body (mkTxst w1 (contents w1))) as [[a|e2] t'] eqn:Hbody; simpl in *.
  - assert (P (txBase t')) as Hbase.
    { destruct Hst as (_ & used & Hs & ->). simpl in *.
      assert (envOnly w1 (setContents (foldl (fun d s => s_before s d) (contents w1) used) (txWorld t'))) as Hx
        by by exists used.
      destruct (envOnly_keeps P _ _ Hx He1) as [_ Hy]. auto. }
    unfold txCommit. destruct (popSlot (txWorld t')) as [s2 w2] eqn:Hp.
    pose proof (popSlot_envOnly _ _ _ Hp) as Hpe.
    destruct (envOnly_keeps P _ _ Hpe Hk1) as [Hk3 HP3]. specialize (HP3 Hk2).
    assert (P (s_before s2 (txBase t'))) as Hb2.
    { unfold popSlot in Hp. unfold envKeeps in Hk1. destruct (sched (txWorld t')) as [|s3 rest]; simplify_eq/=; [done|].
      apply Forall_cons in Hk1 as [Hk1 _]. auto. }
    destruct (s_fault s2); simpl; [destruct (s_lost s2)|]; split; done.
  - split; [done|]. destruct Hst as (_ & used & Hs & ->). simpl in *.
    assert (envOnly w1 (setContents (foldl (fun d s => s_before s d) (contents w1) used) (txWorld t'))) as Hx
      by by exists used.
    destruct (envOnly_keeps P _ _ Hx He1) as [_ Hy]. auto.
Qed.

End tx_lemmas.

(** Split a transaction into its statements; each pure step and each query is discharged. *)
Ltac tx_keeps :=
  repeat first
    [ apply txKeeps_bind; [|intros ?]
    | apply txKeeps_query
    | apply txKeeps_pure; intros ?; reflexivity ].

Section commit_lemmas.
Context `{U : UUID}.

Lemma version_insert_spec vid node num size sha by_ d d' :
  version_insert vid node num size sha by_ d = Ok d' ->
  fversions d !! vid = None /\ d' = setVersions (<[vid := mkVer node num size sha by_]> (fversions d)) d /\
  slen sha = 32 /\ is_Some (nodes d !! node).
Proof. unfold version_insert. intros H. inv_result. bool_hyps. done. Qed.

Lemma session_complete_spec sid n d d' :
  session_complete sid n d = Ok d' ->
  d' = setSessions (alter (set_status "COMPLETED" (Some n)) sid (sessions d)) d /\ db_status d = true.
Proof. unfold session_complete. intros H. by inv_result. Qed.

(** The reference-count invariant only reads blocks and manifests. *)
Lemma refcount_ok_ext d d' :
  cas d' = cas d -> manifests d' = manifests d -> refcount_ok d -> refcount_ok d'.
Proof.
  intros Hc Hm [H1 H2]. split.
  - intros h r. rewrite Hc. unfold refs. rewrite Hm. apply H1.
  - intros k r. rewrite Hc, Hm. apply H2.
Qed.

Lemma insertBlocks_keeps tenant vid blocks : txKeeps refcount_ok (insertBlocks tenant vid blocks).
Proof.
  unfold insertBlocks. case_match; tx_keeps.
  - apply txKeeps_stmt. intros now d n d' Hst%stmt_ok. by eapply cas_insert_refcount.
  - apply txKeeps_update. intros now d d'. apply manifest_insert_refcount.
Qed.

Lemma commitBody_keeps vid tenant sid sha blocks :
  txKeeps refcount_ok (commitBody vid tenant sid sha blocks).
Proof.
  unfold commitBody. tx_keeps.
  - apply txKeeps_update. intros now d d' (_ & -> & _)%version_insert_spec. by apply refcount_ok_ext.
  - apply insertBlocks_keeps.
  - apply txKeeps_update. intros now d d' (-> & _)%session_complete_spec. by apply refcount_ok_ext.
Qed.

(** A completed session stays completed through another commit. *)
Definition completed (sid : uuid) (d : db) : Prop :=
  exists r, sessions d !! sid = Some r /\ ss_status r = "COMPLETED".

(** ** Runs in which nothing else happens *)

Lemma txStmt_calm {A} f (q : Z -> db -> result dberr A * db) t :
  sched (txWorld t) = [] ->
  txStmt f q t = match q (clock (txWorld t)) (contents (txWorld t)) with
    | (Ok a, d) => (Ok a, mkTxst (setContents d (txWorld t)) (txBase t))
    | (Err e, _) => (Err (f e), t)
    end.
Proof.
  intros Hs. unfold txStmt, txExec, popSlot. rewrite Hs. simpl. rewrite Z.add_0_r.
  destruct (q _ _) as [[a|e] d]; simpl; [|by destruct t as [[] base]; simpl in *; subst].
  unfold setContents. simpl. by rewrite Hs.
Qed.

Lemma txBind_ok {A B} (m : txM A) (f : A -> txM B) t b t' :
  (m ≫= f) t = (Ok b, t') -> exists a t1, m t = (Ok a, t1) /\ f a t1 = (Ok b, t').
Proof. unfold mbind, txM_bind. destruct (m t) as [[a|e] t1]; [eauto|done]. Qed.

(** A successful statement of an undisturbed transaction. *)
Definition calmTx (now : Z) (d : db) (t : txst db) : Prop :=
  sched (txWorld t) = [] /\ clock (txWorld t) = now /\ contents (txWorld t) = d.

Lemma calm_stmt_ok {A} f (q : Z -> db -> result dberr A * db) now d t a t' :
  calmTx now d t -> txStmt f q t = (Ok a, t') ->
  exists d', q now d = (Ok a, d') /\ calmTx now d' t'.
Proof.
  intros (Hs & <- & <-). rewrite txStmt_calm by done.
  destruct (q _ _) as [[a'|e] d'] eqn:E; intros; simplify_eq. exists d'. done.
Qed.

Lemma calm_query_ok {A} f (q : Z -> db -> result dberr A) now d t a t' :
  calmTx now d t -> txStmt f (fun now => query (q now)) t = (Ok a, t') ->
  q now d = Ok a /\ calmTx now d t'.
Proof.
  intros Hc H. eapply calm_stmt_ok in H as (d' & Hq & Hc'); [|done].
  unfold query in Hq. by simplify_eq.
Qed.

Lemma calm_update_ok f (q : Z -> db -> result dberr db) now d t t' :
  calmTx now d t -> txStmt f (fun now => update (q now)) t = (Ok tt, t') ->
  exists d', q now d = Ok d' /\ calmTx now d' t'.
Proof.
  intros Hc H. eapply calm_stmt_ok in H as (d' & Hq & Hc'); [|done].
  unfold update in Hq. destruct (q now d) eqn:E; simplify_eq. eauto.
Qed.

Lemma mustDecodeAll_ok hs bs : mustDecodeAll hs = Ok bs -> Forall2 (fun h b => hex_decode h = Some b) hs bs.
Proof.
  revert bs. induction hs as [|h hs IH]; intros bs H; simpl in H; inv_result; simplify_eq; [done|].
  constructor; [by apply of_option_ok in H0 | auto].
Qed.

End commit_lemmas.

(** ** What a commit does *)

Section commit_effect.
Context `{U : UUID}.

(** The rows a commit writes for one block. *)
Definition manifestOf (h : string) (b : BlockMeta) : manRow := mkMan h (bmOffset b) (bmSize b).

(** The abstract commit: the state [d'] a successful commit of [blocks] makes of [d]. *)
Record committed (now : Z) (vid tenant sid : uuid) (sha : string) (blocks : list BlockMeta)
    (num : Z) (d d' : db) : Prop := {
  cm_session : exists row node, sessions d !! sid = Some row /\ ss_status row <> "COMPLETED" /\
      now <= ss_expires row /\ ss_tenant row = tenant /\ zlen blocks = ss_expected row /\
      ss_node row = Some node /\ is_Some (nodes d !! node) /\
      num = next_version_number node d /\
      fversions d' = <[vid := mkVer node num (ss_total row) sha tenant]> (fversions d);
  cm_fresh : fversions d !! vid = None;
  cm_completed : sessions d' = alter (set_status "COMPLETED" (Some (zlen blocks))) sid (sessions d);
  cm_manifest : exists hashes, Forall2 (fun b h => hex_decode (bmHash b) = Some h) blocks hashes /\
      Forall2 (fun b h => manifests d' !! (vid, bmIndex b) = Some (manifestOf h b)) blocks hashes /\
      Forall (fun h => is_Some (cas d' !! h)) hashes;
  cm_manifest_old : manifests d ⊆ manifests d';
  cm_manifest_size : size (manifests d') = (size (manifests d) + length blocks)%nat;
  cm_cas_old : dom (cas d) ⊆ dom (cas d');
  cm_frame : nodes d' = nodes d /\ tenantsT d' = tenantsT d
}.

Lemma insertBlocks_calm tenant vid blocks now d t t' :
  calmTx now d t -> insertBlocks tenant vid blocks t = (Ok tt, t') ->
  exists d', calmTx now d' t' /\ fversions d' = fversions d /\ nodes d' = nodes d /\
    sessions d' = sessions d /\ tenantsT d' = tenantsT d /\
    (exists hashes, Forall2 (fun b h => hex_decode (bmHash b) = Some h) blocks hashes /\
       Forall2 (fun b h => manifests d' !! (vid, bmIndex b) = Some (manifestOf h b)) blocks hashes /\
       Forall (fun h => is_Some (cas d' !! h)) hashes) /\
    manifests d ⊆ manifests d' /\ size (manifests d') = (size (manifests d) + length blocks)%nat /\
    dom (cas d) ⊆ dom (cas d').
Proof.
  intros Hc. unfold insertBlocks. destruct (zlen blocks =? 0) eqn:Ez; bool_hyps.
  { assert (blocks = []) as -> by (apply zlen_nil_inv; lia).
    intros H. unfold mret, txM_ret in H. simplify_eq. exists d. split_and!; try done; try (simpl; lia).
    by exists []. }
  intros H. apply txBind_ok in H as (hashes & t1 & Hh & H). unfold txLift in Hh. simplify_eq.
  match goal with H : mustDecodeAll _ = _ |- _ => apply mustDecodeAll_ok in H as Hdec end.
  rewrite Forall2_fmap_l in Hdec.
  apply txBind_ok in H as (n & t2 & Hcas & Hman).
  eapply calm_stmt_ok in Hcas as (d1 & Hcas%stmt_ok & Hc1); [|done].
  eapply calm_update_ok in Hman as (d2 & Hman & Hc2); [|done].
  apply cas_insert_spec in Hcas as (E1 & E2 & E3 & E4 & E5 & _ & Esub & _ & Eall).
  apply manifest_insert_spec in Hman as (F1 & F2 & F3 & F4 & _ & Fdom & Fsub & Fall & Fsz).
  exists d2. rewrite F1, F2, F3, F4, E2, E3, E4, E5. split_and!; try done.
  - exists hashes. split_and!; [done| |].
    + clear - Fall Hdec. apply Forall2_same_length_lookup_2.
      { by eapply Forall2_length. }
      intros i b h Hb Hh. rewrite Forall_lookup in Fall.
      specialize (Fall i (h, bmIndex b, bmOffset b, bmSize b)). apply Fall.
      rewrite lookup_zip_with, Hh, Hb. done.
    + clear - Eall Hdec Fdom. apply Forall_lookup. intros i h Hh.
      destruct (Forall2_lookup_r _ _ _ i h Hdec Hh) as (b & Hb & _).
      rewrite Forall_lookup in Eall. specialize (Eall i (h, tenant, bmSize b)). simpl in Eall.
      rewrite lookup_zip_with, Hh, Hb in Eall. specialize (Eall eq_refl).
      apply elem_of_dom in Eall. rewrite <- Fdom in Eall. by apply elem_of_dom.
  - by rewrite <- E1.
  - rewrite Fsz, E1, length_zip_with. apply Forall2_length in Hdec. lia.
  - rewrite Fdom. by apply subseteq_dom.
Qed.

Lemma commitBody_calm vid tenant sid sha blocks now d t vidS num t' :
  calmTx now d t -> commitBody vid tenant sid sha blocks t = (Ok (vidS, num), t') ->
  exists d', calmTx now d' t' /\ vidS = uuid_String vid /\ committed now vid tenant sid sha blocks num d d'.
Proof.
  intros Hc H. unfold commitBody in H.
  apply txBind_ok in H as (row & t1 & Hq & H).
  eapply calm_query_ok in Hq as [Hrow Hc1]; [|done].
  unfold session_select in Hrow. inv_result.
  match goal with H : sessions d !! sid = _ |- _ => rename H into Hrow end.
  assert (forall b e t (u : unit) t', txRequire b e t = (Ok u, t') -> b = true /\ t' = t) as Hreq.
  { unfold txRequire. intros b e t0 u t0' Hr. simplify_eq. by apply require_ok in H1. }
  apply txBind_ok in H as (u1 & t2 & Hr1 & H). apply Hreq in Hr1 as [Hst ->].
  apply txBind_ok in H as (now' & t3 & Hn & H). unfold txNow in Hn.
  injection Hn as Hn <-. rewrite (proj1 (proj2 Hc1)) in Hn. subst now'.
  apply txBind_ok in H as (u2 & t4 & Hr2 & H). apply Hreq in Hr2 as [Hex ->].
  apply txBind_ok in H as (u3 & t5 & Hr3 & H). apply Hreq in Hr3 as [Hten ->].
  apply txBind_ok in H as (u4 & t6 & Hr4 & H). apply Hreq in Hr4 as [Hlen ->].
  apply txBind_ok in H as (u5 & t7 & Hr5 & H). apply Hreq in Hr5 as [Hnode ->].
  apply txBind_ok in H as (node & t8 & Hp & H). unfold txLift in Hp. injection Hp as Hp <-.
  apply of_option_ok in Hp.
  apply txBind_ok in H as (u6 & t9 & Hq & H). eapply calm_query_ok in Hq as [_ Hc2]; [|done].
  apply txBind_ok in H as (v & t10 & Hq & H). eapply calm_query_ok in Hq as [Hv Hc3]; [|done].
  apply txBind_ok in H as ([] & t11 & Hq & H). eapply calm_update_ok in Hq as (d1 & Hver & Hc4); [|done].
  apply txBind_ok in H as ([] & t12 & Hq & H). eapply insertBlocks_calm in Hq
    as (d2 & Hc5 & E1 & E2 & E3 & E4 & E5 & E6 & E7 & E8); [|done].
  apply txBind_ok in H as ([] & t13 & Hq & H). eapply calm_update_ok in Hq as (d3 & Hses & Hc6); [|done].
  unfold mret, txM_ret in H. simplify_eq.
  apply version_insert_spec in Hver as (Hfresh & -> & _ & Hnd).
  apply session_complete_spec in Hses as [-> _]. simpl in *. bool_hyps.
  exists (setSessions (alter (set_status "COMPLETED" (Some (zlen blocks))) sid (sessions d2)) d2).
  split_and!; [done|done|]. constructor; simpl; try done.
  - exists row, node. destruct (ss_node row) as [n|] eqn:En; [|done].
    rewrite uuid_Parse_String in Hp. simplify_eq.
    apply (f_equal uuid_Parse) in Hten. rewrite !uuid_Parse_String in Hten. simplify_eq.
    split_and!; try done; lia.
  - by rewrite E3.
Qed.

End commit_effect.

(** The version numbers of a node are 1 to [n], each once. *)
Definition dense `{U : UUID} (node : uuid) (d : db) : Prop :=
  exists n : nat, versionsOf node d ≡ₚ seqZ 1 (Z.of_nat n).

Lemma foldr_max_perm l l' : l ≡ₚ l' -> foldr Z.max 0 l = foldr Z.max 0 l'.
Proof. induction 1; simpl; lia. Qed.

Lemma foldr_max_app l x : foldr Z.max 0 (l ++ [x]) = Z.max (foldr Z.max 0 l) (Z.max x 0).
Proof. induction l; simpl; lia. Qed.

Lemma foldr_max_seqZ (n : nat) : foldr Z.max 0 (seqZ 1 (Z.of_nat n)) = Z.of_nat n.
Proof. induction n as [|n IH]; [done|]. rewrite seqZ_S, foldr_max_app, IH. lia. Qed.

Lemma versionsOf_insert `{U : UUID} node' vid (r : verRow) (d d' : db) :
  fversions d !! vid = None -> fversions d' = <[vid := r]> (fversions d) ->
  versionsOf node' d' ≡ₚ (if decide (v_node r = node') then [v_number r] else []) ++ versionsOf node' d.
Proof.
  intros Hf Hv. unfold versionsOf. rewrite Hv, map_to_list_insert by done. cbn [fmap list_fmap].
  rewrite filter_cons. simpl. by case_decide.
Qed.

(** The effect of a successful commit in an undisturbed world. *)
Lemma commit_effect `{U : UUID} (vid tenant sid : uuid) sha blocks (w w' : world db) vidS num :
  calm w -> pgCommitFile vid tenant sid sha blocks w = (Ok (vidS, num), w') ->
  vidS = uuid_String vid /\
  committed (clock w) vid tenant sid sha blocks num (contents w) (contents w').
Proof.
  intros Hcalm Hrun.
  unfold pgCommitFile in Hrun.
  destruct (calm_withTx unavailable commitErr (commitBody vid tenant sid sha blocks) w Hcalm)
    as (t & Hs & Hck & Hct & _ & Hok & Herr).
  destruct (commitBody vid tenant sid sha blocks t) as [[[v n]|e] t'] eqn:Hb.
  - destruct (Hok t') with (a := (v, n)) as (w2 & Hw & Hc & _); [|done|].
    { pose proof (proj1 (commitBody_keeps vid tenant sid sha blocks t)) as Hst. by rewrite Hb in Hst. }
    rewrite Hw in Hrun. simplify_eq.
    destruct (commitBody_calm vid tenant sid sha blocks (clock w) (contents w) t vidS num t')
      as (d' & Hd & -> & Hcm); [done|done|].
    split; [done|]. rewrite Hc. destruct Hd as (_ & _ & ->). done.
  - specialize (Herr t' e eq_refl). rewrite Hrun in Herr. done.
Qed.

(** ** When a commit succeeds *)

Section commit_progress.
Context `{U : UUID}.

Lemma calm_stmt_run {A} f (q : Z -> db -> result dberr A * db) now d t a d' :
  calmTx now d t -> q now d = (Ok a, d') -> exists t', txStmt f q t = (Ok a, t') /\ calmTx now d' t'.
Proof.
  intros (Hs & <- & <-) Hq. rewrite txStmt_calm by done. rewrite Hq.
  eexists. split; [reflexivity|]. done.
Qed.

Lemma calm_query_run {A} f (q : Z -> db -> result dberr A) now d t a :
  calmTx now d t -> q now d = Ok a ->
  exists t', txStmt f (fun now => query (q now)) t = (Ok a, t') /\ calmTx now d t'.
Proof. intros Hc Hq. eapply calm_stmt_run; [done|]. unfold query. by rewrite Hq. Qed.

Lemma calm_update_run f (q : Z -> db -> result dberr db) now d t d' :
  calmTx now d t -> q now d = Ok d' ->
  exists t', txStmt f (fun now => update (q now)) t = (Ok tt, t') /\ calmTx now d' t'.
Proof. intros Hc Hq. eapply calm_stmt_run; [done|]. unfold update. by rewrite Hq. Qed.

Lemma txBind_run {A B} (m : txM A) (f : A -> txM B) t a t' :
  m t = (Ok a, t') -> (m ≫= f) t = f a t'.
Proof. unfold mbind, txM_bind. by intros ->. Qed.

(** The columns of one block are in range. *)
Definition goodBlock (b : BlockMeta) : Prop :=
  slen (bmHash b) = 64 /\ is_Some (hex_decode (bmHash b)) /\
  0 < bmSize b < 2 ^ 31 /\ 0 <= bmIndex b < 2 ^ 31 /\ 0 <= bmOffset b.

Lemma is_int32_ok z : 0 <= z < 2 ^ 31 -> is_int32 z = true.
Proof. intros Hz. unfold is_int32. lia. Qed.

Lemma cas_insert_runs now (rows : list (string * uuid * Z)) (d : db) :
  Forall (fun r => slen r.1.1 = 32 /\ 0 < r.2 < 2 ^ 31 /\ is_Some (tenantsT d !! r.1.2)) rows ->
  exists n d', cas_insert now 0 rows d = Ok (n, d').
Proof.
  revert d. induction rows as [|[[h ten] sz] rows IH]; intros d Hall; simpl; [eauto|].
  apply Forall_cons in Hall as [(Hh & Hsz & Hten) Hall]. simpl in *.
  assert (exists new d1, cas_insert1 now 0 h ten sz d = Ok (new, d1) /\ tenantsT d1 = tenantsT d)
    as (new & d1 & Hd1 & Ht).
  { unfold cas_insert1. rewrite is_int32_ok by lia. simpl.
    rewrite (proj2 (Z.eqb_eq _ _) Hh), (proj2 (Z.ltb_lt _ _)) by lia. simpl.
    destruct (cas d !! h); simpl; [eauto|]. rewrite bool_decide_true by done. simpl. eauto. }
  rewrite Hd1. simpl. destruct (IH d1) as (n & d2 & ->); [by rewrite Ht|]. simpl. eauto.
Qed.

Lemma manifest_insert_runs now vid (rows : list (string * Z * Z * Z)) (d : db) :
  is_Some (fversions d !! vid) -> NoDup (map (fun r => r.1.1.2) rows) ->
  Forall (fun r => is_Some (cas d !! r.1.1.1) /\ manifests d !! (vid, r.1.1.2) = None /\
    0 <= r.1.1.2 < 2 ^ 31 /\ 0 <= r.1.2 /\ 0 < r.2 < 2 ^ 31) rows ->
  exists d', manifest_insert now vid rows d = Ok d'.
Proof.
  revert d. induction rows as [|[[[h idx] off] sz] rows IH]; intros d Hv Hnd Hall; simpl; [eauto|].
  simpl in Hnd. apply NoDup_cons in Hnd as [Hni Hnd].
  apply Forall_cons in Hall as [([r Hr] & Hm & Hi & Ho & Hsz) Hall]. simpl in *.
  assert (exists d1, manifest_insert1 now vid h idx off sz d = Ok d1 /\ fversions d1 = fversions d /\
    dom (cas d1) = dom (cas d) /\ (forall i, i <> idx -> manifests d1 !! (vid, i) = manifests d !! (vid, i)))
    as (d1 & Hd1 & E1 & E2 & E3).
  { unfold manifest_insert1, manifest_block_added. rewrite !is_int32_ok by lia. simpl.
    rewrite (proj2 (Z.leb_le 0 idx)), (proj2 (Z.leb_le 0 off)), (proj2 (Z.ltb_lt 0 sz)) by lia. simpl.
    rewrite !bool_decide_true by done. simpl. rewrite Hr. eexists. split_and!; [done|done| |].
    - simpl. rewrite dom_insert_L. apply elem_of_dom_2 in Hr. set_solver.
    - intros i Hne. simpl. rewrite lookup_insert_ne; [done|]. intros ?. simplify_eq. }
  rewrite Hd1. simpl. apply IH; [by rewrite E1|done|].
  apply Forall_forall. intros [[[h' i'] o'] s'] Hin. rewrite Forall_forall in Hall.
  specialize (Hall _ Hin). simpl in *. destruct Hall as (Hc & Hmi & Hrest). split_and!; try tauto.
  - apply elem_of_dom. rewrite E2. by apply elem_of_dom.
  - rewrite E3; [done|]. intros ->. apply Hni. by apply (list_elem_of_fmap_2 (fun r => r.1.1.2) _ _ Hin).
Qed.

Lemma hex_decode_slen (s b : string) : hex_decode s = Some b -> slen s = 2 * slen b.
Proof.
  assert (forall n s b, (String.length s <= n)%nat -> hex_decode s = Some b -> slen s = 2 * slen b) as Hn;
    [|by eapply Hn].
  clear. induction n as [|n IH]; intros s b Hl Hd; destruct s as [|c [|c' s]]; simpl in *; simplify_eq; try done; try lia.
  repeat case_match; simplify_eq. unfold slen in *. simpl.
  match goal with H : hex_decode s = Some ?r |- _ => specialize (IH s r ltac:(lia) H) end. lia.
Qed.

Lemma mustDecodeAll_runs (blocks : list BlockMeta) :
  Forall goodBlock blocks -> exists hashes, mustDecodeAll (bmHash <$> blocks) = Ok hashes /\
    Forall2 (fun h b => slen h = 32 /\ goodBlock b) hashes blocks.
Proof.
  induction blocks as [|b blocks IH]; intros Hall; [by exists []|].
  apply Forall_cons in Hall as [Hb Hall]. destruct (IH Hall) as (hashes & Hh & Hf).
  pose proof Hb as (Hl & [h Hd] & _). exists (h :: hashes). cbn [fmap list_fmap mustDecodeAll].
  unfold MustDecodeHash at 1. rewrite Hd. simpl. rewrite Hh. split; [done|].
  constructor; [|done]. split; [|done]. apply hex_decode_slen in Hd. lia.
Qed.

Lemma insertBlocks_runs tenant vid blocks now d t :
  calmTx now d t -> Forall goodBlock blocks -> NoDup (bmIndex <$> blocks) ->
  is_Some (tenantsT d !! tenant) -> is_Some (fversions d !! vid) ->
  (forall i, manifests d !! (vid, i) = None) ->
  exists t' d', insertBlocks tenant vid blocks t = (Ok tt, t') /\ calmTx now d' t' /\
    db_status d' = db_status d.
Proof.
  intros Hc Hgood Hnd Hten Hvid Hman. unfold insertBlocks.
  destruct (zlen blocks =? 0); [exists t, d; done|].
  destruct (mustDecodeAll_runs blocks Hgood) as (hashes & Hh & Hf).
  erewrite txBind_run by (unfold txLift; rewrite Hh; reflexivity).
  destruct (cas_insert_runs now (zip_with (fun h b => (h, tenant, bmSize b)) hashes blocks) d)
    as (n & d1 & Hd1).
  { clear - Hf Hten. induction Hf as [|h b hs bs (Hl & _ & _ & Hs & _) _ IH]; simpl; constructor; done. }
  pose proof (cas_insert_spec _ _ _ _ _ _ Hd1) as (E1 & E2 & _ & _ & _ & E6 & _ & _ & Eall).
  destruct (calm_stmt_run RawDb (fun now => stmt (cas_insert now 0
    (zip_with (fun h b => (h, tenant, bmSize b)) hashes blocks))) now d t n d1 Hc) as (t1 & Ht1 & Hc1).
  { unfold stmt. by rewrite Hd1. }
  rewrite (txBind_run _ _ _ _ _ Ht1).
  destruct (manifest_insert_runs now vid
    (zip_with (fun h b => (h, bmIndex b, bmOffset b, bmSize b)) hashes blocks) d1) as (d2 & Hd2).
  { by rewrite E2. }
  { clear - Hf Hnd. induction Hf as [|h b hs bs _ Hf IH]; simpl in *; [done|].
    apply NoDup_cons in Hnd as [Hni Hnd]. apply NoDup_cons. split; [|auto].
    intros Hin. apply Hni. clear - Hin Hf. induction Hf as [|h b' hs bs _ Hf IH]; simpl in *; [done|].
    apply elem_of_cons in Hin as [->|Hin]; [left | right; auto]. }
  { clear - Hf Eall Hman E1. induction Hf as [|h b hs bs (_ & Hg) _ IH]; simpl in *; [done|].
    apply Forall_cons in Eall as [Eh Eall]. constructor; [|auto]. simpl. rewrite E1, Hman.
    destruct Hg as (_ & _ & ? & ? & ?). done. }
  pose proof (manifest_insert_spec _ _ _ _ _ Hd2) as (_ & _ & _ & _ & F5 & _).
  destruct (calm_update_run RawDb (fun now => manifest_insert now vid
    (zip_with (fun h b => (h, bmIndex b, bmOffset b, bmSize b)) hashes blocks)) now d1 t1 d2 Hc1 Hd2)
    as (t2 & Ht2 & Hc2).
  exists t2, d2. split_and!; [exact Ht2|done|congruence].
Qed.

(** What the commit of [blocks] to session [sid] needs of the database. *)
Record committable (now : Z) (vid tenant sid : uuid) (sha : string) (blocks : list BlockMeta)
    (row : sesRow) (node : uuid) (d : db) : Prop := {
  cb_status : db_status d = true;
  cb_row : sessions d !! sid = Some row;
  cb_open : ss_status row <> "COMPLETED";
  cb_unexpired : now <= ss_expires row;
  cb_tenant : ss_tenant row = tenant;
  cb_node : ss_node row = Some node;
  cb_count : zlen blocks = ss_expected row;
  cb_total : 0 <= ss_total row;
  cb_exists : is_Some (nodes d !! node) /\ is_Some (tenantsT d !! tenant);
  cb_fresh : fversions d !! vid = None /\ (forall i, manifests d !! (vid, i) = None);
  cb_number : next_version_number node d < 2 ^ 31;
  cb_sha : slen sha = 32;
  cb_blocks : Forall goodBlock blocks;
  cb_indices : NoDup (bmIndex <$> blocks)
}.

Lemma version_insert_runs vid node size sha tenant d :
  fversions d !! vid = None -> 0 <= size -> slen sha = 32 -> is_Some (nodes d !! node) ->
  next_version_number node d < 2 ^ 31 ->
  version_insert vid node (next_version_number node d) size sha tenant d
  = Ok (setVersions (<[vid := mkVer node (next_version_number node d) size sha tenant]> (fversions d)) d).
Proof.
  intros Hf Hsz Hsha Hn Hlt. unfold version_insert.
  assert (1 <= next_version_number node d) as H1.
  { unfold next_version_number. pose proof (foldr_max_nonneg (versionsOf node d)). lia. }
  rewrite is_int32_ok by lia.
  rewrite (proj2 (Z.leb_le 1 _)), (proj2 (Z.leb_le 0 size)), (proj2 (Z.eqb_eq _ _) Hsha) by lia.
  rewrite (bool_decide_true (_ ∉ _)) by apply next_version_fresh. by rewrite !bool_decide_true by done.
Qed.

(** One step of an undisturbed transaction that is known to succeed. *)
Ltac tx_pure := erewrite txBind_run by (unfold txRequire, txLift, txNow; simpl; reflexivity).

Lemma commitBody_runs vid tenant sid sha blocks row node now d t :
  calmTx now d t -> committable now vid tenant sid sha blocks row node d ->
  exists t', commitBody vid tenant sid sha blocks t
    = (Ok (uuid_String vid, next_version_number node d), t').
Proof.
  intros Hc []. unfold commitBody.
  destruct (calm_query_run noRows (fun _ => session_select sid) now d t row Hc) as (t1 & Ht1 & Hc1).
  { unfold session_select. by rewrite cb_status0, cb_row0. }
  rewrite (txBind_run _ _ _ _ _ Ht1). simpl. rewrite cb_node0, cb_tenant0, cb_count0.
  rewrite (bool_decide_false _ cb_open0). tx_pure. tx_pure.
  rewrite (proj1 (proj2 Hc1)). rewrite (proj2 (Z.ltb_ge _ _) cb_unexpired0). tx_pure.
  rewrite (bool_decide_true (uuid_String tenant = uuid_String tenant)) by done. tx_pure.
  rewrite Z.eqb_refl. tx_pure.
  assert (uuid_String node <> "") as Hne.
  { intros He%(f_equal uuid_Parse). by rewrite uuid_Parse_String, uuid_Parse_empty in He. }
  rewrite (bool_decide_false _ Hne). tx_pure. rewrite uuid_Parse_String. tx_pure.
  destruct (calm_query_run RawDb (fun _ _ => Ok tt) now d t1 tt Hc1 eq_refl) as (t2 & Ht2 & Hc2).
  rewrite (txBind_run _ _ _ _ _ Ht2).
  destruct (calm_query_run RawDb (fun _ d => Ok (next_version_number node d)) now d t2 _ Hc2 eq_refl)
    as (t3 & Ht3 & Hc3).
  rewrite (txBind_run _ _ _ _ _ Ht3). destruct cb_exists0 as [Hn Hten], cb_fresh0 as [Hf Hm].
  destruct (calm_update_run RawDb (fun _ => version_insert vid node (next_version_number node d)
    (ss_total row) sha tenant) now d t3 _ Hc3 (version_insert_runs vid node (ss_total row) sha tenant d
    Hf cb_total0 cb_sha0 Hn cb_number0)) as (t4 & Ht4 & Hc4).
  rewrite (txBind_run _ _ _ _ _ Ht4).
  destruct (insertBlocks_runs tenant vid blocks now _ t4 Hc4 cb_blocks0 cb_indices0)
    as (t5 & d5 & Ht5 & Hc5 & Hst); [done|by simpl; rewrite lookup_insert_eq|done|].
  rewrite (txBind_run _ _ _ _ _ Ht5).
  edestruct (calm_update_run RawDb (fun _ => session_complete sid (ss_expected row)) now d5 t5)
    as (t6 & Ht6 & _); [done|unfold session_complete; rewrite Hst; simpl; rewrite cb_status0; reflexivity|].
  rewrite (txBind_run _ _ _ _ _ Ht6). eexists. reflexivity.
Qed.

Lemma commit_runs vid tenant sid node sha blocks row (w : world db) :
  calm w -> committable (clock w) vid tenant sid sha blocks row node (contents w) ->
  exists w', pgCommitFile vid tenant sid sha blocks w
    = (Ok (uuid_String vid, next_version_number node (contents w)), w').
Proof.
  intros Hcalm Hcan.
  destruct (calm_withTx unavailable commitErr (commitBody vid tenant sid sha blocks) w Hcalm)
    as (t & Hs & Hck & Hct & _ & Hok & _).
  destruct (commitBody_runs vid tenant sid sha blocks row node (clock w) (contents w) t) as [t' Hb]; [done|done|].
  edestruct (Hok t') as (w' & Hw & _); [|exact Hb|exists w'; exact Hw].
  pose proof (proj1 (commitBody_keeps vid tenant sid sha blocks t)) as Hst. by rewrite Hb in Hst.
Qed.

End commit_progress.

(** ** Properties of the stores *)

Section store_properties.
Context `{U : UUID}.



(** C9. Commits keep the registry consistent on every schedule: whatever faults occur in
    the transaction and whatever consistent changes other clients commit between its
    statements, whether it succeeds, fails or its answer is lost, reference counts equal
    the number of manifest rows afterwards. *)
Theorem CommitFile_keeps_refcounts (vid tenant sid : uuid) (sha : string) (blocks : list BlockMeta)
    (w : world db) (Henv : envKeeps refcount_ok w) (Hok : refcount_ok (contents w)) :
  refcount_ok (contents (pgCommitFile vid tenant sid sha blocks w).2).
Proof.
  exact (proj2 (withTx_keeps refcount_ok unavailable commitErr _ w
    (commitBody_keeps vid tenant sid sha blocks) Henv Hok)).
Qed.


(** C20. A session is committed at most once: if the session is completed and no other
    client reopens it, no schedule lets another [CommitFile] of it succeed; in an
    undisturbed world the caller gets [ErrSessionCompleted]. *)
Theorem CommitFile_once (vid tenant sid : uuid) (sha : string) (blocks : list BlockMeta) (w : world db)
    (Hdone : completed sid (contents w)) (Henv : envKeeps (completed sid) w) :
  is_ok (pgCommitFile vid tenant sid sha blocks w).1 = false /\
  (calm w -> db_status (contents w) = true ->
   (pgCommitFile vid tenant sid sha blocks w).1 = Err (Sent ErrSessionCompleted)).
Proof.
  assert (forall t, envKeeps (completed sid) (txWorld t) -> completed sid (contents (txWorld t)) ->
    exists e t', commitBody vid tenant sid sha blocks t = (Err e, t') /\
      (sched (txWorld t) = [] -> db_status (contents (txWorld t)) = true -> e = Sent ErrSessionCompleted)) as Hbody.
  { intros t He Hc. unfold commitBody, mbind at 1, txM_bind.
    pose proof (txKeeps_query (completed sid) noRows (fun _ => session_select sid) t) as [_ Hk].
    destruct (txStmt noRows (fun _ => query (session_select sid)) t) as [[row|e] t1] eqn:Hq.
    - assert (ss_status row = "COMPLETED") as Hst.
      { revert Hq. unfold txStmt, txExec. destruct (popSlot (txWorld t)) as [s w1] eqn:Ep.
        apply popSlot_envOnly in Ep. destruct (envOnly_keeps _ _ _ Ep He) as [_ Hcw]. destruct (Hcw Hc) as (r & Hr & Hs).
        destruct (s_fault s); [done|]. unfold query, session_select.
        destruct (db_status (contents w1)); simpl; [|done]. rewrite Hr. simpl. by intros; simplify_eq. }
      simpl. unfold mbind, txM_bind, txRequire. simpl. rewrite Hst. simpl. eauto.
    - exists e, t1. split; [done|]. intros Hs Hd. rewrite txStmt_calm in Hq by done.
      destruct Hc as (r & Hr & _). unfold query, session_select in Hq. by rewrite Hd, Hr in Hq. }
  split.
  - unfold pgCommitFile, withTx, BeginWriteTx.
    destruct (acquire OpWrite w) as [[[p|e] s] w1] eqn:Ha; [|done]. apply acquire_spec in Ha as [Henv1 _].
    destruct (envOnly_keeps _ _ _ Henv1 Henv) as [He1 Hc1]. destruct (s_fault s); [done|].
    destruct (Hbody (mkTxst w1 (contents w1)) He1 (Hc1 Hdone)) as (e & t' & -> & _). done.
  - intros Hcalm Hd. destruct (calm_withTx unavailable commitErr (commitBody vid tenant sid sha blocks) w Hcalm)
      as (t & Hs & _ & Hct & _ & _ & Herr).
    destruct (Hbody t) as (e & t' & Hb & He); [unfold envKeeps; by rewrite Hs|by rewrite Hct|].
    unfold pgCommitFile. rewrite (Herr t' e Hb). rewrite He; [done|done|by rewrite Hct].
Qed.


End store_properties.

(** ** The in-memory store against the transaction *)

Section fake_agreement.
Context `{U : UUID}.

(** The fake store and the database hold the same sessions at the same time. *)
Definition sameSessions (f : FakeStore) (w : world db) : Prop :=
  fNow f = clock w /\ forall sid, fSessions f !! sid = sessionRecord sid <$> sessions (contents w) !! sid.

(** The test double refuses what the database refuses: in an undisturbed world with the
    same sessions, every error of [FakeStore.CommitFile] is the error
    [PgStore.CommitFile] returns. *)
Theorem FakeStore_CommitFile_errors (f : FakeStore) (w : world db) (vid tenant sid : uuid)
    (sha : string) (blocks : list BlockMeta) (e : ierr)
    (Hcalm : calm w) (Hst : db_status (contents w) = true) (Hsame : sameSessions f w)
    (Hfake : (fakeCommitFile vid tenant sid sha blocks f).1 = Err e) :
  (pgCommitFile vid tenant sid sha blocks w).1 = Err e.
Proof.
  destruct Hsame as [Hnow Hses].
  destruct (calm_withTx unavailable commitErr (commitBody vid tenant sid sha blocks) w Hcalm)
    as (t & Hs & Hck & Hct & _ & _ & Herr).
  assert (exists t', commitBody vid tenant sid sha blocks t = (Err e, t')) as [t' Hb];
    [|exact (Herr t' e Hb)].
  unfold fakeCommitFile, fakeCommitChecks in Hfake. rewrite Hses in Hfake.
  unfold commitBody, mbind at 1, txM_bind. rewrite txStmt_calm by done.
  unfold query, session_select. rewrite Hct, Hst. simpl.
  destruct (sessions (contents w) !! sid) as [row|] eqn:Er; simpl in *; [|by simplify_eq; eauto].
  unfold mbind, txM_bind, txRequire, txNow in *. simpl in *.
  rewrite Hck, <- Hnow.
  destruct (bool_decide (ss_status row = "COMPLETED")); simpl in *; [by simplify_eq; eauto|].
  destruct (ss_expires row <? fNow f); simpl in *; [by simplify_eq; eauto|].
  destruct (bool_decide (uuid_String (ss_tenant row) = uuid_String tenant)); simpl in *; [|by simplify_eq; eauto].
  destruct (zlen blocks =? ss_expected row); simpl in *; [done|by simplify_eq; eauto].
Qed.

(** On the schema that [db/schema.sql] declares, ingestion cannot work: without a
    [status] column no session can be read and no commit succeeds, and without a default
    for [expires_at] no session can be created, whatever the schedule. *)
Theorem schema_sql_rejects_ingestion (vid tenant sid node : uuid) (sha : string)
    (blocks : list BlockMeta) (total chunks : Z) (w : world db)
    (Hschema : db_status (contents w) = false /\ db_lease (contents w) = None)
    (Henv : envKeeps (fun d => db_status d = false /\ db_lease d = None) w) :
  is_ok (pgGetSession sid w).1 = false /\
  is_ok (pgCommitFile vid tenant sid sha blocks w).1 = false /\
  is_ok (pgCreateUploadSession sid tenant node total chunks w).1 = false.
Proof.
  set (P := fun d : db => db_status d = false /\ db_lease d = None) in *.
  assert (forall A (q : Z -> db -> result dberr A * db) f t,
    (forall now d, P d -> is_ok (q now d).1 = false) -> envKeeps P (txWorld t) -> P (contents (txWorld t)) ->
    is_ok (txStmt f q t).1 = false) as Hstmt.
  { intros A q f t Hq He HP. unfold txStmt, txExec. destruct (popSlot (txWorld t)) as [s w1] eqn:Ep.
    apply popSlot_envOnly in Ep. destruct (envOnly_keeps _ _ _ Ep He) as [_ Hk]. specialize (Hk HP).
    destruct (s_fault s); [done|]. specialize (Hq (clock w1) (contents w1) Hk).
    by destruct (q (clock w1) (contents w1)) as [[a|e] d]. }
  assert (forall A b c (body : txM A), (forall t, envKeeps P (txWorld t) -> P (contents (txWorld t)) ->
    is_ok (body t).1 = false) -> is_ok (withTx b c body w).1 = false) as Htx.
  { intros A b c body Hbody. unfold withTx, BeginWriteTx.
    destruct (acquire OpWrite w) as [[[p|e] s] w1] eqn:Ha; [|done]. apply acquire_spec in Ha as [He _].
    destruct (envOnly_keeps _ _ _ He Henv) as [He1 HP1]. destruct (s_fault s); [done|].
    specialize (Hbody (mkTxst w1 (contents w1)) He1 (HP1 Hschema)).
    by destruct (body (mkTxst w1 (contents w1))) as [[a|e] t']. }
  split_and!.
  - unfold pgGetSession. destruct (QueryWithMetrics _ _ w) as [[row|e] w'] eqn:E; [|done].
    apply QueryWithMetrics_spec in E as [He Hq]. destruct (envOnly_keeps _ _ _ He Henv) as [_ HP].
    destruct (HP Hschema) as [Hd _]. specialize (Hq row eq_refl). by rewrite Hd in Hq.
  - apply Htx. intros t He HP. unfold commitBody, mbind at 1, txM_bind.
    specialize (Hstmt _ (fun _ => query (session_select sid)) noRows t).
    destruct (txStmt noRows _ t) as [[row|e] t1]; [|done]. simpl in Hstmt.
    assert (true = false); [|done]. apply Hstmt; [|done|done].
    intros now d [Hd _]. unfold query, session_select. by rewrite Hd.
  - apply Htx. intros t He HP. unfold mbind, txM_bind.
    specialize (Hstmt _ (fun now => stmt (session_insert now sid tenant node total chunks)) RawDb t).
    destruct (txStmt RawDb _ t) as [[row|e] t1]; [|done]. simpl in Hstmt.
    assert (true = false); [|done]. apply Hstmt; [|done|done].
    intros now d [_ Hd]. unfold stmt, session_insert. rewrite Hd. by destruct (is_int32 chunks).
Qed.

End fake_agreement.

(** ** Witnesses *)

Definition mkId (c : ascii) : uuid := mkUuid16 (c, c, c, c) (c, c) (c, c) (c, c) (c, c, c, c, c, c).
Definition idT : uuid := mkId "t".
Definition idN : uuid := mkId "n".
Definition idS : uuid := mkId "s".
Definition idV : uuid := mkId "v".
Definition blockBytes : string := "aegis-demo-block-bytes-32-chars!".
Definition demoBlocks : list BlockMeta := [mkBlock (hex_encode blockBytes) 0 0 10 ""].

(** One tenant, one file node and one open session that expects one block. *)
Definition ingestDb (status : bool) (lease : option Z) : db :=
  mkDb ∅ ∅ ∅ {[idN := mkNode idT (Some idT) "f" "FILE" false [node_label idT; node_label idN] 1]}
       {[idS := mkSes idT (Some idN) "INITIATED" 10 1 0 1000 false]} {[idT := mkTenant 100 0]} status lease ∅.

Definition ingestWorld : world db :=
  mkWorld (ingestDb true (Some 900)) 5 [] newCircuitBreaker 0 0 0 0 None.

Definition demoCommit : result ierr (string * Z) * world db :=
  pgCommitFile idV idT idS blockBytes demoBlocks ingestWorld.

Lemma demoCommit_ok : demoCommit = (Ok (uuid_String idV, 1), demoCommit.2).
Proof. rewrite (surjective_pairing demoCommit) at 1. f_equal. all: vm_compute; reflexivity. Qed.

Lemma ingestDb_ok status lease : refcount_ok (ingestDb status lease).
Proof. split; [intros h r | intros k r]; simpl; rewrite lookup_empty; discriminate. Qed.



Definition noisyWorld : world db :=
  mkWorld (ingestDb true (Some 900)) 5
    [mkSlot 1 (cas_mark_verified 3 blockBytes) None None false; mkSlot 1 (fun d => d) None None false;
     mkSlot 1 (fun d => d) None (Some [EPg "40001"]) false] newCircuitBreaker 0 0 0 0 None.

Lemma CommitFile_keeps_refcounts_witness :
  refcount_ok (contents (pgCommitFile idV idT idS blockBytes demoBlocks noisyWorld).2).
Proof.
  apply (CommitFile_keeps_refcounts idV idT idS blockBytes demoBlocks noisyWorld).
  - apply Forall_cons. split; [intros d; apply cas_mark_verified_refcount|].
    apply Forall_cons. split; [intros d Hd; exact Hd|].
    apply Forall_cons. split; [intros d Hd; exact Hd | constructor].
  - apply ingestDb_ok.
Defined.


Definition doneWorld : world db :=
  mkWorld (setSessions {[idS := mkSes idT (Some idN) "COMPLETED" 10 1 1 1000 false]} (ingestDb true (Some 900)))
    5 [] newCircuitBreaker 0 0 0 0 None.

Lemma CommitFile_once_witness :
  (pgCommitFile idV idT idS blockBytes demoBlocks doneWorld).1 = Err (Sent ErrSessionCompleted).
Proof.
  destruct (CommitFile_once idV idT idS blockBytes demoBlocks doneWorld) as [_ H].
  - eexists. split; [apply lookup_singleton_eq | reflexivity].
  - constructor.
  - apply H; [split; reflexivity | reflexivity].
Defined.


Definition demoFake : FakeStore :=
  setFakeSession idS (sessionRecord idS (mkSes idT (Some idN) "INITIATED" 10 1 0 1000 false)) (NewFakeStore 5).

Lemma FakeStore_CommitFile_errors_witness :
  (pgCommitFile idV idT idS blockBytes [] ingestWorld).1 = Err (Sent ErrBadRequest).
Proof.
  apply (FakeStore_CommitFile_errors demoFake ingestWorld idV idT idS blockBytes []).
  - split; reflexivity.
  - reflexivity.
  - split; [reflexivity|]. intros sid. simpl. destruct (decide (idS = sid)) as [<-|Hne].
    + rewrite lookup_insert_eq, lookup_singleton_eq. reflexivity.
    + rewrite lookup_insert_ne, lookup_singleton_ne by exact Hne. rewrite lookup_empty. reflexivity.
  - vm_compute. reflexivity.
Defined.

Lemma schema_sql_rejects_ingestion_witness :
  is_ok (pgCommitFile idV idT idS blockBytes demoBlocks
    (mkWorld (ingestDb false None) 5 [] newCircuitBreaker 0 0 0 0 None)).1 = false.
Proof.
  apply (schema_sql_rejects_ingestion idV idT idS idN blockBytes demoBlocks 10 1
    (mkWorld (ingestDb false None) 5 [] newCircuitBreaker 0 0 0 0 None)).
  - split; reflexivity.
  - constructor.
Defined.
