(* ===== verification/Namespace.v ===== *)
(** * db/stored-procedures.sql: the namespace tree

    The statements that change [namespace_nodes] and [acl_entries]: the UPDATE branch of the
    lineage trigger, [create_root], [move_directory], [soft_delete_node], a direct reparenting
    UPDATE, and the ACL insert of [GrantACLEntry].  [ns_ok] is the invariant the procedures
    promise (I-2, I-2e); [tree_exec] is the tree they implement, without materialized paths. *)
From stdpp Require Import sorting.
From S2P Require Import Prelude GoLib External Database NsCache Schema Ingress.

Section namespace.
Context `{U : UUID}.

Definition domain_error : dberr := pg "P0001".
Definition cycle_error : dberr := pg "ACYCL".

(** ** UPDATE of [namespace_nodes] *)

Definition setPath (p : list string) (r : nodeRow) : nodeRow :=
  mkNode (n_tenant r) (n_parent r) (n_name r) (n_type r) (n_deleted r) p (n_epoch r).

(** [nodes_lineage_guard], UPDATE branch: [allow] is the setting [aegis.allow_move]. *)
Definition lineage_update (allow : bool) (nid : uuid) (old new : nodeRow) (d : db) : result dberr nodeRow :=
  if bool_decide (n_parent new = n_parent old) then
    _ ← require (bool_decide (n_path new = n_path old) || allow) domain_error;
    Ok new
  else
    _ ← require allow domain_error;
    p ← of_option (n_parent new) domain_error;
    pr ← of_option (nodes d !! p) domain_error;
    _ ← require (bool_decide (n_tenant pr = n_tenant new) && bool_decide (n_type pr = "DIRECTORY") &&
                 negb (n_deleted pr)) domain_error;
    Ok (setPath (n_path pr ++ [node_label nid]) new).

(** The column types and checks of one new row version. *)
Definition node_checks (r : nodeRow) : result dberr nodeRow :=
  _ ← require (slen (n_name r) <=? 255) (pg "22001");
  _ ← require (n_epoch r <=? maxInt64) (pg "22003");
  _ ← require (bool_decide (n_type r = "DIRECTORY" \/ is_Some (n_parent r))) check_violation;
  _ ← require (negb (blankName (n_name r)) && (1 <=? n_epoch r)) check_violation;
  Ok r.

(** The rows of the table in the order of a scan; [f] gives the new version of a row. *)
Fixpoint update_rows (f : uuid -> nodeRow -> result dberr nodeRow) (rows : list (uuid * nodeRow))
    : result dberr (list (uuid * nodeRow)) :=
  match rows with
  | [] => Ok []
  | (k, r) :: rows' => r' ← f k r; out ← update_rows f rows'; Ok ((k, r') :: out)
  end.

(** [UPDATE namespace_nodes SET ... WHERE sel], all rows or none. *)
Definition node_update (sel : uuid -> nodeRow -> bool) (f : uuid -> nodeRow -> result dberr nodeRow) (d : db)
    : result dberr db :=
  rows ← update_rows (fun k r => if sel k r then r' ← f k r; node_checks r' else Ok r) (map_to_list (nodes d));
  let m : gmap uuid nodeRow := list_to_map rows in
  _ ← require (bool_decide (map_Forall (fun k1 r1 => map_Forall (fun k2 r2 =>
        k1 = k2 \/ (~ sameSlot r1 r2 /\ ~ sameRoot r1 r2)) m) m)) unique_violation;
  Ok (setNodes m d).

(** ** The procedures *)

Definition create_root (nid tenant : uuid) (name : string) : db -> result dberr db :=
  node_insert nid tenant None name "DIRECTORY".

(** [WHERE node_id = k AND tenant_id = tenant]. *)
Definition tenantNode (tenant k : uuid) (d : db) : option nodeRow :=
  r ← nodes d !! k; if bool_decide (n_tenant r = tenant) then Some r else None.

(** [lineage_path <@ p]. *)
Definition below (p : list string) (r : nodeRow) : bool := bool_decide (p `prefix_of` n_path r).

(** The new version of a row of the moved subtree, as the SET list gives it. *)
Definition remap (node newParent : uuid) (srcPath dstPath : list string) (k : uuid) (r : nodeRow)
    : result dberr nodeRow :=
  if bool_decide (k = node) then
    Ok (mkNode (n_tenant r) (Some newParent) (n_name r) (n_type r) (n_deleted r)
               (dstPath ++ [node_label node]) (n_epoch r + 1))
  else
    _ ← require (length srcPath <? length (n_path r))%nat (pg "22023");
    Ok (mkNode (n_tenant r) (n_parent r) (n_name r) (n_type r) (n_deleted r)
               (dstPath ++ [node_label node] ++ drop (length srcPath) (n_path r)) (n_epoch r + 1)).

(** A live row other than [node] that already has the name below [newParent]. *)
Definition nameTaken (tenant node newParent : uuid) (name : string) (k : uuid) (r : nodeRow) : Prop :=
  n_tenant r = tenant /\ n_parent r = Some newParent /\ n_name r = name /\ n_deleted r = false /\ k <> node.
#[global] Instance nameTaken_dec t n p s k r : Decision (nameTaken t n p s k r).
Proof. unfold nameTaken. apply _. Defined.

Definition move_directory (tenant node newParent : uuid) (d : db) : result dberr db :=
  _ ← require (negb (bool_decide (node = newParent))) domain_error;
  src ← of_option (tenantNode tenant node d) domain_error;
  dst ← of_option (tenantNode tenant newParent d) domain_error;
  _ ← require (bool_decide (is_Some (n_parent src))) domain_error;
  _ ← require (negb (n_deleted src)) domain_error;
  _ ← require (bool_decide (n_type dst = "DIRECTORY")) domain_error;
  _ ← require (negb (n_deleted dst)) domain_error;
  _ ← require (negb (below (n_path src) dst)) cycle_error;
  _ ← require (bool_decide (map_Forall (fun k r => ~ nameTaken tenant node newParent (n_name src) k r) (nodes d)))
              domain_error;
  node_update (fun k r => bool_decide (n_tenant r = tenant) && (bool_decide (k = node) || below (n_path src) r))
    (fun k r => new ← remap node newParent (n_path src) (n_path dst) k r; lineage_update true k r new d) d.

Definition bumpEpoch (r : nodeRow) : nodeRow :=
  mkNode (n_tenant r) (n_parent r) (n_name r) (n_type r) (n_deleted r) (n_path r) (n_epoch r + 1).

Definition tombstoneName (k : uuid) (name : string) : string := name +:+ "~del:" +:+ str_take 8 (uuid_String k).

Definition entomb (k : uuid) (r : nodeRow) : nodeRow :=
  mkNode (n_tenant r) (n_parent r) (tombstoneName k (n_name r)) (n_type r) true (n_path r) (n_epoch r + 1).

(** The SET lists of [soft_delete_node] name neither trigger column. *)
Definition soft_delete_node (tenant node : uuid) (d : db) : result dberr db :=
  row ← of_option (tenantNode tenant node d) domain_error;
  d1 ← node_update (fun k r => bool_decide (n_tenant r = tenant) && bool_decide (k = node))
         (fun k r => Ok (entomb k r)) d;
  node_update (fun k r => bool_decide (n_tenant r = tenant) && below (n_path row) r && negb (bool_decide (k = node)))
    (fun k r => Ok (bumpEpoch r)) d1.

(** [UPDATE namespace_nodes SET parent_id = p WHERE node_id = k], outside any procedure. *)
Definition reparent (allow : bool) (node : uuid) (p : option uuid) (d : db) : result dberr db :=
  node_update (fun k r => bool_decide (k = node))
    (fun k r => lineage_update allow k r (mkNode (n_tenant r) p (n_name r) (n_type r) (n_deleted r) (n_path r) (n_epoch r)) d) d.

(** [UPDATE namespace_nodes SET lineage_path = p WHERE node_id = k]. *)
Definition tamper (allow : bool) (node : uuid) (p : list string) (d : db) : result dberr db :=
  node_update (fun k r => bool_decide (k = node)) (fun k r => lineage_update allow k r (setPath p r) d) d.

(** ** Access-control entries *)

Definition sameGrant (a b : aclRow) : Prop :=
  a_tenant a = a_tenant b /\ a_node a = a_node b /\ a_ptype a = a_ptype b /\ a_principal a = a_principal b /\
  a_role a = a_role b.
#[global] Instance sameGrant_dec a b : Decision (sameGrant a b).
Proof. unfold sameGrant. apply _. Defined.

(** [INSERT INTO acl_entries] of [GrantACLEntry]; [expires_at] is left NULL. *)
Definition acl_insert (now : Z) (aid tenant node : uuid) (ptype : string) (principal : uuid) (role : string)
    (by_ : uuid) (d : db) : result dberr db :=
  let row := mkAcl tenant node ptype principal role by_ None now in
  _ ← require ((slen ptype <=? 16) && (slen role <=? 32)) (pg "22001");
  _ ← require (bool_decide (ptype ∈ ["USER"; "GROUP"; "SERVICE"])) check_violation;
  _ ← require (bool_decide (role ∈ ["OWNER"; "EDITOR"; "VIEWER"])) check_violation;
  _ ← require (bool_decide (acls d !! aid = None)) unique_violation;
  _ ← require (bool_decide (map_Forall (fun _ a => ~ sameGrant a row) (acls d))) unique_violation;
  _ ← require (bool_decide (is_Some (tenantsT d !! tenant) /\ is_Some (nodes d !! node))) foreign_key_violation;
  Ok (setAcls (<[aid := row]> (acls d)) d).

(** ** The statements of the client, with text arguments *)

Definition uuid_arg (s : string) : result dberr uuid := of_option (uuid_Parse s) (pg "22P02").

Definition move_directory_status (tenant node newParent : string) (_ : Z) : db -> result dberr unit * db :=
  update (fun d =>
    t ← uuid_arg tenant; n ← uuid_arg node; p ← uuid_arg newParent;
    move_directory t n p d).

Definition grant_acl (aid : uuid) (tenant node ptype principal role by_ : string) (now : Z)
    : db -> result dberr unit * db :=
  update (fun d =>
    t ← uuid_arg tenant; n ← uuid_arg node; p ← uuid_arg principal; b ← uuid_arg by_;
    acl_insert now aid t n ptype p role b d).

Definition pgMoveDirectory (tenant node newParent : string) : world db -> result dberr unit * world db :=
  MoveDirectory (move_directory_status tenant node newParent) tenant.

Definition pgGrantACLEntry (aid : uuid) (tenant node ptype principal role by_ : string)
    : world db -> result dberr unit * world db :=
  GrantACLEntry (grant_acl aid tenant node ptype principal role by_) tenant.

(** The text form of an [ltree]: labels joined by dots. *)
Fixpoint ltree_text (p : list string) : string :=
  match p with
  | [] => ""
  | [l] => l
  | l :: p' => l +:+ "." +:+ ltree_text p'
  end.

(** The SELECT behind [GetNodeMetadataCached]. *)
Definition loadNodeMeta (d : db) (tenant node : string) : option NodeMeta :=
  t ← uuid_Parse tenant; n ← uuid_Parse node;
  r ← tenantNode t n d;
  Some (mkMeta (uuid_String n) (uuid_String (n_tenant r)) (uuid_String <$> n_parent r) (n_name r)
               (n_type r) (ltree_text (n_path r)) (n_epoch r)).

(** ** The invariant *)

Record row_ok (d : db) (k : uuid) (r : nodeRow) : Prop := {
  row_root : n_parent r = None -> n_type r = "DIRECTORY" /\ n_path r = [node_label k];
  row_child p : n_parent r = Some p -> exists pr, nodes d !! p = Some pr /\ n_tenant pr = n_tenant r /\
    n_type pr = "DIRECTORY" /\ n_path r = n_path pr ++ [node_label k];
  row_checks : slen (n_name r) <= 255 /\ blankName (n_name r) = false /\ 1 <= n_epoch r <= maxInt64;
  row_tenant : is_Some (tenantsT d !! n_tenant r)
}.

(** Every path spells the parent chain, parents are directories of the same tenant, and
    sibling names and tenant roots are unique. *)
Record ns_ok (d : db) : Prop := {
  ns_rows k r : nodes d !! k = Some r -> row_ok d k r;
  ns_unique k1 r1 k2 r2 : nodes d !! k1 = Some r1 -> nodes d !! k2 = Some r2 -> k1 <> k2 ->
    ~ sameSlot r1 r2 /\ ~ sameRoot r1 r2
}.

(** [a] is the parent of [k]. *)
Definition parentOf (d : db) (k a : uuid) : Prop := exists r, nodes d !! k = Some r /\ n_parent r = Some a.

(** The parent chain from the root down to [k], by following [parent_id]. *)
Fixpoint ancestry (fuel : nat) (d : db) (k : uuid) : option (list uuid) :=
  match fuel with
  | O => None
  | S fuel' =>
      r ← nodes d !! k;
      match n_parent r with
      | None => Some [k]
      | Some p => l ← ancestry fuel' d p; Some (l ++ [k])
      end
  end.

(** ** The tree behind the paths *)

(** [node] is [k] or one of its ancestors. *)
Definition inSubtree (d : db) (node k : uuid) : bool :=
  bool_decide (node ∈ default [] (ancestry (size (nodes d)) d k)).

Definition erase (r : nodeRow) : nodeRow := setPath [] r.
Definition tree_of (d : db) : db := setNodes (erase <$> nodes d) d.

Definition tree_insert (nid tenant : uuid) (parent : option uuid) (name type : string) (t : db) : result dberr db :=
  let row := mkNode tenant parent name type false [] 1 in
  _ ← require (slen name <=? 255) (pg "22001");
  _ ← match parent with
      | None => Ok tt
      | Some p =>
          pr ← of_option (nodes t !! p) foreign_key_violation;
          require (bool_decide (n_tenant pr = tenant) && bool_decide (n_type pr = "DIRECTORY") && negb (n_deleted pr))
                  domain_error
      end;
  _ ← require (bool_decide (type = "DIRECTORY" \/ is_Some parent) && negb (blankName name)) check_violation;
  _ ← require (bool_decide (nodes t !! nid = None) &&
               bool_decide (map_Forall (fun _ r => ~ sameSlot r row /\ ~ sameRoot r row) (nodes t))) unique_violation;
  _ ← require (bool_decide (is_Some (tenantsT t !! tenant))) foreign_key_violation;
  Ok (setNodes (<[nid := row]> (nodes t)) t).

(** Change the rows of a subtree: refused when an epoch would leave the range of a bigint. *)
Definition tree_update (sel : uuid -> bool) (f : uuid -> nodeRow -> nodeRow) (t : db) : result dberr db :=
  _ ← require (bool_decide (map_Forall (fun k r => sel k = true -> n_epoch r < maxInt64) (nodes t))) (pg "22003");
  Ok (setNodes (map_imap (fun k r => Some (if sel k then f k r else r)) (nodes t)) t).

Definition tree_move (tenant node newParent : uuid) (t : db) : result dberr db :=
  _ ← require (negb (bool_decide (node = newParent))) domain_error;
  src ← of_option (tenantNode tenant node t) domain_error;
  dst ← of_option (tenantNode tenant newParent t) domain_error;
  _ ← require (bool_decide (is_Some (n_parent src)) && negb (n_deleted src) &&
               bool_decide (n_type dst = "DIRECTORY") && negb (n_deleted dst)) domain_error;
  _ ← require (negb (inSubtree t node newParent)) cycle_error;
  _ ← require (bool_decide (map_Forall (fun k r => ~ nameTaken tenant node newParent (n_name src) k r) (nodes t)))
              domain_error;
  tree_update (inSubtree t node) (fun k r =>
    bumpEpoch (if bool_decide (k = node)
               then mkNode (n_tenant r) (Some newParent) (n_name r) (n_type r) (n_deleted r) (n_path r) (n_epoch r)
               else r)) t.

Definition tree_soft_delete (tenant node : uuid) (t : db) : result dberr db :=
  row ← of_option (tenantNode tenant node t) domain_error;
  _ ← require (slen (tombstoneName node (n_name row)) <=? 255) (pg "22001");
  t1 ← tree_update (fun k => bool_decide (k = node)) entomb t;
  _ ← require (bool_decide (map_Forall (fun k r => k = node \/ ~ sameSlot r (entomb node row)) (nodes t1)))
              unique_violation;
  tree_update (fun k => inSubtree t1 node k && negb (bool_decide (k = node))) (fun _ => bumpEpoch) t1.

(** ** Commands and transactions *)

Inductive cmd :=
| CInsert (nid tenant : uuid) (parent : option uuid) (name type : string)
| CMove (tenant node newParent : uuid)
| CSoftDelete (tenant node : uuid).

Definition exec (c : cmd) : db -> result dberr db :=
  match c with
  | CInsert nid t p name type => node_insert nid t p name type
  | CMove t n p => move_directory t n p
  | CSoftDelete t n => soft_delete_node t n
  end.

Definition tree_exec (c : cmd) : db -> result dberr db :=
  match c with
  | CInsert nid t p name type => tree_insert nid t p name type
  | CMove t n p => tree_move t n p
  | CSoftDelete t n => tree_soft_delete t n
  end.

(** Statements of one transaction: a procedure call, or a direct UPDATE of a trigger
    column.  [set_config(..., true)] lasts to the end of the transaction. *)
Inductive txCmd :=
| TProc (c : cmd)
| TReparent (node : uuid) (p : option uuid)
| TTamper (node : uuid) (path : list string).

Definition isMove (c : cmd) : bool := match c with CMove _ _ _ => true | _ => false end.

Definition txCmdRun (c : txCmd) (allow : bool) (d : db) : result dberr (bool * db) :=
  match c with
  | TProc c => d' ← exec c d; Ok (allow || isMove c, d')
  | TReparent n p => d' ← reparent allow n p d; Ok (allow, d')
  | TTamper n p => d' ← tamper allow n p d; Ok (allow, d')
  end.

Fixpoint txRun (cs : list txCmd) (allow : bool) (d : db) : result dberr db :=
  match cs with
  | [] => Ok d
  | c :: cs' => '(allow', d') ← txCmdRun c allow d; txRun cs' allow' d'
  end.

(** No direct UPDATE of a trigger column after a move of the same transaction. *)
Fixpoint disciplined (cs : list txCmd) (allow : bool) : bool :=
  match cs with
  | [] => true
  | TProc c :: cs' => disciplined cs' (allow || isMove c)
  | _ :: cs' => negb allow && disciplined cs' allow
  end.

(** Committed states: a transaction commits all its statements or leaves no trace. *)
Inductive nsHistory (d0 : db) : db -> Prop :=
| history_init : nsHistory d0 d0
| history_tx d cs d' : nsHistory d0 d -> disciplined cs false = true -> txRun cs false d = Ok d' -> nsHistory d0 d'.

(** An INSERT whose trigger read the parent in the snapshot [snap] and whose row lands in
    [d]: under READ COMMITTED nothing locks the parent's path in between. *)
Definition late_insert (snap : db) (nid tenant : uuid) (parent : option uuid) (name type : string) (d : db)
    : result dberr db :=
  _ ← require (slen name <=? 255) (pg "22001");
  path ← lineage_insert nid tenant parent snap;
  let row := mkNode tenant parent name type false path 1 in
  _ ← require (bool_decide (type = "DIRECTORY" \/ is_Some parent)) check_violation;
  _ ← require (negb (blankName name)) check_violation;
  _ ← require (bool_decide (nodes d !! nid = None)) unique_violation;
  _ ← require (bool_decide (map_Forall (fun _ r => ~ sameSlot r row /\ ~ sameRoot r row) (nodes d))) unique_violation;
  _ ← require (bool_decide (is_Some (tenantsT d !! tenant))) foreign_key_violation;
  Ok (setNodes (<[nid := row]> (nodes d)) d).

(** The rows a move locks first, and the rows its UPDATE locks. *)
Definition moveEndpoints (node newParent : uuid) : gset uuid := {[node; newParent]}.
Definition moveTouches (node : uuid) (d : db) : gset uuid :=
  match nodes d !! node with
  | Some src => dom (filter (fun kr => below (n_path src) kr.2 = true) (nodes d))
  | None => ∅
  end.

End namespace.

(** ** Lemmas: labels, paths and ancestors *)

Section lemmas.
Context `{U : UUID}.
Implicit Types (d : db) (k node : uuid) (r : nodeRow).

Lemma str_map_inj f (ok : ascii -> bool) s1 s2 :
  (forall c1 c2, ok c1 = true -> ok c2 = true -> f c1 = f c2 -> c1 = c2) ->
  str_forall ok s1 = true -> str_forall ok s2 = true -> str_map f s1 = str_map f s2 -> s1 = s2.
Proof.
  intros Hf. revert s2. induction s1 as [|c1 s1 IH]; intros [|c2 s2]; simpl; try done.
  rewrite !andb_true_iff. intros [? ?] [? ?] Heq. simplify_eq. f_equal; eauto.
Qed.

Lemma node_label_inj k1 k2 : node_label k1 = node_label k2 -> k1 = k2.
Proof.
  intros H. eapply str_map_inj in H; [|clear|apply uuid_String_chars..].
  - apply (f_equal uuid_Parse) in H. rewrite !uuid_Parse_String in H. congruence.
  - intros c1 c2 H1 H2. unfold underscore.
    do 2 case_bool_decide; subst; try done; intros; subst; vm_compute in H1, H2; congruence.
Qed.

Lemma path_last d k r : ns_ok d -> nodes d !! k = Some r -> exists p, n_path r = p ++ [node_label k].
Proof.
  intros Hok Hk. destruct (ns_rows d Hok k r Hk) as [Hr Hc _ _]. destruct (n_parent r) as [p|] eqn:E.
  - destruct (Hc p eq_refl) as (pr & _ & _ & _ & ->). eauto.
  - destruct (Hr eq_refl) as [_ ->]. by exists [].
Qed.

(** A path belongs to one node. *)
Lemma path_inj d k1 r1 k2 r2 : ns_ok d -> nodes d !! k1 = Some r1 -> nodes d !! k2 = Some r2 ->
  n_path r1 = n_path r2 -> k1 = k2.
Proof.
  intros Hok H1 H2 Heq. apply path_last in H1 as [p1 H1]; [|done]. apply path_last in H2 as [p2 H2]; [|done].
  rewrite H1, H2 in Heq. apply app_inj_tail in Heq as [_ Hl]. by apply node_label_inj.
Qed.

Lemma parent_path d k a r ra : ns_ok d -> parentOf d k a -> nodes d !! k = Some r -> nodes d !! a = Some ra ->
  n_path r = n_path ra ++ [node_label k] /\ n_tenant r = n_tenant ra.
Proof.
  intros Hok (r' & Hr' & Hp) Hr Ha. rewrite Hr in Hr'. injection Hr' as <-.
  destruct (row_child d k r (ns_rows d Hok k r Hr) a Hp) as (pr & Hpr & Ht & _ & Hpath). by simplify_eq.
Qed.

Lemma parent_exists d k a : ns_ok d -> parentOf d k a -> exists ra, nodes d !! a = Some ra /\ n_type ra = "DIRECTORY".
Proof.
  intros Hok (r & Hr & Hp).
  destruct (row_child d k r (ns_rows d Hok k r Hr) a Hp) as (pr & Hpr & _ & Ht & _). eauto.
Qed.

Lemma ancestor_prefix d k a r ra : ns_ok d -> rtc (parentOf d) k a -> nodes d !! k = Some r ->
  nodes d !! a = Some ra -> n_path ra `prefix_of` n_path r /\ n_tenant ra = n_tenant r.
Proof.
  intros Hok Hrtc. revert r. induction Hrtc as [k|k p a Hp _ IH]; intros r Hr Ha.
  { by simplify_eq. }
  destruct (parent_exists _ _ _ Hok Hp) as (rp & Hrp & _).
  destruct (parent_path _ _ _ _ _ Hok Hp Hr Hrp) as [Heq Ht]. destruct (IH rp Hrp Ha) as [Hpre Ht'].
  split; [|congruence]. rewrite Heq. by apply prefix_app_r.
Qed.

Lemma prefix_snoc {A} (p l : list A) x : p `prefix_of` l ++ [x] -> p = l ++ [x] \/ p `prefix_of` l.
Proof.
  intros [z Hz]. destruct z as [|y z _] using rev_ind.
  - left. by rewrite app_nil_r in Hz.
  - right. rewrite app_assoc in Hz. apply app_inj_tail in Hz as [-> _]. by exists z.
Qed.

Lemma prefix_ancestor d k a r ra : ns_ok d -> nodes d !! k = Some r -> nodes d !! a = Some ra ->
  n_path ra `prefix_of` n_path r -> rtc (parentOf d) k a.
Proof.
  intros Hok. remember (length (n_path r)) as n eqn:Hn. revert k r Hn.
  induction n as [n IH] using lt_wf_ind. intros k r -> Hk Ha Hpre.
  destruct (decide (k = a)) as [->|Hne]; [constructor|].
  destruct (n_parent r) as [p|] eqn:Hp.
  - assert (parentOf d k p) as Hpk by (exists r; done).
    destruct (parent_exists _ _ _ Hok Hpk) as (rp & Hrp & _).
    destruct (parent_path _ _ _ _ _ Hok Hpk Hk Hrp) as [Heq _].
    eapply rtc_l; [exact Hpk|]. rewrite Heq in Hpre. apply prefix_snoc in Hpre as [Hpre|Hpre].
    + exfalso. rewrite <- Heq in Hpre. by destruct (Hne (path_inj _ _ _ _ _ Hok Hk Ha (eq_sym Hpre))).
    + eapply (IH (length (n_path rp))); [|reflexivity|done..]. rewrite Heq, length_app. simpl. lia.
  - exfalso. destruct (row_root d k r (ns_rows d Hok k r Hk) Hp) as [_ Heq]. rewrite Heq in Hpre.
    apply (prefix_snoc _ []) in Hpre as [Hpre|Hpre%prefix_nil_inv].
    + simpl in Hpre. rewrite <- Heq in Hpre. by destruct (Hne (path_inj _ _ _ _ _ Hok Hk Ha (eq_sym Hpre))).
    + destruct (path_last _ _ _ Hok Ha) as [q Hq]. rewrite Hpre in Hq. by destruct q.
Qed.

(** The chain of parents: what [ancestry] returns spells the path, whatever the fuel. *)
Lemma ancestry_path d k r fuel l : ns_ok d -> nodes d !! k = Some r -> ancestry fuel d k = Some l ->
  n_path r = node_label <$> l.
Proof.
  intros Hok. revert k r l. induction fuel as [|fuel IH]; intros k r l Hk; [done|]. simpl. rewrite Hk. simpl.
  destruct (n_parent r) as [p|] eqn:Hp; intros H.
  - destruct (ancestry fuel d p) as [l'|] eqn:El; simplify_eq/=.
    assert (parentOf d k p) as Hpk by (exists r; done).
    destruct (parent_exists _ _ _ Hok Hpk) as (rp & Hrp & _).
    destruct (parent_path _ _ _ _ _ Hok Hpk Hk Hrp) as [-> _]. rewrite fmap_app. by rewrite (IH p rp l').
  - simplify_eq. by destruct (row_root d k r (ns_rows d Hok k r Hk) Hp) as [_ ->].
Qed.

Lemma ancestry_enough d k r fuel : ns_ok d -> nodes d !! k = Some r -> (length (n_path r) <= fuel)%nat ->
  is_Some (ancestry fuel d k).
Proof.
  intros Hok. revert k r. induction fuel as [|fuel IH]; intros k r Hk Hf.
  { destruct (path_last _ _ _ Hok Hk) as [q Hq]. rewrite Hq, length_app in Hf. simpl in Hf. lia. }
  simpl. rewrite Hk. simpl. destruct (n_parent r) as [p|] eqn:Hp; [|by eexists].
  assert (parentOf d k p) as Hpk by (exists r; done).
  destruct (parent_exists _ _ _ Hok Hpk) as (rp & Hrp & _).
  destruct (parent_path _ _ _ _ _ Hok Hpk Hk Hrp) as [Heq _]. rewrite Heq, length_app in Hf. simpl in Hf.
  destruct (IH p rp Hrp) as [l' ->]; [lia|]. by eexists.
Qed.

Lemma ancestry_members d k fuel l a : ancestry fuel d k = Some l -> a ∈ l ->
  is_Some (nodes d !! a) /\ rtc (parentOf d) k a.
Proof.
  revert k l. induction fuel as [|fuel IH]; intros k l; [done|]. simpl.
  destruct (nodes d !! k) as [r|] eqn:Hk; [|done]. simpl. destruct (n_parent r) as [p|] eqn:Hp.
  - destruct (ancestry fuel d p) as [l'|] eqn:El; [|done]. simpl. intros H. simplify_eq.
    rewrite elem_of_app, list_elem_of_singleton. intros [Ha| ->]; [|split; [by eexists|constructor]].
    destruct (IH p l' El Ha) as [Hs Hr]. split; [done|]. eapply rtc_l; [|exact Hr]. by exists r.
  - intros H. simplify_eq. rewrite list_elem_of_singleton. intros ->. split; [by eexists|constructor].
Qed.

Lemma ancestry_complete d k fuel l a : ancestry fuel d k = Some l -> rtc (parentOf d) k a -> a ∈ l.
Proof.
  intros Hl Hr. revert fuel l Hl. induction Hr as [k|k p a (r & Hk & Hp) _ IH]; intros fuel l;
    destruct fuel as [|fuel]; simpl; try done.
  - destruct (nodes d !! k) as [r|]; [|done]. simpl. destruct (n_parent r) as [p|].
    + destruct (ancestry fuel d p) as [l'|]; [|done]. simpl. intros; simplify_eq. set_solver.
    + intros; simplify_eq. set_solver.
  - rewrite Hk. simpl. rewrite Hp. destruct (ancestry fuel d p) as [l'|] eqn:El; [|done]. simpl.
    intros; simplify_eq. apply elem_of_app. left. by eapply IH.
Qed.

(** Ancestors along a parent chain have shorter and shorter paths. *)
Lemma ancestry_NoDup d k r fuel l : ns_ok d -> nodes d !! k = Some r -> ancestry fuel d k = Some l -> NoDup l.
Proof.
  intros Hok. revert k r l. induction fuel as [|fuel IH]; intros k r l Hk; [done|]. simpl. rewrite Hk. simpl.
  destruct (n_parent r) as [p|] eqn:Hp; intros H.
  - destruct (ancestry fuel d p) as [l'|] eqn:El; simplify_eq/=.
    assert (parentOf d k p) as Hpk by (exists r; done).
    destruct (parent_exists _ _ _ Hok Hpk) as (rp & Hrp & _).
    destruct (parent_path _ _ _ _ _ Hok Hpk Hk Hrp) as [Heq _].
    apply NoDup_app. split_and!; [by eapply IH| |apply NoDup_singleton].
    intros a Ha ->%list_elem_of_singleton. destruct (ancestry_members _ _ _ _ _ El Ha) as [_ Hr].
    destruct (ancestor_prefix _ _ _ _ _ Hok Hr Hrp Hk) as [Hpre%prefix_length _].
    rewrite Heq, length_app in Hpre. simpl in Hpre. lia.
  - simplify_eq. apply NoDup_singleton.
Qed.

(** As many rows as the path has labels: the table size is fuel enough. *)
Lemma path_length_size d k r : ns_ok d -> nodes d !! k = Some r -> (length (n_path r) <= size (nodes d))%nat.
Proof.
  intros Hok Hk. destruct (ancestry_enough d k r _ Hok Hk (le_n _)) as [l Hl].
  rewrite (ancestry_path _ _ _ _ _ Hok Hk Hl), length_fmap.
  pose proof (ancestry_NoDup _ _ _ _ _ Hok Hk Hl) as Hnd. rewrite <- size_dom, <- (size_list_to_set (C := gset uuid)) by done.
  apply subseteq_size. intros a. rewrite elem_of_list_to_set, elem_of_dom. intros Ha.
  by eapply ancestry_members in Ha as [? _].
Qed.

Lemma inSubtree_rtc d node k r : ns_ok d -> nodes d !! k = Some r ->
  inSubtree d node k = true <-> rtc (parentOf d) k node.
Proof.
  intros Hok Hk. unfold inSubtree. rewrite bool_decide_eq_true.
  destruct (ancestry_enough d k r (size (nodes d)) Hok Hk) as [l Hl]; [by eapply path_length_size|].
  rewrite Hl. simpl. split; [|by eapply ancestry_complete]. intros Ha. by eapply ancestry_members in Ha as [_ ?].
Qed.

Lemma inSubtree_below d node k r rn : ns_ok d -> nodes d !! k = Some r -> nodes d !! node = Some rn ->
  inSubtree d node k = below (n_path rn) r.
Proof.
  intros Hok Hk Hn. apply eq_true_iff_eq. rewrite (inSubtree_rtc _ _ _ _ Hok Hk). unfold below.
  rewrite bool_decide_eq_true. split.
  - intros Hr. by eapply ancestor_prefix.
  - by eapply prefix_ancestor.
Qed.

End lemmas.

(** ** Lemmas: UPDATE statements *)

Section updates.
Context `{U : UUID}.
Implicit Types (d : db) (k node : uuid) (r : nodeRow) (m : gmap uuid nodeRow).

(** The new table when every selected row may change. *)
Definition mapNodes (sel : uuid -> nodeRow -> bool) (g : uuid -> nodeRow -> nodeRow) d : gmap uuid nodeRow :=
  map_imap (fun k r => Some (if sel k r then g k r else r)) (nodes d).

Lemma mapNodes_lookup sel g d k :
  mapNodes sel g d !! k = (fun r => if sel k r then g k r else r) <$> nodes d !! k.
Proof. unfold mapNodes. rewrite map_lookup_imap. by destruct (nodes d !! k). Qed.

Lemma mapNodes_Some sel g d k r : mapNodes sel g d !! k = Some r <->
  exists r0, nodes d !! k = Some r0 /\ r = if sel k r0 then g k r0 else r0.
Proof. rewrite mapNodes_lookup, fmap_Some. done. Qed.

Lemma sameSlot_sym a b : sameSlot a b -> sameSlot b a.
Proof. intros (Ht & Hp & Hs & Hn & Hd). rewrite Hp in Hs. done. Qed.

Lemma sameRoot_sym a b : sameRoot a b -> sameRoot b a.
Proof. by intros (? & ? & ?). Qed.

Definition uniqueRows m : Prop := map_Forall (fun k1 r1 => map_Forall (fun k2 r2 =>
  k1 = k2 \/ (~ sameSlot r1 r2 /\ ~ sameRoot r1 r2)) m) m.
#[global] Instance uniqueRows_dec m : Decision (uniqueRows m).
Proof. unfold uniqueRows. apply _. Defined.

Lemma ns_uniqueRows d : ns_ok d -> uniqueRows (nodes d).
Proof.
  intros Hok k1 r1 H1 k2 r2 H2. destruct (decide (k1 = k2)); [by left|right]. by eapply ns_unique.
Qed.

Lemma update_rows_char f (P : uuid -> nodeRow -> bool) g e (rows : list (uuid * nodeRow)) :
  (forall k r, (k, r) ∈ rows -> f k r = if P k r then Ok (g k r) else Err e) ->
  update_rows f rows = if forallb (fun kr => P kr.1 kr.2) rows then Ok ((fun kr => (kr.1, g kr.1 kr.2)) <$> rows)
                       else Err e.
Proof.
  induction rows as [|[k r] rows IH]; intros H; [done|]. simpl. rewrite (H k r) by set_solver.
  destruct (P k r); simpl; [|done]. rewrite IH by set_solver. by destruct (forallb _ rows).
Qed.

Lemma list_to_map_imap (g : uuid -> nodeRow -> nodeRow) m :
  list_to_map ((fun kr => (kr.1, g kr.1 kr.2)) <$> map_to_list m) = map_imap (fun k r => Some (g k r)) m.
Proof.
  apply map_eq. intros k. apply option_eq. intros x. rewrite map_lookup_imap.
  rewrite <- elem_of_list_to_map.
  - rewrite list_elem_of_fmap. split.
    + intros ([k' r'] & Heq & Hin%elem_of_map_to_list). simplify_eq/=. by rewrite Hin.
    + destruct (m !! k) as [r|] eqn:E; simpl; [|done]. intros; simplify_eq.
      exists (k, r). split; [done|]. by apply elem_of_map_to_list.
  - rewrite <- list_fmap_compose. apply NoDup_fst_map_to_list.
Qed.

(** An UPDATE whose selected rows either get the version [g] or all fail alike. *)
Lemma node_update_char sel f (P : uuid -> nodeRow -> bool) (g : uuid -> nodeRow -> nodeRow) e d :
  (forall k r, nodes d !! k = Some r -> sel k r = true ->
     (r' ← f k r; node_checks r') = if P k r then Ok (g k r) else Err e) ->
  node_update sel f d =
    (_ ← require (bool_decide (map_Forall (fun k r => sel k r = true -> P k r = true) (nodes d))) e;
     _ ← require (bool_decide (uniqueRows (mapNodes sel g d))) unique_violation;
     Ok (setNodes (mapNodes sel g d) d)).
Proof.
  intros H. unfold node_update.
  rewrite (update_rows_char _ (fun k r => implb (sel k r) (P k r)) (fun k r => if sel k r then g k r else r) e).
  2:{ intros k r Hin%elem_of_map_to_list. destruct (sel k r) eqn:Es; simpl; [by apply H | done]. }
  assert (forallb (fun kr => implb (sel kr.1 kr.2) (P kr.1 kr.2)) (map_to_list (nodes d))
    = bool_decide (map_Forall (fun k r => sel k r = true -> P k r = true) (nodes d))) as ->.
  { apply eq_true_iff_eq. rewrite bool_decide_eq_true, forallb_forall. split.
    - intros Hall k r Hk Hs. specialize (Hall (k, r)). simpl in Hall. rewrite Hs in Hall. apply Hall.
      apply list_elem_of_In, elem_of_map_to_list. done.
    - intros Hall [k r] Hin%list_elem_of_In%elem_of_map_to_list. simpl.
      destruct (sel k r) eqn:Es; simpl; [by apply Hall | done]. }
  destruct (bool_decide (map_Forall _ _)); simpl; [|done].
  rewrite (list_to_map_imap (fun (k : uuid) r => if sel k r then g k r else r)). done.
Qed.

(** The invariant of an updated table. *)
Lemma ns_ok_mapNodes d sel g :
  (forall k r, nodes d !! k = Some r -> row_ok (setNodes (mapNodes sel g d) d) k (if sel k r then g k r else r)) ->
  uniqueRows (mapNodes sel g d) -> ns_ok (setNodes (mapNodes sel g d) d).
Proof.
  intros Hrow Hu. constructor; simpl.
  - intros k r (r0 & Hk & ->)%mapNodes_Some. by apply Hrow.
  - intros k1 r1 k2 r2 H1 H2 Hne. by destruct (Hu k1 r1 H1 k2 r2 H2).
Qed.

Lemma tree_lookup d k : nodes (tree_of d) !! k = erase <$> nodes d !! k.
Proof. simpl. apply lookup_fmap. Qed.

Lemma tenantNode_tree tenant k d : tenantNode tenant k (tree_of d) = erase <$> tenantNode tenant k d.
Proof. unfold tenantNode. rewrite tree_lookup. destruct (nodes d !! k); simpl; [by case_bool_decide | done]. Qed.

Lemma tenantNode_Some tenant k d r : tenantNode tenant k d = Some r <-> nodes d !! k = Some r /\ n_tenant r = tenant.
Proof.
  unfold tenantNode. destruct (nodes d !! k) as [r'|]; simpl; [case_bool_decide|]; naive_solver.
Qed.

Lemma ancestry_tree fuel d k : ancestry fuel (tree_of d) k = ancestry fuel d k.
Proof.
  revert k. induction fuel as [|fuel IH]; intros k; [done|]. simpl. rewrite lookup_fmap.
  destruct (nodes d !! k) as [r|]; simpl; [|done]. destruct (n_parent r); [|done]. by rewrite IH.
Qed.

Lemma inSubtree_tree d node k : inSubtree (tree_of d) node k = inSubtree d node k.
Proof. unfold inSubtree. rewrite ancestry_tree. simpl. by rewrite map_size_fmap. Qed.

Lemma map_Forall_tree (Q : uuid -> nodeRow -> Prop) d : (forall k r, Q k (erase r) <-> Q k r) ->
  map_Forall Q (nodes (tree_of d)) <-> map_Forall Q (nodes d).
Proof.
  intros H. simpl. rewrite map_Forall_fmap. split; intros Hall k r Hk; specialize (Hall k r Hk); by apply H.
Qed.

(** Dropping the paths of an updated table. *)
Lemma tree_mapNodes d (sel : uuid -> nodeRow -> bool) (g : uuid -> nodeRow -> nodeRow) (sel' : uuid -> bool) (g' : uuid -> nodeRow -> nodeRow) :
  (forall k r, nodes d !! k = Some r -> erase (if sel k r then g k r else r) = if sel' k then g' k (erase r) else erase r) ->
  tree_of (setNodes (mapNodes sel g d) d)
  = setNodes (map_imap (fun k r => Some (if sel' k then g' k r else r)) (nodes (tree_of d))) (tree_of d).
Proof.
  intros H. unfold tree_of, setNodes. simpl. f_equal. apply map_eq. intros k.
  rewrite lookup_fmap, mapNodes_lookup, map_lookup_imap, lookup_fmap.
  destruct (nodes d !! k) as [r|] eqn:E; simpl; [|done]. by rewrite (H k r E).
Qed.

(** The table without paths after an UPDATE of the rows [sel']. *)
Lemma tree_update_refines d sel g (sel' : uuid -> bool) g' :
  (forall k r, nodes d !! k = Some r -> sel k r = sel' k) -> (forall k r, erase (g k r) = g' k (erase r)) ->
  tree_of <$> (_ ← require (bool_decide (map_Forall (fun k r => sel k r = true -> (n_epoch r <? maxInt64) = true)
                  (nodes d))) (pg "22003"); Ok (setNodes (mapNodes sel g d) d))
  = tree_update sel' g' (tree_of d).
Proof.
  intros Hsel Hg. unfold tree_update.
  rewrite (bool_decide_ext (map_Forall _ (nodes (tree_of d)))
    (map_Forall (fun k r => sel k r = true -> (n_epoch r <? maxInt64) = true) (nodes d))).
  2:{ rewrite (map_Forall_tree (fun k r => sel' k = true -> n_epoch r < maxInt64)) by done.
      split; intros Hall k r Hk Hsk; specialize (Hall k r Hk); apply Z.ltb_lt, Hall;
        rewrite <- Hsk; [symmetry|]; by apply Hsel. }
  destruct (bool_decide (map_Forall _ (nodes d))); [|done]. cbn [require mbind result_bind fmap result_fmap]. f_equal.
  apply tree_mapNodes. intros k r Hk. rewrite (Hsel k r Hk). by destruct (sel' k).
Qed.

End updates.

(** ** Lemmas: a move *)

Section move.
Context `{U : UUID}.
Implicit Types (d : db) (k : uuid) (r : nodeRow).

(** The version of a row of the subtree after the move. *)
Definition movedRow (node newParent : uuid) (srcPath dstPath : list string) k r : nodeRow :=
  mkNode (n_tenant r) (if bool_decide (k = node) then Some newParent else n_parent r) (n_name r) (n_type r)
         (n_deleted r) (dstPath ++ [node_label node] ++ drop (length srcPath) (n_path r)) (n_epoch r + 1).

Context (d : db) (tenant node newParent : uuid) (src dst : nodeRow).
Context (Hok : ns_ok d) (Hsrc : nodes d !! node = Some src) (Hdst : nodes d !! newParent = Some dst).
Context (Hts : n_tenant src = tenant) (Htd : n_tenant dst = tenant).
Context (Hdir : n_type dst = "DIRECTORY") (Hlive : n_deleted dst = false) (Hsl : n_deleted src = false).
Context (Hcyc : below (n_path src) dst = false).
Context (Hname : map_Forall (fun k r => ~ nameTaken tenant node newParent (n_name src) k r) (nodes d)).

Let sel k r : bool := bool_decide (n_tenant r = tenant) && (bool_decide (k = node) || below (n_path src) r).
Let moved := movedRow node newParent (n_path src) (n_path dst).

Lemma move_sel k r : nodes d !! k = Some r -> sel k r = below (n_path src) r.
Proof.
  intros Hk. unfold sel. apply eq_true_iff_eq. rewrite andb_true_iff, orb_true_iff, !bool_decide_eq_true. split.
  - intros [_ [Hkn|?]]; [|done]. rewrite Hkn, Hsrc in Hk. injection Hk as <-. unfold below.
    by apply bool_decide_eq_true.
  - intros Hb. split; [|by right]. unfold below in Hb. apply bool_decide_eq_true in Hb.
    pose proof (prefix_ancestor _ _ _ _ _ Hok Hk Hsrc Hb) as Ha.
    destruct (ancestor_prefix _ _ _ _ _ Hok Ha Hk Hsrc) as [_ ?]. congruence.
Qed.

Lemma move_row k r : nodes d !! k = Some r -> below (n_path src) r = true ->
  (r' ← (new ← remap node newParent (n_path src) (n_path dst) k r; lineage_update true k r new d); node_checks r')
  = if n_epoch r <? maxInt64 then Ok (moved k r) else Err (pg "22003").
Proof.
  intros Hk Hb. destruct (row_checks _ _ _ (ns_rows _ Hok k r Hk)) as (Hn & Hbl & He).
  assert (forall r', n_name r' = n_name r -> n_epoch r' = n_epoch r + 1 -> n_type r' = n_type r ->
    (n_type r = "DIRECTORY" \/ is_Some (n_parent r')) ->
    node_checks r' = if n_epoch r <? maxInt64 then Ok r' else Err (pg "22003")) as Hc.
  { intros r' E1 E2 E3 E4. unfold node_checks. rewrite E1, E2, E3, Hbl.
    rewrite (proj2 (Z.leb_le _ _) Hn), (bool_decide_true _ E4). simpl.
    destruct (Z.ltb_spec (n_epoch r) maxInt64); destruct (Z.leb_spec (n_epoch r + 1) maxInt64); try lia; simpl; [|done].
    destruct (Z.leb_spec 1 (n_epoch r + 1)); [done|lia]. }
  unfold remap, moved, movedRow. case_bool_decide as Hkn.
  - subst k. simplify_eq. rewrite drop_all, app_nil_r. simpl. unfold lineage_update. simpl.
    assert (forall x, node_checks (mkNode (n_tenant src) (Some newParent) (n_name src) (n_type src) (n_deleted src)
      x (n_epoch src + 1)) = if n_epoch src <? maxInt64 then Ok (mkNode (n_tenant src) (Some newParent) (n_name src)
        (n_type src) (n_deleted src) x (n_epoch src + 1)) else Err (pg "22003")) as Hx by (intros x; apply Hc; eauto).
    case_bool_decide; simpl.
    + rewrite orb_true_r. simpl. apply Hx.
    + rewrite Hdst. simpl. rewrite Htd, Hdir, Hlive, !bool_decide_true by done. simpl. apply Hx.
  - unfold below in Hb. apply bool_decide_eq_true in Hb.
    assert (length (n_path src) < length (n_path r))%nat as Hl.
    { destruct Hb as [[|x z] Hz].
      - destruct Hkn. eapply path_inj; [exact Hok|exact Hk|exact Hsrc|]. by rewrite Hz, app_nil_r.
      - rewrite Hz, length_app. simpl. lia. }
    rewrite (proj2 (Nat.ltb_lt _ _) Hl). simpl. unfold lineage_update. simpl. rewrite bool_decide_true by done.
    rewrite orb_true_r. simpl. apply Hc; try done. simpl.
    destruct (ns_rows _ Hok k r Hk) as [Hr _ _ _]. destruct (n_parent r); [by right; eexists | left; by apply Hr].
Qed.

Lemma move_unique : uniqueRows (mapNodes sel moved d).
Proof.
  assert (forall k1 r1 k2 r2, nodes d !! k1 = Some r1 -> nodes d !! k2 = Some r2 -> k1 <> k2 ->
    let m1 := if sel k1 r1 then moved k1 r1 else r1 in let m2 := if sel k2 r2 then moved k2 r2 else r2 in
    k2 <> node -> ~ sameSlot m1 m2 /\ ~ sameRoot m1 m2) as Hgen.
  { intros k1 r1 k2 r2 H1 H2 Hne m1 m2 Hn2.
    assert (n_tenant m2 = n_tenant r2 /\ n_parent m2 = n_parent r2 /\ n_name m2 = n_name r2 /\ n_deleted m2 = n_deleted r2)
      as (E1 & E2 & E3 & E4).
    { unfold m2. destruct (sel k2 r2); simpl; [|done]. by rewrite bool_decide_false. }
    unfold sameSlot, sameRoot. rewrite E1, E2, E3, E4.
    destruct (decide (k1 = node)) as [->|Hn1].
    - rewrite Hsrc in H1. injection H1 as <-. unfold m1. rewrite (move_sel _ _ Hsrc). unfold below.
      rewrite (bool_decide_true (n_path src `prefix_of` n_path src)) by done. simpl. rewrite bool_decide_true by done. split; [|naive_solver].
      intros (Ht & Hp & _ & Hnm & Hdl). apply (Hname k2 r2 H2). unfold nameTaken. split_and!; congruence.
    - assert (n_tenant m1 = n_tenant r1 /\ n_parent m1 = n_parent r1 /\ n_name m1 = n_name r1 /\ n_deleted m1 = n_deleted r1)
        as (F1 & F2 & F3 & F4).
      { unfold m1. destruct (sel k1 r1); simpl; [|done]. by rewrite bool_decide_false. }
      rewrite F1, F2, F3, F4. by apply (ns_unique _ Hok k1 r1 k2 r2). }
  intros k1 x1 (r1 & H1 & ->)%mapNodes_Some k2 x2 (r2 & H2 & ->)%mapNodes_Some.
  destruct (decide (k1 = k2)) as [|Hne]; [by left|right].
  destruct (decide (k2 = node)) as [->|Hn2]; [|by apply Hgen].
  destruct (Hgen node r2 k1 r1 H2 H1) as [Hs Hr]; [done..|].
  split; [by intros ?%sameSlot_sym | by intros ?%sameRoot_sym].
Qed.

Lemma move_update :
  node_update sel (fun k r => new ← remap node newParent (n_path src) (n_path dst) k r; lineage_update true k r new d) d
  = (_ ← require (bool_decide (map_Forall (fun k r => sel k r = true -> (n_epoch r <? maxInt64) = true) (nodes d)))
                 (pg "22003");
     Ok (setNodes (mapNodes sel moved d) d)).
Proof.
  rewrite (node_update_char _ _ (fun _ r => n_epoch r <? maxInt64) moved (pg "22003")).
  2:{ intros k r Hk Hs. rewrite (move_sel _ _ Hk) in Hs. by apply move_row. }
  by rewrite (bool_decide_true _ move_unique).
Qed.

(** The rows of the subtree keep naming their parents; the others are not touched. *)
Lemma move_keeps : map_Forall (fun k r => sel k r = true -> (n_epoch r <? maxInt64) = true) (nodes d) ->
  ns_ok (setNodes (mapNodes sel moved d) d).
Proof.
  intros He. apply ns_ok_mapNodes; [|exact move_unique]. intros k r Hk.
  pose proof (ns_rows _ Hok k r Hk) as [Hr Hc (Hn & Hbl & Hep) Ht].
  destruct (sel k r) eqn:Es.
  - pose proof (He k r Hk Es) as Hep'. apply Z.ltb_lt in Hep'. rewrite (move_sel _ _ Hk) in Es.
    unfold below in Es. apply bool_decide_eq_true in Es as [z Hz].
    constructor; unfold moved, movedRow; simpl; [| |split_and!; [done..|lia|lia]|done].
    + case_bool_decide as Hkn; [done|]. intros Hp. destruct (Hr Hp) as [_ Hpath]. exfalso.
      rewrite Hpath in Hz. destruct (path_last _ _ _ Hok Hsrc) as [q Hq].
      assert (z = []) as ->.
      { apply (f_equal length) in Hz. rewrite Hq, !length_app in Hz. simpl in Hz. apply nil_length_inv. lia. }
      destruct Hkn. eapply path_inj; [exact Hok|exact Hk|exact Hsrc|]. by rewrite Hpath, Hz, app_nil_r.
    + intros p. case_bool_decide as Hkn; intros Hp.
      * subst k. rewrite Hsrc in Hk. injection Hk as <-. injection Hp as <-. exists dst. rewrite mapNodes_lookup, Hdst. simpl. rewrite (move_sel _ _ Hdst), Hcyc.
        split_and!; [done|congruence|done|]. by rewrite drop_all.
      * destruct (Hc p Hp) as (pr & Hpr & Htp & Hty & Hpath).
        assert (below (n_path src) pr = true) as Hbp.
        { unfold below. apply bool_decide_eq_true. assert (n_path src `prefix_of` n_path r) as Hpre by by exists z.
          rewrite Hpath in Hpre. apply prefix_snoc in Hpre as [Hpre|?]; [|done]. destruct Hkn.
          eapply path_inj; [exact Hok|exact Hk|exact Hsrc|]. by rewrite Hpre. }
        exists (moved p pr). rewrite mapNodes_lookup, Hpr. simpl. rewrite (move_sel _ _ Hpr), Hbp.
        split_and!; [done..|]. simpl. rewrite Hpath. unfold below in Hbp. apply bool_decide_eq_true in Hbp as [z' Hz'].
        rewrite drop_app_le by (rewrite Hz', length_app; lia). by rewrite <- !app_assoc.
  - constructor; [exact Hr| |done|done]. intros p Hp. destruct (Hc p Hp) as (pr & Hpr & Htp & Hty & Hpath).
    exists pr. simpl. rewrite mapNodes_lookup, Hpr. simpl.
    assert (sel p pr = false) as ->; [|done].
    rewrite (move_sel _ _ Hk) in Es. rewrite (move_sel _ _ Hpr). unfold below in *.
    apply bool_decide_eq_false in Es. apply bool_decide_eq_false. intros Hpre. destruct Es. rewrite Hpath.
    by apply prefix_app_r.
Qed.

End move.

(** ** Lemmas: insertion, soft deletion, and every command *)

Section commands.
Context `{U : UUID}.
Implicit Types (d : db) (k : uuid) (r : nodeRow).

Lemma node_insert_keeps nid tenant parent name type d d' : ns_ok d ->
  node_insert nid tenant parent name type d = Ok d' -> ns_ok d'.
Proof.
  intros Hok H. unfold node_insert in H. inv_result. bool_hyps.
  match goal with H : lineage_insert _ _ _ _ = Ok ?p |- _ => rename H into Hl; rename p into path end.
  match goal with H : map_Forall _ _ |- _ => rename H into Hu end.
  match goal with H : nodes d !! nid = None |- _ => rename H into Hnew end.
  assert (forall k r, nodes d !! k = Some r -> <[nid := mkNode tenant parent name type false path 1]> (nodes d) !! k = Some r)
    as Hext by (intros k r Hk; rewrite lookup_insert_ne; [done|congruence]).
  constructor; simpl.
  - intros k r [[<- <-]|[Hne Hk]]%lookup_insert_Some.
    + constructor; simpl; [| |unfold maxInt64; split_and!; try done; lia|done].
      * intros ->. simpl in Hl. simplify_eq. split; [|done]. naive_solver.
      * intros p ->. simpl in Hl. inv_result. bool_hyps. eexists. split_and!; eauto.
    + destruct (ns_rows _ Hok k r Hk) as [Hr Hc Hch Ht]. constructor; [done| |done|done].
      intros p Hp. destruct (Hc p Hp) as (pr & Hpr & ?). exists pr. split; [by apply Hext|done].
  - intros k1 r1 k2 r2 [[<- <-]|[Hne1 L1]]%lookup_insert_Some [[<- <-]|[Hne2 L2]]%lookup_insert_Some Hne; [done| | |].
    + destruct (Hu k2 r2 L2). split; [by intros ?%sameSlot_sym | by intros ?%sameRoot_sym].
    + by apply (Hu k1 r1).
    + by apply (ns_unique _ Hok k1 r1 k2 r2).
Qed.

Lemma node_insert_refines nid tenant parent name type d :
  tree_of <$> node_insert nid tenant parent name type d = tree_insert nid tenant parent name type (tree_of d).
Proof.
  unfold node_insert, tree_insert. destruct (slen name <=? 255); [|done]. cbn [require mbind result_bind].
  assert (forall path, tree_of <$>
    (_ ← require (bool_decide (type = "DIRECTORY" \/ is_Some parent)) check_violation;
     _ ← require (negb (blankName name)) check_violation;
     _ ← require (bool_decide (nodes d !! nid = None)) unique_violation;
     _ ← require (bool_decide (map_Forall (fun _ r => ~ sameSlot r (mkNode tenant parent name type false path 1) /\
          ~ sameRoot r (mkNode tenant parent name type false path 1)) (nodes d))) unique_violation;
     _ ← require (bool_decide (is_Some (tenantsT d !! tenant))) foreign_key_violation;
     Ok (setNodes (<[nid := mkNode tenant parent name type false path 1]> (nodes d)) d)) =
    (_ ← require (bool_decide (type = "DIRECTORY" \/ is_Some parent) && negb (blankName name)) check_violation;
     _ ← require (bool_decide (nodes (tree_of d) !! nid = None) &&
           bool_decide (map_Forall (fun _ r => ~ sameSlot r (mkNode tenant parent name type false [] 1) /\
             ~ sameRoot r (mkNode tenant parent name type false [] 1)) (nodes (tree_of d)))) unique_violation;
     _ ← require (bool_decide (is_Some (tenantsT (tree_of d) !! tenant))) foreign_key_violation;
     Ok (setNodes (<[nid := mkNode tenant parent name type false [] 1]> (nodes (tree_of d))) (tree_of d)))) as Htail.
  { intros path. rewrite tree_lookup.
    rewrite (bool_decide_ext (erase <$> nodes d !! nid = None) (nodes d !! nid = None)) by apply fmap_None.
    rewrite (bool_decide_ext (map_Forall _ (nodes (tree_of d)))
      (map_Forall (fun _ r => ~ sameSlot r (mkNode tenant parent name type false path 1) /\
          ~ sameRoot r (mkNode tenant parent name type false path 1)) (nodes d)))
      by (apply map_Forall_tree; done).
    change (tenantsT (tree_of d)) with (tenantsT d).
    assert (tree_of (setNodes (<[nid := mkNode tenant parent name type false path 1]> (nodes d)) d)
      = setNodes (<[nid := mkNode tenant parent name type false [] 1]> (nodes (tree_of d))) (tree_of d)) as <-.
    { unfold tree_of, setNodes. simpl. f_equal. by rewrite fmap_insert. }
    by repeat case_bool_decide; destruct (blankName name). }
  destruct parent as [p|]; [|apply Htail]. unfold lineage_insert. rewrite (tree_lookup d p).
  destruct (nodes d !! p) as [pr|]; [|done]. cbn [fmap option_fmap option_map of_option mbind result_bind erase setPath n_tenant n_type n_deleted].
  destruct (bool_decide (n_tenant pr = tenant)), (bool_decide (n_type pr = "DIRECTORY")), (n_deleted pr); try done.
  apply Htail.
Qed.

(** The guards of a move, as the sections above assume them. *)
Lemma move_inv tenant node newParent d d' : ns_ok d -> move_directory tenant node newParent d = Ok d' ->
  exists src dst, nodes d !! node = Some src /\ nodes d !! newParent = Some dst /\ n_tenant src = tenant /\
    n_tenant dst = tenant /\ is_Some (n_parent src) /\ below (n_path src) dst = false /\
    (n_deleted src = false /\ n_type dst = "DIRECTORY" /\ n_deleted dst = false /\
     map_Forall (fun k r => ~ nameTaken tenant node newParent (n_name src) k r) (nodes d)) /\
    let sel k r := bool_decide (n_tenant r = tenant) && (bool_decide (k = node) || below (n_path src) r) in
    (forall k r, nodes d !! k = Some r -> sel k r = below (n_path src) r) /\
    map_Forall (fun k r => sel k r = true -> (n_epoch r <? maxInt64) = true) (nodes d) /\
    d' = setNodes (mapNodes sel (movedRow node newParent (n_path src) (n_path dst)) d) d /\ ns_ok d'.
Proof.
  intros Hok H. unfold move_directory in H. inv_result. bool_hyps.
  repeat match goal with H : tenantNode _ _ _ = Some _ |- _ => apply tenantNode_Some in H as [? ?] end.
  rewrite move_update in H by done. inv_result. bool_hyps.
  eexists _, _. cbv zeta. split_and!; try done; try eassumption.
  - intros k r Hk. by eapply move_sel.
  - by apply move_keeps.
Qed.

Lemma move_refines tenant node newParent d : ns_ok d ->
  tree_of <$> move_directory tenant node newParent d = tree_move tenant node newParent (tree_of d).
Proof.
  intros Hok. unfold move_directory, tree_move. rewrite !tenantNode_tree, inSubtree_tree.
  case_bool_decide as Hne; [done|]. cbn [require negb mbind result_bind].
  destruct (tenantNode tenant node d) as [src|] eqn:Hs; [|done].
  destruct (tenantNode tenant newParent d) as [dst|] eqn:Hd; [|done].
  apply tenantNode_Some in Hs as [Hs Hts]. apply tenantNode_Some in Hd as [Hd Htd].
  cbn [fmap option_fmap option_map of_option mbind result_bind].
  change (n_parent (erase src)) with (n_parent src). change (n_name (erase src)) with (n_name src).
  change (n_deleted (erase src)) with (n_deleted src). change (n_deleted (erase dst)) with (n_deleted dst).
  change (n_type (erase dst)) with (n_type dst).
  destruct (bool_decide (is_Some (n_parent src))); [|done]. destruct (n_deleted src) eqn:Hsl; [done|].
  destruct (bool_decide (n_type dst = "DIRECTORY")) eqn:Hty; [|done]. destruct (n_deleted dst) eqn:Hdl; [done|].
  apply bool_decide_eq_true in Hty. cbn [require negb andb mbind result_bind].
  rewrite (inSubtree_below _ _ _ _ _ Hok Hd Hs). destruct (below (n_path src) dst) eqn:Hcyc; [done|].
  cbn [require negb andb mbind result_bind].
  rewrite (bool_decide_ext (map_Forall _ (nodes (tree_of d))) 
    (map_Forall (fun k r => ~ nameTaken tenant node newParent (n_name src) k r) (nodes d)))
    by (by apply map_Forall_tree).
  case_bool_decide as Hname; [|done]. cbn [require negb andb mbind result_bind].
  rewrite move_update by done. apply tree_update_refines.
  - intros k r Hk. rewrite inSubtree_tree, (inSubtree_below _ _ _ _ _ Hok Hk Hs). by eapply move_sel.
  - intros k r. unfold movedRow, bumpEpoch. by case_bool_decide.
Qed.

(** Updates that leave the tree and the paths alone. *)
Definition sameShape (a b : nodeRow) : Prop :=
  n_tenant a = n_tenant b /\ n_parent a = n_parent b /\ n_type a = n_type b /\ n_path a = n_path b.

Lemma ns_ok_attr d sel g : ns_ok d ->
  (forall k r, nodes d !! k = Some r -> sel k r = true -> sameShape (g k r) r /\ slen (n_name (g k r)) <= 255 /\
     blankName (n_name (g k r)) = false /\ 1 <= n_epoch (g k r) <= maxInt64) ->
  uniqueRows (mapNodes sel g d) -> ns_ok (setNodes (mapNodes sel g d) d).
Proof.
  intros Hok Hg. apply ns_ok_mapNodes.
  assert (forall k r, nodes d !! k = Some r -> sameShape (if sel k r then g k r else r) r) as Hsh.
  { intros k r Hk. destruct (sel k r) eqn:Es; [by apply Hg | done]. }
  intros k r Hk. destruct (ns_rows _ Hok k r Hk) as [Hr Hc Hch Ht]. destruct (Hsh k r Hk) as (E1 & E2 & E3 & E4).
  constructor.
  - by rewrite E2, E3, E4.
  - intros p. rewrite E2, E4, E1. intros Hp. destruct (Hc p Hp) as (pr & Hpr & ? & ? & Hpath).
    destruct (Hsh p pr Hpr) as (F1 & F2 & F3 & F4). eexists. simpl. rewrite mapNodes_lookup, Hpr.
    split; [reflexivity|]. simpl in *. by rewrite F1, F3, F4.
  - destruct (sel k r) eqn:Es; [by apply Hg | done].
  - simpl. by rewrite E1.
Qed.

Lemma tombstone_not_blank k name : blankName name = false -> blankName (tombstoneName k name) = false.
Proof. unfold tombstoneName, blankName. intros H. rewrite str_forall_app, H. done. Qed.

Lemma entomb_row d k r : ns_ok d -> nodes d !! k = Some r ->
  node_checks (entomb k r) = if (slen (tombstoneName k (n_name r)) <=? 255) && (n_epoch r <? maxInt64)
    then Ok (entomb k r) else Err (if slen (tombstoneName k (n_name r)) <=? 255 then pg "22003" else pg "22001").
Proof.
  intros Hok Hk. destruct (ns_rows _ Hok k r Hk) as [Hr _ (Hn & Hb & He) _]. unfold node_checks. simpl.
  rewrite (tombstone_not_blank _ _ Hb). destruct (slen (tombstoneName _ _) <=? 255); [|done]. simpl.
  destruct (Z.ltb_spec (n_epoch r) maxInt64); destruct (Z.leb_spec (n_epoch r + 1) maxInt64); try lia; [|done].
  simpl. rewrite bool_decide_true; [|destruct (n_parent r); [by right; eexists | left; by apply Hr]].
  simpl. destruct (Z.leb_spec 1 (n_epoch r + 1)); [done|lia].
Qed.

Lemma bump_row d k r : ns_ok d -> nodes d !! k = Some r ->
  node_checks (bumpEpoch r) = if n_epoch r <? maxInt64 then Ok (bumpEpoch r) else Err (pg "22003").
Proof.
  intros Hok Hk. destruct (ns_rows _ Hok k r Hk) as [Hr _ (Hn & Hb & He) _]. unfold node_checks. simpl.
  rewrite Hb, (proj2 (Z.leb_le _ _) Hn). simpl.
  destruct (Z.ltb_spec (n_epoch r) maxInt64); destruct (Z.leb_spec (n_epoch r + 1) maxInt64); try lia; [|done].
  simpl. rewrite bool_decide_true; [|destruct (n_parent r); [by right; eexists | left; by apply Hr]].
  simpl. destruct (Z.leb_spec 1 (n_epoch r + 1)); [done|lia].
Qed.

(** Epoch bumps of any set of rows. *)
Lemma bump_update sel d : ns_ok d ->
  node_update sel (fun _ r => Ok (bumpEpoch r)) d =
    (_ ← require (bool_decide (map_Forall (fun k r => sel k r = true -> (n_epoch r <? maxInt64) = true) (nodes d)))
                 (pg "22003");
     Ok (setNodes (mapNodes sel (fun _ => bumpEpoch) d) d)) /\
  (map_Forall (fun k r => sel k r = true -> (n_epoch r <? maxInt64) = true) (nodes d) ->
   ns_ok (setNodes (mapNodes sel (fun _ => bumpEpoch) d) d)).
Proof.
  intros Hok. assert (uniqueRows (mapNodes sel (fun _ => bumpEpoch) d)) as Hu.
  { intros k1 x1 (r1 & H1 & ->)%mapNodes_Some k2 x2 (r2 & H2 & ->)%mapNodes_Some.
    destruct (ns_uniqueRows d Hok k1 r1 H1 k2 r2 H2) as [?|[Hs Hr]]; [by left|right].
    by destruct (sel k1 r1), (sel k2 r2). }
  split.
  - rewrite (node_update_char _ _ (fun _ r => n_epoch r <? maxInt64) (fun _ => bumpEpoch) (pg "22003")).
    2:{ intros k r Hk _. by eapply bump_row. }
    by rewrite (bool_decide_true _ Hu).
  - intros He. apply ns_ok_attr; [done| |done]. intros k r Hk Hs. specialize (He k r Hk Hs). apply Z.ltb_lt in He.
    destruct (ns_rows _ Hok k r Hk) as [_ _ (Hn & Hb & Hep) _]. simpl. split_and!; try done; lia.
Qed.

(** The first statement of a soft deletion. *)
Lemma entomb_update tenant node row d : ns_ok d -> tenantNode tenant node d = Some row ->
  let sel k r := bool_decide (n_tenant r = tenant) && bool_decide (k = node) in
  node_update sel (fun k r => Ok (entomb k r)) d =
    (_ ← require (slen (tombstoneName node (n_name row)) <=? 255) (pg "22001");
     _ ← require (n_epoch row <? maxInt64) (pg "22003");
     _ ← require (bool_decide (uniqueRows (mapNodes sel entomb d))) unique_violation;
     Ok (setNodes (mapNodes sel entomb d) d)) /\
  (slen (tombstoneName node (n_name row)) <= 255 -> n_epoch row < maxInt64 ->
   uniqueRows (mapNodes sel entomb d) -> ns_ok (setNodes (mapNodes sel entomb d) d)).
Proof.
  intros Hok [Hnode Ht]%tenantNode_Some sel.
  assert (forall k r, nodes d !! k = Some r -> sel k r = true <-> k = node) as Hsel.
  { intros k r Hk. unfold sel. rewrite andb_true_iff, !bool_decide_eq_true. split; [by intros [_ ?]|].
    intros ->. by simplify_eq. }
  split.
  - rewrite (node_update_char _ _ (fun k r => (slen (tombstoneName k (n_name r)) <=? 255) && (n_epoch r <? maxInt64))
      entomb (if slen (tombstoneName node (n_name row)) <=? 255 then pg "22003" else pg "22001")).
    2:{ intros k r Hk Hs. apply (Hsel k r Hk) in Hs. subst k. simplify_eq. simpl. by apply entomb_row with d. }
    rewrite (bool_decide_ext (map_Forall _ (nodes d)) ((slen (tombstoneName node (n_name row)) <=? 255) && (n_epoch row <? maxInt64) = true)).
    + by destruct (slen (tombstoneName node (n_name row)) <=? 255), (n_epoch row <? maxInt64).
    + split.
      * intros Hall. apply (Hall node row Hnode). by apply Hsel.
      * intros Hb k r Hk Hs. apply (Hsel k r Hk) in Hs. subst k. by simplify_eq.
  - intros Hn He Hu. apply ns_ok_attr; [done| |done]. intros k r Hk Hs. apply (Hsel k r Hk) in Hs. subst k.
    rewrite Hnode in Hk. injection Hk as <-. destruct (ns_rows _ Hok node row Hnode) as [_ _ (_ & Hb & Hep) _]. simpl.
    split_and!; [done..|by apply tombstone_not_blank|lia|lia].
Qed.

Lemma soft_delete_keeps tenant node d d' : ns_ok d -> soft_delete_node tenant node d = Ok d' -> ns_ok d'.
Proof.
  intros Hok H. unfold soft_delete_node in H. inv_result.
  match goal with H : tenantNode _ _ _ = Some ?r |- _ => rename H into Hrow; rename r into row end.
  destruct (entomb_update _ _ _ _ Hok Hrow) as [Heq Hk]. rewrite Heq in *. clear Heq. inv_result. bool_hyps.
  match type of H with node_update ?s _ ?d1 = _ =>
    assert (ns_ok d1) as Hok1 by auto; destruct (bump_update s d1 Hok1) as [Heq1 Hk1] end.
  rewrite Heq1 in H. inv_result. bool_hyps. auto.
Qed.

Lemma exec_keeps c d d' : ns_ok d -> exec c d = Ok d' -> ns_ok d'.
Proof.
  destruct c; simpl; intros Hok H.
  - by eapply node_insert_keeps.
  - by apply move_inv in H as (? & ? & ? & ? & ? & ? & ? & ? & ? & ? & ? & ? & ?).
  - by eapply soft_delete_keeps.
Qed.

Lemma entomb_unique node row d (sel : uuid -> nodeRow -> bool) : ns_ok d -> nodes d !! node = Some row ->
  (forall k r, nodes d !! k = Some r -> sel k r = true <-> k = node) ->
  uniqueRows (mapNodes sel entomb d) <->
  map_Forall (fun k r => k = node \/ ~ sameSlot r (entomb node (erase row)))
             (nodes (tree_of (setNodes (mapNodes sel entomb d) d))).
Proof.
  intros Hok Hnode Hsel. rewrite map_Forall_tree by done. simpl.
  assert (mapNodes sel entomb d !! node = Some (entomb node row)) as Hn'.
  { rewrite mapNodes_lookup, Hnode. simpl. by rewrite (proj2 (Hsel node row Hnode) eq_refl). }
  assert (forall k r, mapNodes sel entomb d !! k = Some r -> k <> node -> nodes d !! k = Some r) as Hoth.
  { intros k r (r0 & Hk & ->)%mapNodes_Some Hne. destruct (sel k r0) eqn:Es; [|done].
    by apply (Hsel k r0 Hk) in Es. }
  split.
  - intros Hu k r Hk. destruct (decide (k = node)) as [|Hne]; [by left|right].
    destruct (Hu k r Hk node _ Hn') as [?|[Hs _]]; done.
  - intros Hall k1 r1 H1 k2 r2 H2. destruct (decide (k1 = k2)) as [|Hne]; [by left|right].
    assert (forall k r, mapNodes sel entomb d !! k = Some r -> k <> node ->
      ~ sameSlot r (entomb node row) /\ ~ sameRoot r (entomb node row)) as Hpair.
    { intros k r Hk Hkn. destruct (Hall k r Hk) as [?|Hs]; [done|]. split; [exact Hs|].
      by destruct (ns_unique _ Hok k r node row (Hoth k r Hk Hkn) Hnode Hkn). }
    destruct (decide (k1 = node)) as [->|Hn1], (decide (k2 = node)) as [->|Hn2]; [done| | |].
    + rewrite Hn' in H1. injection H1 as <-. destruct (Hpair k2 r2 H2 Hn2).
      split; [by intros ?%sameSlot_sym | by intros ?%sameRoot_sym].
    + rewrite Hn' in H2. injection H2 as <-. by apply Hpair with k1.
    + apply (ns_unique _ Hok k1 r1 k2 r2); auto.
Qed.

Lemma soft_delete_refines tenant node d : ns_ok d ->
  tree_of <$> soft_delete_node tenant node d = tree_soft_delete tenant node (tree_of d).
Proof.
  intros Hok. unfold soft_delete_node, tree_soft_delete. rewrite tenantNode_tree.
  destruct (tenantNode tenant node d) as [row|] eqn:Hrow; [|done].
  cbn [of_option fmap option_fmap option_map mbind result_bind].
  destruct (entomb_update _ _ _ _ Hok Hrow) as [Heq Hk1].
  match type of Heq with node_update ?s _ _ = _ => set (sel1 := s) in * end. rewrite Heq. clear Heq.
  apply tenantNode_Some in Hrow as [Hnode Ht].
  assert (forall k r, nodes d !! k = Some r -> sel1 k r = bool_decide (k = node)) as Hsel.
  { intros k r Hk. unfold sel1. apply eq_true_iff_eq. rewrite andb_true_iff, !bool_decide_eq_true. split; [by intros [_ ?]|].
    intros ->. by simplify_eq. }
  rewrite <- (tree_update_refines d sel1 entomb) by done.
  change (n_name (erase row)) with (n_name row).
  destruct (Z.leb_spec (slen (tombstoneName node (n_name row))) 255) as [Hlen|]; [|done]. cbn [require mbind result_bind].
  rewrite (bool_decide_ext (map_Forall _ (nodes d)) (n_epoch row < maxInt64)).
  2:{ split.
      - intros Hall. apply Z.ltb_lt, (Hall node row Hnode). rewrite (Hsel _ _ Hnode). by apply bool_decide_eq_true.
      - intros He k r Hk. rewrite (Hsel _ _ Hk), bool_decide_eq_true. intros ->. simplify_eq. by apply Z.ltb_lt. }
  destruct (Z.ltb_spec (n_epoch row) maxInt64) as [He|He];
    [rewrite (bool_decide_true _ He)|rewrite (bool_decide_false (n_epoch row < maxInt64)) by lia; done].
  cbn [require mbind result_bind fmap result_fmap].
  rewrite <- (bool_decide_ext _ _ (entomb_unique node row d sel1 Hok Hnode
    (fun k r Hk => eq_ind_r (fun b => b = true <-> k = node) (bool_decide_eq_true (k = node)) (Hsel k r Hk)))).
  case_bool_decide as Hu; [|done]. cbn [require mbind result_bind].
  specialize (Hk1 Hlen He Hu). set (d1 := setNodes _ d) in *.
  match goal with |- context [node_update ?s _ d1] => set (sel2 := s) end.
  destruct (bump_update sel2 d1 Hk1) as [-> _]. apply tree_update_refines; [|done].
  intros k r Hk. rewrite inSubtree_tree.
  assert (nodes d1 !! node = Some (entomb node row)) as Hn1.
  { simpl. rewrite mapNodes_lookup, Hnode. simpl. by rewrite (Hsel _ _ Hnode), bool_decide_true. }
  rewrite (inSubtree_below _ _ _ _ _ Hk1 Hk Hn1). unfold sel2. change (n_path (entomb node row)) with (n_path row).
  destruct (below (n_path row) r) eqn:Hb; [|by rewrite andb_false_r]. rewrite andb_true_r.
  rewrite bool_decide_true; [done|]. unfold below in Hb. apply bool_decide_eq_true in Hb.
  pose proof (prefix_ancestor _ _ _ _ _ Hk1 Hk Hn1 Hb) as Ha.
  destruct (ancestor_prefix _ _ _ _ _ Hk1 Ha Hk Hn1) as [_ Htt]. rewrite <- Htt. exact Ht.
Qed.

Lemma exec_refines c d : ns_ok d -> tree_of <$> exec c d = tree_exec c (tree_of d).
Proof.
  destruct c; simpl; intros Hok.
  - apply node_insert_refines.
  - by apply move_refines.
  - by apply soft_delete_refines.
Qed.

End commands.

(** ** Lemmas: transactions, cycles, the text of a path *)

Section transactions.
Context `{U : UUID}.
Implicit Types (d : db) (k : uuid) (r : nodeRow).

Lemma node_checks_ok d k r : ns_ok d -> nodes d !! k = Some r -> node_checks r = Ok r.
Proof.
  intros Hok Hk. destruct (ns_rows _ Hok k r Hk) as [Hr _ (Hn & Hb & He) _]. unfold node_checks.
  rewrite Hb, (proj2 (Z.leb_le _ _) Hn), (proj2 (Z.leb_le _ _) (proj2 He)), (proj2 (Z.leb_le _ _) (proj1 He)). simpl.
  rewrite bool_decide_true; [done|]. destruct (n_parent r); [by right; eexists | left; by apply Hr].
Qed.

(** A guarded UPDATE that only allows the old version changes nothing. *)
Lemma node_update_frozen sel f (P : uuid -> nodeRow -> bool) e d d' : ns_ok d ->
  (forall k r, nodes d !! k = Some r -> sel k r = true -> f k r = if P k r then Ok r else Err e) ->
  node_update sel f d = Ok d' -> nodes d' = nodes d /\ tenantsT d' = tenantsT d.
Proof.
  intros Hok Hf. rewrite (node_update_char _ _ P (fun _ r => r) e).
  - intros H. inv_result. split; [|done]. simpl. apply map_eq. intros k. rewrite mapNodes_lookup.
    destruct (nodes d !! k) as [r|]; simpl; [by destruct (sel k r) | done].
  - intros k r Hk Hs. rewrite (Hf k r Hk Hs). destruct (P k r); [|done]. simpl. by eapply node_checks_ok.
Qed.

Lemma reparent_forbidden node p d d' : ns_ok d -> reparent false node p d = Ok d' ->
  nodes d' = nodes d /\ tenantsT d' = tenantsT d.
Proof.
  intros Hok. apply (node_update_frozen _ _ (fun _ r => bool_decide (p = n_parent r)) domain_error); [done|].
  intros k r Hk _. unfold lineage_update. simpl. destruct r. simpl.
  case_bool_decide; [|done]. subst. by rewrite bool_decide_true.
Qed.

Lemma tamper_forbidden node p d d' : ns_ok d -> tamper false node p d = Ok d' ->
  nodes d' = nodes d /\ tenantsT d' = tenantsT d.
Proof.
  intros Hok. apply (node_update_frozen _ _ (fun _ r => bool_decide (p = n_path r)) domain_error); [done|].
  intros k r Hk _. unfold lineage_update. simpl. rewrite bool_decide_true by done. destruct r. simpl.
  case_bool_decide; [|done]. by subst.
Qed.

Lemma ns_ok_ext d d' : nodes d' = nodes d -> tenantsT d' = tenantsT d -> ns_ok d -> ns_ok d'.
Proof.
  intros En Et [Hr Hu]. constructor; rewrite En; [|done]. intros k r Hk. destruct (Hr k r Hk) as [H1 H2 H3 H4].
  constructor; [done|by rewrite En|done|by rewrite Et].
Qed.

Lemma txRun_keeps cs allow d d' : ns_ok d -> disciplined cs allow = true -> txRun cs allow d = Ok d' -> ns_ok d'.
Proof.
  revert allow d. induction cs as [|c cs IH]; intros allow d Hok Hd H; simpl in *; [by simplify_eq|].
  inv_result. destruct x as [allow' d1].
  destruct c as [c|node p|node p]; simpl in *; inv_result; simplify_eq/=.
  - eapply IH; [|exact Hd|exact H]. by eapply exec_keeps.
  - destruct allow'; [done|]. simpl in Hd. eapply IH; [|exact Hd|exact H].
    match goal with H : reparent _ _ _ _ = _ |- _ => apply reparent_forbidden in H as [? ?]; [|done] end.
    by eapply ns_ok_ext.
  - destruct allow'; [done|]. simpl in Hd. eapply IH; [|exact Hd|exact H].
    match goal with H : tamper _ _ _ _ = _ |- _ => apply tamper_forbidden in H as [? ?]; [|done] end.
    by eapply ns_ok_ext.
Qed.

Lemma history_keeps d0 d : ns_ok d0 -> nsHistory d0 d -> ns_ok d.
Proof. intros H0. induction 1; [done|]. by eapply txRun_keeps. Qed.

Lemma no_cycle d k r : ns_ok d -> nodes d !! k = Some r -> ~ tc (parentOf d) k k.
Proof.
  intros Hok Hk Htc.
  assert (exists p, parentOf d k p /\ rtc (parentOf d) p k) as (p & Hp & Hr)
    by (inversion Htc; eauto using rtc_refl, tc_rtc).
  destruct (parent_exists _ _ _ Hok Hp) as (rp & Hrp & _).
  destruct (parent_path _ _ _ _ _ Hok Hp Hk Hrp) as [Heq _].
  destruct (ancestor_prefix _ _ _ _ _ Hok Hr Hrp Hk) as [Hpre%prefix_length _].
  rewrite Heq, length_app in Hpre. simpl in Hpre. lia.
Qed.

Lemma late_insert_now nid tenant parent name type d :
  late_insert d nid tenant parent name type d = node_insert nid tenant parent name type d.
Proof. done. Qed.

Lemma label_no_dot k : str_forall (fun c => negb (bool_decide (c = "."%char))) (node_label k) = true.
Proof.
  unfold node_label. pose proof (uuid_String_chars k) as H. induction (uuid_String k) as [|c s IH]; [done|].
  simpl in *. apply andb_true_iff in H as [Hc Hs]. rewrite (IH Hs), andb_true_r. unfold underscore.
  case_bool_decide; [done|]. apply negb_true_iff, bool_decide_eq_false. intros ->. done.
Qed.

Lemma ltree_text_split l : l <> [] -> split_on "."%char (ltree_text (node_label <$> l)) = node_label <$> l.
Proof.
  induction l as [|k [|k' l] IH]; intros Hl; [done| |].
  - simpl. apply split_on_none, label_no_dot.
  - change (ltree_text (node_label <$> k :: k' :: l))
      with (node_label k +:+ String "." (ltree_text (node_label <$> k' :: l))).
    rewrite split_on_join by apply label_no_dot. by rewrite IH.
Qed.

End transactions.

(** ** Lemmas: the client's transactions *)

Section client.
Context `{U : UUID}.

Lemma BumpGeneration_envOnly {D} tenant (w : world D) : envOnly w (BumpGeneration tenant w).2.
Proof.
  unfold BumpGeneration. destruct (popSlot w) as [s w1] eqn:E. apply popSlot_envOnly in E.
  destruct (s_fault s), (gens w1); simpl; try done.
Qed.

(** A mutation whose statements keep [P] keeps it, whatever fails and whatever the other
    clients that keep [P] do in between. *)
Lemma mutateAndBump_keeps (P : db -> Prop) {A} tenant (body : txst db -> result dberr A * txst db) (w : world db) :
  txKeeps P body -> envKeeps P w -> P (contents w) -> P (contents (mutateAndBump tenant body w).2).
Proof.
  intros Hb He HP. unfold mutateAndBump.
  destruct (withTx_keeps P (fun e => e) (fun e => e) body w Hb He HP) as [He1 HP1].
  destruct (withTx _ _ body w) as [r w1]. simpl in *. unfold bumpGenerationOnSuccess.
  destruct (errOf r); [done|]. destruct (gens w1); [|done].
  destruct (envOnly_keeps P _ _ (BumpGeneration_envOnly tenant w1) He1) as [_ Hk]. auto.
Qed.

Lemma txKeeps_exec_update P (q : Z -> db -> result dberr db) :
  (forall now d d', q now d = Ok d' -> P d -> P d') -> txKeeps P (txExec (fun now => update (q now))).
Proof.
  intros Hq. apply txKeeps_exec. unfold update. intros now d a d'.
  destruct (q now d) eqn:E; intros; simplify_eq. by eapply Hq.
Qed.

Lemma acl_insert_spec now aid tenant node ptype principal role by_ d d' :
  acl_insert now aid tenant node ptype principal role by_ d = Ok d' ->
  nodes d' = nodes d /\ tenantsT d' = tenantsT d /\ acls d !! aid = None /\
  acls d' = <[aid := mkAcl tenant node ptype principal role by_ None now]> (acls d).
Proof. unfold acl_insert. intros H. inv_result. bool_hyps. done. Qed.

(** The name slot a soft deletion frees. *)
Lemma soft_delete_rows tenant node d d' : ns_ok d -> soft_delete_node tenant node d = Ok d' ->
  exists row, nodes d !! node = Some row /\ n_tenant row = tenant /\ tenantsT d' = tenantsT d /\
    nodes d' !! node = Some (entomb node row) /\
    forall k, k <> node -> nodes d' !! k = (fun r => if below (n_path row) r then bumpEpoch r else r) <$> nodes d !! k.
Proof.
  intros Hok H. unfold soft_delete_node in H. inv_result.
  match goal with H : tenantNode _ _ _ = Some ?r |- _ => rename H into Hrow; rename r into row end.
  destruct (entomb_update _ _ _ _ Hok Hrow) as [Heq Hk]. rewrite Heq in *. clear Heq. inv_result. bool_hyps.
  match type of H with node_update ?s _ ?d1 = _ =>
    assert (ns_ok d1) as Hok1 by auto; destruct (bump_update s d1 Hok1) as [Heq1 _] end.
  rewrite Heq1 in H. inv_result. apply tenantNode_Some in Hrow as [Hnode Ht]. exists row.
  split_and!; try done.
  - simpl. rewrite !mapNodes_lookup. simpl. rewrite mapNodes_lookup, Hnode. simpl.
    by rewrite (bool_decide_true _ Ht), !(bool_decide_true (node = node)), andb_false_r by done.
  - intros k Hne. simpl. rewrite mapNodes_lookup. simpl. rewrite mapNodes_lookup.
    destruct (nodes d !! k) as [r|] eqn:Hkr; simpl; [|done].
    rewrite (bool_decide_false (k = node)), andb_false_r by done. simpl. rewrite andb_true_r.
    destruct (below (n_path row) r) eqn:Hb; [|by rewrite andb_false_r]. rewrite andb_true_r.
    rewrite bool_decide_true; [done|]. unfold below in Hb. apply bool_decide_eq_true in Hb.
    pose proof (prefix_ancestor _ _ _ _ _ Hok Hkr Hnode Hb) as Ha.
    destruct (ancestor_prefix _ _ _ _ _ Hok Ha Hkr Hnode) as [_ Htt]. congruence.
Qed.

End client.

(** ** A small tree *)

Section demo.

Definition nsT : uuid := mkId "t".
Definition nsR : uuid := mkId "r".
Definition nsA : uuid := mkId "a".
Definition nsA1 : uuid := mkId "1".
Definition nsB : uuid := mkId "b".
Definition nsB1 : uuid := mkId "2".
Definition nsF : uuid := mkId "f".

Definition nsEmpty : db := mkDb ∅ ∅ ∅ ∅ ∅ {[nsT := mkTenant 1000 0]} true (Some 900) ∅.

(** root/a/a1/f and root/b/b1. *)
Definition nsBuild : list txCmd :=
  TProc <$> [CInsert nsR nsT None "root" "DIRECTORY"; CInsert nsA nsT (Some nsR) "a" "DIRECTORY";
             CInsert nsA1 nsT (Some nsA) "a1" "DIRECTORY"; CInsert nsB nsT (Some nsR) "b" "DIRECTORY";
             CInsert nsB1 nsT (Some nsB) "b1" "DIRECTORY"; CInsert nsF nsT (Some nsA1) "f" "FILE"].

Definition orEmpty (r : result dberr db) : db := match r with Ok d => d | Err _ => nsEmpty end.
Definition nsDemo : db := orEmpty (txRun nsBuild false nsEmpty).

Lemma nsEmpty_ok : ns_ok nsEmpty.
Proof. by constructor; intros *; simpl; rewrite lookup_empty. Qed.

Lemma orEmpty_ok r : is_ok r = true -> r = Ok (orEmpty r).
Proof. by destruct r. Qed.

Lemma errOf_Err {A} (r : result dberr A) e : errOf r = Some e -> r = Err e.
Proof. destruct r; simpl; congruence. Qed.

Lemma nsDemo_built : txRun nsBuild false nsEmpty = Ok nsDemo.
Proof. apply orEmpty_ok. vm_compute. reflexivity. Qed.

Lemma nsDemo_ok : ns_ok nsDemo.
Proof. eapply txRun_keeps; [exact nsEmpty_ok | | exact nsDemo_built]. reflexivity. Qed.

End demo.

(** ** Properties *)

(** What a move needs, in terms of the tree alone. *)
Definition movable `{U : UUID} (tenant node newParent : uuid) (d : db) : Prop :=
  exists src dst, nodes d !! node = Some src /\ nodes d !! newParent = Some dst /\ n_tenant src = tenant /\
    n_tenant dst = tenant /\ is_Some (n_parent src) /\ n_deleted src = false /\ n_type dst = "DIRECTORY" /\
    n_deleted dst = false /\ ~ rtc (parentOf d) newParent node /\
    map_Forall (fun k r => ~ nameTaken tenant node newParent (n_name src) k r) (nodes d) /\
    (forall k r, nodes d !! k = Some r -> rtc (parentOf d) k node -> n_epoch r < maxInt64).

Lemma below_rtc `{U : UUID} d node k rn r : ns_ok d -> nodes d !! node = Some rn -> nodes d !! k = Some r ->
  below (n_path rn) r = true <-> rtc (parentOf d) k node.
Proof.
  intros Hok Hn Hk. rewrite <- (inSubtree_below _ _ _ _ _ Hok Hk Hn). by eapply inSubtree_rtc.
Qed.

Lemma move_movable `{U : UUID} tenant node newParent d : ns_ok d ->
  is_ok (move_directory tenant node newParent d) = true <-> movable tenant node newParent d.
Proof.
  intros Hok. split.
  - destruct (move_directory tenant node newParent d) as [d'|] eqn:H; [|done]. intros _.
    apply move_inv in H as (src & dst & Hs & Hd & Ht & Htd & Hp & Hb & (Hsl & Hty & Hdl & Hn) & Hsel & He & _); [|done].
    exists src, dst. split_and!; try done.
    + rewrite <- below_rtc by done. congruence.
    + intros k r Hk Hr. apply Z.ltb_lt, (He k r Hk). rewrite (Hsel k r Hk). by eapply below_rtc.
  - intros (src & dst & Hs & Hd & Ht & Htd & Hp & Hsl & Hty & Hdl & Hc & Hn & He). unfold move_directory.
    assert (node <> newParent) as Hne by (intros ->; apply Hc; constructor).
    assert (below (n_path src) dst = false) as Hb.
    { destruct (below (n_path src) dst) eqn:E; [|done]. exfalso. apply Hc. by eapply below_rtc. }
    rewrite (proj2 (tenantNode_Some tenant node d src)), (proj2 (tenantNode_Some tenant newParent d dst)) by done.
    rewrite (bool_decide_false (node = newParent)) by done. cbn [negb require mbind result_bind of_option].
    rewrite Hb, Hsl, Hdl, (bool_decide_true _ Hp), (bool_decide_true _ Hty), (bool_decide_true _ Hn).
    cbn [negb require mbind result_bind of_option]. rewrite move_update by done. rewrite bool_decide_true; [done|].
    intros k r Hk Hsel. apply Z.ltb_lt, (He k r Hk). erewrite move_sel in Hsel by eassumption. by eapply below_rtc.
Qed.

(** C3. The namespace implements a tree.  On every consistent table, an insertion, a
    directory move or a soft deletion does to the rows, paths left out, what the tree
    operation does, with the same error on the same inputs: where the procedure compares
    materialized paths, the tree operation follows parents.  And it leaves the table
    consistent. *)
Theorem namespace_refines_tree `{U : UUID} (c : cmd) (d : db) (Hok : ns_ok d) :
  tree_of <$> exec c d = tree_exec c (tree_of d) /\ (forall d', exec c d = Ok d' -> ns_ok d').
Proof. split; [by apply exec_refines | intros d'; by apply exec_keeps]. Qed.

Lemma namespace_refines_tree_witness :
  tree_of <$> exec (CMove nsT nsA nsB1) nsDemo = tree_exec (CMove nsT nsA nsB1) (tree_of nsDemo) /\
  is_ok (exec (CMove nsT nsA nsB1) nsDemo) = true.
Proof.
  split; [exact (proj1 (namespace_refines_tree (CMove nsT nsA nsB1) nsDemo nsDemo_ok)) | vm_compute; reflexivity].
Defined.


Definition nsMoved : db := orEmpty (txRun [TReparent nsA (Some nsR); TProc (CMove nsT nsA nsB1)] false nsDemo).

(** C5. When a directory move succeeds and what it does.  [move_directory] succeeds
    exactly when both nodes are live nodes of the tenant, the source is not the root, the
    target is a directory that is not inside the source, no live sibling there has the
    name, and no epoch of the subtree is exhausted.  It then changes the parent of the
    source alone, raises the epoch of the subtree by one, and leaves every other row as
    it was. *)
Theorem move_directory_spec `{U : UUID} (tenant node newParent : uuid) (d : db) (Hok : ns_ok d) :
  (is_ok (move_directory tenant node newParent d) = true <-> movable tenant node newParent d) /\
  forall d', move_directory tenant node newParent d = Ok d' ->
    dom (nodes d') = dom (nodes d) /\
    forall k r, nodes d !! k = Some r -> exists r', nodes d' !! k = Some r' /\
      (~ rtc (parentOf d) k node -> r' = r) /\
      (rtc (parentOf d) k node -> n_epoch r' = n_epoch r + 1 /\ n_name r' = n_name r /\ n_type r' = n_type r /\
         n_tenant r' = n_tenant r /\ n_deleted r' = n_deleted r /\
         n_parent r' = if bool_decide (k = node) then Some newParent else n_parent r).
Proof.
  split; [by apply move_movable|]. intros d' H.
  apply move_inv in H as (src & dst & Hs & Hd & _ & _ & _ & _ & _ & Hsel & _ & -> & _); [|done]. split.
  - apply set_eq. intros k. rewrite !elem_of_dom. simpl. rewrite mapNodes_lookup. by destruct (nodes d !! k); split; intros [].
  - intros k r Hk. eexists. simpl. rewrite mapNodes_lookup, Hk. split; [reflexivity|]. simpl.
    rewrite (Hsel k r Hk). destruct (below (n_path src) r) eqn:Hb.
    + split; [|done]. intros Hn. destruct Hn. by eapply below_rtc.
    + split; [done|]. intros Hr. apply (below_rtc _ _ _ _ _ Hok Hs Hk) in Hr. congruence.
Qed.

Lemma move_directory_spec_witness :
  movable nsT nsA nsB1 nsDemo /\ ~ movable nsT nsA nsA1 nsDemo /\
  move_directory nsT nsA nsA1 nsDemo = Err cycle_error.
Proof.
  assert (is_ok (move_directory nsT nsA nsB1 nsDemo) = true) as H1 by (vm_compute; reflexivity).
  assert (is_ok (move_directory nsT nsA nsA1 nsDemo) = false) as H2 by (vm_compute; reflexivity).
  split; [exact (proj1 (proj1 (move_directory_spec nsT nsA nsB1 nsDemo nsDemo_ok)) H1)|].
  split; [|apply errOf_Err; vm_compute; reflexivity]. intros Hm.
  pose proof (proj2 (proj1 (move_directory_spec nsT nsA nsA1 nsDemo nsDemo_ok)) Hm) as H3. rewrite H2 in H3.
  discriminate H3.
Defined.

(** A soft deletion frees the name.  It turns the row into a tombstone under another
    name, raises the epochs of the strict descendants by one and changes no other row;
    afterwards a new file or directory with the old name can be created in the same
    parent, if the parent is live. *)
Theorem soft_delete_frees_name `{U : UUID} (tenant node nid parent : uuid) (row prow : nodeRow) (type : string)
    (d d' : db) (Hok : ns_ok d) (Hnode : nodes d !! node = Some row) (Hp : n_parent row = Some parent)
    (Hprow : nodes d !! parent = Some prow) (Hlive : n_deleted prow = false) (Hnl : n_deleted row = false)
    (Hrun : soft_delete_node tenant node d = Ok d') (Hfresh : nodes d !! nid = None) :
  nodes d' !! node = Some (entomb node row) /\
  (forall k r, nodes d !! k = Some r -> k <> node -> exists r', nodes d' !! k = Some r' /\
     n_epoch r' = n_epoch r + (if inSubtree d node k then 1 else 0) /\ sameShape r' r /\
     n_name r' = n_name r /\ n_deleted r' = n_deleted r) /\
  is_ok (node_insert nid tenant (Some parent) (n_name row) type d') = true.
Proof.
  pose proof (soft_delete_keeps _ _ _ _ Hok Hrun) as Hok'.
  destruct (soft_delete_rows _ _ _ _ Hok Hrun) as (row' & Hn' & Ht & Htt & Hd' & Hoth). simplify_eq.
  split_and!; [done| |].
  { intros k r Hk Hne. eexists. split; [by rewrite (Hoth k Hne), Hk|].
    rewrite (inSubtree_below _ _ _ _ _ Hok Hk Hnode). destruct (below (n_path row) r); simpl; split_and!; try done; lia. }
  destruct (row_child _ _ _ (ns_rows _ Hok _ _ Hnode) parent Hp) as (pr & Hpr & Hpt & Hpty & Hpath).
  rewrite Hprow in Hpr. injection Hpr as <-.
  assert (parent <> node) as Hpn.
  { intros ->. simplify_eq. apply (f_equal length) in Hpath. rewrite length_app in Hpath. simpl in Hpath. lia. }
  assert (below (n_path row) prow = false) as Hb.
  { unfold below. apply bool_decide_eq_false. intros Hl%prefix_length. rewrite Hpath, length_app in Hl. simpl in Hl. lia. }
  destruct (row_checks _ _ _ (ns_rows _ Hok _ _ Hnode)) as (Hn & Hbl & _).
  assert (nid <> node) as Hnn by congruence.
  unfold node_insert, lineage_insert. rewrite (proj2 (Z.leb_le _ _) Hn), (Hoth parent Hpn), Hprow. simpl. rewrite Hb.
  rewrite (bool_decide_true _ Hpt), (bool_decide_true _ Hpty), Hlive. simpl.
  rewrite (bool_decide_true (type = "DIRECTORY" \/ is_Some (Some parent))) by (right; by eexists). simpl. rewrite Hbl.
  rewrite (bool_decide_true (nodes d' !! nid = None)) by (by rewrite (Hoth nid Hnn), Hfresh). simpl.
  assert (is_Some (tenantsT d' !! n_tenant row)) as Hten
    by (rewrite Htt; apply (row_tenant _ _ _ (ns_rows _ Hok _ _ Hnode))).
  rewrite (bool_decide_true _ Hten). rewrite bool_decide_true; [done|].
  { intros k r Hk. split; [|by intros (_ & _ & ?)]. intros (E1 & E2 & E3 & E4 & E5). simpl in *.
    destruct (decide (k = node)) as [->|Hne]; [rewrite Hd' in Hk; by simplify_eq|].
    rewrite (Hoth k Hne) in Hk. destruct (nodes d !! k) as [r0|] eqn:Hk0; [|done]. simpl in Hk.
    destruct (ns_unique _ Hok k r0 node row Hk0 Hnode Hne) as [Hs _]. apply Hs.
    assert (n_tenant r = n_tenant r0 /\ n_parent r = n_parent r0 /\ n_name r = n_name r0 /\ n_deleted r = n_deleted r0)
      as (F1 & F2 & F3 & F4) by (destruct (below (n_path row) r0); by simplify_eq/=).
    unfold sameSlot. split_and!; congruence. }
Qed.

Definition nsNew : uuid := mkId "n".
Definition nsGone : db := orEmpty (soft_delete_node nsT nsA nsDemo).

Lemma soft_delete_frees_name_witness :
  is_ok (soft_delete_node nsT nsA nsDemo) = true /\
  is_ok (node_insert nsNew nsT (Some nsR) "a" "FILE" nsGone) = true.
Proof.
  assert (is_ok (soft_delete_node nsT nsA nsDemo) = true) as Hrun by (vm_compute; reflexivity).
  split; [exact Hrun|].
  assert (forall k, match nodes nsDemo !! k with Some _ => true | None => false end = true ->
    exists r, nodes nsDemo !! k = Some r) as Hx by (intros k; destruct (nodes nsDemo !! k); [eauto|done]).
  destruct (Hx nsA) as [row Hrow]; [vm_compute; reflexivity|].
  destruct (Hx nsR) as [prow Hprow]; [vm_compute; reflexivity|].
  assert ((fun r => (n_parent r, n_name r, n_deleted r)) <$> nodes nsDemo !! nsA = Some (Some nsR, "a", false)) as Ha
    by (vm_compute; reflexivity).
  assert (n_deleted <$> nodes nsDemo !! nsR = Some false) as Hr by (vm_compute; reflexivity).
  rewrite Hrow in Ha. rewrite Hprow in Hr. injection Ha as Ha1 Ha2 Ha3. injection Hr as Hr. rewrite <- Ha2.
  apply (soft_delete_frees_name nsT nsA nsNew nsR row prow "FILE" nsDemo nsGone nsDemo_ok Hrow Ha1 Hprow Hr Ha3).
  - apply orEmpty_ok. exact Hrun.
  - destruct (nodes nsDemo !! nsNew) as [x|] eqn:E; [|reflexivity].
    assert (match nodes nsDemo !! nsNew with Some _ => true | None => false end = false) as Hn by (vm_compute; reflexivity).
    rewrite E in Hn. discriminate Hn.
Defined.


(** Another client moves [b] between the statements of this one. *)
Definition nsBusy : world db :=
  mkWorld nsDemo 0 [mkSlot 1 (fun d => d) None None false;
                    mkSlot 1 (fun d => match exec (CMove nsT nsB nsA) d with Ok d' => d' | Err _ => d end) None None false]
    newCircuitBreaker 0 0 0 0 None.


(** The lineage text of node metadata.  In a consistent namespace the metadata row of
    every node splits at the dots into the labels of its ancestors, from the root down,
    and two nodes have the same lineage text only if they are the same node. *)
Theorem lineage_text_splits `{U : UUID} (d : db) (tenant node : uuid) (m : NodeMeta) (Hok : ns_ok d)
    (Hm : loadNodeMeta d (uuid_String tenant) (uuid_String node) = Some m) :
  (exists l, ancestry (size (nodes d)) d node = Some l /\ split_on "."%char (nmLineage m) = node_label <$> l) /\
  (forall tenant' node' m', loadNodeMeta d (uuid_String tenant') (uuid_String node') = Some m' ->
     nmLineage m' = nmLineage m -> node' = node).
Proof.
  assert (forall t n x, loadNodeMeta d (uuid_String t) (uuid_String n) = Some x ->
    exists r l, nodes d !! n = Some r /\ ancestry (size (nodes d)) d n = Some l /\ n_path r = node_label <$> l /\
      split_on "."%char (nmLineage x) = node_label <$> l) as Hgen.
  { intros t n x. unfold loadNodeMeta. rewrite !uuid_Parse_String. simpl.
    destruct (tenantNode t n d) as [r|] eqn:Hr; [|done]. simpl. intros H. simplify_eq/=.
    apply tenantNode_Some in Hr as [Hr _].
    destruct (ancestry_enough d n r _ Hok Hr (path_length_size _ _ _ Hok Hr)) as [l Hl].
    pose proof (ancestry_path _ _ _ _ _ Hok Hr Hl) as Hp. exists r, l. split_and!; try done. rewrite Hp.
    apply ltree_text_split. intros ->. destruct (path_last _ _ _ Hok Hr) as [q Hq]. rewrite Hp in Hq. by destruct q. }
  destruct (Hgen _ _ _ Hm) as (r & l & Hr & Hl & Hp & Hs). split; [by exists l|].
  intros t' n' m' Hm' Heq. destruct (Hgen _ _ _ Hm') as (r' & l' & Hr' & _ & Hp' & Hs').
  eapply path_inj; [exact Hok|exact Hr'|exact Hr|]. rewrite Hp, Hp', <- Hs, <- Hs'. by rewrite Heq.
Qed.

Lemma lineage_text_splits_witness :
  exists m, loadNodeMeta nsDemo (uuid_String nsT) (uuid_String nsA1) = Some m /\
    split_on "."%char (nmLineage m) = node_label <$> [nsR; nsA; nsA1].
Proof.
  eexists. split; [vm_compute; reflexivity|].
  edestruct (lineage_text_splits nsDemo nsT nsA1) as [(l & Hl & Hs) _]; [exact nsDemo_ok|vm_compute; reflexivity|].
  rewrite Hs. vm_compute in Hl. injection Hl as <-. reflexivity.
Defined.

(** ** What the procedures do not promise *)

(** [move_directory] unlocks the trigger until the transaction ends: a direct reparenting
    after a move of the same transaction goes through, and here makes a cycle. *)
Theorem unlocked_reparent_cycle :
  let run := txRun [TProc (CMove nsT nsB nsA); TReparent nsA (Some nsB)] false nsDemo in
  is_ok run = true /\ parentOf (orEmpty run) nsA nsB /\ parentOf (orEmpty run) nsB nsA /\
  is_ok (txRun [TReparent nsA (Some nsB)] false nsDemo) = false.
Proof.
  assert (forall d k p, (r ← nodes d !! k; n_parent r) = Some p -> parentOf d k p) as Hx.
  { intros d k p. destruct (nodes d !! k) as [r|] eqn:E; [|done]. simpl. intros. by exists r. }
  cbv zeta. split_and!; [vm_compute; reflexivity|apply Hx; vm_compute; reflexivity..|vm_compute; reflexivity].
Qed.

(** An insertion below a directory of a subtree that moves meanwhile keeps the old lineage:
    the move locks its endpoints and the rows it sees, not the parent of a row that another
    transaction has inserted and not committed. *)
Theorem insert_races_move :
  let moved := orEmpty (move_directory nsT nsA nsB nsDemo) in
  let run := late_insert nsDemo nsNew nsT (Some nsA1) "g" "FILE" moved in
  is_ok run = true /\ ~ ns_ok (orEmpty run).
Proof.
  cbv zeta. split; [vm_compute; reflexivity|]. intros Hok.
  set (d := orEmpty _) in Hok. assert (is_Some (nodes d !! nsNew)) as [r Hr]
    by (refine (bool_decide_unpack (is_Some (nodes d !! nsNew)) _); vm_compute; exact I).
  destruct (ancestry_enough d nsNew r _ Hok Hr (path_length_size _ _ _ Hok Hr)) as [l Hl].
  pose proof (ancestry_path _ _ _ _ _ Hok Hr Hl) as Hp.
  assert (ancestry (size (nodes d)) d nsNew = Some [nsR; nsB; nsA; nsA1; nsNew]) as Hl' by (vm_compute; reflexivity).
  assert (n_path <$> nodes d !! nsNew = Some (node_label <$> [nsR; nsA; nsA1; nsNew])) as Hp' by (vm_compute; reflexivity).
  rewrite Hr in Hp'. rewrite Hl in Hl'. injection Hl' as ->. injection Hp' as Hp'. rewrite Hp in Hp'. discriminate Hp'.
Qed.

(** Two moves whose endpoints are disjoint, each of whose updates needs an endpoint the
    other has locked: the ascending order of the endpoints does not prevent a deadlock. *)
Theorem moves_can_deadlock :
  is_ok (move_directory nsT nsA nsB1 nsDemo) = true /\ is_ok (move_directory nsT nsB nsA1 nsDemo) = true /\
  moveEndpoints nsA nsB1 ## moveEndpoints nsB nsA1 /\
  nsA1 ∈ moveEndpoints nsB nsA1 ∩ moveTouches nsA nsDemo /\ nsB1 ∈ moveEndpoints nsA nsB1 ∩ moveTouches nsB nsDemo.
Proof.
  split_and!; [vm_compute; reflexivity..| | |].
  - refine (bool_decide_unpack (moveEndpoints nsA nsB1 ## moveEndpoints nsB nsA1) _). vm_compute. exact I.
  - refine (bool_decide_unpack (nsA1 ∈ moveEndpoints nsB nsA1 ∩ moveTouches nsA nsDemo) _). vm_compute. exact I.
  - refine (bool_decide_unpack (nsB1 ∈ moveEndpoints nsA nsB1 ∩ moveTouches nsB nsDemo) _). vm_compute. exact I.
Qed.

(** Soft deletion: a deleted root still occupies the tenant's only root; the live rows
    below a deleted directory go on accepting children. *)
Theorem soft_delete_leaves :
  create_root nsNew nsT "new root" (orEmpty (soft_delete_node nsT nsR nsDemo)) = Err unique_violation /\
  is_ok (node_insert nsNew nsT (Some nsA1) "g" "FILE" nsGone) = true /\
  node_insert nsNew nsT (Some nsA) "g" "FILE" nsGone = Err domain_error.
Proof.
  split; [apply errOf_Err; vm_compute; reflexivity|].
  split; [vm_compute; reflexivity|apply errOf_Err; vm_compute; reflexivity].
Qed.
