(* ===== verification/Metadata.v ===== *)
(** * Node metadata: the namespace cache over the namespace

    The composition of [NsCache] and [Namespace]: the database states of the cache's runs are
    those that transactions of the namespace procedures produce, and its loader is the
    SELECT of [GetNodeMetadataCached] (client.go). *)
From S2P Require Import Prelude GoLib External Database Schema NsCache Namespace.

Section metadata.
Context `{U : UUID}.

(** [GetNodeMetadataCached]: the loader alone when caching is disabled. *)
Definition GetNodeMetadataCached {W : Type}
    (cache : option (string -> string -> (W -> result dberr NodeMeta * W) -> W -> result dberr NodeMeta * W))
    (loader : string -> string -> W -> result dberr NodeMeta * W) (tenant node : string) (w : W)
    : result dberr NodeMeta * W :=
  match cache with
  | None => loader tenant node w
  | Some getNodeMetadata => getNodeMetadata tenant node (loader tenant node) w
  end.

(** The loader: one query on a connection of the metadata pool, outside the circuit breaker. *)
Definition metaLoader (tenant node : string) (w : world db) : result dberr NodeMeta * world db :=
  match acquire OpMetadata w with
  | (Err e, _, w1) => (Err e, w1)
  | (Ok _, s, w1) =>
      (match s_fault s with
       | Some e => Err e
       | None => of_option (loadNodeMeta (contents w1) tenant node) [ENoRows]
       end, countReleased w1)
  end.

(** Without a cache the answer is the row of the database at that moment, and the connection
    is back. *)
Lemma uncached_metadata tenant node w r w' :
  GetNodeMetadataCached None metaLoader tenant node w = (r, w') ->
  inUse w' = inUse w /\
  forall m, r = Ok m -> loadNodeMeta (contents w') tenant node = Some m.
Proof.
  unfold GetNodeMetadataCached, metaLoader. destruct (acquire OpMetadata w) as [[[p|e] s] w1] eqn:E; intros H; simplify_eq/=.
  - unfold acquire in E. simpl in E. destruct (popSlot w) as [s' w2] eqn:Ep.
    destruct (s_acquire s'); simplify_eq/=. split.
    + pose proof (popSlot_inUse w s w2 Ep). unfold inUse in *. simpl. lia.
    + intros m. destruct (s_fault s); [done|]. by apply of_option_ok.
  - unfold acquire in E. simpl in E. destruct (popSlot w) as [s' w2] eqn:Ep.
    destruct (s_acquire s'); simplify_eq/=. split; [|done]. by eapply popSlot_inUse.
Qed.

(** ** Runs of cache and namespace together *)

(** A committed transaction of a tenant, or an event of the cache. *)
Inductive mlabel := MTx (tenant : string) (cs : list txCmd) | MEv (e : @event db).

Definition mstep (l : mlabel) (s : @nstate db) : option (@nstate db) :=
  match l with
  | MTx t cs =>
      d ← last (hist s);
      match txRun cs false d with
      | Ok d' => if disciplined cs false then nstep loadNodeMeta (EvCommit t d') s else None
      | Err _ => None
      end
  | MEv (EvCommit _ _) => None
  | MEv e => nstep loadNodeMeta e s
  end.

Fixpoint mrun (ls : list mlabel) (s : @nstate db) : option (@nstate db) :=
  match ls with [] => Some s | l :: ls' => s1 ← mstep l s; mrun ls' s1 end.

(** Tenants are UUIDs, whose texts have no colon. *)
Definition goodLabel (l : mlabel) : bool :=
  match l with MTx t _ => str_forall no_colon t | MEv e => goodEvent e end.

Definition freshCache (d0 : db) : @nstate db := mkNs [d0] ∅ ∅ ∅ ∅ [] ∅ 0 0.

Lemma nstep_hist e (s s' : @nstate db) : nstep loadNodeMeta e s = Some s' ->
  hist s' = hist s ++ match e with EvCommit _ d => [d] | _ => [] end.
Proof.
  intros Hs. destruct e; simpl in Hs; repeat case_match; simplify_eq; simpl;
    unfold joinFlight, endFlight; repeat case_match; simpl; by rewrite ?app_nil_r.
Qed.

Lemma mstep_keeps d0 l s s' : ns_ok d0 -> mstep l s = Some s' -> goodLabel l = true ->
  reachable loadNodeMeta d0 s /\ Forall ns_ok (hist s) -> reachable loadNodeMeta d0 s' /\ Forall ns_ok (hist s').
Proof.
  intros H0 Hs Hg [Hr Hh]. destruct l as [t cs|e].
  - cbn [mstep] in Hs. destruct (last (hist s)) as [d|] eqn:Hl; [|done]. cbn [mbind option_bind] in Hs.
    destruct (txRun cs false d) as [d'|] eqn:Ht; [|done]. destruct (disciplined cs false) eqn:Hd; [|done].
    split; [by apply (reach_step _ _ (EvCommit t d') s)|]. rewrite (nstep_hist _ _ _ Hs). apply Forall_app. split; [done|].
    constructor; [|done]. eapply txRun_keeps; [|exact Hd|exact Ht].
    apply last_Some_elem_of in Hl. by rewrite Forall_forall in Hh; apply Hh.
  - assert (nstep loadNodeMeta e s = Some s' /\ (forall t d, e <> EvCommit t d)) as [Hs' Hne] by (destruct e; simpl in Hs; done).
    split; [by apply (reach_step _ _ e s)|]. rewrite (nstep_hist _ _ _ Hs'). destruct e; try (by rewrite app_nil_r). by destruct (Hne tenant d).
Qed.

Lemma mrun_keeps d0 ls s s' : ns_ok d0 -> mrun ls s = Some s' -> forallb goodLabel ls = true ->
  reachable loadNodeMeta d0 s /\ Forall ns_ok (hist s) -> reachable loadNodeMeta d0 s' /\ Forall ns_ok (hist s').
Proof.
  intros H0. revert s. induction ls as [|l ls IH]; intros s Hr Hg Hi; simpl in *; [by simplify_eq|]. bool_hyps.
  destruct (mstep l s) as [s1|] eqn:E; [|done]. cbn [mbind option_bind] in Hr. apply (IH s1 Hr); [done|]. by eapply mstep_keeps.
Qed.

End metadata.


(** A reader that starts after a move was acknowledged. *)
Definition nsReadAfterMove : list mlabel :=
  let T := uuid_String nsT in let N := uuid_String nsA1 in
  [MTx T [TProc (CMove nsT nsA1 nsB)]; MEv (EvIncr 0 None); MEv (EvCall 0 T N); MEv (EvGeneration 0 None);
   MEv (EvGet 0 None); MEv (EvLoad (nodeKey T 1 N) None); MEv (EvSet (nodeKey T 1 N) None)].

Definition readLineage (s : option (@nstate db)) : option string :=
  s ← s; match readers s !! 0%nat with Some (RDone _ _ _ (Ok m)) => Some (nmLineage m) | _ => None end.

Lemma nsReadAfterMove_lineage :
  readLineage (mrun nsReadAfterMove (freshCache nsDemo)) = Some (ltree_text (node_label <$> [nsR; nsB; nsA1])).
Proof. vm_compute. reflexivity. Qed.

