(* ===== verification/Handlers.v ===== *)
(** * internal/ingress: request handlers and middleware

    [initiate.go], [commit.go] and [server.go] over any [Store].  Requests arrive decoded
    ([None]: the JSON did not decode); the identifiers drawn on the way are arguments; the
    blob store, the token signer and the event bus are the interfaces of [server.go]. *)
From S2P Require Import Prelude GoLib External Database Schema Ingress.

Record BlobStore := mkBlobStore {
  GenerateUploadURL : string -> string -> Z -> result string string;
  VerifyBlock : string -> string -> result string unit
}.

Record UploadURL := mkUpload { uuHash : string; uuURL : string; uuSize : Z }.

Record InitiateResponse := mkInitResp {
  ipSession : string; ipNode : string; ipExpires : Z; ipURLs : list UploadURL
}.

Record CommitResponse := mkCommitResp { cpVersion : string; cpNumber : Z }.

Record ChunkDetail := mkDetail { cdIndex : Z; cdHash : string; cdSize : Z; cdOffset : Z }.

Record FileCommittedEvent := mkFCE {
  feID : string; feType : string; feTenant : string; feNode : string; feVersion : string;
  feNumber : Z; feTotal : Z; feMime : string; feSHA : string; feAt : Z;
  feChunks : list ChunkDetail; feHashes : list string
}.

(** [srvEvents]: whether an event bus is installed (its publish errors are ignored). *)
Record IngressServer := mkServer {
  srvBlob : option BlobStore;
  srvSigner : string -> string -> string -> result string string;
  srvEvents : bool;
  srvEndpoint : string;
  srvToken : string;
  srvMaxBody : Z
}.

Section handlers.
Context `{U : UUID} {S : Type} `{St : Store S}.

(** The URL for one missing block: direct to the blob store, else through the signer. *)
Definition mintURL (srv : IngressServer) (tenant : uuid) (c : ChunkInfo) : result ierr string :=
  match (match srvBlob srv with
         | Some b => GenerateUploadURL b (uuid_String tenant) (ciHash c) (ciSize c)
         | None => srvSigner srv (uuid_String tenant) (ciHash c) (srvEndpoint srv)
         end) with
  | Ok u => Ok u
  | Err e => Err (Plain e)
  end.

Fixpoint mintMissing (srv : IngressServer) (tenant : uuid) (existing : gmap string bool)
    (chunks : list ChunkInfo) : result ierr (list UploadURL) :=
  match chunks with
  | [] => Ok []
  | c :: cs =>
      if default false (existing !! ciHash c) then mintMissing srv tenant existing cs
      else
        url ← mintURL srv tenant c;
        rest ← mintMissing srv tenant existing cs;
        Ok (mkUpload (ciHash c) url (ciSize c) :: rest)
  end.

(** Step 2: the file node, existing or new. *)
Definition resolveNode (nid tenant : uuid) (req : InitiateRequest) (s : S) : result ierr uuid * S :=
  match irNode req with
  | Some n =>
      match uuid_Parse n with
      | None => (Err badRequest, s)
      | Some node =>
          match ValidateFileNode tenant node s with
          | (Err e, s') => (Err e, s')
          | (Ok _, s') => (Ok node, s')
          end
      end
  | None =>
      match irParent req with
      | None => CreateFileNode nid tenant None (irFile req) s
      | Some p =>
          match uuid_Parse p with
          | None => (Err badRequest, s)
          | Some pid => CreateFileNode nid tenant (Some pid) (irFile req) s
          end
      end
  end.

(** The quota test of [initiate.go]: the sum is an [int64]. *)
Definition overQuota (q : TenantQuota) (total : Z) : bool :=
  (0 <? StorageQuotaBytes q) && (StorageQuotaBytes q <? int64 (UsedBytes q + total)).

(** Steps 3 to 6, once the node is known. *)
Definition initiateUploads (srv : IngressServer) (sid tenant node : uuid) (req : InitiateRequest) (s : S)
    : result ierr InitiateResponse * S :=
  match mustDecodeAll (ciHash <$> irChunks req) with
  | Err e => (Err e, s)
  | Ok hashes =>
      match BatchQueryExistingCAS hashes s with
      | (Err e, s1) => (Err e, s1)
      | (Ok existing, s1) =>
          match mintMissing srv tenant existing (irChunks req) with
          | Err e => (Err e, s1)
          | Ok urls =>
              match CreateUploadSession sid tenant node (irTotal req) (zlen (irChunks req)) s1 with
              | (Err e, s2) => (Err e, s2)
              | (Ok (sess, exp), s2) =>
                  (Ok (mkInitResp (uuid_String sess) (uuid_String node) exp urls), s2)
              end
          end
      end
  end.

Definition handleInitiate (srv : IngressServer) (nid sid : uuid) (body : option InitiateRequest) (s : S)
    : result ierr InitiateResponse * S :=
  match body with
  | None => (Err badRequest, s)
  | Some req =>
      match InitiateValidate req with
      | Err e => (Err e, s)
      | Ok _ =>
          match uuid_Parse (irTenant req) with
          | None => (Err badRequest, s)
          | Some tenant =>
              match GetTenantQuota tenant s with
              | (Err e, s1) => (Err e, s1)
              | (Ok quota, s1) =>
                  if overQuota quota (irTotal req) then (Err (Sent ErrQuotaExceeded), s1)
                  else match resolveNode nid tenant req s1 with
                  | (Err e, s2) => (Err e, s2)
                  | (Ok node, s2) => initiateUploads srv sid tenant node req s2
                  end
              end
          end
      end
  end.

(** Post-commit verification: best effort, block by block; [MustDecodeHash] may panic. *)
Fixpoint verifyBlocks (b : BlobStore) (blocks : list BlockMeta) (s : S) : result ierr unit * S :=
  match blocks with
  | [] => (Ok tt, s)
  | m :: ms =>
      match VerifyBlock b (bmHash m) (bmETag m) with
      | Err _ => verifyBlocks b ms s
      | Ok _ =>
          match MustDecodeHash (bmHash m) with
          | Err e => (Err e, s)
          | Ok h => verifyBlocks b ms (MarkBlockVerified h s).2
          end
      end
  end.

Definition committedEvent (eid tenant : uuid) (sess : SessionRecord) (version : string) (num now : Z)
    (req : CommitRequest) : FileCommittedEvent :=
  mkFCE (uuid_String eid) "VERSION_COMMITTED" (uuid_String tenant) (srNode sess) version num
    (srTotal sess) (if bool_decide (crMime req = "") then "application/octet-stream" else crMime req)
    (crSHA req) now
    ((fun b => mkDetail (bmIndex b) (bmHash b) (bmSize b) (bmOffset b)) <$> crBlocks req)
    (bmHash <$> crBlocks req).

(** [events] is the list of events handed to the bus so far. *)
Definition handleCommit (srv : IngressServer) (vid eid : uuid) (body : option CommitRequest)
    (events : list FileCommittedEvent) (s : S)
    : result ierr CommitResponse * list FileCommittedEvent * S :=
  match body with
  | None => (Err badRequest, events, s)
  | Some req =>
      match CommitValidate req with
      | Err e => (Err e, events, s)
      | Ok _ =>
          match uuid_Parse (crSession req), hex_decode (crSHA req) with
          | None, _ | _, None => (Err badRequest, events, s)
          | Some sid, Some sha =>
              match GetSession sid s with
              | (Err e, s1) => (Err e, events, s1)
              | (Ok sess, s1) =>
                  if bool_decide (srStatus sess = "COMPLETED") then (Err (Sent ErrSessionCompleted), events, s1)
                  else if srExpires sess <? Now s1 then (Err (Sent ErrSessionExpired), events, s1)
                  else match uuid_Parse (srTenant sess) with
                  | None => (Err (Plain "invalid tenant in session"), events, s1)
                  | Some tenant =>
                      match CommitFile vid tenant sid sha (crBlocks req) s1 with
                      | (Err e, s2) => (Err e, events, s2)
                      | (Ok (version, num), s2) =>
                          let s3 := (BumpCacheGeneration tenant s2).2 in
                          match (match srvBlob srv with
                                 | Some b => verifyBlocks b (crBlocks req) s3
                                 | None => (Ok tt, s3)
                                 end) with
                          | (Err e, s4) => (Err e, events, s4)
                          | (Ok _, s4) =>
                              let events' :=
                                if srvEvents srv
                                then events ++ [committedEvent eid tenant sess version num (Now s4) req]
                                else events in
                              (Ok (mkCommitResp version num), events', s4)
                          end
                      end
                  end
              end
          end
      end
  end.

(** ** Middleware *)

(** [authHeader] is the value of the Authorization header (empty when absent). *)
Definition authenticate (srv : IngressServer) (authHeader : string) : bool :=
  if bool_decide (srvToken srv = "") then true
  else if negb (has_prefix "Bearer " authHeader) then false
  else bool_decide (trim_prefix "Bearer " authHeader = srvToken srv).

(** [wrap]: the status of the response and the state; [okStatus] is the status the handler
    writes itself on success. *)
Definition wrap {A} (srv : IngressServer) (authHeader : string) (okStatus : Z)
    (fn : S -> result ierr A * S) (s : S) : Z * option A * S :=
  if negb (authenticate srv authHeader) then (401, None, s)
  else match fn s with
  | (Ok a, s') => (okStatus, Some a, s')
  | (Err e, s') => (HTTPStatus (Some e), None, s')
  end.

Definition handleReadyz (s : S) : Z * S :=
  match Ping s with (Err _, s') => (503, s') | (Ok _, s') => (200, s') end.

(** One tick of the session reaper. *)
Definition reaperTick (s : S) : S := (ExpireStaleSessions s).2.

End handlers.

(** ** Lemmas *)

Section handler_lemmas.
Context `{U : UUID}.

(** A transaction of one statement in an undisturbed world. *)
Lemma calm_single {A B} b c f (q : Z -> db -> result dberr A * db) (g : A -> B) (w : world db) :
  calm w ->
  match q (clock w) (contents w) with
  | (Ok a, d) => exists w', withTx b c (fun t => (x ← txStmt f q; mret (g x)) t) w = (Ok (g a), w') /\
      contents w' = d /\ calm w' /\ clock w' = clock w
  | (Err e, _) => (withTx b c (fun t => (x ← txStmt f q; mret (g x)) t) w).1 = Err (f e)
  end.
Proof.
  intros Hcalm.
  destruct (calm_withTx b c (fun t => (x ← txStmt f q; mret (g x)) t) w Hcalm)
    as (t & Hs & Hck & Hct & _ & Hok & Herr).
  assert (txStep t (txStmt f q t).2) as Hstep.
  { pose proof (txExec_step q t) as Hq. unfold txStmt. by destruct (txExec q t). }
  unfold mbind, txM_bind in *. rewrite txStmt_calm in Hok, Herr, Hstep by done.
  rewrite Hck, Hct in *. destruct (q (clock w) (contents w)) as [[a|e] d].
  - destruct (Hok _ Hstep _ eq_refl) as (w' & Hw & Hc & Hcl & Hcw). exists w'. split_and!; try done.
    rewrite Hcw. done.
  - by eapply Herr.
Qed.

Lemma mintMissing_spec srv tenant existing chunks urls :
  mintMissing srv tenant existing chunks = Ok urls ->
  let missing := filter (fun c => default false (existing !! ciHash c) = false) chunks in
  uuHash <$> urls = ciHash <$> missing /\ uuSize <$> urls = ciSize <$> missing /\
  Forall2 (fun c u => mintURL srv tenant c = Ok (uuURL u)) missing urls.
Proof.
  revert urls. induction chunks as [|c cs IH]; intros urls Hm; simpl in *; [by simplify_eq|].
  rewrite filter_cons. destruct (default false (existing !! ciHash c)) eqn:E.
  - rewrite decide_False by done. by apply IH.
  - rewrite decide_True by done. inv_result.
    match goal with H : mintMissing _ _ _ cs = Ok ?x |- _ => destruct (IH x H) as (H1 & H2 & H3) end.
    cbn [fmap list_fmap]. split_and!; [by f_equal|by f_equal|by constructor].
Qed.

Lemma existing_lookup (l : list string) (k : string) :
  default false ((list_to_map (map (fun h => (hex_encode h, true)) l) : gmap string bool) !! k)
  = bool_decide (k ∈ hex_encode <$> l).
Proof.
  induction l as [|h l IH]; [by rewrite bool_decide_false by apply not_elem_of_nil|].
  cbn [map list_to_map foldr fmap list_fmap]. destruct (decide (hex_encode h = k)) as [<-|Hne].
  - simpl. rewrite lookup_insert_eq, bool_decide_true by apply list_elem_of_here. done.
  - simpl. rewrite lookup_insert_ne by done. rewrite IH. apply bool_decide_ext.
    rewrite elem_of_cons. naive_solver.
Qed.

(** The chunk names a block of the registry. *)
Definition knownBlock (d : db) (c : ChunkInfo) : bool :=
  match hex_decode (ciHash c) with
  | Some h => bool_decide (is_Some (cas d !! h))
  | None => false
  end.

Lemma known_lookup d chunks hashes c :
  mustDecodeAll (ciHash <$> chunks) = Ok hashes -> c ∈ chunks ->
  str_forall is_lower_hex_char (ciHash c) = true -> slen (ciHash c) = 64 ->
  bool_decide (ciHash c ∈ hex_encode <$> filter (fun h => is_Some (cas d !! h)) hashes) = knownBlock d c.
Proof.
  intros Hdec%mustDecodeAll_ok Hc Hlow Hlen. rewrite Forall2_fmap_l in Hdec.
  destruct (hex_encode_decode (ciHash c) Hlow) as (h & Hh & He).
  { exists 32%nat. unfold slen in Hlen. lia. }
  unfold knownBlock. rewrite Hh. apply bool_decide_ext. rewrite list_elem_of_fmap. split.
  - intros (h' & Heq & [Hs Hin]%list_elem_of_filter). rewrite <- He in Heq. by apply (inj hex_encode) in Heq as ->.
  - intros Hs. exists h. split; [done|]. apply list_elem_of_filter. split; [done|].
    apply list_elem_of_lookup in Hc as [i Hi].
    destruct (Forall2_lookup_l _ _ _ _ _ Hdec Hi) as (h' & Hi' & Hd). simpl in Hd. rewrite Hh in Hd. simplify_eq.
    by eapply list_elem_of_lookup_2.
Qed.

Lemma calm_batch hashes (w : world db) :
  calm w -> hashes <> [] -> exists w', pgBatchQueryExistingCAS hashes w
    = (Ok (list_to_map (map (fun h => (hex_encode h, true))
             (filter (fun h => is_Some (cas (contents w) !! h)) hashes))), w') /\
    contents w' = contents w /\ calm w' /\ clock w' = clock w.
Proof.
  intros Hcalm Hne. destruct (calm_query OpMetadata (fun _ d =>
    @Ok dberr _ (filter (fun h => is_Some (cas d !! h)) hashes)) w Hcalm eq_refl) as (w' & Hq & Hrest).
  exists w'. unfold pgBatchQueryExistingCAS. destruct hashes as [|h hs]; [done|]. rewrite Hq. done.
Qed.

Lemma validChunks_ok l : validChunks l = Ok tt ->
  Forall (fun c => slen (ciHash c) = 64 /\ is_Some (hex_decode (ciHash c)) /\ 0 < ciSize c) l.
Proof.
  induction l as [|c l IH]; intros Hv; [done|]. simpl in Hv. inv_result. bool_hyps. constructor; auto.
Qed.

Lemma InitiateValidate_ok req : InitiateValidate req = Ok tt ->
  irChunks req <> [] /\ 0 < irTotal req /\
  Forall (fun c => slen (ciHash c) = 64 /\ is_Some (hex_decode (ciHash c)) /\ 0 < ciSize c) (irChunks req).
Proof.
  unfold InitiateValidate. intros Hv. inv_result. bool_hyps. split_and!; [|done|by apply validChunks_ok].
  by intros Hx; rewrite Hx in *.
Qed.

Lemma session_insert_spec now sid tenant node total expected d exp d' :
  session_insert now sid tenant node total expected d = Ok (exp, d') ->
  let row := mkSes tenant (Some node) "INITIATED" total expected 0 exp false in
  d' = setSessions (<[sid := row]> (sessions d)) d /\ db_lease d = Some (exp - now) /\
  is_Some (tenantsT d !! tenant) /\ is_Some (nodes d !! node).
Proof.
  unfold session_insert. intros Hi. inv_result. bool_hyps.
  match goal with H : _ /\ _ |- _ => destruct H end.
  split_and!; try done. match goal with H : db_lease d = _ |- _ => rewrite H end. f_equal. lia.
Qed.

Lemma list_filter_iff_elem {A} (P Q : A -> Prop) `{forall x, Decision (P x), forall x, Decision (Q x)}
    (l : list A) : (forall x, x ∈ l -> P x <-> Q x) -> filter P l = filter Q l.
Proof.
  induction l as [|x l IH]; intros Hpq; [done|]. rewrite !filter_cons.
  rewrite IH by (intros y Hy; apply Hpq; by right).
  specialize (Hpq x (list_elem_of_here _ _)). repeat case_decide; naive_solver.
Qed.

(** All tables but the nodes. *)
Definition sameTables (d d' : db) : Prop :=
  cas d' = cas d /\ sessions d' = sessions d /\ tenantsT d' = tenantsT d /\
  manifests d' = manifests d /\ fversions d' = fversions d /\ db_status d' = db_status d /\
  db_lease d' = db_lease d.

Lemma node_insert_file_frame nid tenant parent name d d' :
  node_insert_file nid tenant parent name d = Ok d' ->
  sameTables d d'.
Proof. unfold node_insert_file, node_insert. intros Hi. by inv_result. Qed.

Lemma calm_resolveNode nid tenant req (w w' : world db) node :
  calm w -> resolveNode nid tenant req w = (Ok node, w') ->
  sameTables (contents w) (contents w') /\ calm w' /\ clock w' = clock w.
Proof.
  intros Hcalm. unfold resolveNode. simpl.
  assert (forall parent, pgCreateFileNode nid tenant parent (irFile req) w = (Ok node, w') ->
    sameTables (contents w) (contents w') /\ calm w' /\ clock w' = clock w) as Hcreate.
  { intros parent. unfold pgCreateFileNode.
    pose proof (calm_single unavailable RawDb RawDb
      (fun _ => update (node_insert_file nid tenant parent (irFile req))) (fun _ => nid) w Hcalm) as Hs.
    unfold update in Hs at 1. destruct (node_insert_file _ _ _ _ _) as [d|e] eqn:E.
    - destruct Hs as (w2 & Hw & Hc & Hcl & Hck). intros Hr. rewrite Hw in Hr. simplify_eq.
      by apply node_insert_file_frame in E.
    - intros Hr. rewrite Hr in Hs. done. }
  destruct (irNode req) as [n|].
  - destruct (uuid_Parse n) as [m|]; [|done]. unfold pgValidateFileNode.
    match goal with |- context [QueryWithMetrics OpMetadata ?q w] =>
      destruct (calm_query OpMetadata q w Hcalm eq_refl) as (w1 & Hq & Hc & Hcl & Hck) end.
    rewrite Hq. intros Hr. case_match; simplify_eq. simplify_eq. rewrite Hc. done.
  - destruct (irParent req) as [p|]; [|apply Hcreate].
    destruct (uuid_Parse p); [apply Hcreate|done].
Qed.


Lemma overQuota_spec (q : TenantQuota) (total : Z) :
  0 <= UsedBytes q <= maxInt64 -> 0 < total <= maxInt64 -> StorageQuotaBytes q <= maxInt64 ->
  overQuota q total = true <->
  0 < StorageQuotaBytes q /\ StorageQuotaBytes q < UsedBytes q + total <= maxInt64.
Proof.
  intros Hu Ht Hq. unfold overQuota. rewrite andb_true_iff, !Z.ltb_lt. unfold maxInt64 in *.
  destruct (Z.le_gt_cases (UsedBytes q + total) (2 ^ 63 - 1)) as [Hle|Hgt].
  - rewrite int64_id by (unfold is_int64, minInt64, maxInt64; lia). lia.
  - assert (int64 (UsedBytes q + total) = UsedBytes q + total - 2 ^ 64) as ->.
    { unfold int64, wrapS. change (64 - 1) with 63. rewrite <- (Z.mod_unique (UsedBytes q + total + 2 ^ 63)
        (2 ^ 64) 1 (UsedBytes q + total - 2 ^ 63)); lia. }
    lia.
Qed.

Lemma validBlocks_runs blocks : Forall goodBlock blocks -> validBlocks blocks = Ok tt.
Proof.
  induction 1 as [|b l (Hl & Hd & Hs & _) _ IH]; [done|]. simpl.
  rewrite (proj2 (Z.eqb_eq _ _) Hl), bool_decide_true by done. simpl.
  rewrite (proj2 (Z.ltb_lt 0 (bmSize b))) by lia. exact IH.
Qed.

Lemma verifyBlocks_runs {S} `{St : Store S} b blocks (s : S) :
  Forall (fun m => is_Some (hex_decode (bmHash m))) blocks -> exists s', verifyBlocks b blocks s = (Ok tt, s').
Proof.
  intros Hall. revert s. induction Hall as [|m ms [h Hh] _ IH]; intros s; simpl; [eauto|].
  destruct (VerifyBlock b _ _); [|auto]. unfold MustDecodeHash. rewrite Hh. simpl. auto.
Qed.

(** A request that passes every check of [handleCommit] and whose transaction commits. *)
Lemma handleCommit_runs {S} `{St : Store S} srv vid eid req events (s s1 s2 : S)
    sid sha sess tenant version num :
  CommitValidate req = Ok tt -> uuid_Parse (crSession req) = Some sid -> hex_decode (crSHA req) = Some sha ->
  GetSession sid s = (Ok sess, s1) -> srStatus sess <> "COMPLETED" -> Now s1 <= srExpires sess ->
  uuid_Parse (srTenant sess) = Some tenant ->
  CommitFile vid tenant sid sha (crBlocks req) s1 = (Ok (version, num), s2) ->
  exists events' s', handleCommit srv vid eid (Some req) events s = (Ok (mkCommitResp version num), events', s') /\
    events' = events ++ (if srvEvents srv then [committedEvent eid tenant sess version num (Now s') req] else []) /\
    (srvBlob srv = None -> s' = (BumpCacheGeneration tenant s2).2).
Proof.
  intros Hval Hsid Hsha Hget Hst Hexp Hten Hcommit. unfold handleCommit.
  rewrite Hval, Hsid, Hsha, Hget, bool_decide_false, (proj2 (Z.ltb_ge _ _) Hexp), Hten, Hcommit by done.
  destruct (srvBlob srv) as [b|].
  - destruct (verifyBlocks_runs b (crBlocks req) (BumpCacheGeneration tenant s2).2) as [s4 ->].
    { unfold CommitValidate in Hval. inv_result. revert Hval. generalize (crBlocks req).
      induction l as [|m l IH]; intros Hv; [done|]. simpl in Hv. inv_result. bool_hyps. constructor; auto. }
    eexists _, _. split_and!; [reflexivity| |done]. destruct (srvEvents srv); [done|by rewrite app_nil_r].
  - eexists _, _. split_and!; [reflexivity| |done]. destruct (srvEvents srv); [done|by rewrite app_nil_r].
Qed.

(** What a successful [handleInitiate] did, in an undisturbed world. *)
Lemma initiate_effect (srv : IngressServer) (nid sid : uuid) (req : InitiateRequest)
    (w w' : world db) (resp : InitiateResponse) :
  calm w -> handleInitiate srv nid sid (Some req) w = (Ok resp, w') ->
  exists tenant node d urls hashes, InitiateValidate req = Ok tt /\ uuid_Parse (irTenant req) = Some tenant /\
    (exists tr, tenantsT (contents w) !! tenant = Some tr /\
       overQuota (mkQuota (t_quota tr) (t_used tr)) (irTotal req) = false) /\
    resp = mkInitResp (uuid_String sid) (uuid_String node) (ipExpires resp) urls /\
    mustDecodeAll (ciHash <$> irChunks req) = Ok hashes /\
    mintMissing srv tenant (list_to_map (map (fun h => (hex_encode h, true))
      (filter (fun h => is_Some (cas (contents w) !! h)) hashes))) (irChunks req) = Ok urls /\
    sameTables (contents w) d /\
    session_insert (clock w) sid tenant node (irTotal req) (zlen (irChunks req)) d
      = Ok (ipExpires resp, contents w') /\ calm w' /\ clock w' = clock w.
Proof.
  intros Hcalm Hrun.
  unfold handleInitiate in Hrun. destruct (InitiateValidate req) as [[]|] eqn:Hval; [|done].
  destruct (uuid_Parse (irTenant req)) as [tenant|]; [|done].
  simpl in Hrun. unfold pgGetTenantQuota in Hrun.
  destruct (calm_query OpMetadata (fun _ d => @Ok dberr _ (tenantsT d !! tenant)) w Hcalm eq_refl)
    as (w1 & Hq & Hc1 & Hcalm1 & Hck1).
  rewrite Hq in Hrun. simpl in Hrun. destruct (tenantsT (contents w) !! tenant) as [tr|] eqn:Htr; [|done].
  simpl in Hrun. destruct (overQuota _ _) eqn:Hover; [done|].
  destruct (resolveNode nid tenant req w1) as [[node|e] w2] eqn:Hn; [|done].
  apply calm_resolveNode in Hn as (Hsame & Hcalm2 & Hck2); [|done]. rewrite Hc1 in *.
  unfold initiateUploads in Hrun. destruct (mustDecodeAll _) as [hashes|] eqn:Hdec; [|done].
  assert (hashes <> []) as Hhne.
  { intros ->. apply mustDecodeAll_ok, Forall2_nil_inv_r in Hdec. apply fmap_nil_inv in Hdec.
    by apply InitiateValidate_ok in Hval as [? _]. }
  destruct (calm_batch hashes w2 Hcalm2 Hhne) as (w3 & Hb & Hc3 & Hcalm3 & Hck3).
  simpl in Hrun. rewrite Hb in Hrun.
  destruct (mintMissing srv tenant _ (irChunks req)) as [urls|] eqn:Hm; [|done].
  unfold pgCreateUploadSession in Hrun.
  pose proof (calm_single unavailable RawDb RawDb (fun now => stmt (session_insert now sid tenant node
    (irTotal req) (zlen (irChunks req)))) (fun x => (sid, x)) w3 Hcalm3) as Hs.
  cbv beta in Hs. destruct (stmt _ _) as [[exp|e] d] eqn:Hst.
  2: { match type of Hrun with context [withTx ?b ?c ?f w3] => destruct (withTx b c f w3) as [r4 w4] end.
       simpl in Hs. by subst r4. }
  destruct Hs as (w5 & Hw5 & Hc5 & Hcalm5 & Hck5). rewrite Hw5 in Hrun. simplify_eq. apply stmt_ok in Hst.
  exists tenant, node, (contents w2), urls, hashes. rewrite <- (proj1 Hsame). split_and!; eauto; try congruence.
  simpl. rewrite <- Hck1, <- Hck2, <- Hck3, <- Hc3. exact Hst.
Qed.

(** After a successful [handleInitiate] the commit transaction runs and the handler
    answers with the next version. *)
Lemma commit_after_initiate (srv : IngressServer) (nid sid vid eid node : uuid) (ireq : InitiateRequest)
    (creq : CommitRequest) (sha : string) (events : list FileCommittedEvent) (w w1 : world db)
    (resp : InitiateResponse) :
  calm w -> db_status (contents w) = true -> (exists l, db_lease (contents w) = Some l /\ 0 <= l) ->
  handleInitiate srv nid sid (Some ireq) w = (Ok resp, w1) -> uuid_Parse (ipNode resp) = Some node ->
  crSession creq = ipSession resp -> slen (crSHA creq) = 64 /\ hex_decode (crSHA creq) = Some sha ->
  Forall goodBlock (crBlocks creq) /\ NoDup (bmIndex <$> crBlocks creq) ->
  zlen (crBlocks creq) = zlen (irChunks ireq) ->
  fversions (contents w) !! vid = None /\ (forall i, manifests (contents w) !! (vid, i) = None) ->
  next_version_number node (contents w1) < 2 ^ 31 ->
  exists tenant events' w2 w3 w4, uuid_Parse (irTenant ireq) = Some tenant /\
    handleCommit srv vid eid (Some creq) events w1
    = (Ok (mkCommitResp (uuid_String vid) (next_version_number node (contents w1))), events', w4) /\
    (srvEvents srv = true -> exists e, events' = events ++ [e] /\ feVersion e = uuid_String vid /\
       feNode e = ipNode resp /\ feHashes e = bmHash <$> crBlocks creq) /\
    calm w2 /\ contents w2 = contents w1 /\ clock w2 = clock w1 /\
    pgCommitFile vid tenant sid sha (crBlocks creq) w2
    = (Ok (uuid_String vid, next_version_number node (contents w1)), w3) /\
    (srvBlob srv = None -> w4 = (BumpCacheGeneration tenant w3).2).
Proof.
  intros Hcalm Hstatus Hlease Hinit Hnode Hsess Hsha Hblocks Hcount Hfresh Hnum.
  destruct (initiate_effect _ _ _ _ _ _ _ Hcalm Hinit) as (tenant & node' & d & urls & hashes & Hval & Hten &
    _ & Hresp & _ & _ & Hsame & Hses & Hcalm1 & Hck).
  rewrite Hresp in Hsess, Hnode. simpl in Hsess, Hnode. rewrite uuid_Parse_String in Hnode. simplify_eq.
  apply session_insert_spec in Hses as (Hd & Hl & Ht & Hn). destruct Hlease as (l & Hl' & Hl0).
  destruct Hsame as (_ & _ & _ & Sman & Sver & Sst & Sle). rewrite Sle, Hl' in Hl. simplify_eq.
  apply InitiateValidate_ok in Hval as (_ & Htot & _).
  set (row := mkSes tenant (Some node) "INITIATED" (irTotal ireq) (zlen (irChunks ireq)) 0
    (ipExpires resp) false) in *.
  assert (sessions (contents w1) !! sid = Some row) as Hrow by (rewrite Hd; apply lookup_insert_eq).
  destruct Hsha as [Hsl Hsha], Hblocks as [Hgood Hnd].
  set (q := fun (_ : Z) (d : db) => _ ← require (db_status d) undefined_column; @Ok dberr _ (sessions d !! sid)).
  destruct (calm_query OpMetadata q w1 Hcalm1 eq_refl) as (w2 & Hq & Hc2 & Hcalm2 & Hck2).
  assert (pgGetSession sid w1 = (Ok (sessionRecord sid row), w2)) as Hget.
  { unfold pgGetSession. fold q. rewrite Hq. unfold q. rewrite Hd. simpl. rewrite Sst, Hstatus. simpl.
    by rewrite lookup_insert_eq. }
  destruct (commit_runs vid tenant sid node sha (crBlocks creq) row w2 Hcalm2) as [w3 Hw3].
  { rewrite Hc2. constructor; simpl; try done; try (rewrite Hd; simpl; congruence); try lia.
    - rewrite Hd. done.
    - rewrite Hd. simpl. by rewrite Sver, Sman.
    - apply hex_decode_slen in Hsha. lia. }
  rewrite Hc2 in Hw3.
  destruct (handleCommit_runs srv vid eid creq events w1 w2 w3 sid sha (sessionRecord sid row) tenant
    (uuid_String vid) (next_version_number node (contents w1))) as (events' & w4 & Hrun & Hev & Hbump); try done.
  - unfold CommitValidate. rewrite Hsess, (proj2 (Z.eqb_eq _ _) Hsl), (bool_decide_true (is_Some _)) by done.
    rewrite bool_decide_false by (intros He%(f_equal uuid_Parse); by rewrite uuid_Parse_String, uuid_Parse_empty in He).
    by apply validBlocks_runs.
  - by rewrite Hsess, uuid_Parse_String.
  - simpl. rewrite Hck2, Hck. lia.
  - simpl. apply uuid_Parse_String.
  - exists tenant, events', w2, w3, w4. split_and!; try done; try (by rewrite Hck2).
    intros Hbus. rewrite Hbus in Hev. eexists. split; [exact Hev|]. rewrite Hresp. done.
Qed.

End handler_lemmas.

(** ** Properties *)

Section handler_properties.
Context `{U : UUID}.

(** C29. Initiating an upload asks for exactly the missing blocks: when [handleInitiate]
    succeeds against an undisturbed database and the request names its blocks in lowercase
    hex, the upload URLs are those of the chunks whose block is not registered, in request
    order and with their sizes, each minted for this tenant, no block row changes, and the
    new session row expects all chunks of the request. *)
Theorem handleInitiate_requests_missing (srv : IngressServer) (nid sid : uuid) (req : InitiateRequest)
    (w w' : world db) (resp : InitiateResponse) (Hcalm : calm w)
    (Hlow : Forall (fun c => str_forall is_lower_hex_char (ciHash c) = true) (irChunks req))
    (Hrun : handleInitiate srv nid sid (Some req) w = (Ok resp, w')) :
  exists tenant, uuid_Parse (irTenant req) = Some tenant /\
    let missing := filter (fun c => knownBlock (contents w) c = false) (irChunks req) in
    uuHash <$> ipURLs resp = ciHash <$> missing /\ uuSize <$> ipURLs resp = ciSize <$> missing /\
    Forall2 (fun c u => mintURL srv tenant c = Ok (uuURL u)) missing (ipURLs resp) /\
    cas (contents w') = cas (contents w) /\
    exists row, sessions (contents w') !! sid = Some row /\ ipSession resp = uuid_String sid /\
      ss_tenant row = tenant /\ ss_status row = "INITIATED" /\ ss_total row = irTotal req /\
      ss_expected row = zlen (irChunks req).
Proof.
  destruct (initiate_effect _ _ _ _ _ _ _ Hcalm Hrun) as (tenant & node & d & urls & hashes & Hval & Hten &
    _ & Hresp & Hdec & Hm & Hsame & Hses & _).
  apply mintMissing_spec in Hm. apply InitiateValidate_ok in Hval as (_ & _ & Hlen).
  rewrite (list_filter_iff_elem _ (fun c => knownBlock (contents w) c = false)) in Hm.
  2: { intros c Hc. rewrite existing_lookup. rewrite Forall_forall in Hlow, Hlen.
       rewrite (known_lookup (contents w) (irChunks req)); [done|done|done|by apply Hlow|by apply Hlen]. }
  destruct Hm as (H1 & H2 & H3). apply session_insert_spec in Hses as (Hd & _).
  exists tenant. rewrite Hd, Hresp. simpl. rewrite lookup_insert_eq. split_and!; try done.
  - by destruct Hsame.
  - eexists. split_and!; done.
Qed.

(** Quota: with a non-negative usage, a tenant over quota gets [ErrQuotaExceeded] (402)
    and no change, and an admitted upload fits the quota, unless the tenant has none or the
    [int64] sum of used and requested bytes overflows; then the request is always admitted. *)
Theorem handleInitiate_quota (srv : IngressServer) (nid sid tenant : uuid) (req : InitiateRequest)
    (tr : tenantRow) (w : world db) (Hcalm : calm w) (Hval : InitiateValidate req = Ok tt)
    (Hten : uuid_Parse (irTenant req) = Some tenant) (Htr : tenantsT (contents w) !! tenant = Some tr)
    (Hused : 0 <= t_used tr <= maxInt64) (Hquota : t_quota tr <= maxInt64) (Htotal : irTotal req <= maxInt64) :
  let r := handleInitiate srv nid sid (Some req) w in
  let sum := t_used tr + irTotal req in
  (0 < t_quota tr -> t_quota tr < sum <= maxInt64 ->
     r.1 = Err (Sent ErrQuotaExceeded) /\ contents r.2 = contents w) /\
  (is_ok r.1 = true -> t_quota tr <= 0 \/ sum <= t_quota tr \/ maxInt64 < sum) /\
  (maxInt64 < sum -> overQuota (mkQuota (t_quota tr) (t_used tr)) (irTotal req) = false).
Proof.
  pose proof (InitiateValidate_ok _ Hval) as (_ & Htot & _). cbv zeta.
  pose proof (overQuota_spec (mkQuota (t_quota tr) (t_used tr)) (irTotal req) Hused (conj Htot Htotal) Hquota)
    as Hspec. simpl in Hspec. split_and!.
  - intros Hq Hs. unfold handleInitiate. rewrite Hval, Hten. simpl. unfold pgGetTenantQuota.
    destruct (calm_query OpMetadata (fun _ d => @Ok dberr _ (tenantsT d !! tenant)) w Hcalm eq_refl)
      as (w1 & Hq1 & Hc1 & _).
    rewrite Hq1. simpl. rewrite Htr. simpl. rewrite (proj2 Hspec) by lia. done.
  - destruct (handleInitiate srv nid sid (Some req) w) as [[resp|e] w'] eqn:Hr; [|done]. intros _.
    apply initiate_effect in Hr as (tenant' & _ & _ & _ & _ & _ & Hten' & (tr' & Htr' & Hover) & _); [|done].
    simplify_eq. assert (~ (0 < t_quota tr /\ t_quota tr < t_used tr + irTotal req <= maxInt64)); [|lia].
    rewrite <- Hspec, Hover. done.
  - intros Hs. apply not_true_is_false. rewrite Hspec. lia.
Qed.

(** C28. A committed file is announced once and only then: over any store, a successful
    [handleCommit] comes from a successful [CommitFile] of an open, unexpired session and
    (with an event bus) hands over exactly one event, with the tenant, node, version and
    block list that were committed; an error hands over none. *)
Theorem handleCommit_publishes_once {S} `{St : Store S} (srv : IngressServer) (vid eid : uuid)
    (body : option CommitRequest) (events : list FileCommittedEvent) (s : S) :
  match handleCommit srv vid eid body events s with
  | (Err _, events', _) => events' = events
  | (Ok resp, events', _) =>
      exists req sid sha sess tenant s1 s2 at_, body = Some req /\ CommitValidate req = Ok tt /\
        uuid_Parse (crSession req) = Some sid /\ hex_decode (crSHA req) = Some sha /\
        GetSession sid s = (Ok sess, s1) /\ srStatus sess <> "COMPLETED" /\ Now s1 <= srExpires sess /\
        uuid_Parse (srTenant sess) = Some tenant /\
        CommitFile vid tenant sid sha (crBlocks req) s1 = (Ok (cpVersion resp, cpNumber resp), s2) /\
        events' = events ++ (if srvEvents srv
          then [committedEvent eid tenant sess (cpVersion resp) (cpNumber resp) at_ req] else [])
  end.
Proof.
  destruct (handleCommit srv vid eid body events s) as [[[resp|e] events'] s'] eqn:Hrun; revert Hrun;
    unfold handleCommit.
  - destruct body as [req|]; [|done]. destruct (CommitValidate req) as [[]|] eqn:Hval; [|done].
    destruct (uuid_Parse (crSession req)) as [sid|] eqn:Hsid; [|done].
    destruct (hex_decode (crSHA req)) as [sha|] eqn:Hsha; [|done].
    destruct (GetSession sid s) as [[sess|] s1] eqn:Hget; [|done].
    case_bool_decide as Hst; [done|]. destruct (srExpires sess <? Now s1) eqn:Hexp; [done|].
    destruct (uuid_Parse (srTenant sess)) as [tenant|] eqn:Hten; [|done].
    destruct (CommitFile vid tenant sid sha (crBlocks req) s1) as [[[v n]|] s2] eqn:Hc; [|done].
    destruct (match srvBlob srv with Some b => _ | None => _ end) as [[[]|] s4]; [|done]. intros. simplify_eq.
    exists req, sid, sha, sess, tenant, s1, s2, (Now s'). bool_hyps. split_and!; try done; try lia.
    destruct (srvEvents srv); [done|by rewrite app_nil_r].
  - repeat case_match; intros; simplify_eq; done.
Qed.


(** Authentication comes first: with a configured token, a request whose Authorization
    header is not exactly "Bearer " followed by the token gets 401 and the handler never
    runs; otherwise the status is the handler's. *)
Theorem wrap_authenticates {S A} (srv : IngressServer) (hdr : string) (okStatus : Z)
    (fn : S -> result ierr A * S) (s : S) :
  wrap srv hdr okStatus fn s =
  if decide (srvToken srv = "" \/ hdr = "Bearer " +:+ srvToken srv)
  then match fn s with
       | (Ok a, s') => (okStatus, Some a, s')
       | (Err e, s') => (HTTPStatus (Some e), None, s')
       end
  else (401, None, s).
Proof.
  unfold wrap, authenticate. case_bool_decide as Ht; [by rewrite decide_True by auto|].
  destruct (has_prefix "Bearer " hdr) eqn:Hp.
  - apply has_prefix_split in Hp as [rest ->]. rewrite trim_prefix_app. simpl negb. cbv iota.
    case_bool_decide as Hr; [subst rest; rewrite decide_True by auto; done|].
    rewrite decide_False; [done|]. intros [?|He]; [done|]. apply Hr. by simplify_eq.
  - rewrite decide_False; [done|]. intros [?|He]; [done|]. rewrite He in Hp. by rewrite has_prefix_app in Hp.
Qed.

End handler_properties.

(** ** Witnesses *)

Definition idX : uuid := mkId "x".
Definition idY : uuid := mkId "y".
Definition otherBytes : string := "another-block-of-thirty-two-byte".

(** A server with an event bus that signs URLs itself. *)
Definition demoSrv : IngressServer :=
  mkServer None (fun tenant hash ep => Ok ("https://" +:+ ep +:+ "/" +:+ hash)) true "edge" "secret" 1000.

(** The database of the commit witnesses with one of the two blocks registered. *)
Definition initWorld : world db :=
  mkWorld (setCas {[blockBytes := mkCas idT 10 "HOT" 0 true 0 0]} (ingestDb true (Some 900)))
    5 [] newCircuitBreaker 0 0 0 0 None.

Definition demoInit : InitiateRequest :=
  mkInit (uuid_String idT) "f" None (Some (uuid_String idN)) 20
    [mkChunkInfo (hex_encode blockBytes) 10; mkChunkInfo (hex_encode otherBytes) 10].

Definition demoInitRun := handleInitiate demoSrv idY idX (Some demoInit) initWorld.

Definition demoInitResp : InitiateResponse :=
  mkInitResp (uuid_String idX) (uuid_String idN) 905
    [mkUpload (hex_encode otherBytes) ("https://edge/" +:+ hex_encode otherBytes) 10].

Lemma demoInitRun_ok : demoInitRun = (Ok demoInitResp, demoInitRun.2).
Proof. rewrite (surjective_pairing demoInitRun) at 1. f_equal. all: vm_compute; reflexivity. Qed.

Lemma handleInitiate_requests_missing_witness :
  exists tenant, uuid_Parse (irTenant demoInit) = Some tenant /\
    Forall2 (fun c u => mintURL demoSrv tenant c = Ok (uuURL u))
      (filter (fun c => knownBlock (contents initWorld) c = false) (irChunks demoInit)) (ipURLs demoInitResp).
Proof.
  destruct (handleInitiate_requests_missing demoSrv idY idX demoInit initWorld demoInitRun.2 demoInitResp)
    as (tenant & H1 & _ & _ & H2 & _).
  - split; reflexivity.
  - repeat constructor; vm_compute; reflexivity.
  - exact demoInitRun_ok.
  - exists tenant. split; assumption.
Defined.

Lemma handleInitiate_quota_witness :
  (handleInitiate demoSrv idY idX (Some (mkInit (uuid_String idT) "f" None (Some (uuid_String idN)) 200
     [mkChunkInfo (hex_encode blockBytes) 10])) initWorld).1 = Err (Sent ErrQuotaExceeded).
Proof.
  destruct (handleInitiate_quota demoSrv idY idX idT (mkInit (uuid_String idT) "f" None
    (Some (uuid_String idN)) 200 [mkChunkInfo (hex_encode blockBytes) 10]) (mkTenant 100 0) initWorld) as [H _].
  - split; reflexivity.
  - vm_compute. reflexivity.
  - apply uuid_Parse_String.
  - apply lookup_singleton_eq.
  - unfold maxInt64. simpl. lia.
  - unfold maxInt64. simpl. lia.
  - unfold maxInt64. simpl. lia.
  - apply H; unfold maxInt64; simpl; lia.
Defined.

Definition demoCommitReq : CommitRequest :=
  mkCommit (uuid_String idX) (hex_encode blockBytes) ""
    [mkBlock (hex_encode blockBytes) 0 0 10 ""; mkBlock (hex_encode otherBytes) 1 10 10 ""].

