(* ===== verification/Middleware.v ===== *)
(** * HTTP middleware

    [internal/ingress/redis_ratelimit.go] (sliding window), [idempotency.go], [cors.go] and
    [internal/auth/rbac.go].  A handler is a function on its own state that returns a
    status and a body.  The JSON form of a cached response is an encoder and a decoder
    ([encoding/json]) with their round trip. *)
From stdpp Require Import sorting.
From S2P Require Import Prelude GoLib External.

(** ** The sliding window ([redis_ratelimit.go])

    A Redis sorted set maps members to scores; a key holds a set and the time (in
    milliseconds) at which it expires.  The script sees the caller's clock, which is
    taken to be the server's. *)

Abbreviation zset := (gmap string Z).
Abbreviation rlStore := (gmap string (gmap string Z * Z)).

(** The set at [key], empty when absent or expired. *)
Definition zlive (now : Z) (key : string) (st : rlStore) : zset :=
  match st !! key with
  | Some (z, e) => if now <? e then z else ∅
  | None => ∅
  end.

(** ZREMRANGEBYSCORE key 0 hi. *)
Definition zremrange (hi : Z) (z : zset) : zset := filter (fun kv => ~ (0 <= kv.2 <= hi)) z.

(** Redis deletes a key whose set became empty; the expiry stays. *)
Definition zput (key : string) (z : zset) (st : rlStore) : rlStore :=
  match st !! key with
  | Some (_, e) => if decide (z = ∅) then delete key st else <[key := (z, e)]> st
  | None => st
  end.

Definition slidingWindowScript (key : string) (now window limit : Z) (id : string) (st : rlStore)
    : (Z * Z * Z) * rlStore :=
  let z := zremrange (now - window) (zlive now key st) in
  let current := Z.of_nat (size z) in
  if current <? limit
  then ((1, limit - current - 1, limit), <[key := (<[id := now]> z, now + window)]> st)
  else ((0, 0, limit), zput key z st).

Record RateConfig := mkRate { rcWindow : Z; rcLimit : Z }.

(** [NewRedisSlidingRateLimiter]; the window is kept in nanoseconds. *)
Definition NewRedisSlidingRateLimiter (window limit : Z) : RateConfig :=
  mkRate (if window <=? 0 then 60 * 1000000000 else window) (if limit <=? 0 then 1000 else limit).

Definition rateKey (tenantHeader : string) : string :=
  "aegis:ratelimit:" +:+ (if bool_decide (tenantHeader = "") then "global" else tenantHeader).

(** What the middleware decides: run the handler without limit headers (Redis failed), run
    it with the headers limit, remaining and reset, or answer 429 with Retry-After. *)
Inductive rlDecision := RLFailOpen | RLAllow (limit remaining reset : Z) | RLReject (limit reset retryAfter : Z).

(** [nowNs] is the clock of the pod in nanoseconds. *)
Definition rateMiddleware (nw : net) (nowNs : Z) (c : RateConfig) (tenantHeader id : string) (st : rlStore)
    : rlDecision * rlStore :=
  let '(r, st') := call nw (slidingWindowScript (rateKey tenantHeader) (nowNs / 1000000)
                              (Z.quot (rcWindow c) 1000000) (rcLimit c) id) st in
  let reset := (nowNs + rcWindow c) / 1000000000 in
  (match r with
   | Err _ => RLFailOpen
   | Ok (allowed, remaining, limit) =>
       if allowed =? 1 then RLAllow limit remaining reset
       else RLReject limit reset (Z.quot (rcWindow c) 1000000000)
   end, st').

(** A request as the script sees it: time in milliseconds, key, identifier; whether the
    command reached Redis. *)
Record rlReq := mkRlReq { rqMs : Z; rqKey : string; rqId : string; rqReached : bool }.

(** The requests the script admitted, in order. *)
Fixpoint rlRun (window limit : Z) (rs : list rlReq) (st : rlStore) : list rlReq :=
  match rs with
  | [] => []
  | r :: rs' =>
      if rqReached r then
        let '((allowed, _, _), st') := slidingWindowScript (rqKey r) (rqMs r) window limit (rqId r) st in
        if allowed =? 1 then r :: rlRun window limit rs' st' else rlRun window limit rs' st'
      else rlRun window limit rs' st
  end.

(** ** Idempotency keys ([idempotency.go]) *)

Record CachedResponse := mkResp { StatusCode : Z; Body : string }.

(** The body [http.Error] writes for a conflict: the JSON text and a newline. *)
Definition quot (s : string) : string := String "034"%char (s +:+ String "034"%char EmptyString).
Definition conflictBody : string :=
  "{" +:+ quot "error" +:+ ":" +:+ quot "idempotency_conflict" +:+ "," +:+ quot "detail" +:+ ":" +:+
  quot "Request in progress" +:+ "}" +:+ String "010"%char EmptyString.

Definition inProgress : string := "IN_PROGRESS".

Definition idemKey (tenantHeader key : string) : string :=
  "aegis:idempotency:" +:+ (if bool_decide (tenantHeader = "") then "global" else tenantHeader) +:+ ":" +:+ key.

Definition idemTTL (ttl : Z) : Z := if ttl <=? 0 then 24 * 3600 * 1000000000 else ttl.

(** What the middleware does with a request: run the handler and cache its answer, run it
    unprotected (no key, or Redis failed), replay the cached answer, or answer 409. *)
Inductive idemDecision := IdemRun | IdemOpen | IdemReplay (c : CachedResponse) | IdemConflict.

Section idempotency.
Context `{Redis} (enc : CachedResponse -> string) (dec : string -> option CachedResponse).

(** Up to the call of the handler; [nwGet] is the network around the second command. *)
Definition idemStart (nw nwGet : net) (now ttl : Z) (tenantHeader key : string) (r : redis)
    : idemDecision * redis :=
  if bool_decide (key = "") then (IdemOpen, r)
  else match call nw (r_setnx now (idemKey tenantHeader key) inProgress ttl) r with
  | (Err _, r') => (IdemOpen, r')
  | (Ok true, r') => (IdemRun, r')
  | (Ok false, r') =>
      (match (match nwGet with NetOk => r_get now (idemKey tenantHeader key) r' | _ => None end) with
       | Some v => if bool_decide (v = inProgress) then IdemConflict
                   else match dec v with Some c => IdemReplay c | None => IdemConflict end
       | None => IdemConflict
       end, r')
  end.

(** After the handler of an [IdemRun] request returned. *)
Definition idemFinish (nw : net) (now ttl : Z) (tenantHeader key : string) (c : CachedResponse) (r : redis) : redis :=
  (call nw (fun r => (tt, r_set now (idemKey tenantHeader key) (enc c) ttl r)) r).2.

(** The whole middleware around a handler, in one go. *)
Definition idemMiddleware {S : Type} (nw nwGet nwSet : net) (now done ttl : Z) (tenantHeader key : string)
    (next : S -> CachedResponse * S) (s : S * redis) : CachedResponse * (S * redis) :=
  let '(d, r1) := idemStart nw nwGet now ttl tenantHeader key s.2 in
  match d with
  | IdemOpen => let '(c, s') := next s.1 in (c, (s', r1))
  | IdemReplay c => (c, (s.1, r1))
  | IdemConflict => (mkResp 409 conflictBody, (s.1, r1))
  | IdemRun => let '(c, s') := next s.1 in (c, (s', idemFinish nwSet done ttl tenantHeader key c r1))
  end.

End idempotency.

(** *** The recorder around the handler's writer *)

Inductive respOp := WriteHeader (code : Z) | WriteBody (b : string).

(** What net/http sends: the first status counts, a body without status means 200. *)
Record responseWriter := mkWriter { rwStatus : option Z; rwBody : string }.

Definition writerOp (o : respOp) (w : responseWriter) : responseWriter :=
  match o with
  | WriteHeader code => mkWriter (Some (default code (rwStatus w))) (rwBody w)
  | WriteBody b => mkWriter (Some (default 200 (rwStatus w))) (rwBody w +:+ b)
  end.

Record responseRecorder := mkRecorder { recBody : string; recStatus : Z; recUnder : responseWriter }.

Definition recorderOp (o : respOp) (r : responseRecorder) : responseRecorder :=
  match o with
  | WriteHeader code => mkRecorder (recBody r) code (writerOp o (recUnder r))
  | WriteBody b => mkRecorder (recBody r +:+ b) (recStatus r) (writerOp o (recUnder r))
  end.

(** The answer that is cached and the one that the client got, after the calls of a handler. *)
Definition recorded (ops : list respOp) : CachedResponse * CachedResponse :=
  let r := foldl (fun r o => recorderOp o r) (mkRecorder "" 200 (mkWriter None "")) ops in
  (mkResp (recStatus r) (recBody r), mkResp (default 200 (rwStatus (recUnder r))) (rwBody (recUnder r))).

(** ** CORS ([cors.go]) *)

Record CORSConfig := mkCors {
  AllowedOrigins : list string; AllowedMethods : list string; AllowedHeaders : list string;
  MaxAge : Z; AllowCredentials : bool
}.

Definition DefaultCORSConfig : CORSConfig :=
  mkCors [] ["GET"; "POST"; "PUT"; "DELETE"; "OPTIONS"]
    ["Authorization"; "Content-Type"; "X-Tenant-ID"; "X-Request-ID"] 86400 false.

(** [strings.Join]. *)
Definition join (sep : string) (l : list string) : string :=
  match l with
  | [] => ""
  | x :: l' => foldl (fun acc y => acc +:+ sep +:+ y) x l'
  end.

(** The headers the middleware sets and the handler's answer, or the bare 204 of a
    preflight. *)
Definition CORSMiddleware {S : Type} (cfg : CORSConfig) (origin method : string)
    (next : S -> CachedResponse * S) (s : S) : list (string * string) * CachedResponse * S :=
  if bool_decide (AllowedOrigins cfg = []) then let '(c, s') := next s in ([], c, s')
  else if bool_decide (origin = "" \/ origin ∉ AllowedOrigins cfg) then let '(c, s') := next s in ([], c, s')
  else
    let hs := [("Access-Control-Allow-Origin", origin);
               ("Access-Control-Allow-Methods", join ", " (AllowedMethods cfg));
               ("Access-Control-Allow-Headers", join ", " (AllowedHeaders cfg));
               ("Access-Control-Max-Age", format_int (MaxAge cfg))] ++
              (if AllowCredentials cfg then [("Access-Control-Allow-Credentials", "true")] else []) in
    if bool_decide (method = "OPTIONS") then (hs, mkResp 204 "", s)
    else let '(c, s') := next s in (hs, c, s').

(** ** Roles ([rbac.go]) *)

Definition PermissionWorkspaceRead : string := "workspace:read".
Definition PermissionFileWrite : string := "file:write".
Definition PermissionFileDelete : string := "file:delete".
Definition PermissionAdminKeys : string := "admin:keys".
Definition PermissionAuditExport : string := "audit:export".

Definition RolePermissionMap : list (string * list string) :=
  [("OWNER", [PermissionWorkspaceRead; PermissionFileWrite; PermissionFileDelete; PermissionAdminKeys;
              PermissionAuditExport]);
   ("EDITOR", [PermissionWorkspaceRead; PermissionFileWrite]);
   ("VIEWER", [PermissionWorkspaceRead])].

Fixpoint assoc {A} (k : string) (l : list (string * A)) : option A :=
  match l with [] => None | (k', v) :: l' => if bool_decide (k' = k) then Some v else assoc k l' end.

Definition HasPermission (role required : string) : bool :=
  match assoc role RolePermissionMap with
  | None => false
  | Some perms => existsb (fun p => bool_decide (p = required)) perms
  end.

Record UserContext := mkUser { UserID : string; ucTenant : string; ucRole : string }.

(** [user] is the context value ([None] when absent); the answer is the status written, or
    the handler's. *)
Definition RBACMiddleware {S : Type} (required : string) (user : option UserContext) (tenantHeader : string)
    (next : S -> Z * S) (s : S) : Z * S :=
  match user with
  | None => (401, s)
  | Some u =>
      if negb (bool_decide (tenantHeader = "")) && negb (EqualFold tenantHeader (ucTenant u)) then (403, s)
      else if negb (HasPermission (ucRole u) required) then (403, s)
      else next s
  end.

(** ** Lemmas: the sliding window *)

(** The admitted requests of a key whose time lies in the window that ends at [t]. *)
Definition inWindow (window t : Z) (key : string) (log : list rlReq) : list rlReq :=
  filter (fun r => rqKey r = key /\ t - window < rqMs r <= t) log.

(** The set of a key remembers every admitted request that is still in the window. *)
Definition remembered (window now : Z) (log : list rlReq) (st : rlStore) : Prop :=
  forall r, r ∈ log -> now - window < rqMs r ->
    exists z e, st !! rqKey r = Some (z, e) /\ z !! rqId r = Some (rqMs r) /\ rqMs r + window <= e.

Lemma length_le_size (l : list string) (X : gset string) :
  NoDup l -> (forall x, x ∈ l -> x ∈ X) -> (length l <= size X)%nat.
Proof.
  intros Hnd Hin. rewrite <- (size_list_to_set (C := gset string) l Hnd). apply subseteq_size.
  intros x Hx. apply Hin. by apply elem_of_list_to_set in Hx.
Qed.

(** What the script counts includes every remembered request of the window. *)
Lemma window_counted window now key log st :
  Forall (fun r => 0 <= rqMs r <= now) log -> NoDup (rqId <$> log) ->
  remembered window now log st ->
  Z.of_nat (length (inWindow window now key log))
    <= Z.of_nat (size (zremrange (now - window) (zlive now key st))).
Proof.
  intros Htimes Hnd Hrem. apply Nat2Z.inj_le.
  rewrite <- (length_fmap rqId), <- (size_dom (D := gset string)). apply length_le_size.
  - eapply sublist_NoDup; [exact Hnd|]. unfold inWindow. apply fmap_sublist, sublist_filter.
  - intros x Hx. apply list_elem_of_fmap in Hx as (r & -> & Hr). apply list_elem_of_filter in Hr as [[Hk Ht] Hin].
    destruct (Hrem r Hin ltac:(lia)) as (z & e & Hst & Hz & He).
    apply elem_of_dom. exists (rqMs r). unfold zremrange. rewrite map_lookup_filter_Some. split.
    + unfold zlive. subst key. rewrite Hst. destruct (now <? e) eqn:El; bool_hyps; [done|lia].
    + simpl. lia.
Qed.

(** A remembered request of the key survives the removal of old members. *)
Lemma remembered_kept window now key log st r :
  remembered window now log st -> r ∈ log -> rqKey r = key -> now - window < rqMs r ->
  zremrange (now - window) (zlive now key st) !! rqId r = Some (rqMs r) /\
  exists z e, st !! key = Some (z, e) /\ rqMs r + window <= e.
Proof.
  intros Hrem Hr <- Ht. destruct (Hrem r Hr Ht) as (z & e & Hst & Hz & He). split; [|eauto].
  unfold zremrange. rewrite map_lookup_filter_Some. unfold zlive. rewrite Hst. split; [|simpl; lia].
  destruct (now <? e) eqn:El; bool_hyps; [done|lia].
Qed.

Lemma remembered_later window now now' log st :
  now <= now' -> remembered window now log st -> remembered window now' log st.
Proof. intros Hle Hrem r Hr Ht. apply Hrem; [done|lia]. Qed.

Lemma remembered_admit window now log st r :
  rqMs r = now -> Forall (fun r' => rqMs r' <= now) log -> rqId r ∉ rqId <$> log ->
  remembered window now log st ->
  remembered window now (log ++ [r])
    (<[rqKey r := (<[rqId r := now]> (zremrange (now - window) (zlive now (rqKey r) st)), now + window)]> st).
Proof.
  intros Hnow Htimes Hid Hrem r' Hr' Ht. apply elem_of_app in Hr' as [Hr'|Hr'].
  - rewrite Forall_forall in Htimes. specialize (Htimes r' Hr'). simpl in Htimes.
    assert (rqId r <> rqId r') as Hne by (intros He; apply Hid; rewrite He; by apply list_elem_of_fmap_2).
    destruct (decide (rqKey r = rqKey r')) as [Hk|Hk].
    + rewrite Hk, lookup_insert_eq. eexists _, _. split_and!; [reflexivity| |lia].
      rewrite lookup_insert_ne by done. by eapply remembered_kept.
    + rewrite lookup_insert_ne by done. by apply Hrem.
  - apply list_elem_of_singleton in Hr' as ->. rewrite lookup_insert_eq. eexists _, _. split_and!; [reflexivity| |lia].
    rewrite lookup_insert_eq. congruence.
Qed.

Lemma remembered_reject window now log st key :
  remembered window now log st ->
  remembered window now log (zput key (zremrange (now - window) (zlive now key st)) st).
Proof.
  intros Hrem r Hr Ht. destruct (decide (rqKey r = key)) as [Hk|Hk].
  - destruct (remembered_kept window now key log st r Hrem Hr Hk Ht) as (Hz & z & e & Hst & He).
    unfold zput. rewrite Hst. rewrite decide_False.
    + rewrite Hk, lookup_insert_eq. eauto.
    + intros Hem. by rewrite Hem, lookup_empty in Hz.
  - destruct (Hrem r Hr Ht) as (z & e & Hst & Hrest). exists z, e. split; [|done]. unfold zput.
    destruct (st !! key) as [[z0 e0]|]; [|done]. case_decide.
    + by rewrite lookup_delete_ne.
    + by rewrite lookup_insert_ne.
Qed.

Lemma inWindow_admit window limit log st r :
  0 < window -> Forall (fun r' => 0 <= rqMs r' <= rqMs r) log -> NoDup (rqId <$> log) ->
  remembered window (rqMs r) log st ->
  Z.of_nat (size (zremrange (rqMs r - window) (zlive (rqMs r) (rqKey r) st))) < limit ->
  (forall key t, Z.of_nat (length (inWindow window t key log)) <= Z.max 0 limit) ->
  forall key t, Z.of_nat (length (inWindow window t key (log ++ [r]))) <= Z.max 0 limit.
Proof.
  intros Hw Htimes Hnd Hrem Hlt Hbound key t. unfold inWindow. rewrite filter_app, length_app.
  rewrite filter_cons, filter_nil. case_decide as Hm; [|simpl; specialize (Hbound key t); unfold inWindow in Hbound; lia].
  destruct Hm as [<- Ht]. simpl.
  pose proof (window_counted window (rqMs r) (rqKey r) log st Htimes Hnd Hrem) as Hc.
  assert (length (filter (fun r' => rqKey r' = rqKey r /\ t - window < rqMs r' <= t)%Z log)
    <= length (inWindow window (rqMs r) (rqKey r) log))%nat as Hle; [|lia].
  unfold inWindow. clear - Htimes Ht Hw. induction Htimes as [|r' log [H0 H1] _ IH]; [done|].
  rewrite !filter_cons. repeat case_decide; simpl; try lia.
  exfalso. naive_solver lia.
Qed.

Lemma rlRun_bound window limit rs log st now :
  0 < window -> Forall (fun r => 0 <= rqMs r <= now) log -> 0 <= now ->
  StronglySorted (fun a b => rqMs a <= rqMs b) rs -> Forall (fun r => now <= rqMs r) rs ->
  NoDup (rqId <$> log ++ rs) -> remembered window now log st ->
  (forall key t, Z.of_nat (length (inWindow window t key log)) <= Z.max 0 limit) ->
  forall key t, Z.of_nat (length (inWindow window t key (log ++ rlRun window limit rs st))) <= Z.max 0 limit.
Proof.
  intros Hw. revert log st now. induction rs as [|r rs IH]; intros log st now Hlog H0 Hsort Hge Hnd Hrem Hbound.
  { simpl. by rewrite app_nil_r. }
  apply StronglySorted_inv in Hsort as [Hsort Hnext]. apply Forall_cons in Hge as [Hr Hge].
  assert (Forall (fun r' => 0 <= rqMs r' <= rqMs r) log) as Hlog'
    by (eapply Forall_impl; [exact Hlog|]; simpl; lia).
  assert (remembered window (rqMs r) log st) as Hrem' by by eapply remembered_later.
  pose proof Hnd as Hnd'. rewrite fmap_app, NoDup_app in Hnd'. destruct Hnd' as (Hnl & Hdis & _).
  assert (NoDup (rqId <$> log ++ rs)) as Hnd2.
  { eapply sublist_NoDup; [exact Hnd|]. apply fmap_sublist, sublist_app; [done|by apply sublist_cons]. }
  cbn [rlRun]. destruct (rqReached r); [|eapply (IH log st (rqMs r)); done || lia].
  unfold slidingWindowScript. destruct (_ <? limit) eqn:El; simpl; bool_hyps.
  - intros key t.  rewrite (cons_middle r log), app_assoc. eapply (IH _ _ (rqMs r)); try done.
    + apply Forall_app. split; [done|]. constructor; [lia|done].
    + lia.
    + by rewrite <- app_assoc.
    + eapply remembered_admit; [done|eapply Forall_impl; [exact Hlog'|]; simpl; lia| |done].
      intros Hin. apply (Hdis _ Hin). left.
    + by eapply inWindow_admit.
  - eapply (IH log _ (rqMs r)); try done; [lia|]. by apply remembered_reject.
Qed.

(** ** Properties *)


(** ** The recorder *)

Definition isBody (o : respOp) : Prop := match o with WriteBody _ => True | _ => False end.

Lemma recorded_bodies ops r : Forall isBody ops -> recBody r = rwBody (recUnder r) ->
  let r' := foldl (fun r o => recorderOp o r) r ops in
  recBody r' = rwBody (recUnder r') /\ recStatus r' = recStatus r /\
  (rwStatus (recUnder r) = None -> recStatus r = 200 -> default 200 (rwStatus (recUnder r')) = 200) /\
  (forall c, rwStatus (recUnder r) = Some c -> rwStatus (recUnder r') = Some c).
Proof.
  intros Ho. revert r. induction Ho as [|[c|b] ops Hb _ IH]; intros r Hr; cbn [foldl]; [|done|].
  - split_and!; try done. by intros ->.
  - specialize (IH (recorderOp (WriteBody b) r)). simpl in IH. rewrite Hr in IH. specialize (IH eq_refl).
    destruct IH as (H1 & H2 & H3 & H4). simpl. rewrite Hr. split_and!; [done|by rewrite H2| |].
    + intros Hn Hs. destruct (rwStatus (recUnder r)) eqn:E; [done|]. rewrite (H4 200); done.
    + intros c Hc. apply H4. by rewrite Hc.
Qed.

(** The cached answer is the one the client got, when the handler sets the status at most
    once and before the body. *)
Theorem recorder_faithful (status : option Z) (bodies : list respOp) (Hb : Forall isBody bodies) :
  let ops := match status with Some c => [WriteHeader c] | None => [] end ++ bodies in
  (recorded ops).1 = (recorded ops).2.
Proof.
  unfold recorded. destruct status as [c|]; cbv zeta; simpl.
  - destruct (recorded_bodies bodies (mkRecorder "" c (mkWriter (Some c) "")) Hb eq_refl) as (H1 & H2 & _ & H4).
    by rewrite H1, H2, (H4 c).
  - destruct (recorded_bodies bodies (mkRecorder "" 200 (mkWriter None "")) Hb eq_refl) as (H1 & H2 & H3 & _).
    by rewrite H1, H2, H3.
Qed.

(** A second status is cached, although the client got the first. *)
Example recorder_second_status : (StatusCode (recorded [WriteHeader 201; WriteHeader 500]).1,
  StatusCode (recorded [WriteHeader 201; WriteHeader 500]).2) = (500, 201).
Proof. reflexivity. Qed.

(** ** Idempotency: what other requests can do to the key *)

Inductive idemEv :=
| IStart (nw : net) (now : Z) (tenant key : string)
| IFinish (nw : net) (now : Z) (tenant key : string) (c : CachedResponse).

Definition idemEvTime (e : idemEv) : Z := match e with IStart _ now _ _ | IFinish _ now _ _ _ => now end.

(** A request of any key may begin, and the handlers of other keys may finish. *)
Definition bystander (k : string) (e : idemEv) : Prop :=
  match e with IStart _ _ _ _ => True | IFinish _ _ t key _ => idemKey t key <> k end.

Section idempotency_lemmas.
Context `{Redis} (enc : CachedResponse -> string) (dec : string -> option CachedResponse).

Definition idemStep (ttl : Z) (r : redis) (e : idemEv) : redis :=
  match e with
  | IStart nw now t key => (idemStart dec nw NetOk now ttl t key r).2
  | IFinish nw now t key c => idemFinish enc nw now ttl t key c r
  end.

Lemma setnx_keeps nw now k k' v ttl r t w :
  0 < ttl -> now <= t -> r_get t k r = Some w -> r_get t k (call nw (r_setnx now k' v ttl) r).2 = Some w.
Proof.
  intros Httl Ht Hg.
  assert (r_get t k (r_setnx now k' v ttl r).2 = Some w) as Hs.
  { destruct (r_get now k' r) as [u|] eqn:Hk'.
    - destruct (r_setnx_taken now k' v ttl r u Hk') as (r' & -> & Hr'). simpl. by rewrite Hr'.
    - destruct (r_setnx_free now k' v ttl r Httl Hk') as (r' & -> & Hr'). simpl. rewrite Hr' by done.
      rewrite decide_False; [done|]. intros ->. by rewrite (r_get_expires now t k' r w Ht Hg) in Hk'. }
  unfold call. destruct nw; [|done|exact Hs]. by destruct (r_setnx now k' v ttl r).
Qed.

Lemma idemStep_keeps ttl k r e t w :
  0 < ttl -> bystander k e -> idemEvTime e <= t -> r_get t k r = Some w -> r_get t k (idemStep ttl r e) = Some w.
Proof.
  intros Httl Hby Ht Hg. destruct e as [nw now th key|nw now th key c]; simpl in *.
  - unfold idemStart. case_bool_decide; [done|].
    pose proof (setnx_keeps nw now k (idemKey th key) inProgress ttl r t w Httl Ht Hg) as Hk.
    destruct (call nw _ r) as [[[]|] r']; exact Hk.
  - unfold idemFinish, call. destruct nw; simpl; try done; rewrite r_set_get by done;
      by rewrite decide_False by congruence.
Qed.

Lemma idemSteps_keep ttl k r evs t w :
  0 < ttl -> Forall (bystander k) evs -> Forall (fun e => idemEvTime e <= t) evs ->
  r_get t k r = Some w -> r_get t k (foldl (idemStep ttl) r evs) = Some w.
Proof.
  intros Httl Hby Ht. revert r. induction evs as [|e evs IH]; intros r Hg; [done|].
  apply Forall_cons in Hby as [? ?], Ht as [? ?]. simpl. apply IH; [done|done|]. by apply idemStep_keeps.
Qed.

(** A request that meets a value at its key. *)
Lemma idemStart_taken nw t ttl th key r w :
  key <> "" -> r_get t (idemKey th key) r = Some w ->
  (idemStart dec nw NetOk t ttl th key r).1 <> IdemRun /\
  (idemStart dec NetOk NetOk t ttl th key r).1 =
    if decide (w = inProgress) then IdemConflict
    else match dec w with Some c => IdemReplay c | None => IdemConflict end.
Proof.
  intros Hkey Hg. unfold idemStart. rewrite !bool_decide_false by done.
  destruct (r_setnx_taken t (idemKey th key) inProgress ttl r w Hg) as (r' & Hr' & Hget).
  split.
  - unfold call. destruct nw; rewrite ?Hr'; simpl; try done. by repeat case_match.
  - unfold call. rewrite Hr'. simpl. rewrite Hget, Hg by lia. case_decide.
    + by rewrite bool_decide_true.
    + by rewrite bool_decide_false.
Qed.

(** Failures are cached like answers: after a 503 every retry with its key gets the 503 again
    until the entry expires, and the handler does not run. *)
Lemma failure_is_replayed now t ttl th key body r :
  let c := mkResp 503 body in
  key <> "" -> now <= t < now + ttl -> dec (enc c) = Some c -> enc c <> inProgress ->
  (idemStart dec NetOk NetOk t ttl th key (idemFinish enc NetOk now ttl th key c r)).1 = IdemReplay c.
Proof.
  intros c Hkey Ht Hjson Hmark.
  assert (r_get t (idemKey th key) (idemFinish enc NetOk now ttl th key c r) = Some (enc c)) as H1.
  { unfold idemFinish. simpl. rewrite r_set_get by lia. rewrite decide_True by done.
    by rewrite (proj2 (Z.ltb_lt _ _)) by lia. }
  rewrite (proj2 (idemStart_taken NetOk t ttl th key _ _ Hkey H1)). rewrite decide_False by done. by rewrite Hjson.
Qed.

End idempotency_lemmas.


(** Role checks: a request passes exactly when the user is known, the tenant header is
    absent or names the user's tenant up to letter case, and the role grants the
    permission; otherwise the handler does not run and the status is 401 or 403.  Every
    permission of a viewer is one of an editor, and every permission of an editor one of an
    owner; unknown roles have none. *)
Theorem RBAC_sound {S : Type} (required : string) (user : option UserContext) (tenantHeader : string)
    (next : S -> Z * S) (s : S) :
  (RBACMiddleware required user tenantHeader next s =
   match user with
   | None => (401, s)
   | Some u => if decide ((tenantHeader = "" \/ to_lower tenantHeader = to_lower (ucTenant u)) /\
                          HasPermission (ucRole u) required = true)
               then next s else (403, s)
   end) /\
  (HasPermission "VIEWER" required = true -> HasPermission "EDITOR" required = true) /\
  (HasPermission "EDITOR" required = true -> HasPermission "OWNER" required = true) /\
  (forall role, role ∉ ["OWNER"; "EDITOR"; "VIEWER"] -> HasPermission role required = false).
Proof.
  split_and!.
  - destruct user as [u|]; [|done]. unfold RBACMiddleware, EqualFold.
    case_bool_decide as Ht; case_bool_decide as Hf; destruct (HasPermission (ucRole u) required) eqn:Hp; simpl;
      case_decide as Hd; try done; naive_solver.
  - unfold HasPermission. simpl. rewrite orb_false_r. intros ->. done.
  - unfold HasPermission. simpl. rewrite !orb_true_iff. naive_solver.
  - intros role Hr. unfold HasPermission. simpl. rewrite !not_elem_of_cons in Hr.
    rewrite !bool_decide_false by naive_solver. done.
Qed.

(** Cross-origin answers: headers are only added for a configured origin, which is
    echoed exactly; a preflight of such an origin is answered with 204 without running the
    handler, and every other request runs it exactly once on the given state. *)
Theorem CORS_sound {S : Type} (cfg : CORSConfig) (origin method : string)
    (next : S -> CachedResponse * S) (s : S) :
  let '(hs, c, s') := CORSMiddleware cfg origin method next s in
  (origin ∈ AllowedOrigins cfg /\ origin <> "" ->
     assoc "Access-Control-Allow-Origin" hs = Some origin /\
     (method = "OPTIONS" -> c = mkResp 204 "" /\ s' = s)) /\
  (origin ∉ AllowedOrigins cfg -> hs = []) /\
  (method <> "OPTIONS" \/ origin ∉ AllowedOrigins cfg -> (c, s') = next s).
Proof.
  unfold CORSMiddleware. destruct (next s) as [c s1] eqn:Hn.
  case_bool_decide as Hnil; [rewrite Hnil; split_and!; [intros [Hx _]; by apply elem_of_nil in Hx|done|done]|].
  case_bool_decide as Ho; [split_and!; naive_solver|].
  case_bool_decide as Hm; split_and!; simpl; naive_solver.
Qed.

(** ** Witnesses *)


(** A simple encoding of cached responses: the status, a colon, the body. *)
Definition textEnc (c : CachedResponse) : string := format_int (StatusCode c) +:+ ":" +:+ Body c.
Definition textDec (s : string) : option CachedResponse :=
  match split_on ":"%char s with
  | [a; b] => (fun n => mkResp n b) <$> parse_int a
  | _ => None
  end.

