(* ===== verification/Derivation.v ===== *)
(** * internal/derivation: retries, dead letters and the worker pool

    [retry.go], [pool.go], [dlq.go] and the in-memory store of [store.go].  A worker's
    [Process] acts on a state of its own type; [cancel k] says whether the context ends
    during the wait after attempt [k]; time stamps are arguments.  Error messages are
    ASCII. *)
From S2P Require Import Prelude GoLib.

(** ** Events and results ([types.go]) *)

Record DChunk := mkDChunk { dcIndex : Z; dcHash : string; dcSize : Z; dcOffset : Z }.

Record Event := mkEvent {
  evID : string; evType : string; evVersion : string; evNode : string; evTenant : string;
  evTotal : Z; evMime : string; evSHA : string; evCreated : string; evChunks : list DChunk
}.

Definition StatusSuccess : string := "SUCCESS".
Definition StatusFailed : string := "FAILED".
Definition StatusSkipped : string := "SKIPPED".

(** [ResultData] is JSON the pool never looks into. *)
Record ProcessingResult {J : Type} := mkPR {
  prID : string; prVersion : string; prWorker : string; prStatus : string;
  prData : option J; prError : string; prCreated : Z
}.
Arguments ProcessingResult : clear implicits.
Arguments mkPR {J}.

(** ** Errors ([retry.go]) *)

Inductive errno := ECONNRESET | ECONNREFUSED | EPIPE | ECONNABORTED | EHOSTUNREACH | EOtherNo (n : Z).

(** One error of an unwrap chain: a [net.Error] of the net package, a [syscall.Errno], or
    anything else. *)
Inductive dnode := DNet | DErrno (e : errno) | DOther.

(** [derMsg] is the text of [Error()]. *)
Record derr := mkDerr { derChain : list dnode; derMsg : string }.

Definition transientPatterns : list string :=
  ["timeout"; "connection reset"; "connection refused"; "broken pipe"; "no route to host";
   "network is unreachable"; "temporary failure"; "context deadline exceeded"; "i/o timeout"; "eof"].

(** [errors.As] with a [net.Error] target: [syscall.Errno] has the methods of that
    interface ([Error], [Timeout], [Temporary]) too. *)
Definition asNetError (e : derr) : bool :=
  existsb (fun n => match n with DNet | DErrno _ => true | DOther => false end) (derChain e).

Fixpoint asErrno (l : list dnode) : option errno :=
  match l with [] => None | DErrno e :: _ => Some e | _ :: l' => asErrno l' end.

Definition transientErrno (e : errno) : bool :=
  match e with EOtherNo _ => false | _ => true end.

Definition IsTransient (err : option derr) : bool :=
  match err with
  | None => false
  | Some e =>
      if asNetError e then true
      else if (match asErrno (derChain e) with Some n => transientErrno n | None => false end) then true
      else existsb (fun p => contains (to_lower (derMsg e)) p) transientPatterns
  end.

(** ** Retry *)

Record RetryConfig := mkRetry { MaxAttempts : Z; BaseDelay : Z; MaxDelay : Z }.

Definition sec : Z := 1000000000.

Definition retryDefaults (c : RetryConfig) : RetryConfig :=
  mkRetry (if MaxAttempts c <=? 0 then 5 else MaxAttempts c)
          (if BaseDelay c <=? 0 then 1 * sec else BaseDelay c)
          (if MaxDelay c <=? 0 then 16 * sec else MaxDelay c).

Record RetryResult := mkRR { Attempts : Z; LastErr : option derr; Success : bool }.

(** The doubling loop; [time.Duration] is an [int64]. *)
Fixpoint doubling (n : nat) (delay max : Z) : Z :=
  match n with
  | O => delay
  | S n' => let d := int64 (delay * 2) in if max <? d then max else doubling n' d max
  end.

Definition backoffDelay (attempt base max : Z) : Z := doubling (Z.to_nat (attempt - 1)) base max.

(** The loop from [attempt] on, [n] attempts left; the second component lists the waits. *)
Fixpoint retryLoop {W : Type} (n : nat) (attempt : Z) (cfg : RetryConfig) (cancel : Z -> option derr)
    (fn : Z -> W -> option derr * W) (lastErr : option derr) (w : W) : RetryResult * list Z * W :=
  match n with
  | O => (mkRR (MaxAttempts cfg) lastErr false, [], w)
  | S n' =>
      let '(r, w1) := fn attempt w in
      match r with
      | None => (mkRR attempt None true, [], w1)
      | Some err =>
          if negb (IsTransient (Some err)) then (mkRR attempt (Some err) false, [], w1)
          else if attempt <? MaxAttempts cfg then
            match cancel attempt with
            | Some e => (mkRR attempt (Some e) false, [], w1)
            | None =>
                let '(rr, ds, w2) := retryLoop n' (attempt + 1) cfg cancel fn (Some err) w1 in
                (rr, backoffDelay attempt (BaseDelay cfg) (MaxDelay cfg) :: ds, w2)
            end
          else retryLoop n' (attempt + 1) cfg cancel fn (Some err) w1
      end
  end.

Definition RetryWithBackoff {W : Type} (cfg0 : RetryConfig) (cancel : Z -> option derr)
    (fn : Z -> W -> option derr * W) (w : W) : RetryResult * list Z * W :=
  let cfg := retryDefaults cfg0 in
  retryLoop (Z.to_nat (MaxAttempts cfg)) 1 cfg cancel fn None w.

(** ** Dead letters ([dlq.go]) *)

Record DeadLetterEntry := mkDead { dlEvent : Event; dlWorker : string; dlError : string; dlAttempts : Z; dlCreated : Z }.

(** [CreatedAt = 0] stands for the zero time. *)
Class DeadLetterQueue (Q : Type) := Enqueue : Z -> DeadLetterEntry -> Q -> option string * Q.

Definition MemoryDLQ : Type := list DeadLetterEntry.

Definition memEnqueue (now : Z) (e : DeadLetterEntry) (q : MemoryDLQ) : option string * MemoryDLQ :=
  let e' := if dlCreated e =? 0 then mkDead (dlEvent e) (dlWorker e) (dlError e) (dlAttempts e) now else e in
  (None, q ++ [e']).

#[global] Instance MemoryDLQ_queue : DeadLetterQueue MemoryDLQ := memEnqueue.

Definition Drain (limit : Z) (q : MemoryDLQ) : list DeadLetterEntry * MemoryDLQ :=
  let n := if (limit <=? 0) || (zlen q <? limit) then zlen q else limit in
  (ztake n q, zdrop n q).

Definition Size (q : MemoryDLQ) : Z := zlen q.

(** ** The pool ([pool.go], [store.go]) *)

Section pool.
Context {W S Q J : Type}.
Record Worker := mkWorker {
  wName : string; ShouldProcess : Event -> bool; Process : Event -> W -> result derr (ProcessingResult J) * W
}.

Class ResultStore := SaveResult : ProcessingResult J -> S -> option string * S.

Context `{RS : ResultStore} `{DQ : DeadLetterQueue Q}.

Definition NewFailedResult (now : Z) (version worker : string) (err : option derr) : ProcessingResult J :=
  mkPR "" version worker StatusFailed None (match err with Some e => derMsg e | None => "" end) now.

(** [psWorker] is the state the workers share (scanner, blob store, ...). *)
Record WorkerPool := mkPool {
  psWorker : W; psStore : S; psDLQ : Q; psEvents : Z; psSaved : Z; resultCounter : Z
}.

Definition setWorker (w : W) (p : WorkerPool) : WorkerPool :=
  mkPool w (psStore p) (psDLQ p) (psEvents p) (psSaved p) (resultCounter p).

(** [generateResultID]: [ts] is the formatted second. *)
Definition generateResultID (ts : string) (p : WorkerPool) : string * WorkerPool :=
  let c := int64 (resultCounter p + 1) in
  (ts +:+ "-" +:+ String (ascii_of_N (Z.to_N (65 + Z.rem c 26))) EmptyString,
   mkPool (psWorker p) (psStore p) (psDLQ p) (psEvents p) (psSaved p) c).

Definition saveResult (r : ProcessingResult J) (p : WorkerPool) : WorkerPool :=
  match SaveResult r (psStore p) with
  | (Some _, st) => mkPool (psWorker p) st (psDLQ p) (psEvents p) (psSaved p) (resultCounter p)
  | (None, st) => mkPool (psWorker p) st (psDLQ p) (psEvents p) (int64 (psSaved p + 1)) (resultCounter p)
  end.

Definition withID (id : string) (r : ProcessingResult J) : ProcessingResult J :=
  mkPR id (prVersion r) (prWorker r) (prStatus r) (prData r) (prError r) (prCreated r).

(** Give the result its identifier, save and return it. *)
Definition finish (ts : string) (r : ProcessingResult J) (p : WorkerPool) : ProcessingResult J * WorkerPool :=
  let '(id, p1) := generateResultID ts p in (withID id r, saveResult (withID id r) p1).

Definition enqueue (now : Z) (e : DeadLetterEntry) (p : WorkerPool) : WorkerPool :=
  mkPool (psWorker p) (psStore p) (Enqueue now e (psDLQ p)).2 (psEvents p) (psSaved p) (resultCounter p).

(** The function retried: the result of a successful [Process] is dropped. *)
Definition attemptFn (wk : Worker) (ev : Event) (_ : Z) (w : W) : option derr * W :=
  match Process wk ev w with
  | (Ok _, w') => (None, w')
  | (Err e, w') => (Some e, w')
  end.

(** [None]: the nil dereference [rr.LastErr.Error()]. *)
Definition processWithRetry (ts : string) (now : Z) (cfg : RetryConfig) (cancel : Z -> option derr)
    (wk : Worker) (ev : Event) (p : WorkerPool) : option (ProcessingResult J * WorkerPool) :=
  let '(rr, _, w1) := RetryWithBackoff cfg cancel (attemptFn wk ev) (psWorker p) in
  let p1 := setWorker w1 p in
  if Success rr then
    match Process wk ev w1 with
    | (Err e, w2) => Some (finish ts (NewFailedResult now (evVersion ev) (wName wk) (Some e)) (setWorker w2 p1))
    | (Ok r, w2) => Some (finish ts r (setWorker w2 p1))
    end
  else
    match LastErr rr with
    | None => None
    | Some e =>
        let p2 := enqueue now (mkDead ev (wName wk) (derMsg e) (Attempts rr) 0) p1 in
        Some (finish ts (NewFailedResult now (evVersion ev) (wName wk) (LastErr rr)) p2)
    end.

(** [ProcessEvent]: the goroutines of the applicable workers finish in the order [order]. *)
Fixpoint processAll (ts : string) (now : Z) (cfg : RetryConfig) (cancel : Z -> option derr)
    (order : list Worker) (ev : Event) (p : WorkerPool) : option (list (ProcessingResult J) * WorkerPool) :=
  match order with
  | [] => Some ([], p)
  | wk :: rest =>
      '(r, p1) ← processWithRetry ts now cfg cancel wk ev p;
      '(rs, p2) ← processAll ts now cfg cancel rest ev p1;
      Some (r :: rs, p2)
  end.

Definition ProcessEvent (ts : string) (now : Z) (cfg : RetryConfig) (cancel : Z -> option derr)
    (order : list Worker) (ev : Event) (p : WorkerPool) : option (list (ProcessingResult J) * WorkerPool) :=
  processAll ts now cfg cancel order ev
    (mkPool (psWorker p) (psStore p) (psDLQ p) (int64 (psEvents p + 1)) (psSaved p) (resultCounter p)).

(** The workers that get a goroutine. *)
Definition applicable (workers : list Worker) (ev : Event) : list Worker :=
  filter (fun w => ShouldProcess w ev = true) workers.

Definition ValidateResult (r : ProcessingResult J) : option string :=
  if bool_decide (prVersion r = "") then Some "derivation: result missing version_id"
  else if bool_decide (prWorker r = "") then Some "derivation: result missing worker_name"
  else if bool_decide (prStatus r = "") then Some "derivation: result missing status"
  else None.

End pool.

(** The in-memory result store: a forced error or an append. *)
Record FakeResultStore {J : Type} := mkFRS { frResults : list (ProcessingResult J); frErr : option string }.
Arguments FakeResultStore : clear implicits.
Arguments mkFRS {J}.

Definition fakeSave {J} (r : ProcessingResult J) (s : FakeResultStore J) : option string * FakeResultStore J :=
  match frErr s with
  | Some e => (Some e, s)
  | None => (None, mkFRS (frResults s ++ [r]) None)
  end.

#[global] Instance FakeResultStore_store {J} : @ResultStore (FakeResultStore J) J := fakeSave.

Definition GetResultsByVersion {J} (v : string) (s : FakeResultStore J) : list (ProcessingResult J) :=
  filter (fun r => prVersion r = v) (frResults s).

Definition NewFakeResultStore {J} : FakeResultStore J := mkFRS [] None.
Definition SetSaveError {J} (e : option string) (s : FakeResultStore J) : FakeResultStore J := mkFRS (frResults s) e.
Definition Results {J} (s : FakeResultStore J) : list (ProcessingResult J) := frResults s.
Definition Count {J} (s : FakeResultStore J) : Z := zlen (frResults s).

(** ** Construction of the pool *)

Definition NewMemoryDLQ : MemoryDLQ := [].

(** Stores that are not given are made in memory; [WorkerCount] is read by no code. *)
Record PoolConfig {J : Type} := mkPoolCfg {
  pcRetry : RetryConfig; pcWorkerCount : Z; pcStore : option (FakeResultStore J); pcDLQ : option MemoryDLQ
}.
Arguments PoolConfig : clear implicits.
Arguments mkPoolCfg {J}.

Definition NewWorkerPool {W J : Type} (workers : list (@Worker W J)) (cfg : PoolConfig J) (w : W)
    : list (@Worker W J) * RetryConfig * @WorkerPool W (FakeResultStore J) MemoryDLQ :=
  (workers, retryDefaults (pcRetry cfg),
   mkPool w (default NewFakeResultStore (pcStore cfg)) (default NewMemoryDLQ (pcDLQ cfg)) 0 0 0).

(** [Stats]: events processed and results saved. *)
Definition poolStats {W S Q : Type} (p : @WorkerPool W S Q) : Z * Z := (psEvents p, psSaved p).

(** ** Result data as JSON ([store.go]) *)

(** [encode] is [json.Marshal] of a result's data; it may fail. *)
Definition MarshalResultData {M} (encode : M -> result string string) (data : option M) : result string string :=
  match data with None => Ok "{}" | Some m => encode m end.

Definition FormatJSONB {M} (encode : M -> result string string) (data : option M) : string :=
  match MarshalResultData encode data with Ok b => b | Err _ => "{}" end.

(** ** Lemmas *)

(** The outcomes of [n] calls of [fn], numbered from [a]. *)
Fixpoint outcomes {W : Type} (fn : Z -> W -> option derr * W) (n : nat) (a : Z) (w : W)
    : list (option derr) * W :=
  match n with
  | O => ([], w)
  | S n' => let '(r, w1) := fn a w in let '(rs, w2) := outcomes fn n' (a + 1) w1 in (r :: rs, w2)
  end.

Lemma retryDefaults_pos cfg :
  0 < MaxAttempts (retryDefaults cfg) /\ 0 < BaseDelay (retryDefaults cfg) /\ 0 < MaxDelay (retryDefaults cfg).
Proof. unfold retryDefaults, sec. simpl. repeat case_match; bool_hyps; lia. Qed.

(** How a run of the retry loop ended, after the outcomes [init ++ [o]]. *)
Definition ended (c : RetryConfig) (cancel : Z -> option derr) (rr : RetryResult) (o : option derr) : Prop :=
  match o with
  | None => Success rr = true /\ LastErr rr = None
  | Some e => Success rr = false /\
      (LastErr rr = Some e /\ (IsTransient (Some e) = false \/ Attempts rr = MaxAttempts c) \/
       exists e', cancel (Attempts rr) = Some e' /\ LastErr rr = Some e' /\ Attempts rr < MaxAttempts c)
  end.

Lemma retryLoop_spec {W} n a cfg cancel (fn : Z -> W -> option derr * W) last w :
  Z.of_nat n = MaxAttempts cfg - a + 1 -> (0 < n)%nat ->
  let '(rr, delays, w') := retryLoop n a cfg cancel fn last w in
  a <= Attempts rr <= MaxAttempts cfg /\
  delays = (fun k => backoffDelay k (BaseDelay cfg) (MaxDelay cfg)) <$> seqZ a (Attempts rr - a) /\
  exists init o, outcomes fn (Z.to_nat (Attempts rr - a + 1)) a w = (init ++ [o], w') /\
    Forall (fun o => IsTransient o = true) init /\ ended cfg cancel rr o.
Proof.
  revert a last w. induction n as [|n IH]; intros a lasterr w Hn Hpos; [lia|]. cbn [retryLoop].
  destruct (fn a w) as [r w1] eqn:Hfn.
  assert (outcomes fn (Z.to_nat (a - a + 1)) a w = ([r], w1)) as H1.
  { replace (a - a + 1) with 1 by lia. simpl. by rewrite Hfn. }
  assert (seqZ a (a - a) = []) as Hs by (by rewrite Z.sub_diag).
  destruct r as [err|].
  2: { simpl. rewrite Hs. split_and!; [lia|lia|done|]. exists [], None. rewrite H1. done. }
  destruct (IsTransient (Some err)) eqn:Htr; simpl negb; cbv iota.
  2: { simpl. rewrite Hs. split_and!; [lia|lia|done|]. exists [], (Some err). rewrite H1.
       split_and!; [done|done|]. simpl. split; [done|left]. auto. }
  destruct (a <? MaxAttempts cfg) eqn:Hlt; bool_hyps.
  - destruct (cancel a) as [e|] eqn:Hc.
    { simpl. rewrite Hs. split_and!; [lia|lia|done|]. exists [], (Some err). rewrite H1.
      split_and!; [done|done|]. simpl. split; [done|right]. exists e. done. }
    specialize (IH (a + 1) (Some err) w1 ltac:(lia) ltac:(lia)).
    destruct (retryLoop n (a + 1) cfg cancel fn (Some err) w1) as [[rr ds] w'].
    destruct IH as (Hat & -> & init & o & Ho & Hinit & Hend). split_and!; [lia|lia| |].
    + replace (Attempts rr - a) with (Z.succ (Attempts rr - (a + 1))) by lia.
      rewrite (seqZ_cons a) by lia. rewrite Z.pred_succ. replace (Z.succ a) with (a + 1) by lia. done.
    + exists (Some err :: init), o. split_and!; [|by constructor|done].
      replace (Z.to_nat (Attempts rr - a + 1)) with (S (Z.to_nat (Attempts rr - (a + 1) + 1))) by lia.
      cbn [outcomes]. rewrite Hfn, Ho. done.
  - assert (n = 0%nat) as -> by lia. simpl. assert (MaxAttempts cfg = a) as -> by lia.
    rewrite Hs. split_and!; [lia|lia|done|]. exists [], (Some err). rewrite H1.
    split_and!; [done|done|]. split; [done|left]. simpl. split; [done|]. right. lia.
Qed.

Lemma retry_failed {W} cfg cancel (fn : Z -> W -> option derr * W) w :
  let '(rr, _, _) := RetryWithBackoff cfg cancel fn w in
  1 <= Attempts rr /\ (Success rr = false -> is_Some (LastErr rr)).
Proof.
  unfold RetryWithBackoff. pose proof (retryDefaults_pos cfg) as (Hm & _).
  pose proof (retryLoop_spec (Z.to_nat (MaxAttempts (retryDefaults cfg))) 1 (retryDefaults cfg) cancel fn None w
    ltac:(lia) ltac:(lia)) as H.
  destruct (retryLoop _ 1 _ cancel fn None w) as [[rr ds] w']. destruct H as (Ha & _ & init & [e|] & _ & _ & Hend);
    (split; [lia|]); intros Hs; simpl in Hend.
  - destruct Hend as (_ & [[He _]|(e' & _ & He & _)]); rewrite He; eauto.
  - destruct Hend. congruence.
Qed.

Section pool_lemmas.
Context {W S Q J : Type} `{RS : @ResultStore S J} `{DQ : DeadLetterQueue Q}.
Implicit Types p : @WorkerPool W S Q.

Lemma finish_spec ts (r : ProcessingResult J) p r' p' : finish ts r p = (r', p') ->
  (exists id, r' = withID id r) /\ psStore p' = (SaveResult r' (psStore p)).2 /\
  psDLQ p' = psDLQ p /\ psWorker p' = psWorker p /\ psEvents p' = psEvents p /\
  psSaved p' = (match (SaveResult r' (psStore p)).1 with Some _ => psSaved p | None => int64 (psSaved p + 1) end).
Proof.
  unfold finish, saveResult. simpl. intros Hf. simplify_eq. simpl.
  set (r' := withID _ r). destruct (SaveResult r' (psStore p)) as [[e|] st] eqn:E; simpl;
    split_and!; try done; by eexists.
Qed.

(** Every worker run ends in one saved result, and in a dead letter exactly when the
    retries failed. *)
Lemma processWithRetry_effect ts now cfg cancel (wk : @Worker W J) ev p :
  exists r p', processWithRetry ts now cfg cancel wk ev p = Some (r, p') /\
    psStore p' = (SaveResult r (psStore p)).2 /\ psEvents p' = psEvents p /\
    psSaved p' = (match (SaveResult r (psStore p)).1 with Some _ => psSaved p | None => int64 (psSaved p + 1) end) /\
    let '(rr, _, w1) := RetryWithBackoff cfg cancel (attemptFn wk ev) (psWorker p) in
    if Success rr then
      psDLQ p' = psDLQ p /\
      (exists id, r = withID id (match (Process wk ev w1).1 with
        | Ok r0 => r0
        | Err e => NewFailedResult now (evVersion ev) (wName wk) (Some e)
        end))
    else exists e id, LastErr rr = Some e /\
      psDLQ p' = (Enqueue now (mkDead ev (wName wk) (derMsg e) (Attempts rr) 0) (psDLQ p)).2 /\
      r = withID id (NewFailedResult now (evVersion ev) (wName wk) (Some e)).
Proof.
  unfold processWithRetry. pose proof (retry_failed cfg cancel (attemptFn wk ev) (psWorker p)) as Hf.
  destruct (RetryWithBackoff cfg cancel (attemptFn wk ev) (psWorker p)) as [[rr ds] w1].
  destruct Hf as [_ Hf]. destruct (Success rr).
  - destruct (Process wk ev w1) as [[r0|e] w2]; simpl;
      match goal with |- context [finish ?ts ?r ?p] => destruct (finish ts r p) as [r' p'] eqn:E end;
      apply finish_spec in E as (Hid & Hst & Hdlq & _ & Hev & Hsv); exists r', p'; split_and!; done.
  - destruct (Hf eq_refl) as [e He]. rewrite He.
    match goal with |- context [finish ?ts ?r ?p] => destruct (finish ts r p) as [r' p'] eqn:E end.
    apply finish_spec in E as ([id Hid] & Hst & Hdlq & _ & Hev & Hsv). exists r', p'. split_and!; try done.
    exists e, id. split_and!; done.
Qed.

(** A permanent error on the first attempt ends in a failed result. *)
Lemma processWithRetry_permanent ts now cfg cancel (wk : @Worker W J) ev p e r p' :
  (Process wk ev (psWorker p)).1 = Err e -> IsTransient (Some e) = false ->
  processWithRetry ts now cfg cancel wk ev p = Some (r, p') -> prStatus r = StatusFailed /\ prError r = derMsg e.
Proof.
  intros Hp Ht Hrun. destruct (processWithRetry_effect ts now cfg cancel wk ev p) as (r1 & p1 & Hrun1 & _ & _ & _ & Hres).
  rewrite Hrun in Hrun1. injection Hrun1 as <- <-. pose proof (retryDefaults_pos cfg) as (Hm & _).
  unfold RetryWithBackoff in Hres. destruct (Z.to_nat (MaxAttempts (retryDefaults cfg))) as [|n] eqn:En; [lia|].
  cbn [retryLoop] in Hres. unfold attemptFn at 1 in Hres. destruct (Process wk ev (psWorker p)) as [[r0|e0] w1]; [done|].
  simpl in Hp. injection Hp as ->. rewrite Ht in Hres. simpl in Hres.
  destruct Hres as (e' & id & [= <-] & _ & ->). done.
Qed.

(** Processing never panics, and each result is that of one worker. *)
Lemma processAll_total ts now cfg cancel (order : list (@Worker W J)) ev p :
  exists rs p', processAll ts now cfg cancel order ev p = Some (rs, p') /\
    Forall2 (fun wk r => exists p1 p2, processWithRetry ts now cfg cancel wk ev p1 = Some (r, p2)) order rs.
Proof.
  revert p. induction order as [|wk order IH]; intros p; simpl; [by exists [], p|].
  destruct (processWithRetry_effect ts now cfg cancel wk ev p) as (r & p1 & Hrun & _). rewrite Hrun. simpl.
  destruct (IH p1) as (rs & p2 & Hall & Hf). rewrite Hall. simpl. exists (r :: rs), p2. split; [done|].
  constructor; [by exists p, p1|done].
Qed.

End pool_lemmas.

(** A run of several workers with a working in-memory store and queue. *)
Lemma processAll_effect {W J} ts now cfg cancel (order : list (@Worker W J)) ev
    (p : @WorkerPool W (FakeResultStore J) MemoryDLQ) :
  frErr (psStore p) = None -> 0 <= psSaved p -> psSaved p + zlen order <= maxInt64 ->
  exists rs p', processAll ts now cfg cancel order ev p = Some (rs, p') /\
    length rs = length order /\ psEvents p' = psEvents p /\ psSaved p' = psSaved p + zlen rs /\
    psStore p' = mkFRS (frResults (psStore p) ++ rs) None /\
    exists dead, psDLQ p' = psDLQ p ++ dead /\
      Forall (fun d => dlEvent d = ev /\ 1 <= dlAttempts d /\ dlWorker d ∈ wName <$> order) dead /\
      (length dead <= length rs)%nat.
Proof.
  revert p. induction order as [|wk order IH]; intros p Hst H0 Hbound; simpl.
  { exists [], p. rewrite app_nil_r, Z.add_0_r. split_and!; try done; [by destruct (psStore p); simpl in *; subst|].
    exists []. by rewrite app_nil_r. }
  destruct (processWithRetry_effect ts now cfg cancel wk ev p) as (r & p1 & Hrun & Hs1 & He1 & Hv1 & Hres).
  rewrite Hrun. simpl.
  assert (SaveResult r (psStore p) = (None, mkFRS (frResults (psStore p) ++ [r]) None)) as Hsave
    by (unfold SaveResult, FakeResultStore_store, fakeSave; by rewrite Hst).
  rewrite Hsave in Hs1, Hv1. simpl in Hs1, Hv1. unfold zlen in Hbound. simpl in Hbound.
  rewrite int64_id in Hv1 by (unfold is_int64, minInt64, maxInt64 in *; lia).
  destruct (IH p1) as (rs & p2 & Hall & Hlen & He2 & Hv2 & Hs2 & dead & Hd2 & Hdead & Hle);
    [by rewrite Hs1|lia|unfold zlen; lia|].
  rewrite Hall. simpl. exists (r :: rs), p2. split_and!; try done.
  - simpl. lia.
  - congruence.
  - rewrite Hv2, Hv1. unfold zlen. simpl. lia.
  - rewrite Hs2, Hs1. simpl. by rewrite <- app_assoc.
  - pose proof (retry_failed cfg cancel (attemptFn wk ev) (psWorker p)) as Hf.
    destruct (RetryWithBackoff cfg cancel (attemptFn wk ev) (psWorker p)) as [[rr ds] w1].
    assert (exists d1, psDLQ p1 = psDLQ p ++ d1 /\ (length d1 <= 1)%nat /\
      Forall (fun d => dlEvent d = ev /\ 1 <= dlAttempts d /\ dlWorker d = wName wk) d1) as (d1 & Hd1 & Hl1 & Hf1).
    { destruct (Success rr).
      - exists []. destruct Hres as [-> _]. rewrite app_nil_r. split_and!; simpl; auto.
      - destruct Hres as (e & id & _ & -> & _). eexists [_]. split_and!; [reflexivity|done|].
        constructor; [|done]. simpl. split_and!; [done|lia|done]. }
    exists (d1 ++ dead). rewrite Hd2, Hd1, app_assoc. split_and!; [done| |rewrite length_app; simpl; lia].
    apply Forall_app. split.
    + eapply Forall_impl; [exact Hf1|]. intros d (? & ? & ->). split_and!; [done|done|]. left.
    + eapply Forall_impl; [exact Hdead|]. intros d (? & ? & ?). split_and!; [done|done|]. by right.
Qed.

(** ** Properties *)

(** What a retry does, for every operation, configuration and cancellation: it calls
    the operation at least once and at most [MaxAttempts] times, every call but the last
    failed with a transient error, and it ends with the first success, the first permanent
    error, the last allowed attempt or the cancellation of the wait; between the calls it
    waits the successive backoff delays. *)
Theorem RetryWithBackoff_spec {W : Type} (cfg : RetryConfig) (cancel : Z -> option derr)
    (fn : Z -> W -> option derr * W) (w : W) :
  let c := retryDefaults cfg in
  let '(rr, delays, w') := RetryWithBackoff cfg cancel fn w in
  1 <= Attempts rr <= MaxAttempts c /\
  delays = (fun k => backoffDelay k (BaseDelay c) (MaxDelay c)) <$> seqZ 1 (Attempts rr - 1) /\
  exists init o, outcomes fn (Z.to_nat (Attempts rr)) 1 w = (init ++ [o], w') /\
    Forall (fun o => IsTransient o = true) init /\ ended c cancel rr o.
Proof.
  cbv zeta. unfold RetryWithBackoff. pose proof (retryDefaults_pos cfg) as (Hm & _).
  pose proof (retryLoop_spec (Z.to_nat (MaxAttempts (retryDefaults cfg))) 1 (retryDefaults cfg) cancel fn None w
    ltac:(lia) ltac:(lia)) as H.
  destruct (retryLoop _ 1 _ cancel fn None w) as [[rr ds] w'].
  replace (Attempts rr - 1 + 1) with (Attempts rr) in H by lia. done.
Qed.

(** The backoff is the capped doubling: with a base within the cap and a cap that can
    be doubled without overflow, the delay after attempt [k] is
    [min (base * 2^(k-1)) max]. *)
Theorem backoffDelay_spec (attempt base max : Z) (Ha : 1 <= attempt) (Hb : 0 < base <= max)
    (Hm : 2 * max <= maxInt64) :
  backoffDelay attempt base max = Z.min (base * 2 ^ (attempt - 1)) max.
Proof.
  unfold backoffDelay. replace (attempt - 1) with (Z.of_nat (Z.to_nat (attempt - 1))) at 2 by lia.
  generalize (Z.to_nat (attempt - 1)) as n. intros n. clear Ha. revert base Hb.
  induction n as [|n IH]; intros base Hb; cbn [doubling].
  - change (Z.of_nat 0) with 0. rewrite Z.pow_0_r. lia.
  - rewrite int64_id by (unfold is_int64, minInt64, maxInt64 in *; lia).
    rewrite Nat2Z.inj_succ, Z.pow_succ_r by lia. pose proof (Z.pow_pos_nonneg 2 (Z.of_nat n)).
    destruct (max <? base * 2) eqn:E; bool_hyps.
    + rewrite Z.min_r; [done|]. nia.
    + rewrite IH by lia. f_equal. lia.
Qed.

(** Every worker run is accounted for, over any result store and dead-letter queue:
    it never dereferences a missing error, it hands exactly one result to the store, and
    it adds a dead letter (with the event, the worker, the last error and the number of
    attempts) exactly when the retries did not succeed; after a success the stored result
    is that of one further run of the worker. *)
Theorem processWithRetry_accounts {W S Q J : Type} `{RS : @ResultStore S J} `{DQ : DeadLetterQueue Q}
    (ts : string) (now : Z) (cfg : RetryConfig) (cancel : Z -> option derr) (wk : @Worker W J) (ev : Event)
    (p : @WorkerPool W S Q) :
  exists r p', processWithRetry ts now cfg cancel wk ev p = Some (r, p') /\
    psStore p' = (SaveResult r (psStore p)).2 /\
    let '(rr, _, w1) := RetryWithBackoff cfg cancel (attemptFn wk ev) (psWorker p) in
    if Success rr then
      psDLQ p' = psDLQ p /\
      (exists id, r = withID id (match (Process wk ev w1).1 with
        | Ok r0 => r0
        | Err e => NewFailedResult now (evVersion ev) (wName wk) (Some e)
        end))
    else exists e id, LastErr rr = Some e /\
      psDLQ p' = (Enqueue now (mkDead ev (wName wk) (derMsg e) (Attempts rr) 0) (psDLQ p)).2 /\
      r = withID id (NewFailedResult now (evVersion ev) (wName wk) (Some e)).
Proof.
  destruct (processWithRetry_effect ts now cfg cancel wk ev p) as (r & p' & Hrun & Hs & _ & _ & Hres).
  exists r, p'. done.
Qed.


(** Every [syscall.Errno] passes for a transient error, because it satisfies [net.Error];
    the list of connection errors below that test is never reached. *)
Theorem errno_always_transient (pre post : list dnode) (e : errno) (msg : string) :
  IsTransient (Some (mkDerr (pre ++ DErrno e :: post) msg)) = true.
Proof. simpl. unfold asNetError. simpl. rewrite existsb_app. simpl. by rewrite orb_true_r. Qed.

(** Result identifiers repeat after 26 results of the same second. *)
Theorem generateResultID_collides {W S Q : Type} (ts : string) (w : W) (st : S) (q : Q) (ev sv c : Z)
    (Hc : 0 <= c < maxInt64 - 26) :
  (generateResultID ts (mkPool w st q ev sv c)).1 = (generateResultID ts (mkPool w st q ev sv (c + 26))).1.
Proof.
  unfold generateResultID. simpl. rewrite !int64_id by (unfold is_int64, minInt64, maxInt64 in *; lia).
  rewrite !Z.rem_mod_nonneg by lia. replace (c + 26 + 1) with (c + 1 + 1 * 26) by lia. by rewrite Z_mod_plus_full.
Qed.

(** ** Witnesses *)

Lemma backoffDelay_spec_witness : backoffDelay 4 (1 * sec) (16 * sec) = 8 * sec.
Proof.
  rewrite (backoffDelay_spec 4 (1 * sec) (16 * sec)); [reflexivity | lia | unfold sec; lia | unfold sec, maxInt64; lia].
Defined.

(** A worker that fails twice with a timeout, one that always fails, one that is not
    interested. *)
Definition flaky : @Worker Z unit :=
  mkWorker "clamav" (fun _ => true) (fun ev n =>
    if n <? 2 then (Err (mkDerr [DNet] "i/o timeout"), n + 1)
    else (Ok (mkPR "" (evVersion ev) "clamav" StatusSuccess None "" 7), n + 1)).
Definition broken : @Worker Z unit :=
  mkWorker "ocr" (fun _ => true) (fun _ n => (Err (mkDerr [DOther] "unsupported format"), n)).
Definition idle : @Worker Z unit := mkWorker "ffmpeg" (fun _ => false) (fun _ n => (Err (mkDerr [] ""), n)).
Definition demoEvent : Event := mkEvent "e" "VERSION_COMMITTED" "v" "n" "t" 1 "text/plain" "" "" [].
Definition demoPool : @WorkerPool Z (FakeResultStore unit) MemoryDLQ := mkPool 0 (mkFRS [] None) [] 0 0 0.

