(* ===== verification/Workers.v ===== *)
(** * internal/workers: the derivation workers

    The MIME classes, the four workers over abstract tools and block readers, and the
    in-memory tools of [fakes.go] that [cmd/worker] installs.  Tools and readers act on a
    shared state [W]; bytes are strings; [now] is the time stamped on results. *)
From S2P Require Import Prelude GoLib Json Derivation.
From Stdlib Require Import SpecFloat.

(** ** MIME classes ([interfaces.go]) *)

Definition oneOf (l : list string) (mime : string) : bool := existsb (String.eqb mime) l.

Definition IsImageMimeType : string -> bool :=
  oneOf ["image/jpeg"; "image/png"; "image/gif"; "image/webp"; "image/tiff"; "image/bmp"; "image/svg+xml";
         "application/pdf"].

Definition IsVideoMimeType : string -> bool :=
  oneOf ["video/mp4"; "video/webm"; "video/ogg"; "video/quicktime"; "video/x-msvideo"; "video/x-matroska";
         "video/mpeg"].

Definition IsAudioMimeType : string -> bool :=
  oneOf ["audio/mpeg"; "audio/ogg"; "audio/wav"; "audio/webm"; "audio/flac"; "audio/aac"].

Definition IsEmbeddableMimeType (mime : string) : bool :=
  IsImageMimeType mime || IsVideoMimeType mime || IsAudioMimeType mime ||
  oneOf ["application/pdf"; "text/plain"; "text/markdown"] mime.

(** ** UTF-8, as [[]rune(s)] and [string(runes)] read and write it *)

Definition byteZ (a : ascii) : Z := Z.of_N (N_of_ascii a).
Definition zByte (z : Z) : ascii := ascii_of_N (Z.to_N z).

Definition RuneError : Z := 65533.

(** Lead byte: number of continuation bytes, payload of the lead, range of the first
    continuation byte; [None] for bytes that start no rune. *)
Definition runeLead (b : Z) : option (nat * Z * Z * Z) :=
  if b <? 0x80 then Some (0%nat, b, 0, 0)
  else if b <? 0xC2 then None
  else if b <? 0xE0 then Some (1%nat, Z.land b 0x1F, 0x80, 0xBF)
  else if b =? 0xE0 then Some (2%nat, Z.land b 0x0F, 0xA0, 0xBF)
  else if b =? 0xED then Some (2%nat, Z.land b 0x0F, 0x80, 0x9F)
  else if b <? 0xF0 then Some (2%nat, Z.land b 0x0F, 0x80, 0xBF)
  else if b =? 0xF0 then Some (3%nat, Z.land b 0x07, 0x90, 0xBF)
  else if b <? 0xF4 then Some (3%nat, Z.land b 0x07, 0x80, 0xBF)
  else if b =? 0xF4 then Some (3%nat, Z.land b 0x07, 0x80, 0x8F)
  else None.

(** [k] continuation bytes, the first between [lo] and [hi]. *)
Fixpoint runeTail (k : nat) (acc lo hi : Z) (s : string) : option (Z * string) :=
  match k with
  | O => Some (acc, s)
  | S k' =>
      match s with
      | EmptyString => None
      | String a s' =>
          if (lo <=? byteZ a) && (byteZ a <=? hi)
          then runeTail k' (Z.lor (Z.shiftl acc 6) (Z.land (byteZ a) 0x3F)) 0x80 0xBF s'
          else None
      end
  end.

(** One rune; an invalid sequence is one byte read as [RuneError]. *)
Definition decodeRune (a : ascii) (s : string) : Z * string :=
  match runeLead (byteZ a) with
  | None => (RuneError, s)
  | Some (k, acc, lo, hi) => match runeTail k acc lo hi s with Some r => r | None => (RuneError, s) end
  end.

Fixpoint runesFuel (fuel : nat) (s : string) : list Z :=
  match fuel, s with
  | S fuel', String a s' => let '(r, rest) := decodeRune a s' in r :: runesFuel fuel' rest
  | _, _ => []
  end.

Definition runes (s : string) : list Z := runesFuel (String.length s) s.

(** A rune out of range or a surrogate is written as [RuneError]. *)
Definition encodeRune (r0 : Z) : string :=
  let r := if (0 <=? r0) && (r0 <=? 0x10FFFF) && negb ((0xD800 <=? r0) && (r0 <=? 0xDFFF)) then r0 else RuneError in
  let cont k := zByte (Z.lor 0x80 (Z.land (Z.shiftr r k) 0x3F)) in
  if r <? 0x80 then String (zByte r) ""
  else if r <? 0x800 then String (zByte (Z.lor 0xC0 (Z.shiftr r 6))) (String (cont 0) "")
  else if r <? 0x10000 then String (zByte (Z.lor 0xE0 (Z.shiftr r 12))) (String (cont 6) (String (cont 0) ""))
  else String (zByte (Z.lor 0xF0 (Z.shiftr r 18))) (String (cont 12) (String (cont 6) (String (cont 0) ""))).

Fixpoint encodeRunes (l : list Z) : string :=
  match l with [] => "" | r :: l' => encodeRune r +:+ encodeRunes l' end.

(** ** Tools *)

Record ScanResult := mkScan { scStatus : string; scVirus : string }.
Record VideoVariant := mkVariant { vvLabel : string; vvMime : string; vvData : string }.

Class Scanner (W : Type) := Scan : string -> W -> result derr ScanResult * W.
Class TextExtractor (W : Type) := ExtractText : string -> W -> result derr string * W.
Class VideoProcessor (W : Type) := {
  GenerateThumbnail : string -> W -> result derr (string * string) * W;
  GenerateVariants : string -> W -> result derr (list VideoVariant) * W
}.
Class Embedder (F W : Type) := Embed : string -> W -> result derr (list F) * W.
Class BlockReader (W : Type) := ReadBlock : string -> string -> W -> result derr string * W.

(** [fmt.Errorf] without and with [%w]. *)
Definition errorf (msg : string) : derr := mkDerr [DOther] msg.
Definition wrapf (prefix : string) (e : derr) : derr := mkDerr (DOther :: derChain e) (prefix +:+ derMsg e).

(** [ResultData]. *)
Definition rdata : Type := list (string * json).

Definition NewSuccessResult (now : Z) (version worker : string) (data : rdata) : ProcessingResult rdata :=
  mkPR "" version worker StatusSuccess (Some data) "" now.

Definition NewSkippedResult (now : Z) (version worker : string) : ProcessingResult rdata :=
  mkPR "" version worker StatusSkipped None "" now.

Definition truncateText (s : string) (n : Z) : string :=
  if zlen (runes s) <=? n then s else encodeRunes (ztake n (runes s)) +:+ "...".

Section workers.
Context {W F : Type} `{BR : BlockReader W} `{SC : Scanner W} `{TE : TextExtractor W} `{VP : VideoProcessor W}
  `{EM : Embedder F W}.
Context (now : Z).

Abbreviation processed := (result derr (ProcessingResult rdata) * W)%type.

(** The common start: the first block of the event, errors prefixed with the worker's name. *)
Definition withFirstBlock (name : string) (ev : Event) (w : W) (k : string -> W -> processed) : processed :=
  match evChunks ev with
  | [] => (Err (errorf (name +:+ ": no chunks in event")), w)
  | c :: _ =>
      match ReadBlock (evTenant ev) (dcHash c) w with
      | (Err e, w') => (Err (wrapf (name +:+ ": read block: ") e), w')
      | (Ok data, w') => k data w'
      end
  end.

Definition infected (version msg : string) : ProcessingResult rdata :=
  NewFailedResult now version "clamav" (Some (errorf msg)).

Definition clamavProcess (ev : Event) (w : W) : processed :=
  withFirstBlock "clamav" ev w (fun data w1 =>
    match Scan data w1 with
    | (Err e, w2) => (Err (wrapf "clamav: scan: " e), w2)
    | (Ok r, w2) =>
        if String.eqb (scStatus r) "INFECTED"
        then (Ok (infected (evVersion ev) ("malware detected: " +:+ scVirus r)), w2)
        else (Ok (NewSuccessResult now (evVersion ev) "clamav"
                [("scan_status", JStr (scStatus r)); ("scanned_bytes", JNum (slen data))]), w2)
    end).

(** The loop of [ScanAllChunks] with the bytes scanned so far. *)
Fixpoint scanChunks (ev : Event) (chunks : list DChunk) (total : Z) (w : W) : processed :=
  match chunks with
  | [] => (Ok (NewSuccessResult now (evVersion ev) "clamav"
             [("scan_status", JStr "CLEAN"); ("chunks_scanned", JNum (zlen (evChunks ev)));
              ("total_bytes", JNum total)]), w)
  | c :: rest =>
      match ReadBlock (evTenant ev) (dcHash c) w with
      | (Err e, w1) => (Err (wrapf ("clamav: read block " +:+ dcHash c +:+ ": ") e), w1)
      | (Ok data, w1) =>
          match Scan data w1 with
          | (Err e, w2) => (Err (wrapf ("clamav: scan block " +:+ dcHash c +:+ ": ") e), w2)
          | (Ok r, w2) =>
              if String.eqb (scStatus r) "INFECTED"
              then (Ok (infected (evVersion ev)
                     ("malware detected in chunk " +:+ format_int (dcIndex c) +:+ ": " +:+ scVirus r)), w2)
              else scanChunks ev rest (int64 (total + slen data)) w2
          end
      end
  end.

Definition ScanAllChunks (ev : Event) (w : W) : processed := scanChunks ev (evChunks ev) 0 w.

Definition ocrProcess (ev : Event) (w : W) : processed :=
  withFirstBlock "ocr" ev w (fun data w1 =>
    match ExtractText data w1 with
    | (Err e, w2) => (Err (wrapf "ocr: extract text: " e), w2)
    | (Ok text, w2) =>
        (Ok (NewSuccessResult now (evVersion ev) "ocr"
           [("extracted_text_length", JNum (slen text)); ("extracted_text_preview", JStr (truncateText text 500));
            ("source_mime_type", JStr (evMime ev))]), w2)
    end).

Definition ffmpegProcess (ev : Event) (w : W) : processed :=
  withFirstBlock "ffmpeg" ev w (fun data w1 =>
    match GenerateThumbnail data w1 with
    | (Err e, w2) => (Err (wrapf "ffmpeg: thumbnail: " e), w2)
    | (Ok (thumb, mime), w2) =>
        match GenerateVariants data w2 with
        | (Err e, w3) => (Err (wrapf "ffmpeg: variants: " e), w3)
        | (Ok vs, w3) =>
            (Ok (NewSuccessResult now (evVersion ev) "ffmpeg"
               [("thumbnail_size_bytes", JNum (slen thumb)); ("thumbnail_mime_type", JStr mime);
                ("variant_count", JNum (zlen vs)); ("variant_labels", jStrings (vvLabel <$> vs));
                ("source_duration_hint", JStr "unknown")]), w3)
        end
    end).

Definition embedProcess (ev : Event) (w : W) : processed :=
  withFirstBlock "vector-embed" ev w (fun data w1 =>
    match Embed data w1 with
    | (Err e, w2) => (Err (wrapf "vector-embed: embed: " e), w2)
    | (Ok v, w2) =>
        (Ok (NewSuccessResult now (evVersion ev) "vector-embed"
           [("embedding_dim", JNum (zlen v)); ("source_bytes", JNum (slen data));
            ("source_mime_type", JStr (evMime ev))]), w2)
    end).

Definition NewClamAVWorker : Worker := mkWorker "clamav" (fun _ => true) clamavProcess.
Definition NewOCRWorker : Worker := mkWorker "ocr" (fun ev => IsImageMimeType (evMime ev)) ocrProcess.
Definition NewFFmpegWorker : Worker := mkWorker "ffmpeg" (fun ev => IsVideoMimeType (evMime ev)) ffmpegProcess.
Definition NewVectorEmbedWorker : Worker :=
  mkWorker "vector-embed" (fun ev => IsEmbeddableMimeType (evMime ev)) embedProcess.

End workers.

(** ** In-memory tools ([fakes.go]) *)

Definition float32 : Type := spec_float.
(** The float32 nearest to [n / d]. *)
Definition f32 (n d : Z) : float32 := SFdiv 24 128 (binary_normalize 24 128 n 0 false) (binary_normalize 24 128 d 0 false).

Record FakeTools := mkFakes {
  fkInfected : gmap string string; fkScanErr : option derr;
  fkTexts : gmap string string; fkExtractErr : option derr;
  fkThumbnails : gmap string string; fkVariants : gmap string (list VideoVariant); fkProcessErr : option derr;
  fkVectors : gmap string (list float32); fkEmbedErr : option derr;
  fkBlocks : gmap string string; fkReadErr : option derr
}.

Definition NewFakes : FakeTools := mkFakes ∅ None ∅ None ∅ ∅ None ∅ None ∅ None.

Definition eicar : string := "X5O!P%@AP[4\PZX54(P^)7CC)7}$EICAR".

Section fakes.
(** [range] over a Go map visits the entries in an unspecified order. *)
Context (rangeMap : gmap string string -> list (string * string)).

Definition fakeScan (content : string) (w : FakeTools) : result derr ScanResult * FakeTools :=
  match fkScanErr w with
  | Some e => (Err e, w)
  | None =>
      if contains content eicar then (Ok (mkScan "INFECTED" "EICAR-Test-File"), w)
      else match List.find (fun '(h, _) => contains content h) (rangeMap (fkInfected w)) with
      | Some (_, virus) => (Ok (mkScan "INFECTED" virus), w)
      | None => (Ok (mkScan "CLEAN" ""), w)
      end
  end.
End fakes.

Definition fakeExtractText (content : string) (w : FakeTools) : result derr string * FakeTools :=
  match fkExtractErr w with
  | Some e => (Err e, w)
  | None =>
      (Ok (match fkTexts w !! content with
           | Some t => t
           | None => "extracted-text-from-" +:+ format_int (slen content) +:+ "-bytes"
           end), w)
  end.

Definition fakeThumbnail (data : string) (w : FakeTools) : result derr (string * string) * FakeTools :=
  match fkProcessErr w with
  | Some e => (Err e, w)
  | None =>
      (Ok (match fkThumbnails w !! data with
           | Some t => t
           | None => "fake-thumbnail-thumb-" +:+ format_int (slen data)
           end, "image/jpeg"), w)
  end.

Definition fakeVariants (data : string) (w : FakeTools) : result derr (list VideoVariant) * FakeTools :=
  match fkProcessErr w with
  | Some e => (Err e, w)
  | None =>
      (Ok (match fkVariants w !! data with
           | Some vs => vs
           | None => [mkVariant "720p" "video/mp4" ("variant-720p-var-" +:+ format_int (slen data));
                      mkVariant "480p" "video/mp4" ("variant-480p-var-" +:+ format_int (slen data))]
           end), w)
  end.

Definition fakeEmbed (data : string) (w : FakeTools) : result derr (list float32) * FakeTools :=
  match fkEmbedErr w with
  | Some e => (Err e, w)
  | None => (Ok (match fkVectors w !! data with
                 | Some v => v
                 | None => [f32 1 10; f32 2 10; f32 3 10; f32 4 10; f32 5 10]
                 end), w)
  end.

Definition fakeReadBlock (_ hash : string) (w : FakeTools) : result derr string * FakeTools :=
  match fkReadErr w with
  | Some e => (Err e, w)
  | None => match fkBlocks w !! hash with
            | Some d => (Ok d, w)
            | None => (Err (errorf ("block not found: " +:+ hash)), w)
            end
  end.

Definition PutBlock (hash data : string) (w : FakeTools) : FakeTools :=
  mkFakes (fkInfected w) (fkScanErr w) (fkTexts w) (fkExtractErr w) (fkThumbnails w) (fkVariants w) (fkProcessErr w)
    (fkVectors w) (fkEmbedErr w) (<[hash := data]> (fkBlocks w)) (fkReadErr w).

#[global] Instance fakeReader : BlockReader FakeTools := fakeReadBlock.
#[global] Instance fakeExtractor : TextExtractor FakeTools := fakeExtractText.
#[global] Instance fakeProcessor : VideoProcessor FakeTools :=
  {| GenerateThumbnail := fakeThumbnail; GenerateVariants := fakeVariants |}.
#[global] Instance fakeEmbedder : Embedder float32 FakeTools := fakeEmbed.

(** ** UTF-8 round trip *)

Definition validRune (r : Z) : Prop := 0 <= r <= 0x10FFFF /\ ~ (0xD800 <= r <= 0xDFFF).

Lemma byteZ_zByte z : 0 <= z < 256 -> byteZ (zByte z) = z.
Proof. intros H. unfold byteZ, zByte. rewrite N_ascii_embedding by lia. lia. Qed.

Lemma lor_shiftl a b k : 0 <= k -> 0 <= b < 2 ^ k -> Z.lor (Z.shiftl a k) b = a * 2 ^ k + b.
Proof.
  intros Hk Hb. rewrite Z.shiftl_mul_pow2 by done.
  assert (Z.land (a * 2 ^ k) b = 0) as Hl.
  { apply Z.bits_inj'. intros i Hi. rewrite Z.land_spec, Z.bits_0.
    destruct (decide (i < k)); [by rewrite Z.mul_pow2_bits_low|].
    assert (Z.testbit b i = false) as ->; [|apply andb_false_r].
    rewrite <- (Z.mod_small b (2 ^ k)) by lia. apply Z.mod_pow2_bits_high. lia. }
  rewrite <- Z.lxor_lor by done. by rewrite <- Z.add_nocarry_lxor.
Qed.

Lemma land_mod a k : 0 <= k -> Z.land a (2 ^ k - 1) = a mod 2 ^ k.
Proof. intros Hk. rewrite <- Z.land_ones by done. by rewrite Z.ones_equiv, <- Z.sub_1_r. Qed.

(** The continuation byte with payload [p]. *)
Lemma contByte p : 0 <= p < 64 -> Z.lor 0x80 p = 128 + p.
Proof. intros Hp. exact (lor_shiftl 2 p 6 ltac:(lia) Hp). Qed.

Lemma runeTail_cont k acc lo hi p s : 0 <= p < 64 -> lo <= 128 + p <= hi ->
  runeTail (S k) acc lo hi (String (zByte (Z.lor 0x80 p)) s) = runeTail k (acc * 64 + p) 0x80 0xBF s.
Proof.
  intros Hp Hr. cbn [runeTail]. rewrite contByte, byteZ_zByte by lia.
  rewrite (proj2 (Z.leb_le lo _)), (proj2 (Z.leb_le _ hi)) by lia. cbn [andb].
  f_equal. change 0x3F with (2 ^ 6 - 1). rewrite land_mod by lia. change (2 ^ 6) with 64.
  replace ((128 + p) mod 64) with p by (Z.div_mod_to_equations; lia).
  rewrite lor_shiftl by lia. done.
Qed.

Lemma validRune_id r : validRune r ->
  (if (0 <=? r) && (r <=? 0x10FFFF) && negb ((0xD800 <=? r) && (r <=? 0xDFFF)) then r else RuneError) = r.
Proof. intros [H1 H2]. case_match eqn:E; [done|]. exfalso. lia. Qed.

Lemma shiftr_div a k : 0 <= k -> Z.shiftr a k = a / 2 ^ k.
Proof. apply Z.shiftr_div_pow2. Qed.

(** A lead byte [hi] with payload [q]. *)
Lemma leadByte a q k : 0 <= k -> 0 <= q < 2 ^ k -> 0 <= a -> a * 2 ^ k + q < 256 ->
  byteZ (zByte (Z.lor (Z.shiftl a k) q)) = a * 2 ^ k + q /\ Z.land (a * 2 ^ k + q) (2 ^ k - 1) = q.
Proof.
  intros Hk Hq Ha Hb. rewrite lor_shiftl, byteZ_zByte, land_mod by lia. split; [done|].
  rewrite Z.add_comm, Z.mod_add by lia. apply Z.mod_small. lia.
Qed.

Lemma runeLead_2 q : 2 <= q < 32 -> runeLead (6 * 2 ^ 5 + q) = Some (1%nat, q, 0x80, 0xBF).
Proof.
  intros Hq. unfold runeLead. change 0x1F with (2 ^ 5 - 1). rewrite land_mod by lia.
  replace ((6 * 2 ^ 5 + q) mod 2 ^ 5) with q by (change (2 ^ 5) with 32; Z.div_mod_to_equations; lia).
  change (2 ^ 5) with 32. repeat (case_match; [exfalso; lia|]). case_match; [done|exfalso; lia].
Qed.

Lemma runeLead_3 q : 0 <= q < 16 -> runeLead (14 * 2 ^ 4 + q)
  = Some (2%nat, q, if q =? 0 then 0xA0 else 0x80, if q =? 13 then 0x9F else 0xBF).
Proof.
  intros Hq. unfold runeLead. change 0x0F with (2 ^ 4 - 1). rewrite land_mod by lia.
  replace ((14 * 2 ^ 4 + q) mod 2 ^ 4) with q by (change (2 ^ 4) with 16; Z.div_mod_to_equations; lia).
  change (2 ^ 4) with 16. repeat case_match; bool_hyps; try done; exfalso; lia.
Qed.

Lemma runeLead_4 q : 0 <= q < 5 -> runeLead (30 * 2 ^ 3 + q)
  = Some (3%nat, q, if q =? 0 then 0x90 else 0x80, if q =? 4 then 0x8F else 0xBF).
Proof.
  intros Hq. unfold runeLead. change 0x07 with (2 ^ 3 - 1). rewrite land_mod by lia.
  replace ((30 * 2 ^ 3 + q) mod 2 ^ 3) with q by (change (2 ^ 3) with 8; Z.div_mod_to_equations; lia).
  change (2 ^ 3) with 8. repeat case_match; bool_hyps; try done; exfalso; lia.
Qed.

(** Decoding what [encodeRune] wrote gives the rune back and leaves the rest. *)
Lemma decodeRune_encodeRune r s : validRune r -> exists a rest,
  encodeRune r +:+ s = String a rest /\ decodeRune a rest = (r, s) /\ (String.length s <= String.length rest)%nat.
Proof.
  intros Hv. pose proof Hv as [Hr Hs]. unfold encodeRune. rewrite validRune_id by done.
  change 0x3F with (2 ^ 6 - 1). rewrite !land_mod, !shiftr_div by lia.
  change (2 ^ 0) with 1. change (2 ^ 6) with 64. change (2 ^ 12) with 4096. change (2 ^ 18) with 262144.
  unfold decodeRune. repeat case_match; bool_hyps; (eexists _, _; split_and!; [reflexivity| |simpl; lia]).
  - rewrite byteZ_zByte by lia. unfold runeLead. rewrite (proj2 (Z.ltb_lt _ _)) by lia. done.
  - change 0xC0 with (Z.shiftl 6 5).
    destruct (leadByte 6 (r / 64) 5) as [-> _]; try (Z.div_mod_to_equations; lia).
    rewrite runeLead_2 by (Z.div_mod_to_equations; lia).
    rewrite runeTail_cont by (Z.div_mod_to_equations; lia). simpl. f_equal. Z.div_mod_to_equations; lia.
  - change 0xE0 with (Z.shiftl 14 4).
    destruct (leadByte 14 (r / 4096) 4) as [-> _]; try (Z.div_mod_to_equations; lia).
    rewrite runeLead_3 by (Z.div_mod_to_equations; lia).
    rewrite !runeTail_cont by (repeat case_match; bool_hyps; Z.div_mod_to_equations; lia).
    simpl. f_equal. Z.div_mod_to_equations; lia.
  - change 0xF0 with (Z.shiftl 30 3).
    destruct (leadByte 30 (r / 262144) 3) as [-> _]; try (Z.div_mod_to_equations; lia).
    rewrite runeLead_4 by (Z.div_mod_to_equations; lia).
    rewrite !runeTail_cont by (repeat case_match; bool_hyps; Z.div_mod_to_equations; lia).
    simpl. f_equal. Z.div_mod_to_equations; lia.
Qed.

Lemma decodeRune_length a s : (String.length (decodeRune a s).2 <= String.length s)%nat.
Proof.
  assert (forall k acc lo hi t r t', runeTail k acc lo hi t = Some (r, t') -> (String.length t' <= String.length t)%nat) as Ht.
  { induction k as [|k IH]; intros acc lo hi t r t' H; simpl in H; [by simplify_eq|].
    destruct t as [|c t]; [done|]. destruct (_ && _); [|done]. apply IH in H. simpl. lia. }
  unfold decodeRune. destruct (runeLead _) as [[[[k acc] lo] hi]|]; [|done].
  destruct (runeTail k acc lo hi s) as [[r t]|] eqn:E; [|done]. by apply Ht in E.
Qed.

(** The length of a text is enough fuel: more changes nothing. *)
Lemma runesFuel_enough f1 f2 s : (String.length s <= f1)%nat -> (String.length s <= f2)%nat ->
  runesFuel f1 s = runesFuel f2 s.
Proof.
  revert f2 s. induction f1 as [|f1 IH]; intros f2 [|a s] H1 H2; simpl in H1; [by destruct f2|lia|by destruct f2|].
  destruct f2 as [|f2]; simpl in H2; [lia|]. cbn [runesFuel].
  pose proof (decodeRune_length a s). destruct (decodeRune a s) as [r rest]. simpl in *. f_equal. apply IH; lia.
Qed.

Lemma runesFuel_encode l fuel : Forall validRune l -> (String.length (encodeRunes l) <= fuel)%nat ->
  runesFuel fuel (encodeRunes l) = l.
Proof.
  intros Hl. revert fuel. induction Hl as [|r l Hr Hl IH]; intros fuel Hf; [by destruct fuel|].
  simpl in *. destruct (decodeRune_encodeRune r (encodeRunes l) Hr) as (a & rest & He & Hd & Hlen).
  rewrite He in *. destruct fuel as [|fuel]; simpl in *; [lia|]. rewrite Hd. f_equal. apply IH. lia.
Qed.

(** Reading back the runes of a text gives them. *)
Lemma runes_encodeRunes l : Forall validRune l -> runes (encodeRunes l) = l.
Proof. intros Hl. by apply runesFuel_encode. Qed.

Lemma encodeRunes_app l k : encodeRunes (l ++ k) = encodeRunes l +:+ encodeRunes k.
Proof. induction l as [|r l IH]; simpl; [done|]. by rewrite IH, append_assoc. Qed.

(** The preview of a text is its first [n] runes and, if it was longer, an ellipsis: no rune
    is cut. *)
Theorem truncateText_runes (l : list Z) (n : Z) (Hl : Forall validRune l) (Hn : 0 <= n) :
  runes (truncateText (encodeRunes l) n) = if zlen l <=? n then l else ztake n l ++ [46; 46; 46].
Proof.
  unfold truncateText. rewrite runes_encodeRunes by done. destruct (zlen l <=? n); [by apply runes_encodeRunes|].
  change "..." with (encodeRunes [46; 46; 46]). rewrite <- encodeRunes_app. apply runes_encodeRunes, Forall_app.
  split; [|repeat constructor; unfold validRune; lia]. unfold ztake. by apply Forall_take.
Qed.

(** ** What the workers report *)

Section reports.
Context {W F : Type} `{BR : BlockReader W} `{SC : Scanner W} `{TE : TextExtractor W} `{VP : VideoProcessor W}
  `{EM : Embedder F W}.

(** Every worker the package defines. *)
Definition allWorkers (now : Z) : list (@Worker W rdata) :=
  [NewClamAVWorker now; NewOCRWorker now; NewFFmpegWorker now; NewVectorEmbedWorker (F := F) now].

(** An event without chunks is refused by each of them, permanently and before any tool is
    called. *)
Lemma no_chunks_refused now wk ev : wk ∈ allWorkers now -> evChunks ev = [] ->
  exists e, (forall w, Process wk ev w = (Err e, w)) /\ IsTransient (Some e) = false.
Proof.
  intros Hwk Hev. unfold allWorkers in Hwk. rewrite !elem_of_cons, elem_of_nil in Hwk.
  destruct Hwk as [->|[->|[->|[->|[]]]]]; simpl;
    unfold clamavProcess, ocrProcess, ffmpegProcess, embedProcess, withFirstBlock; rewrite Hev;
    eexists; (split; [intros w; reflexivity|vm_compute; reflexivity]).
Qed.
End reports.

Section fake_scanner.
Context (rangeMap : gmap string string -> list (string * string)).
Context (range_spec : forall m, rangeMap m ≡ₚ map_to_list m).
#[local] Instance fakeScanner : Scanner FakeTools := fakeScan rangeMap.

(** The content has the test signature or one of the configured ones. *)
Definition signed (w : FakeTools) (content : string) : bool :=
  contains content eicar || existsb (fun '(h, _) => contains content h) (map_to_list (fkInfected w)).

Lemma fakeScan_spec content w : fkScanErr w = None ->
  exists r, fakeScan rangeMap content w = (Ok r, w) /\
    String.eqb (scStatus r) "INFECTED" = signed w content.
Proof.
  intros He. unfold fakeScan, signed. rewrite He. destruct (contains content eicar); [by eexists|]. simpl.
  destruct (List.find _ (rangeMap (fkInfected w))) as [[h v]|] eqn:E; eexists; (split; [reflexivity|]); simpl.
  - symmetry. apply existsb_exists. apply find_some in E as [Hin Hc]. exists (h, v). split; [|done].
    apply list_elem_of_In. rewrite <- (range_spec (fkInfected w)). by apply list_elem_of_In.
  - symmetry. apply not_true_iff_false. intros (x & Hin & Hc)%existsb_exists.
    apply list_elem_of_In in Hin. rewrite <- (range_spec (fkInfected w)) in Hin. apply list_elem_of_In in Hin.
    apply (find_none _ _ E) in Hin. destruct x. congruence.
Qed.

(** A thorough scan succeeds exactly when every chunk of the event is stored and none is
    signed, in whatever order the signatures are tried. *)
Theorem ScanAllChunks_clean (now : Z) (ev : Event) (w : FakeTools)
    (Hscan : fkScanErr w = None) (Hread : fkReadErr w = None) :
  (exists r, ScanAllChunks now ev w = (Ok r, w) /\ prStatus r = StatusSuccess) <->
  Forall (fun c => exists d, fkBlocks w !! dcHash c = Some d /\ signed w d = false) (evChunks ev).
Proof.
  unfold ScanAllChunks. generalize 0 at 1. generalize (evChunks ev) as cs. induction cs as [|c cs IH]; intros t; simpl.
  { split; [constructor|]. intros _. by eexists. }
  rewrite Forall_cons. unfold ReadBlock, fakeReader, fakeReadBlock. rewrite Hread.
  destruct (fkBlocks w !! dcHash c) as [d|] eqn:Hd.
  2: { split; [intros (r & Hr & _); done|]. intros [(d & Hd' & _) _]. done. }
  unfold Scan, fakeScanner. destruct (fakeScan_spec d w Hscan) as (r & -> & Hs). rewrite Hs.
  destruct (signed w d) eqn:Hsg.
  - split; [intros (r' & Hr & Hst); simplify_eq; done|]. intros [(d' & Hd' & Hs') _]. simplify_eq. congruence.
  - rewrite IH. split; [|by intros [_ ?]]. intros H. split; [by exists d|done].
Qed.
End fake_scanner.

(** [Process] looks at the first chunk only: a file whose second chunk carries the test
    signature is reported clean, [ScanAllChunks] reports it. *)
Definition twoChunks : Event :=
  mkEvent "e" "VERSION_COMMITTED" "v" "n" "t" 20 "text/plain" "" "" [mkDChunk 0 "aa" 10 0; mkDChunk 1 "bb" 10 10].

Definition laterSignature : FakeTools := PutBlock "bb" eicar (PutBlock "aa" "harmless" NewFakes).

Lemma clamav_scans_first_chunk_only :
  let S : Scanner FakeTools := fakeScan map_to_list in
  option_map prStatus (match (clamavProcess 0 twoChunks laterSignature).1 with Ok r => Some r | Err _ => None end)
    = Some StatusSuccess /\
  option_map prStatus (match (ScanAllChunks 0 twoChunks laterSignature).1 with Ok r => Some r | Err _ => None end)
    = Some StatusFailed.
Proof. split; vm_compute; reflexivity. Qed.
