(* ===== verification/Bridge.v ===== *)
(** * cmd/ingest/derivation_bridge.go: from committed files to derivation workers

    The ingress server's event bus in the single-process deployment: a buffered channel
    between [handleCommit] and the worker pool.  [brun] is the queue alone; [bstep] adds
    the goroutines that [Start] launches, with [Stop] and the cancelled context, as a step
    function whose labels may interleave in any order. *)
From S2P Require Import Prelude GoLib External Database Schema Ingress Handlers Json Derivation.

(** The capacity of the channel. *)
Definition queueCap : Z := 256.

(** The event as the workers see it. *)
Definition toEvent (e : FileCommittedEvent) : Event :=
  mkEvent (feID e) (feType e) (feVersion e) (feNode e) (feTenant e) (feTotal e) (feMime e) (feSHA e)
    (rfc3339 0 (feAt e / 1000000000))
    ((fun c => mkDChunk (cdIndex c) (cdHash c) (cdSize c) (cdOffset c)) <$> feChunks e).

(** [PublishFileCommitted] never blocks: a full channel drops the event. *)
Definition PublishFileCommitted (e : FileCommittedEvent) (q : list Event) : list Event :=
  if zlen q <? queueCap then q ++ [toEvent e] else q.

(** One round of [consume] that finds an event. *)
Definition consumeOne (q : list Event) : option (Event * list Event) :=
  match q with [] => None | e :: q' => Some (e, q') end.

(** [drain] after the stop signal: every queued event is processed, in order. *)
Definition drain {P : Type} (process : Event -> P -> P) (q : list Event) (p : P) : P * list Event :=
  (foldl (fun p e => process e p) p q, []).

Inductive bridgeOp := BPublish (e : FileCommittedEvent) | BConsume.

(** The queue, the events handed to the pool and the events accepted, after a sequence of
    publications and rounds of the consumer. *)
Fixpoint brun (ops : list bridgeOp) (q : list Event) : list Event * list Event * list Event :=
  match ops with
  | [] => (q, [], [])
  | BPublish e :: ops' =>
      let '(q', out, acc) := brun ops' (PublishFileCommitted e q) in
      (q', out, if zlen q <? queueCap then toEvent e :: acc else acc)
  | BConsume :: ops' =>
      match consumeOne q with
      | None => brun ops' q
      | Some (e, q1) => let '(q', out, acc) := brun ops' q1 in (q', e :: out, acc)
      end
  end.

Definition published (ops : list bridgeOp) : list FileCommittedEvent :=
  omap (fun o => match o with BPublish e => Some e | BConsume => None end) ops.

Lemma brun_fifo ops q : let '(q', out, acc) := brun ops q in
  q ++ acc = out ++ q' /\ acc `sublist_of` (toEvent <$> published ops) /\ (zlen q <= queueCap -> zlen q' <= queueCap).
Proof.
  revert q. induction ops as [|[e|] ops IH]; intros q; simpl.
  - by rewrite app_nil_r.
  - specialize (IH (PublishFileCommitted e q)). unfold PublishFileCommitted in *.
    destruct (zlen q <? queueCap) eqn:E; bool_hyps; destruct (brun ops _) as [[q' out] acc];
      destruct IH as (H1 & H2 & H3); simpl.
    + rewrite <- H1. rewrite <- app_assoc. split_and!; [done|by constructor|].
      intros _. apply H3. rewrite zlen_app. change (zlen [toEvent e]) with 1. lia.
    + split_and!; [done|by constructor|done].
  - destruct q as [|e q]; simpl; [apply IH|]. specialize (IH q). destruct (brun ops q) as [[q' out] acc].
    destruct IH as (H1 & H2 & H3). simpl. rewrite <- H1. split_and!; [done|done|]. intros Hq. apply H3.
    unfold zlen in *. simpl in Hq. lia.
Qed.

Lemma brun_room ops q : zlen q + zlen (published ops) <= queueCap ->
  (brun ops q).2 = toEvent <$> published ops.
Proof.
  revert q. induction ops as [|[e|] ops IH]; intros q Hq; [done| |].
  - change (published (BPublish e :: ops)) with (e :: published ops) in *. unfold zlen in Hq. simpl in Hq.
    simpl. rewrite (proj2 (Z.ltb_lt (zlen q) queueCap)) by (unfold zlen; lia).
    specialize (IH (PublishFileCommitted e q)). destruct (brun ops (PublishFileCommitted e q)) as [[q' out] acc].
    simpl in *. rewrite IH; [done|]. unfold PublishFileCommitted.
    rewrite (proj2 (Z.ltb_lt (zlen q) queueCap)) by (unfold zlen; lia). unfold zlen. rewrite length_app. simpl. lia.
  - simpl. change (published (BConsume :: ops)) with (published ops) in *.
    destruct q as [|e q]; simpl; [by apply IH|]. specialize (IH q).
    destruct (brun ops q) as [[q' out] acc]. simpl in *. apply IH. unfold zlen in *. simpl in Hq. lia.
Qed.

(** The bridge delivers in order and without duplication: whatever way publications and
    consumption interleave from an empty queue, the events handed to the pool followed by
    those still queued are exactly the accepted ones in publication order, converted field
    by field; the queue never exceeds its capacity, and as long as no more than its
    capacity is published in all, nothing is dropped. *)
Theorem bridge_delivers (ops : list bridgeOp) :
  let '(q, out, acc) := brun ops [] in
  out ++ q = acc /\ acc `sublist_of` (toEvent <$> published ops) /\ zlen q <= queueCap /\
  (zlen (published ops) <= queueCap -> acc = toEvent <$> published ops) /\
  forall (P : Type) (process : Event -> P -> P) (p : P),
    drain process q (foldl (fun p e => process e p) p out) = (foldl (fun p e => process e p) p acc, []).
Proof.
  pose proof (brun_fifo ops []) as Hf. pose proof (brun_room ops []) as Hr.
  destruct (brun ops []) as [[q out] acc]. destruct Hf as (H1 & H2 & H3). simpl in *. subst acc.
  split_and!; try done.
  - apply H3. unfold queueCap, zlen. simpl. lia.
  - intros P process p. unfold drain. by rewrite foldl_app.
Qed.

(** ** The goroutines: Start, Stop, consume and drain *)

(** A consumer is in its select loop, in [drain], or has returned. *)
Inductive bphase := Looping | Draining | Gone.

(** The struct and its surroundings: the channel's contents, whether [stopCh] is closed and
    the context of [Start] is done, the consumers, the events handed to the pool (with the
    state of the context they are processed under: [true] is cancelled) and, for the
    statements, the events accepted so far. *)
Record derivationBridge := mkBridge {
  brEvents : list Event; brStopped : bool; brCancelled : bool; brConsumers : list bphase;
  brHanded : list (Event * bool); brAccepted : list Event
}.

Definition newDerivationBridge : derivationBridge := mkBridge [] false false [] [] [].

Inductive blabel :=
| LStart | LStop | LCancel | LPublish (e : FileCommittedEvent)
| LRecv (i : nat) | LQuit (i : nat) | LDrain (i : nat) | LGone (i : nat).

Definition bridgeStart (b : derivationBridge) : derivationBridge :=
  mkBridge (brEvents b) (brStopped b) (brCancelled b) (brConsumers b ++ [Looping]) (brHanded b) (brAccepted b).

(** [None]: closing a closed channel panics. *)
Definition bridgeStop (b : derivationBridge) : option derivationBridge :=
  if brStopped b then None
  else Some (mkBridge (brEvents b) true (brCancelled b) (brConsumers b) (brHanded b) (brAccepted b)).

Definition bridgePublish (e : FileCommittedEvent) (b : derivationBridge) : result string unit * derivationBridge :=
  (Ok tt, mkBridge (PublishFileCommitted e (brEvents b)) (brStopped b) (brCancelled b) (brConsumers b) (brHanded b)
            (if zlen (brEvents b) <? queueCap then brAccepted b ++ [toEvent e] else brAccepted b)).

(** Tombstones are accepted and dropped. *)
Definition bridgeTombstone (_ _ : string) (b : derivationBridge) : result string unit * derivationBridge := (Ok tt, b).

(** The consumer [i] receives an event and processes it under a context that is done iff
    [cancelled]. *)
Definition handOver (i : nat) (p : bphase) (cancelled : bool) (b : derivationBridge) : option derivationBridge :=
  match brConsumers b !! i, brEvents b with
  | Some p', e :: q =>
      if match p, p' with Looping, Looping | Draining, Draining => true | _, _ => false end
      then Some (mkBridge q (brStopped b) (brCancelled b) (brConsumers b) (brHanded b ++ [(e, cancelled)]) (brAccepted b))
      else None
  | _, _ => None
  end.

Definition moveTo (i : nat) (p : bphase) (b : derivationBridge) : derivationBridge :=
  mkBridge (brEvents b) (brStopped b) (brCancelled b) (<[i:=p]> (brConsumers b)) (brHanded b) (brAccepted b).

(** One step; [None]: the step is not possible (or panics, for a second [LStop]). *)
Definition bstep (l : blabel) (b : derivationBridge) : option derivationBridge :=
  match l with
  | LStart => Some (bridgeStart b)
  | LStop => bridgeStop b
  | LCancel => Some (mkBridge (brEvents b) (brStopped b) true (brConsumers b) (brHanded b) (brAccepted b))
  | LPublish e => Some (bridgePublish e b).2
  | LRecv i => handOver i Looping (brCancelled b) b
  | LQuit i =>
      match brConsumers b !! i with
      | Some Looping => if brStopped b || brCancelled b then Some (moveTo i Draining b) else None
      | _ => None
      end
  | LDrain i => handOver i Draining false b
  | LGone i =>
      match brConsumers b !! i, brEvents b with
      | Some Draining, [] => Some (moveTo i Gone b)
      | _, _ => None
      end
  end.

Fixpoint bsteps (ls : list blabel) (b : derivationBridge) : option derivationBridge :=
  match ls with [] => Some b | l :: ls' => b' ← bstep l b; bsteps ls' b' end.

(** What is left to do: each step of a consumer lowers it. *)
Definition bphaseLeft (p : bphase) : nat := match p with Looping => 2 | Draining => 1 | Gone => 0 end.
Definition bleft (b : derivationBridge) : nat := (length (brEvents b) + sum_list_with bphaseLeft (brConsumers b))%nat.

Definition ownStep (l : blabel) : bool :=
  match l with LRecv _ | LQuit _ | LDrain _ | LGone _ => true | _ => false end.

Lemma bsteps_app ls1 ls2 b : bsteps (ls1 ++ ls2) b = (bsteps ls1 b ≫= bsteps ls2).
Proof. revert b. induction ls1 as [|l ls1 IH]; intros b; [done|]. simpl. destruct (bstep l b); simpl; [apply IH|done]. Qed.

Lemma handOver_inv i p c b b' : handOver i p c b = Some b' -> exists e q,
  brConsumers b !! i = Some p /\ p <> Gone /\ brEvents b = e :: q /\
  b' = mkBridge q (brStopped b) (brCancelled b) (brConsumers b) (brHanded b ++ [(e, c)]) (brAccepted b).
Proof.
  unfold handOver. destruct (brConsumers b !! i) as [p'|]; [|done]. destruct (brEvents b) as [|e q]; [done|].
  destruct p, p'; try done; intros [= <-]; eauto 10.
Qed.

(** Events are neither lost, duplicated nor reordered between acceptance and the pool. *)
Definition brConserves (b : derivationBridge) : Prop :=
  (brHanded b).*1 ++ brEvents b = brAccepted b /\ zlen (brEvents b) <= queueCap.

Lemma bstep_conserves l b b' : bstep l b = Some b' -> brConserves b -> brConserves b'.
Proof.
  unfold brConserves. intros Hs [H1 H2].
  destruct l; simpl in Hs; try (apply handOver_inv in Hs as (ev & q & _ & _ & He & ->));
    unfold bridgeStop, PublishFileCommitted in *; repeat case_match; simplify_eq/=; try done.
  - bool_hyps.
    rewrite <- H1, app_assoc. split; [done|]. rewrite zlen_app. change (zlen [toEvent e]) with 1. lia.
  - rewrite He in *. rewrite fmap_app, <- H1, <- app_assoc. split; [done|]. unfold zlen in *. simpl in H2. lia.
  - rewrite He in *. rewrite fmap_app, <- H1, <- app_assoc. split; [done|]. unfold zlen in *. simpl in H2. lia.
  - by match goal with H : brEvents b = [] |- _ => rewrite H end.
Qed.

Lemma bsteps_ind (P : derivationBridge -> Prop) ls b b' :
  (forall l b b', bstep l b = Some b' -> P b -> P b') -> bsteps ls b = Some b' -> P b -> P b'.
Proof.
  intros Hstep. revert b. induction ls as [|l ls IH]; simpl; intros b Hr Hb; [by simplify_eq|].
  destruct (bstep l b) as [b1|] eqn:E; [|done]. simpl in Hr. eauto.
Qed.

(** Acceptances only grow, in order, and so do hand-overs. *)
Lemma bstep_grows l b b' : bstep l b = Some b' ->
  brAccepted b `prefix_of` brAccepted b' /\ brHanded b `prefix_of` brHanded b'.
Proof.
  intros Hs. destruct l; simpl in Hs; try (apply handOver_inv in Hs as (ev & q & _ & _ & He & ->));
    unfold bridgeStop in *; repeat case_match; simplify_eq/=; split; try done; by eexists.
Qed.

Lemma bsteps_grows ls b b' : bsteps ls b = Some b' ->
  brAccepted b `prefix_of` brAccepted b' /\ brHanded b `prefix_of` brHanded b'.
Proof.
  revert b. induction ls as [|l ls IH]; simpl; intros b Hr; [by simplify_eq|].
  destruct (bstep l b) as [b1|] eqn:E; [|done]. simpl in Hr. apply bstep_grows in E as [H1 H2].
  apply IH in Hr as [H3 H4]. split; by etrans.
Qed.

(** Once every consumer has returned, nothing is handed over until another [Start]. *)
Lemma bsteps_dead ls b b' : bsteps ls b = Some b' -> Forall (fun p => p = Gone) (brConsumers b) ->
  LStart ∉ ls -> brHanded b' = brHanded b.
Proof.
  revert b. induction ls as [|l ls IH]; simpl; intros b Hr Hg Hl; [by simplify_eq|].
  rewrite not_elem_of_cons in Hl. destruct Hl as [Hl1 Hl2].
  destruct (bstep l b) as [b1|] eqn:E; [|done]. simpl in Hr.
  assert (brConsumers b1 = brConsumers b /\ brHanded b1 = brHanded b) as [Hc Hh].
  { destruct l; simpl in E; try (apply handOver_inv in E as (ev & q & Hi & Hp & _ & _);
      by rewrite Forall_lookup in Hg; apply Hg in Hi); unfold bridgeStop in *; repeat case_match; simplify_eq/=; try done;
      rewrite Forall_lookup in Hg; match goal with H : brConsumers _ !! _ = Some _ |- _ => by apply Hg in H end. }
  rewrite <- Hh. apply (IH b1); [done|by rewrite Hc|done].
Qed.

Lemma bstep_own_left l b b' : ownStep l = true -> bstep l b = Some b' -> (bleft b' < bleft b)%nat.
Proof.
  unfold bleft. intros Hl Hs. destruct l; try done; simpl in Hs;
    try (apply handOver_inv in Hs as (ev & q & _ & _ & He & ->); rewrite He; simpl; lia);
    repeat case_match; simplify_eq/=;
    match goal with H : brConsumers b !! ?i = Some ?p |- context [insert ?i ?q _] =>
      pose proof (sum_list_insert bphaseLeft _ i p q H) as Hsum end; simpl in Hsum;
    try match goal with H : brEvents b = [] |- _ => rewrite H; simpl end; lia.
Qed.

Lemma bsteps_own_bound ls b b' : Forall (fun l => ownStep l = true) ls -> bsteps ls b = Some b' ->
  (length ls + bleft b' <= bleft b)%nat.
Proof.
  revert b. induction ls as [|l ls IH]; simpl; intros b Hl Hr; [simplify_eq; lia|].
  inversion_clear Hl as [|? ? H1 H2]. destruct (bstep l b) as [b1|] eqn:E; [|done]. simpl in Hr.
  apply (IH b1 H2) in Hr. apply (bstep_own_left l b b1 H1) in E. lia.
Qed.

(** A consumer that has to stop can run to its end alone. *)
Lemma bridge_can_finish b i : brConsumers b !! i = Some Draining ->
  exists b', bsteps (replicate (length (brEvents b)) (LDrain i) ++ [LGone i]) b = Some b' /\
    brConsumers b' !! i = Some Gone /\ brEvents b' = [] /\ (brHanded b').*1 = (brHanded b).*1 ++ brEvents b.
Proof.
  remember (brEvents b) as q eqn:Hq. revert b Hq. induction q as [|e q IH]; intros b Hq Hi; simpl.
  - rewrite Hi, <- Hq. simpl. eexists. split; [done|]. simpl. rewrite app_nil_r.
    rewrite list_lookup_insert_eq by (by eapply lookup_lt_Some). by rewrite Hq.
  - unfold handOver. rewrite Hi, <- Hq. simpl.
    edestruct (IH (mkBridge q (brStopped b) (brCancelled b) (brConsumers b) (brHanded b ++ [(e, false)]) (brAccepted b)))
      as (b' & H1 & H2 & H3 & H4); [done..|]. exists b'. split_and!; try done. rewrite H4. simpl.
    by rewrite fmap_app, <- app_assoc.
Qed.

(** C37. The bridge accounts for every event it accepts, on every interleaving of publications,
    consumers, stop and cancellation: what was handed to the pool followed by what is still
    queued is exactly what was accepted, in order; when a consumer returns after [Stop] or
    cancellation, everything accepted before has been handed over, and [drain] handed its
    events over under a live context; consumers take a bounded number of steps, one that
    was told to stop can always finish, and once all have returned every later event is
    accepted and never processed. *)
Theorem bridge_accounts (ls1 ls2 : list blabel) (i : nat) (b1 b2 : derivationBridge)
    (H1 : bsteps (ls1 ++ [LGone i]) newDerivationBridge = Some b1) (H2 : bsteps ls2 b1 = Some b2) :
  brAccepted b1 = (brHanded b1).*1 /\
  brAccepted b1 `prefix_of` (brHanded b2).*1 /\
  brAccepted b2 = (brHanded b2).*1 ++ brEvents b2 /\ zlen (brEvents b2) <= queueCap /\
  (brCancelled b1 = false -> Forall (fun h => h.2 = false) (brHanded b1)) /\
  (Forall (fun p => p = Gone) (brConsumers b1) -> LStart ∉ ls2 -> brHanded b2 = brHanded b1) /\
  (Forall (fun l => ownStep l = true) ls2 -> (length ls2 <= bleft b1)%nat) /\
  (forall j, brConsumers b2 !! j = Some Looping -> brStopped b2 || brCancelled b2 = true ->
     exists b3, bsteps (LQuit j :: replicate (length (brEvents b2)) (LDrain j) ++ [LGone j]) b2 = Some b3 /\
       brConsumers b3 !! j = Some Gone /\ (brHanded b3).*1 = brAccepted b2).
Proof.
  assert (brConserves newDerivationBridge) as H0 by done.
  assert (brConserves b1) as Hc1 by (eapply (bsteps_ind _ _ _ _ bstep_conserves); done).
  assert (brConserves b2) as Hc2 by (eapply (bsteps_ind _ _ _ _ bstep_conserves); done).
  assert (brEvents b1 = []) as He1.
  { rewrite bsteps_app in H1. destruct (bsteps ls1 _) as [b|]; [|done]. simpl in H1.
    repeat case_match; simplify_eq/=; done. }
  destruct Hc1 as [Hc1 _]. destruct Hc2 as [Hc2 Hq2]. rewrite He1, app_nil_r in Hc1.
  pose proof (bsteps_grows ls2 b1 b2 H2) as [_ Hg]. split_and!; try done.
  - rewrite <- Hc1. destruct Hg as [t ->]. rewrite fmap_app. by eexists.
  - intros Hcan. assert (brCancelled b1 = false -> Forall (fun h => h.2 = false) (brHanded b1)) as Hp; [|by apply Hp].
    apply (bsteps_ind (fun b => brCancelled b = false -> Forall (fun h => h.2 = false) (brHanded b)) _ _ _) with
      (2 := H1); [|by constructor].
    intros l b b' Hs IH. destruct l; simpl in Hs; try (apply handOver_inv in Hs as (ev & q & _ & _ & He & ->));
      unfold bridgeStop in *; repeat case_match; simplify_eq/=; try done; intros Hf; apply Forall_app;
      (split; [by apply IH|by constructor]).
  - intros. by eapply bsteps_dead.
  - intros Hown. apply (bsteps_own_bound _ _ _ Hown) in H2. lia.
  - intros j Hj Hstop. cbn [bsteps bstep]. rewrite Hj, Hstop. simpl.
    destruct (bridge_can_finish (moveTo j Draining b2) j) as (b3 & H3 & H4 & _ & H5).
    + simpl. by rewrite list_lookup_insert_eq by (by eapply lookup_lt_Some).
    + exists b3. split_and!; [exact H3|done|]. rewrite H5. simpl. done.
Qed.

(** A published file, for the examples. *)
Definition demoCommitted : FileCommittedEvent :=
  mkFCE "e" "VERSION_COMMITTED" "t" "n" "v" 1 0 "text/plain" "" 0 [] [].

Lemma bridge_accounts_witness : exists b1 b2,
  bsteps ([LStart; LPublish demoCommitted; LStop; LQuit 0; LDrain 0] ++ [LGone 0]) newDerivationBridge = Some b1 /\
  bsteps [LPublish demoCommitted] b1 = Some b2 /\ (brHanded b1).*1 = [toEvent demoCommitted] /\
  brHanded b2 = brHanded b1 /\ brEvents b2 = [toEvent demoCommitted].
Proof.
  edestruct (bridge_accounts [LStart; LPublish demoCommitted; LStop; LQuit 0; LDrain 0] [LPublish demoCommitted] 0)
    as (Ha & _ & _ & _ & _ & Hd & _); [vm_compute; reflexivity..|].
  do 2 eexists. split; [vm_compute; reflexivity|]. split; [vm_compute; reflexivity|].
  split; [by rewrite <- Ha|]. split; [|reflexivity]. apply Hd; [by repeat constructor|]. set_solver.
Defined.

(** An event received after the context is done is processed under the cancelled context,
    although the consumer was about to drain: select may choose either. *)
Lemma bridge_cancelled_processing : exists b,
  bsteps [LStart; LPublish demoCommitted; LCancel; LRecv 0] newDerivationBridge = Some b /\
  brHanded b = [(toEvent demoCommitted, true)].
Proof. eexists. split; vm_compute; reflexivity. Qed.

(** A second [Stop] panics. *)
Lemma bridge_double_stop b : brStopped b = true -> bstep LStop b = None.
Proof. simpl. unfold bridgeStop. by intros ->. Qed.
