(* ===== verification/Billing.v ===== *)
(** * internal/billing: usage meters, API keys and offline licences

    [metering.go], [apikey.go] and [license.go].  Random bytes and the clock are arguments.
    The JSON form of a licence payload ([encoding/json]) is an encoder and a decoder; text
    is ASCII where the code trims white space. *)
From S2P Require Import Prelude GoLib.

(** ** Meters ([metering.go]) *)

Record UsageEvent := mkUsage { ueTenant : string; ueMeter : string; ueQuantity : Z }.

Record QuotaExceededError := mkQEE { qeTenant : string; qeMeter : string; qeLimit : Z; qeCurrent : Z }.

Record InMemMeterStore := mkMeters {
  mTotals : gmap string (gmap string Z); mLimits : gmap string (gmap string Z)
}.

Definition NewInMemMeterStore : InMemMeterStore := mkMeters ∅ ∅.

Definition SetQuotaLimit (tenant meter : string) (limit : Z) (s : InMemMeterStore) : InMemMeterStore :=
  mkMeters (mTotals s) (<[tenant := <[meter := limit]> (default ∅ (mLimits s !! tenant))]> (mLimits s)).

Definition GetUsage (tenant meter : string) (s : InMemMeterStore) : Z :=
  match mTotals s !! tenant with
  | Some m => default 0 (m !! meter)
  | None => 0
  end.

Definition limitOf (tenant meter : string) (s : InMemMeterStore) : option Z :=
  mLimits s !! tenant ≫= fun m => m !! meter.

(** The tenant's map is created first, then the quota is tested on [int64] sums. *)
Definition RecordUsage (e : UsageEvent) (s : InMemMeterStore) : result QuotaExceededError unit * InMemMeterStore :=
  let m := default ∅ (mTotals s !! ueTenant e) in
  let s1 := mkMeters (<[ueTenant e := m]> (mTotals s)) (mLimits s) in
  let current := default 0 (m !! ueMeter e) in
  let next := int64 (current + ueQuantity e) in
  match limitOf (ueTenant e) (ueMeter e) s with
  | Some limit =>
      if (0 <? limit) && (limit <? next)
      then (Err (mkQEE (ueTenant e) (ueMeter e) limit next), s1)
      else (Ok tt, mkMeters (<[ueTenant e := <[ueMeter e := next]> m]> (mTotals s)) (mLimits s))
  | None => (Ok tt, mkMeters (<[ueTenant e := <[ueMeter e := next]> m]> (mTotals s)) (mLimits s))
  end.

Definition ResetUsage (tenant : string) (s : InMemMeterStore) : InMemMeterStore :=
  mkMeters (delete tenant (mTotals s)) (mLimits s).

(** ** API keys ([apikey.go], [types.go]) *)

Definition APIKeyPrefixLive : string := "aegis_live_sk_".
Definition APIKeyPrefixTest : string := "aegis_test_sk_".

Record APIKeyRecord := mkKey {
  akID : string; akTenant : string; akPrefix : string; akHash : string; akName : string;
  akScopes : string; akExpires : option Z; akCreated : Z
}.

Definition HashAPIKey (raw : string) : string := hex_encode (sha256 (TrimSpace raw)).

(** [strings.Join] with a comma. *)
Fixpoint join_comma (l : list string) : string :=
  match l with
  | [] => ""
  | [x] => x
  | x :: l' => x +:+ "," +:+ join_comma l'
  end.

(** [bytes = None]: the random source failed. *)
Definition GenerateAPIKey (bytes : option string) (now : Z) (tenant name : string) (isTest : bool)
    (scopes : list string) (expires : option Z) : result string (APIKeyRecord * string) :=
  match bytes with
  | None => Err "failed to generate random secret bytes"
  | Some b =>
      let prefix := if isTest then APIKeyPrefixTest else APIKeyPrefixLive in
      let raw := prefix +:+ hex_encode b in
      let scopes' := if zlen scopes =? 0 then ["read"; "write"] else scopes in
      Ok (mkKey ("key_" +:+ hex_encode (str_take 8 b)) tenant (str_take 16 raw +:+ "...") (HashAPIKey raw) name
            (join_comma scopes') expires now, raw)
  end.

Inductive keyerr := KeyNil | KeyExpired | KeyScope.

Definition scopeMatches (required scope : string) : bool :=
  let s := TrimSpace scope in
  bool_decide (s = required) || bool_decide (s = "admin") || bool_decide (s = "*").

Definition ValidateAPIKey (now : Z) (key : option APIKeyRecord) (required : string) : result keyerr unit :=
  match key with
  | None => Err KeyNil
  | Some k =>
      _ ← require (match akExpires k with Some e => negb (e <? now) | None => true end) KeyExpired;
      if bool_decide (required = "") then Ok tt
      else require (existsb (scopeMatches required) (split_on ","%char (akScopes k))) KeyScope
  end.

(** ** base64.RawURLEncoding *)

Definition alphabet : string := "ABCDEFGHIJKLMNOPQRSTUVWXYZabcdefghijklmnopqrstuvwxyz0123456789-_".

Definition b64digit (v : N) : ascii := default zero (String.get (N.to_nat v) alphabet).

Fixpoint index_of (c : ascii) (s : string) : option N :=
  match s with
  | EmptyString => None
  | String c' s' => if bool_decide (c' = c) then Some 0%N else N.succ <$> index_of c s'
  end.

Definition b64val (c : ascii) : option N := index_of c alphabet.

Fixpoint b64_encode (s : string) : string :=
  match s with
  | EmptyString => EmptyString
  | String a EmptyString =>
      String (b64digit (code a / 4)) (String (b64digit (code a mod 4 * 16)) EmptyString)
  | String a (String b EmptyString) =>
      String (b64digit (code a / 4)) (String (b64digit (code a mod 4 * 16 + code b / 16))
        (String (b64digit (code b mod 16 * 4)) EmptyString))
  | String a (String b (String c s')) =>
      String (b64digit (code a / 4)) (String (b64digit (code a mod 4 * 16 + code b / 16))
        (String (b64digit (code b mod 16 * 4 + code c / 64)) (String (b64digit (code c mod 64)) (b64_encode s'))))
  end.

(** The decoder skips carriage returns and newlines, refuses other foreign characters and
    a single leftover digit, and ignores leftover bits. *)
Definition skip_newlines (s : string) : string :=
  String.string_of_list_ascii (filter (fun c => c <> "010"%char /\ c <> "013"%char) (String.list_ascii_of_string s)).

Fixpoint b64_groups (s : string) : option string :=
  match s with
  | EmptyString => Some EmptyString
  | String _ EmptyString => None
  | String w (String x EmptyString) =>
      vw ← b64val w; vx ← b64val x; Some (String (ascii_of_N (vw * 4 + vx / 16)) EmptyString)
  | String w (String x (String y EmptyString)) =>
      vw ← b64val w; vx ← b64val x; vy ← b64val y;
      Some (String (ascii_of_N (vw * 4 + vx / 16)) (String (ascii_of_N (vx mod 16 * 16 + vy / 4)) EmptyString))
  | String w (String x (String y (String z s'))) =>
      vw ← b64val w; vx ← b64val x; vy ← b64val y; vz ← b64val z; rest ← b64_groups s';
      Some (String (ascii_of_N (vw * 4 + vx / 16)) (String (ascii_of_N (vx mod 16 * 16 + vy / 4))
        (String (ascii_of_N (vy mod 4 * 64 + vz)) rest)))
  end.

Definition b64_decode (s : string) : option string := b64_groups (skip_newlines s).

(** ** Licences ([license.go]) *)

Record EnterpriseLicensePayload := mkLicense {
  liID : string; liTenant : string; liCustomer : string; liPlan : string; liMaxStorageTB : Z;
  liMaxNodes : Z; liFeatures : list string; liIssued : Z; liExpires : Z; liMetadata : list (string * string)
}.

Inductive licerr := LicFormat | LicSignature | LicBase64 | LicJSON | LicExpired | LicNil | LicMarshal.

Section license.
Context (marshal : EnterpriseLicensePayload -> option string) (unmarshal : string -> option EnterpriseLicensePayload).

Definition computeSignature (secret encoded : string) : string := hex_encode (hmac_sha256 secret encoded).

Definition IssueLicense (secret : string) (payload : option EnterpriseLicensePayload) : result licerr string :=
  p ← of_option payload LicNil;
  bytes ← of_option (marshal p) LicMarshal;
  Ok (b64_encode bytes +:+ "." +:+ computeSignature secret (b64_encode bytes)).

(** [now] in seconds. *)
Definition VerifyLicense (secret : string) (now : Z) (key : string) : result licerr EnterpriseLicensePayload :=
  match split_on "."%char (TrimSpace key) with
  | [encoded; sig] =>
      _ ← require (bool_decide (sig = computeSignature secret encoded)) LicSignature;
      bytes ← of_option (b64_decode encoded) LicBase64;
      p ← of_option (unmarshal bytes) LicJSON;
      _ ← require (negb ((0 <? liExpires p) && (liExpires p <? now))) LicExpired;
      Ok p
  | _ => Err LicFormat
  end.

End license.

(** ** Lemmas: text *)

Lemma b64val_digit v : (v < 64)%N -> b64val (b64digit v) = Some v.
Proof.
  intros Hv.
  assert (forallb (fun n => bool_decide (b64val (b64digit (N.of_nat n)) = Some (N.of_nat n))) (seq 0 64) = true)
    as Hall by (vm_compute; reflexivity).
  rewrite forallb_forall in Hall. specialize (Hall (N.to_nat v)).
  rewrite N2Nat.id, bool_decide_eq_true in Hall. apply Hall, in_seq. lia.
Qed.

(** Characters of the encoding: neither space, nor newline, nor the dot. *)
Definition b64_char (c : ascii) : bool := bool_decide (is_Some (b64val c)).

Lemma b64digit_char v : (v < 64)%N -> b64_char (b64digit v) = true.
Proof. intros Hv. unfold b64_char. rewrite b64val_digit by done. by apply bool_decide_true. Qed.

Lemma string_ind3 (P : string -> Prop) :
  P EmptyString -> (forall a, P (String a EmptyString)) -> (forall a b, P (String a (String b EmptyString))) ->
  (forall a b c s, P s -> P (String a (String b (String c s)))) -> forall s, P s.
Proof.
  intros H0 H1 H2 H3 s. assert (forall n s, (String.length s <= n)%nat -> P s) as Hn; [|by eapply Hn].
  induction n as [|n IH]; intros [|a [|b [|c t]]] Hl; simpl in *; auto; try lia. apply H3, IH. lia.
Qed.

(** Arithmetic on the codes of the characters in scope. *)
Ltac b64_bound :=
  repeat match goal with c : ascii |- _ =>
    lazymatch goal with _ : (code c < 256)%N |- _ => fail | _ => pose proof (code_bound c) end end;
  zify; Z.to_euclidean_division_equations; lia.

Lemma b64_encode_chars s : str_forall b64_char (b64_encode s) = true.
Proof.
  induction s as [|a|a b|a b c s IH] using string_ind3; [done| | |]; cbn [b64_encode str_forall];
    rewrite ?b64digit_char by b64_bound; done.
Qed.

Lemma b64_groups_encode s : b64_groups (b64_encode s) = Some s.
Proof.
  assert (forall (a : ascii) n, n = code a -> ascii_of_N n = a) as Ha by (intros a n ->; apply ascii_N_embedding).
  induction s as [|a|a b|a b c s IH] using string_ind3; [done| | |]; cbn [b64_encode b64_groups];
    rewrite !b64val_digit by b64_bound; cbn [mbind option_bind]; rewrite ?IH; cbn [mbind option_bind];
    repeat f_equal; apply Ha; b64_bound.
Qed.

Lemma skip_newlines_id s : str_forall not_space s = true -> skip_newlines s = s.
Proof.
  unfold skip_newlines. induction s as [|c s IH]; [done|]. cbn [str_forall String.list_ascii_of_string]. intros Hs.
  bool_hyps. rewrite filter_cons, decide_True by (split; intros ->; done). cbn [String.string_of_list_ascii].
  by rewrite IH.
Qed.

Lemma b64_char_spec c : b64_char c = true -> not_space c = true /\ c <> "."%char.
Proof.
  intros Hc. destruct (not_space c) eqn:Hs.
  - split; [done|]. intros ->. done.
  - unfold not_space, is_space in Hs. exfalso. destruct c as [[][][][][][][][]]; simpl in *; done.
Qed.

Lemma b64_decode_encode s : b64_decode (b64_encode s) = Some s.
Proof.
  unfold b64_decode. rewrite skip_newlines_id; [apply b64_groups_encode|].
  eapply str_forall_impl, b64_encode_chars. intros c Hc. by apply b64_char_spec.
Qed.

Lemma hex_no_space_dot s :
  str_forall not_space (hex_encode s) = true /\
  str_forall (fun c => negb (bool_decide (c = "."%char))) (hex_encode s) = true.
Proof.
  split; eapply str_forall_impl, hex_encode_lower; intros c Hc; destruct c as [[][][][][][][][]]; vm_compute in *; done.
Qed.

(** ** Lemmas: meters *)

Lemma GetUsage_default tenant meter s :
  GetUsage tenant meter s = default 0 (default ∅ (mTotals s !! tenant) !! meter).
Proof. unfold GetUsage. by destruct (mTotals s !! tenant). Qed.

Lemma RecordUsage_limits e s : mLimits (RecordUsage e s).2 = mLimits s.
Proof. unfold RecordUsage. by repeat case_match. Qed.

(** What one event does to a meter. *)
Lemma RecordUsage_usage e s tenant meter :
  GetUsage tenant meter (RecordUsage e s).2 =
  if decide (ueTenant e = tenant /\ ueMeter e = meter /\ is_ok (RecordUsage e s).1 = true)
  then int64 (GetUsage tenant meter s + ueQuantity e) else GetUsage tenant meter s.
Proof.
  rewrite !GetUsage_default.
  assert (forall m, default ∅ (mTotals s !! ueTenant e) = m ->
    default 0 (default ∅ ((<[ueTenant e := m]> (mTotals s)) !! tenant) !! meter)
    = default 0 (default ∅ (mTotals s !! tenant) !! meter)) as Hsame.
  { intros m <-. destruct (decide (ueTenant e = tenant)) as [<-|Hne];
      [by rewrite lookup_insert_eq | by rewrite lookup_insert_ne]. }
  assert (forall v, default 0 (default ∅ ((<[ueTenant e := <[ueMeter e := v]> (default ∅ (mTotals s !! ueTenant e))]>
      (mTotals s)) !! tenant) !! meter)
    = if decide (ueTenant e = tenant /\ ueMeter e = meter) then v
      else default 0 (default ∅ (mTotals s !! tenant) !! meter)) as Hset.
  { intros v. destruct (decide (ueTenant e = tenant)) as [<-|Hne].
    - rewrite lookup_insert_eq. simpl. destruct (decide (ueMeter e = meter)) as [<-|Hm].
      + rewrite lookup_insert_eq, decide_True by done. done.
      + rewrite lookup_insert_ne, decide_False by naive_solver. done.
    - rewrite lookup_insert_ne, decide_False by naive_solver. done. }
  unfold RecordUsage. repeat case_match; simpl; rewrite ?Hset, ?Hsame by done;
    repeat case_decide; destruct_and?; subst; try done; exfalso; naive_solver.
Qed.

(** The events of a meter that were accepted, when all are recorded in turn. *)
Fixpoint accepted (tenant meter : string) (es : list UsageEvent) (s : InMemMeterStore) : list Z :=
  match es with
  | [] => []
  | e :: es' =>
      let '(r, s') := RecordUsage e s in
      (if is_ok r && bool_decide (ueTenant e = tenant /\ ueMeter e = meter) then [ueQuantity e] else []) ++
      accepted tenant meter es' s'
  end.

Definition recordAll (es : list UsageEvent) (s : InMemMeterStore) : InMemMeterStore :=
  foldl (fun s e => (RecordUsage e s).2) s es.

(** ** Properties *)


(** A quantity near the end of the [int64] range slips through the quota and makes the
    recorded usage negative. *)
Theorem meter_overflow_bypasses_limit (s : InMemMeterStore) (tenant meter : string) (limit : Z)
    (Hlimit : limitOf tenant meter s = Some limit) (Hpos : 0 < limit)
    (Hused : 0 < GetUsage tenant meter s <= maxInt64) :
  (RecordUsage (mkUsage tenant meter maxInt64) s).1 = Ok tt /\
  GetUsage tenant meter (RecordUsage (mkUsage tenant meter maxInt64) s).2 < 0.
Proof.
  assert (int64 (GetUsage tenant meter s + maxInt64) = GetUsage tenant meter s + maxInt64 - 2 ^ 64) as Hw.
  { unfold int64, wrapS, maxInt64 in *. change (64 - 1) with 63.
    rewrite <- (Z.mod_unique (GetUsage tenant meter s + 9223372036854775807 + 2 ^ 63) (2 ^ 64) 1
      (GetUsage tenant meter s + 9223372036854775807 + 2 ^ 63 - 2 ^ 64)); lia. }
  assert (is_ok (RecordUsage (mkUsage tenant meter maxInt64) s).1 = true /\
          (RecordUsage (mkUsage tenant meter maxInt64) s).1 = Ok tt) as [Hok Hr].
  { unfold RecordUsage. simpl. rewrite Hlimit, <- GetUsage_default, Hw.
    rewrite (proj2 (Z.ltb_ge limit _)) by (unfold maxInt64 in *; lia). by rewrite andb_false_r. }
  split; [done|]. rewrite RecordUsage_usage, decide_True by done. simpl. rewrite Hw. unfold maxInt64 in *. lia.
Qed.

Lemma split_on_one sep s b : split_on sep s = [b] -> s = b.
Proof.
  revert b. induction s as [|c s IH]; intros b Hs; simpl in Hs; [by simplify_eq|].
  case_bool_decide; [injection Hs as _ Hs; by apply split_on_nonempty in Hs|].
  destruct (split_on sep s) as [|w ws] eqn:E; [by apply split_on_nonempty in E|]. simplify_eq. by rewrite (IH w).
Qed.

Lemma split_on_two sep s a b : split_on sep s = [a; b] -> s = a +:+ String sep b.
Proof.
  revert a. induction s as [|c s IH]; intros a Hs; simpl in Hs; [done|].
  case_bool_decide as Hc; [injection Hs as <- Hs; subst c; by rewrite (split_on_one _ _ _ Hs)|].
  destruct (split_on sep s) as [|w ws] eqn:E; [by apply split_on_nonempty in E|]. simplify_eq. by rewrite (IH w).
Qed.

Definition no_comma (c : ascii) : bool := negb (bool_decide (c = ","%char)).

Lemma split_join_comma l : l <> [] -> Forall (fun s => str_forall no_comma s = true) l ->
  split_on ","%char (join_comma l) = l.
Proof.
  intros Hne Hl. induction Hl as [|x l Hx Hl IH]; [done|]. destruct l as [|y l].
  - by apply split_on_none.
  - change (join_comma (x :: y :: l)) with (x +:+ String "," (join_comma (y :: l))).
    rewrite split_on_join by done. f_equal. by apply IH.
Qed.

(** A generated key does what it was issued for: its record stores the hash of the raw
    key, and it validates for a scope exactly when it has not expired and the scope is one
    of those requested (or of the default read and write), or one of those is "admin" or
    "*"; without a required scope only the expiry matters. *)
Theorem GenerateAPIKey_valid (bytes : string) (created now : Z) (tenant name required : string) (isTest : bool)
    (scopes : list string) (expires : option Z)
    (Hscopes : Forall (fun s => str_forall no_comma s = true /\ str_forall not_space s = true) scopes) :
  exists k raw, GenerateAPIKey (Some bytes) created tenant name isTest scopes expires = Ok (k, raw) /\
    akHash k = HashAPIKey raw /\ akTenant k = tenant /\
    let granted := if decide (scopes = []) then ["read"; "write"] else scopes in
    (ValidateAPIKey now (Some k) required = Ok tt <->
     (forall e, expires = Some e -> now <= e) /\
     (required = "" \/ required ∈ granted \/ "admin" ∈ granted \/ "*" ∈ granted)).
Proof.
  eexists _, _. split; [reflexivity|]. split_and!; [done|done|]. cbv zeta. simpl.
  set (granted := if decide (scopes = []) then _ else _).
  assert ((if zlen scopes =? 0 then ["read"; "write"] else scopes) = granted) as ->
    by (unfold granted; by destruct scopes).
  assert (granted <> [] /\ Forall (fun s => str_forall no_comma s = true /\ str_forall not_space s = true) granted)
    as [Hne Hall].
  { unfold granted. case_decide; [split; [done|repeat constructor]|done]. }
  rewrite split_join_comma by (done || by eapply Forall_impl; [exact Hall|]; naive_solver).
  assert (existsb (scopeMatches required) granted = true <->
    required ∈ granted \/ "admin" ∈ granted \/ "*" ∈ granted) as Hscope.
  { rewrite existsb_exists. setoid_rewrite <- list_elem_of_In. unfold scopeMatches.
    rewrite Forall_forall in Hall. split.
    - intros (x & Hx & Hm). destruct (Hall x Hx) as [_ Hs]. rewrite TrimSpace_id in Hm by done.
      rewrite !orb_true_iff, !bool_decide_eq_true in Hm. naive_solver.
    - intros Hin. assert (exists x, x ∈ granted /\ (x = required \/ x = "admin" \/ x = "*")) as (x & Hx & Hm) by naive_solver.
      exists x. split; [done|]. destruct (Hall x Hx) as [_ Hs]. rewrite TrimSpace_id by done.
      rewrite !orb_true_iff, !bool_decide_eq_true. naive_solver. }
  unfold require. destruct expires as [e|]; simpl.
  - destruct (e <? now) eqn:Ee; simpl; bool_hyps.
    + split; [done|]. intros [Hx _]. specialize (Hx e eq_refl). lia.
    + case_bool_decide as Hr; [split; [intros _; split; [intros; simplify_eq; lia|by left]|done]|].
      rewrite <- Hscope. destruct (existsb _ granted); (split; [|naive_solver]); intros; simplify_eq.
      split; [intros; simplify_eq; lia|by right].
  - case_bool_decide as Hr; [split; [intros _; split; [done|by left]|done]|].
    rewrite <- Hscope. destruct (existsb _ granted); (split; [|naive_solver]); intros; simplify_eq.
    split; [done|by right].
Qed.

(** Licences verify and cannot be altered: an issued licence verifies to its payload
    until it expires (payloads without expiry always); and whatever text is accepted is,
    up to surrounding white space, a payload and exactly the signature of that payload
    under the secret. *)
Theorem license_sound (marshal : EnterpriseLicensePayload -> option string)
    (unmarshal : string -> option EnterpriseLicensePayload)
    (Hjson : forall p bytes, marshal p = Some bytes -> unmarshal bytes = Some p) :
  (forall secret p now key, IssueLicense marshal secret (Some p) = Ok key ->
     VerifyLicense unmarshal secret now key
     = if decide (0 < liExpires p < now) then Err LicExpired else Ok p) /\
  (forall secret now key p, VerifyLicense unmarshal secret now key = Ok p ->
     exists encoded bytes, TrimSpace key = encoded +:+ "." +:+ computeSignature secret encoded /\
       b64_decode encoded = Some bytes /\ unmarshal bytes = Some p /\ ~ 0 < liExpires p < now).
Proof.
  split.
  - intros secret p now key Hi. unfold IssueLicense in Hi. simpl in Hi.
    destruct (marshal p) as [bytes|] eqn:Hm; [|done]. simpl in Hi. simplify_eq. unfold VerifyLicense.
    set (enc := b64_encode bytes).
    destruct (hex_no_space_dot (hmac_sha256 secret enc)) as [Hs1 Hs2].
    assert (str_forall not_space enc = true /\ str_forall (fun c => negb (bool_decide (c = "."%char))) enc = true)
      as [He1 He2].
    { split; eapply str_forall_impl, b64_encode_chars; intros c [Hc1 Hc2]%b64_char_spec; [done|].
      by rewrite bool_decide_false. }
    rewrite TrimSpace_id by (rewrite !str_forall_app; unfold computeSignature; by rewrite He1, Hs1).
    change ("." +:+ ?x) with (String "." x). rewrite split_on_join by done. rewrite split_on_none by done.
    rewrite bool_decide_true by done. simpl. unfold enc. rewrite b64_decode_encode. simpl.
    rewrite (Hjson p bytes Hm). simpl. case_decide as Hd.
    + by rewrite (proj2 (Z.ltb_lt _ _)), (proj2 (Z.ltb_lt _ _)) by lia.
    + assert ((0 <? liExpires p) && (liExpires p <? now) = false) as ->; [|done].
      apply not_true_is_false. rewrite andb_true_iff, !Z.ltb_lt. done.
  - intros secret now key p Hv. unfold VerifyLicense in Hv.
    destruct (split_on "."%char (TrimSpace key)) as [|encoded [|sig [|]]] eqn:Hsp; try done.
    inv_result. bool_hyps. subst sig.
    match goal with H : b64_decode encoded = Some ?b |- _ => exists encoded, b end.
    split_and!; [|done|done|].
    + by apply split_on_two in Hsp.
    + lia.
Qed.

(** ** Witnesses *)

Definition demoMeters : InMemMeterStore := SetQuotaLimit "t" "STORAGE_BYTES" 10 NewInMemMeterStore.


Lemma GenerateAPIKey_valid_witness :
  exists k raw, GenerateAPIKey (Some "abcdefghabcdefghabcdefgh") 0 "t" "ci" true [] (Some 100) = Ok (k, raw) /\
    ValidateAPIKey 50 (Some k) "write" = Ok tt.
Proof.
  destruct (GenerateAPIKey_valid "abcdefghabcdefghabcdefgh" 0 50 "t" "ci" "write" true [] (Some 100)
    (Forall_nil_2 _)) as (k & raw & H1 & _ & _ & H2).
  exists k, raw. split; [exact H1|]. apply H2. split.
  - intros e He. injection He as <-. lia.
  - right. left. right. left.
Defined.

#[global] Instance license_eq_dec : EqDecision EnterpriseLicensePayload.
Proof. solve_decision. Defined.

(** An encoding for the witness: the expiry of one customer's licence. *)
Definition acme (e : Z) : EnterpriseLicensePayload := mkLicense "l" "t" "acme" "ENTERPRISE" 1 1 [] 0 e [].
Definition textMarshal (p : EnterpriseLicensePayload) : option string :=
  if bool_decide (p = acme (liExpires p)) && in_int64 (liExpires p) then Some (format_int (liExpires p)) else None.
Definition textUnmarshal (s : string) : option EnterpriseLicensePayload := acme <$> parse_int s.

Lemma license_sound_witness :
  exists key, IssueLicense textMarshal "secret" (Some (acme 100)) = Ok key /\
    VerifyLicense textUnmarshal "secret" 50 key = Ok (acme 100).
Proof.
  destruct (license_sound textMarshal textUnmarshal) as [H _].
  - intros p bytes Hm. unfold textMarshal in Hm. destruct (bool_decide _ && _) eqn:E; [|discriminate Hm].
    apply andb_true_iff in E as [E1 E2]. apply bool_decide_eq_true in E1. injection Hm as <-.
    unfold textUnmarshal. rewrite parse_format_int; [simpl; congruence|].
    unfold in_int64 in E2. apply andb_true_iff in E2 as [E2 E3]. split; lia.
  - eexists. split; [reflexivity|]. rewrite (H "secret" (acme 100) 50 _ eq_refl). reflexivity.
Defined.
