(* ===== verification/RateLimit.v ===== *)
(** * internal/ingress/ratelimit.go: the token bucket limiter

    The buckets compute with [float64]: the model uses the binary64 operations of
    [SpecFloat] (round to nearest even, no fused multiply-add, as on amd64).  Times are in
    nanoseconds; the two clock readings of a request are arguments. *)
From Stdlib Require Import SpecFloat.
From S2P Require Import Prelude.

(** ** float64 *)

Definition float64 : Type := spec_float.
Definition f64_of_Z (z : Z) : float64 := binary_normalize 53 1024 z 0 false.
Definition f64_add : float64 -> float64 -> float64 := SFadd 53 1024.
Definition f64_sub : float64 -> float64 -> float64 := SFsub 53 1024.
Definition f64_mul : float64 -> float64 -> float64 := SFmul 53 1024.
Definition f64_div : float64 -> float64 -> float64 := SFdiv 53 1024.
Definition f64_ltb : float64 -> float64 -> bool := SFltb.

#[global] Instance float64_eq_dec : EqDecision float64.
Proof. solve_decision. Defined.

Definition f64_zero : float64 := f64_of_Z 0.
Definition f64_one : float64 := f64_of_Z 1.

(** [Time.Sub] saturates at the limits of [time.Duration]. *)
Definition timeSub (a b : Z) : Z := Z.max minInt64 (Z.min maxInt64 (a - b)).

(** [Duration.Seconds]: whole seconds plus the fraction, in [float64]. *)
Definition durSeconds (d : Z) : float64 :=
  f64_add (f64_of_Z (Z.quot d 1000000000)) (f64_div (f64_of_Z (Z.rem d 1000000000)) (f64_of_Z 1000000000)).

(** ** Buckets *)

Record tokenBucket := mkBucket { tokens : float64; maxBurst : float64; tbRps : float64; lastTime : Z }.

Record RateLimiter := mkLimiter { buckets : gmap string tokenBucket; rps : Z; burst : Z }.

(** The clock is read by the callers of the limiter's operations. *)
Definition NewRateLimiterWithClock (rps burst : Z) : RateLimiter := mkLimiter ∅ rps burst.
Definition NewRateLimiter (rps burst : Z) : RateLimiter := NewRateLimiterWithClock rps burst.

(** [getBucket]: the stored bucket or a full new one, stored; [now] is read for a new one. *)
Definition getBucket (tenant : string) (now : Z) (rl : RateLimiter) : tokenBucket * RateLimiter :=
  match buckets rl !! tenant with
  | Some b => (b, rl)
  | None =>
      let b := mkBucket (f64_of_Z (burst rl)) (f64_of_Z (burst rl)) (f64_of_Z (rps rl)) now in
      (b, mkLimiter (<[tenant := b]> (buckets rl)) (rps rl) (burst rl))
  end.

(** The refill of [allow]. *)
Definition refill (now : Z) (tb : tokenBucket) : tokenBucket :=
  let elapsed := durSeconds (timeSub now (lastTime tb)) in
  if f64_ltb f64_zero elapsed then
    let t := f64_add (tokens tb) (f64_mul elapsed (tbRps tb)) in
    mkBucket (if f64_ltb (maxBurst tb) t then maxBurst tb else t) (maxBurst tb) (tbRps tb) now
  else tb.

Definition allow (now : Z) (tb0 : tokenBucket) : bool * tokenBucket :=
  let tb := refill now tb0 in
  if f64_ltb (tokens tb) f64_one then (false, tb)
  else (true, mkBucket (f64_sub (tokens tb) f64_one) (maxBurst tb) (tbRps tb) (lastTime tb)).

(** [Allow]: [t1] is the clock read by [getBucket], [t2] the one handed to [allow]. *)
Definition RateLimiter_Allow (tenant : string) (t1 t2 : Z) (rl : RateLimiter) : bool * RateLimiter :=
  let '(b, rl1) := getBucket tenant t1 rl in
  let '(ok, b') := allow t2 b in
  (ok, mkLimiter (<[tenant := b']> (buckets rl1)) (rps rl1) (burst rl1)).

(** [AllowHTTP] around a handler: 429 without running it, or the handler's answer; [hdr] is
    the X-Tenant-ID header. *)
Definition limiterTenant (hdr : string) : string := if bool_decide (hdr = "") then "default" else hdr.

Definition AllowHTTP {A} (hdr : string) (t1 t2 : Z) (next : A) (refused : A) (rl : RateLimiter)
    : A * RateLimiter :=
  let '(ok, rl') := RateLimiter_Allow (limiterTenant hdr) t1 t2 rl in (if ok then next else refused, rl').

Definition limiterReset (rl : RateLimiter) : RateLimiter := mkLimiter ∅ (rps rl) (burst rl).
Definition BucketCount (rl : RateLimiter) : Z := Z.of_nat (size (buckets rl)).

(** Requests of the given tenants at clock time [now]. *)
Fixpoint allowAll (now : Z) (reqs : list string) (rl : RateLimiter) : list bool * RateLimiter :=
  match reqs with
  | [] => ([], rl)
  | t :: reqs' =>
      let '(ok, rl1) := RateLimiter_Allow t now now rl in
      let '(oks, rl2) := allowAll now reqs' rl1 in (ok :: oks, rl2)
  end.

(** ** Lemmas *)

(** Bursts up to this size are counted exactly (checked by computation). *)
Definition exactBurst : Z := 4096.

Definition predExact (n : Z) : bool :=
  bool_decide (f64_sub (f64_of_Z n) f64_one = f64_of_Z (n - 1)) && negb (f64_ltb (f64_of_Z n) f64_one).

Lemma predExact_checked : forallb predExact (seqZ 1 exactBurst) = true.
Proof. vm_compute. reflexivity. Qed.

Lemma f64_pred n : 1 <= n <= exactBurst ->
  f64_sub (f64_of_Z n) f64_one = f64_of_Z (n - 1) /\ f64_ltb (f64_of_Z n) f64_one = false.
Proof.
  intros Hn. pose proof predExact_checked as Hall. rewrite forallb_forall in Hall.
  assert (predExact n = true) as Hp.
  { apply Hall. apply list_elem_of_In, elem_of_seqZ. unfold exactBurst in *. lia. }
  unfold predExact in Hp. bool_hyps. done.
Qed.

Lemma refill_now now tb : lastTime tb = now -> refill now tb = tb.
Proof.
  intros <-. unfold refill, timeSub. rewrite Z.sub_diag.
  replace (Z.max minInt64 (Z.min maxInt64 0)) with 0 by (unfold minInt64, maxInt64; lia). reflexivity.
Qed.

(** The bucket after [k] admitted requests at time [now]. *)
Definition bucketAfter (rl : RateLimiter) (now k : Z) : tokenBucket :=
  mkBucket (f64_of_Z (burst rl - k)) (f64_of_Z (burst rl)) (f64_of_Z (rps rl)) now.

Lemma allow_bucketAfter rl now k : 0 <= k <= burst rl -> burst rl <= exactBurst ->
  allow now (bucketAfter rl now k)
  = (k <? burst rl, bucketAfter rl now (if k <? burst rl then k + 1 else k)).
Proof.
  intros Hk Hb. unfold allow. rewrite refill_now by done. simpl.
  destruct (k <? burst rl) eqn:E; bool_hyps.
  - destruct (f64_pred (burst rl - k) ltac:(lia)) as [-> ->]. unfold bucketAfter. do 3 f_equal. lia.
  - replace (burst rl - k) with 0 by lia. simpl. unfold bucketAfter.
    by replace (burst rl - k) with 0 by lia.
Qed.

Definition countOf (t : string) (l : list string) : Z := zlen (filter (fun x => x = t) l).

Lemma countOf_snoc t x l : countOf t (l ++ [x]) = countOf t l + (if decide (x = t) then 1 else 0).
Proof.
  unfold countOf. rewrite filter_app, zlen_app. f_equal. rewrite filter_cons, filter_nil. by case_decide.
Qed.

Lemma countOf_nonneg t l : 0 <= countOf t l.
Proof. apply zlen_nonneg. Qed.

(** After the requests [past], every bucket of the limiter is as old requests left it. *)
Definition burstInv (now : Z) (past : list string) (rl : RateLimiter) : Prop :=
  forall t, match buckets rl !! t with
            | None => countOf t past = 0
            | Some b => b = bucketAfter rl now (Z.min (countOf t past) (burst rl))
            end.

Lemma getBucket_inv now past t rl : 0 <= burst rl -> burstInv now past rl ->
  let '(b, rl1) := getBucket t now rl in
  b = bucketAfter rl now (Z.min (countOf t past) (burst rl)) /\ rps rl1 = rps rl /\ burst rl1 = burst rl /\
  forall t', t' <> t -> buckets rl1 !! t' = buckets rl !! t'.
Proof.
  intros Hb Hinv. specialize (Hinv t). unfold getBucket. destruct (buckets rl !! t) as [b|] eqn:E; [done|].
  simpl. split_and!; try done.
  - rewrite Hinv, Z.min_l by done. unfold bucketAfter. by rewrite Z.sub_0_r.
  - intros t' Ht. by rewrite lookup_insert_ne.
Qed.

Lemma Allow_burst now past t rl : 0 <= burst rl <= exactBurst -> burstInv now past rl ->
  let '(ok, rl') := RateLimiter_Allow t now now rl in
  ok = (countOf t past <? burst rl) /\ burstInv now (past ++ [t]) rl' /\ burst rl' = burst rl.
Proof.
  intros Hb Hinv. unfold RateLimiter_Allow.
  pose proof (getBucket_inv now past t rl ltac:(lia) Hinv) as Hg.
  destruct (getBucket t now rl) as [b rl1]. destruct Hg as (-> & Hr & Hbu & Hoth).
  pose proof (countOf_nonneg t past) as Hc.
  rewrite allow_bucketAfter by lia. simpl. rewrite Hr, Hbu. split_and!; [|intros t'|done].
  - lia.
  - simpl. rewrite countOf_snoc. destruct (decide (t = t')) as [<-|Hne].
    + rewrite lookup_insert_eq. unfold bucketAfter. simpl. f_equal. f_equal.
      destruct (Z.min (countOf t past) (burst rl) <? burst rl) eqn:E; bool_hyps; lia.
    + rewrite lookup_insert_ne, Hoth, Z.add_0_r by done. exact (Hinv t').
Qed.

(** ** Properties *)

(** Bursts are metered exactly and per tenant: for any burst size up to 4096, among
    requests of any tenants in any order at one instant, a fresh limiter admits a request
    exactly when fewer than [burst] earlier ones came from the same tenant. *)
Theorem burst_per_tenant (rps burst now : Z) (reqs : list string) (i : nat) (tenant : string)
    (Hburst : 0 <= burst <= exactBurst) (Hi : reqs !! i = Some tenant) :
  (allowAll now reqs (NewRateLimiter rps burst)).1 !! i = Some (countOf tenant (take i reqs) <? burst).
Proof.
  assert (forall rl past l j t, 0 <= RateLimit.burst rl <= exactBurst -> burstInv now past rl -> l !! j = Some t ->
    (allowAll now l rl).1 !! j = Some (countOf t (past ++ take j l) <? RateLimit.burst rl)) as Hgen.
  { intros rl past l. revert rl past. induction l as [|t0 l IH]; intros rl past j t Hb Hinv Hj; [done|].
    simpl. pose proof (Allow_burst now past t0 rl Hb Hinv) as Ha.
    destruct (RateLimiter_Allow t0 now now rl) as [ok rl1]. destruct Ha as (-> & Hinv1 & Hb1).
    destruct j as [|j]; simpl in Hj.
    - simplify_eq. destruct (allowAll now l rl1). simpl. by rewrite app_nil_r.
    - specialize (IH rl1 (past ++ [t0]) j t). rewrite Hb1 in IH. specialize (IH Hb Hinv1 Hj).
      destruct (allowAll now l rl1). simpl in *. rewrite IH. by rewrite <- app_assoc. }
  rewrite (Hgen (NewRateLimiter rps burst) [] reqs i tenant); [done|done| |done].
  intros t. simpl. by rewrite lookup_empty.
Qed.

Lemma burst_per_tenant_witness :
  (allowAll 7 ["a"; "b"; "a"; "a"] (NewRateLimiter 10 2)).1 !! 3%nat = Some false.
Proof. apply (burst_per_tenant 10 2 7 ["a"; "b"; "a"; "a"] 3 "a"); [unfold exactBurst; lia|reflexivity]. Defined.

(** A refused bucket refills: after one second at one request per second it admits again. *)
Example refill_admits :
  let rl := (allowAll 0 ["a"; "a"] (NewRateLimiter 1 1)).2 in
  (RateLimiter_Allow "a" 999999999 999999999 rl).1 = false /\ (RateLimiter_Allow "a" 1000000000 1000000000 rl).1 = true.
Proof. vm_compute. done. Qed.
