(* ===== verification/Metrics.v ===== *)
(** * The metrics and operation logs

    cas/metrics.go, database/metrics.go, ingress/metrics.go and telemetry/metrics.go: which
    collectors the program registers and which calls it makes on them.  The Prometheus
    client is a parameter: a registry that refuses a name it has.  A call on a collector is
    a value of [mcall]; a function that records metrics returns the calls it makes, in
    order.  The database wrappers and the ingress handlers are given here with their
    metrics; the theorems relate them to the definitions without. *)
From S2P Require Import Prelude GoLib External Database Schema Cas Gc Ingress Handlers RateLimit.

(** ** The Prometheus client *)

Class Prometheus := {
  registry : Type;
  fqName : string -> string -> string -> string;
  Register : string -> registry -> option registry;
  registered : registry -> string -> bool;
  ExponentialBuckets : float64 -> float64 -> nat -> list float64;
  (** Name, namespace and subsystem are joined by underscores; without namespace and
      subsystem the name is taken as it is. *)
  fqName_full ns sub n : ns <> "" -> sub <> "" -> n <> "" -> fqName ns sub n = ns +:+ "_" +:+ sub +:+ "_" +:+ n;
  fqName_bare n : fqName "" "" n = n;
  (** A second collector of the same name is refused. *)
  Register_spec n r :
    match Register n r with
    | None => registered r n = true
    | Some r' => registered r n = false /\ forall m, registered r' m = bool_decide (m = n) || registered r m
    end
}.

Inductive kind := KGauge | KCounter | KHistogram (buckets : list float64).
Record desc := mkDesc { dName : string; dKind : kind; dLabels : list string }.
#[global] Instance kind_eq_dec : EqDecision kind.
Proof. solve_decision. Defined.
#[global] Instance desc_eq_dec : EqDecision desc.
Proof. solve_decision. Defined.

Inductive mcall :=
| MSet (m : desc) (v : float64)
| MAdd (m : desc) (labels : list string) (v : Z)
| MObserve (m : desc) (labels : list string) (v : float64).
Definition MInc (m : desc) (labels : list string) : mcall := MAdd m labels 1.

(** A decimal constant of the source. *)
Definition dec (n d : Z) : float64 := f64_div (f64_of_Z n) (f64_of_Z d).

(** What the calls leave in a collector. *)
Definition gaugeValue (m : desc) (log : list mcall) : option float64 :=
  foldl (fun acc c => match c with MSet m' v => if bool_decide (m' = m) then Some v else acc | _ => acc end) None log.
Definition counterValue (m : desc) (labels : list string) (log : list mcall) : Z :=
  foldr (fun c acc => match c with
    | MAdd m' l v => if bool_decide (m' = m /\ l = labels) then v + acc else acc | _ => acc end) 0 log.
Definition observations (m : desc) (labels : list string) (log : list mcall) : Z :=
  foldr (fun c acc => match c with
    | MObserve m' l _ => if bool_decide (m' = m /\ l = labels) then 1 + acc else acc | _ => acc end) 0 log.

Section registration.
Context `{PR : Prometheus}.

(** [MustRegister] and the constructors of [promauto]: [None] is a panic. *)
Fixpoint mustRegister (names : list string) (r : registry) : option registry :=
  match names with
  | [] => Some r
  | n :: ns => r' ← Register n r; mustRegister ns r'
  end.

(** ** cas/metrics.go *)

Record CASMetrics := mkCASMetrics {
  cmTotalBlocks : desc; cmTotalBytes : desc; cmOrphanBlocks : desc; cmOrphanBytes : desc; cmHotBlocks : desc;
  cmWarmBlocks : desc; cmColdBlocks : desc; cmUnverified : desc; cmAvgRef : desc; cmMaxRef : desc; cmDedup : desc;
  cmRefDist : desc; cmSweeps : desc; cmDeleted : desc; cmSweepDur : desc; cmExpired : desc; cmTombstoned : desc;
  cmFailed : desc; cmRateHit : desc; cmSaved : desc
}.

Definition casDesc (k : kind) (name : string) : desc := mkDesc (fqName "aegis" "cas" name) k [].

Definition casMetrics : CASMetrics :=
  mkCASMetrics (casDesc KGauge "total_blocks") (casDesc KGauge "total_bytes") (casDesc KGauge "orphan_blocks")
    (casDesc KGauge "orphan_bytes") (casDesc KGauge "hot_blocks") (casDesc KGauge "warm_blocks")
    (casDesc KGauge "cold_blocks") (casDesc KGauge "unverified_blocks") (casDesc KGauge "avg_ref_count")
    (casDesc KGauge "max_ref_count") (casDesc KGauge "dedup_ratio")
    (casDesc (KHistogram (f64_of_Z <$> [1; 2; 5; 10; 25; 50; 100; 250; 500; 1000])) "ref_count_distribution")
    (casDesc KCounter "gc_sweeps_total") (casDesc KCounter "gc_blocks_deleted_total")
    (casDesc (KHistogram [dec 1 100; dec 5 100; dec 1 10; dec 5 10; dec 1 1; dec 5 1; dec 10 1; dec 30 1; dec 60 1])
             "gc_sweep_duration_seconds")
    (casDesc KCounter "gc_sessions_expired_total") (casDesc KCounter "gc_blocks_tombstoned_total")
    (casDesc KCounter "gc_deletion_failed_total") (casDesc KCounter "gc_rate_limit_hit_total")
    (casDesc KCounter "gc_double_check_saved_total").

Definition casCollectors (m : CASMetrics) : list desc :=
  [cmTotalBlocks m; cmTotalBytes m; cmOrphanBlocks m; cmOrphanBytes m; cmHotBlocks m; cmWarmBlocks m; cmColdBlocks m;
   cmUnverified m; cmAvgRef m; cmMaxRef m; cmDedup m; cmRefDist m; cmSweeps m; cmDeleted m; cmSweepDur m;
   cmExpired m; cmTombstoned m; cmFailed m; cmRateHit m; cmSaved m].

Definition NewCASMetrics (r : registry) : option (CASMetrics * registry) :=
  r' ← mustRegister (dName <$> casCollectors casMetrics) r; Some (casMetrics, r').

(** [avg]: the server's average of the reference counts, as scanned. *)
Definition RefreshFromStats (m : option CASMetrics) (stats : option StorageStats) (avg : float64)
    (totalContentBytes : Z) : list mcall :=
  match stats, m with
  | Some s, Some m =>
      [MSet (cmTotalBlocks m) (f64_of_Z (TotalBlocks s)); MSet (cmTotalBytes m) (f64_of_Z (TotalBytes s));
       MSet (cmOrphanBlocks m) (f64_of_Z (OrphanBlocks s)); MSet (cmOrphanBytes m) (f64_of_Z (OrphanBytes s));
       MSet (cmHotBlocks m) (f64_of_Z (HotBlocks s)); MSet (cmWarmBlocks m) (f64_of_Z (WarmBlocks s));
       MSet (cmColdBlocks m) (f64_of_Z (ColdBlocks s)); MSet (cmUnverified m) (f64_of_Z (UnverifiedBlocks s));
       MSet (cmAvgRef m) avg; MSet (cmMaxRef m) (f64_of_Z (MaxRefCount s))] ++
      (if (0 <? TotalBytes s) && (0 <? totalContentBytes)
       then [MSet (cmDedup m) (f64_div (f64_of_Z totalContentBytes) (f64_of_Z (TotalBytes s)))] else [])
  | _, _ => []
  end.

Definition ObserveRefCounts (m : CASMetrics) (refCounts : list Z) : list mcall :=
  (fun rc => MObserve (cmRefDist m) [] (f64_of_Z rc)) <$> refCounts.

Definition IncSessionsExpired (m : CASMetrics) : mcall := MInc (cmExpired m) [].
Definition IncBlocksTombstoned (m : CASMetrics) : mcall := MInc (cmTombstoned m) [].
Definition IncBlocksDeleted (m : CASMetrics) : mcall := MInc (cmDeleted m) [].
Definition IncDeletionFailed (m : CASMetrics) : mcall := MInc (cmFailed m) [].
Definition IncRateLimitHit (m : CASMetrics) : mcall := MInc (cmRateHit m) [].
Definition IncDoubleCheckSaved (m : CASMetrics) : mcall := MInc (cmSaved m) [].

(** The end of a sweep of the CAS worker that deleted [deleted] blocks in [d]. *)
Definition sweepMetrics (m : option CASMetrics) (deleted d : Z) : list mcall :=
  match m with
  | Some m => [MInc (cmSweeps m) []; MAdd (cmDeleted m) [] deleted; MObserve (cmSweepDur m) [] (durSeconds d)]
  | None => []
  end.

(** One tick of the goroutine of cmd/ingest that refreshes the gauges. *)
Definition refreshTick `{U : UUID} (avg : StorageStats -> float64) (m : CASMetrics) (w : world db)
    : list mcall * world db :=
  match GetStorageStats w with
  | (Err _, w') => ([], w')
  | (Ok stats, w') => (RefreshFromStats (Some m) (Some stats) (avg stats) 0, w')
  end.

(** ** database/metrics.go *)

Record Metrics := mkMetrics {
  dmQuery : desc; dmWait : desc; dmAcquired : desc; dmReleased : desc; dmErrors : desc; dmSlow : desc
}.

Definition dbDesc (k : kind) (name : string) (labels : list string) : desc :=
  mkDesc (fqName "aegis" "db" name) k labels.

Definition dbMetrics : Metrics :=
  mkMetrics
    (dbDesc (KHistogram [dec 5 10000; dec 1 1000; dec 2 1000; dec 3 1000; dec 4 1000; dec 5 1000; dec 75 10000;
                         dec 1 100; dec 25 1000; dec 5 100; dec 1 10; dec 25 100; dec 5 10; dec 1 1])
            "query_duration_seconds" ["pool"; "op"])
    (dbDesc (KHistogram (ExponentialBuckets (dec 1 10000) (dec 2 1) 16)) "acquire_wait_seconds" [])
    (dbDesc KCounter "connections_acquired_total" []) (dbDesc KCounter "connections_released_total" [])
    (dbDesc KCounter "query_errors_total" ["pool"; "op"]) (dbDesc KCounter "slow_queries_total" []).

Definition dbCollectors (m : Metrics) : list desc :=
  [dmQuery m; dmWait m; dmAcquired m; dmReleased m; dmErrors m; dmSlow m].

(** [reg = None]: a nil registerer. *)
Definition newMetrics (reg : option registry) : option (Metrics * option registry) :=
  match reg with
  | None => Some (dbMetrics, None)
  | Some r => r' ← mustRegister (dName <$> dbCollectors dbMetrics) r; Some (dbMetrics, Some r')
  end.

(** The process-wide collectors behind [sync.Once], which counts as done after a panic. *)
Record sharedMetrics := mkShared { shOnce : bool; shMetric : option Metrics; shReg : registry }.

(** [None]: the call panics; otherwise the shared collectors (nil after a panic). *)
Definition defaultMetrics (s : sharedMetrics) : option (option Metrics) * sharedMetrics :=
  if shOnce s then (Some (shMetric s), s)
  else match newMetrics (Some (shReg s)) with
       | Some (m, Some r) => (Some (Some m), mkShared true (Some m) r)
       | Some (m, None) => (Some (Some m), mkShared true (Some m) (shReg s))
       | None => (None, mkShared true None (shReg s))
       end.

Definition observeQuery (m : option Metrics) (pool op : string) (d : Z) (err : option dberr) : list mcall :=
  match m with
  | None => []
  | Some m => MObserve (dmQuery m) [pool; op] (durSeconds d) ::
              match err with Some _ => [MInc (dmErrors m) [pool; op]] | None => [] end
  end.

Definition observeAcquire (m : option Metrics) (d : Z) (r : waitReservoir) : list mcall * waitReservoir :=
  match m with
  | None => ([], r)
  | Some m => ([MObserve (dmWait m) [] (durSeconds d)], resAdd d r)
  end.

Record logline := mkLog {
  lgLevel : Z; lgMsg : string; lgPool : string; lgOperation : string; lgTenant : string; lgMs : Z;
  lgErr : option dberr
}.

Definition Milliseconds (d : Z) : Z := Z.quot d 1000000.

Definition slowGate (m : Metrics) (threshold : Z) (op operation tenant : string) (d : Z) : list mcall * list logline :=
  if d <? threshold then ([], [])
  else ([MInc (dmSlow m) []], [mkLog 4 "slow query" op operation tenant (Milliseconds d) None]).

Definition logOperation (op operation tenant : string) (d : Z) (err : option dberr) : logline :=
  mkLog (if err is Some _ then 8 else 0) (if err is Some _ then "db.operation.failed" else "db.operation")
        op operation tenant (Milliseconds d) err.

(** What every wrapper of the client records when its statement is done. *)
Definition record (m : Metrics) (cfg : DbConfig) (class operation tenant : string) (d : Z) (err : option dberr)
    : list mcall * list logline :=
  let '(c, l) := slowGate m (SlowQueryThreshold cfg) class operation tenant d in
  (observeQuery (Some m) class operation d err ++ c, l ++ [logOperation class operation tenant d err]).

(** ** The wrappers of the client, with what they record *)

Section wrappers.
Context {D : Type} (m : Metrics) (cfg : DbConfig).

Definition recorded (A : Type) : Type := result dberr A * world D * (list mcall * list logline).

(** [QueryWithMetrics] and [ExecWithMetrics]: [run] is the statement with its routing. *)
Definition withMetrics {A} (class operation tenant : string) (run : world D -> result dberr A * world D)
    (w : world D) : recorded A :=
  let '(r, w1) := run w in
  (r, w1, record m cfg class operation tenant (timeSub (clock w1) (clock w)) (errOf r)).

Definition queryRecorded {A} (class operation tenant : string) (q : Z -> D -> result dberr A) : world D -> recorded A :=
  withMetrics class operation tenant (QueryWithMetrics class q).

Definition execRecorded {A} (class operation tenant : string) (q : Z -> D -> result dberr A * D)
    : world D -> recorded A :=
  withMetrics class operation tenant (ExecWithMetrics class q).

(** The mutating wrappers: the duration ends before the generation bump. *)
Definition mutateRecorded {A} (operation tenant : string) (body : txst D -> result dberr A * txst D) (w : world D)
    : recorded A :=
  let '(r, w1, rec) := withMetrics OpWrite operation tenant (withTx (fun e => e) (fun e => e) body) w in
  (r, bumpGenerationOnSuccess tenant (errOf r) w1, rec).

(** A run of statements of one class and operation, each with its body. *)
Fixpoint recordedRun {A} (class operation tenant : string) (runs : list (world D -> result dberr A * world D))
    (w : world D) : list (result dberr A * Z) * world D * list mcall :=
  match runs with
  | [] => ([], w, [])
  | run :: rest =>
      let '(r, w1, (c, _)) := withMetrics class operation tenant run w in
      let '(rs, w2, cs) := recordedRun class operation tenant rest w1 in
      ((r, timeSub (clock w1) (clock w)) :: rs, w2, c ++ cs)
  end.

End wrappers.

(** ** ingress/metrics.go *)

Record IngestMetrics := mkIM {
  imInitiate : desc; imCommit : desc; imInitiateLatency : desc; imCommitLatency : desc; imHits : desc;
  imUploads : desc; imQuota : desc
}.

Definition latencyBuckets : list float64 :=
  [dec 5 1000; dec 1 100; dec 25 1000; dec 5 100; dec 1 10; dec 25 100; dec 5 10; dec 1 1].

Definition ingestMetrics : IngestMetrics :=
  mkIM (mkDesc (fqName "" "" "aegis_ingest_initiate_total") KCounter ["status"])
    (mkDesc (fqName "" "" "aegis_ingest_commit_total") KCounter ["status"])
    (mkDesc (fqName "" "" "aegis_ingest_initiate_duration_seconds") (KHistogram latencyBuckets) ["status"])
    (mkDesc (fqName "" "" "aegis_ingest_commit_duration_seconds") (KHistogram latencyBuckets) ["status"])
    (mkDesc (fqName "" "" "aegis_ingest_cas_hits_total") KCounter [])
    (mkDesc (fqName "" "" "aegis_ingest_uploads_total") KCounter [])
    (mkDesc (fqName "" "" "aegis_ingest_quota_exceeded_total") KCounter []).

Definition ingestCollectors (m : IngestMetrics) : list desc :=
  [imInitiate m; imCommit m; imInitiateLatency m; imCommitLatency m; imHits m; imUploads m; imQuota m].

Definition NewIngestMetrics (r : registry) : option (IngestMetrics * registry) :=
  r' ← mustRegister (dName <$> ingestCollectors ingestMetrics) r; Some (ingestMetrics, r').

(** ** telemetry/metrics.go *)

Record DeepMetrics := mkDeep { dpDedup : desc; dpS3 : desc; dpLag : desc; dpPoolWait : desc }.

Definition deepMetrics : DeepMetrics :=
  mkDeep (mkDesc (fqName "" "" "aegis_dedup_bytes_saved_total") KCounter [])
    (mkDesc (fqName "" "" "aegis_s3_io_latency_seconds")
       (KHistogram [dec 1 100; dec 5 100; dec 1 10; dec 25 100; dec 5 10; dec 1 1; dec 25 10; dec 5 1]) ["operation"])
    (mkDesc (fqName "" "" "aegis_kafka_consumer_lag") KGauge ["topic"; "partition"])
    (mkDesc (fqName "" "" "aegis_db_pool_wait_duration_seconds")
       (KHistogram [dec 1 1000; dec 5 1000; dec 1 100; dec 25 1000; dec 5 100; dec 1 10; dec 25 100]) []).

Definition deepCollectors (m : DeepMetrics) : list desc := [dpDedup m; dpS3 m; dpLag m; dpPoolWait m].

Definition NewDeepMetrics (r : registry) : option (DeepMetrics * registry) :=
  r' ← mustRegister (dName <$> deepCollectors deepMetrics) r; Some (deepMetrics, r').

(** What cmd/ingest registers with the default registerer, in order: the client's
    collectors, the handlers', the registry's. *)
Definition ingestRegistrations (s : sharedMetrics) : option (IngestMetrics * CASMetrics * sharedMetrics) :=
  match defaultMetrics s with
  | (None, _) => None
  | (Some _, s1) =>
      '(im, r2) ← NewIngestMetrics (shReg s1);
      '(cm, r3) ← NewCASMetrics r2;
      Some (im, cm, mkShared (shOnce s1) (shMetric s1) r3)
  end.

End registration.

(** ** The handlers with their metrics *)

Section handlers.
Context `{U : UUID} {S : Type} {St : Store S} (m : IngestMetrics).

Definition label (status : Z) : list string := [format_int status].
Definition countInit (status : Z) : list mcall := [MInc (imInitiate m) (label status)].
Definition countCommit (status : Z) : list mcall := [MInc (imCommit m) (label status)].

(** A panic of the store passes the counting line by. *)
Definition unlessPanic (e : ierr) (calls : list mcall) : list mcall :=
  match e with IPanic => [] | _ => calls end.

(** The loop over the chunks: the calls made up to its end or its failing signer. *)
Fixpoint mintMissingM (srv : IngressServer) (tenant : uuid) (existing : gmap string bool) (chunks : list ChunkInfo)
    : result ierr (list UploadURL) * list mcall :=
  match chunks with
  | [] => (Ok [], [])
  | c :: cs =>
      if default false (existing !! ciHash c) then
        let '(r, ms) := mintMissingM srv tenant existing cs in (r, MInc (imHits m) [] :: ms)
      else
        match mintURL srv tenant c with
        | Err e => (Err e, MInc (imUploads m) [] :: countInit 500)
        | Ok url =>
            let '(r, ms) := mintMissingM srv tenant existing cs in
            (rest ← r; Ok (mkUpload (ciHash c) url (ciSize c) :: rest), MInc (imUploads m) [] :: ms)
        end
  end.

Definition resolveNodeM (nid tenant : uuid) (req : InitiateRequest) (s : S) : result ierr uuid * S * list mcall :=
  match irNode req with
  | Some n =>
      match uuid_Parse n with
      | None => (Err badRequest, s, countInit 400)
      | Some node =>
          match ValidateFileNode tenant node s with
          | (Err e, s') => (Err e, s', unlessPanic e (countInit (HTTPStatus (Some e))))
          | (Ok _, s') => (Ok node, s', [])
          end
      end
  | None =>
      match (match irParent req with
             | None => Some None
             | Some p => pid ← uuid_Parse p; Some (Some pid)
             end) with
      | None => (Err badRequest, s, countInit 400)
      | Some parent =>
          match CreateFileNode nid tenant parent (irFile req) s with
          | (Err e, s') => (Err e, s', unlessPanic e (countInit 500))
          | (Ok n, s') => (Ok n, s', [])
          end
      end
  end.

(** [d]: the time since the start of the handler. *)
Definition initiateUploadsM (srv : IngressServer) (d : Z) (sid tenant node : uuid) (req : InitiateRequest) (s : S)
    : result ierr InitiateResponse * S * list mcall :=
  match mustDecodeAll (ciHash <$> irChunks req) with
  | Err e => (Err e, s, [])
  | Ok hashes =>
      match BatchQueryExistingCAS hashes s with
      | (Err e, s1) => (Err e, s1, unlessPanic e (countInit 503))
      | (Ok existing, s1) =>
          match mintMissingM srv tenant existing (irChunks req) with
          | (Err e, ms) => (Err e, s1, ms)
          | (Ok urls, ms) =>
              match CreateUploadSession sid tenant node (irTotal req) (zlen (irChunks req)) s1 with
              | (Err e, s2) => (Err e, s2, ms ++ unlessPanic e (countInit 500))
              | (Ok (sess, exp), s2) =>
                  (Ok (mkInitResp (uuid_String sess) (uuid_String node) exp urls), s2,
                   ms ++ countInit 200 ++ [MObserve (imInitiateLatency m) (label 200) (durSeconds d)])
              end
          end
      end
  end.

Definition handleInitiateM (srv : IngressServer) (d : Z) (nid sid : uuid) (body : option InitiateRequest) (s : S)
    : result ierr InitiateResponse * S * list mcall :=
  match body with
  | None => (Err badRequest, s, countInit 400)
  | Some req =>
      match InitiateValidate req with
      | Err e => (Err e, s, countInit 400)
      | Ok _ =>
          match uuid_Parse (irTenant req) with
          | None => (Err badRequest, s, countInit 400)
          | Some tenant =>
              match GetTenantQuota tenant s with
              | (Err e, s1) => (Err e, s1, unlessPanic e (countInit (HTTPStatus (Some e))))
              | (Ok quota, s1) =>
                  if overQuota quota (irTotal req)
                  then (Err (Sent ErrQuotaExceeded), s1, MInc (imQuota m) [] :: countInit 402)
                  else match resolveNodeM nid tenant req s1 with
                  | (Err e, s2, ms) => (Err e, s2, ms)
                  | (Ok node, s2, _) => initiateUploadsM srv d sid tenant node req s2
                  end
              end
          end
      end
  end.

(** [d]: the time since the start of the handler. *)
Definition handleCommitM (srv : IngressServer) (d : Z) (vid eid : uuid) (body : option CommitRequest)
    (events : list FileCommittedEvent) (s : S)
    : result ierr CommitResponse * list FileCommittedEvent * S * list mcall :=
  match body with
  | None => (Err badRequest, events, s, countCommit 400)
  | Some req =>
      match CommitValidate req with
      | Err e => (Err e, events, s, countCommit 400)
      | Ok _ =>
          match uuid_Parse (crSession req), hex_decode (crSHA req) with
          | None, _ | _, None => (Err badRequest, events, s, countCommit 400)
          | Some sid, Some sha =>
              match GetSession sid s with
              | (Err e, s1) => (Err e, events, s1, unlessPanic e (countCommit (HTTPStatus (Some e))))
              | (Ok sess, s1) =>
                  if bool_decide (srStatus sess = "COMPLETED")
                  then (Err (Sent ErrSessionCompleted), events, s1, countCommit 409)
                  else if srExpires sess <? Now s1
                  then (Err (Sent ErrSessionExpired), events, s1, countCommit 410)
                  else match uuid_Parse (srTenant sess) with
                  | None => (Err (Plain "invalid tenant in session"), events, s1, countCommit 500)
                  | Some tenant =>
                      match CommitFile vid tenant sid sha (crBlocks req) s1 with
                      | (Err e, s2) => (Err e, events, s2, unlessPanic e (countCommit (HTTPStatus (Some e))))
                      | (Ok (version, num), s2) =>
                          let s3 := (BumpCacheGeneration tenant s2).2 in
                          match (match srvBlob srv with
                                 | Some b => verifyBlocks b (crBlocks req) s3
                                 | None => (Ok tt, s3)
                                 end) with
                          | (Err e, s4) => (Err e, events, s4, unlessPanic e [])
                          | (Ok _, s4) =>
                              let events' :=
                                if srvEvents srv
                                then events ++ [committedEvent eid tenant sess version num (Now s4) req]
                                else events in
                              (Ok (mkCommitResp version num), events', s4,
                               countCommit 201 ++ [MObserve (imCommitLatency m) (label 201) (durSeconds d)])
                          end
                      end
                  end
              end
          end
      end
  end.

End handlers.

(** ** A concrete registry: the set of its names *)

#[global, refine] Instance gset_Prometheus : Prometheus := {|
  registry := gset string;
  fqName ns sub n :=
    if bool_decide (ns = "") || bool_decide (sub = "") then n else ns +:+ "_" +:+ sub +:+ "_" +:+ n;
  Register n r := if bool_decide (n ∈ r) then None else Some ({[n]} ∪ r);
  registered r n := bool_decide (n ∈ r);
  ExponentialBuckets start factor n := (fun i => Nat.iter i (f64_mul factor) start) <$> seq 0 n;
  fqName_full := _; fqName_bare := _; Register_spec := _
|}.
Proof.
  - intros ns sub n H1 H2 _. by rewrite !bool_decide_false.
  - done.
  - intros n r. case_bool_decide; [done|]. split; [done|]. intros m0.
    apply eq_true_iff_eq. rewrite orb_true_iff, !bool_decide_eq_true. set_solver.
Defined.

(** ** Lemmas *)

Section lemmas.
Context `{PR : Prometheus}.

(** Registering succeeds exactly for distinct names the registry does not have. *)
Lemma mustRegister_spec names r :
  match mustRegister names r with
  | Some r' => NoDup names /\ Forall (fun n => registered r n = false) names /\
               forall n, registered r' n = bool_decide (n ∈ names) || registered r n
  | None => ~ (NoDup names /\ Forall (fun n => registered r n = false) names)
  end.
Proof.
  revert r. induction names as [|n names IH]; intros r; simpl.
  { by split_and!; [constructor|constructor|]. }
  pose proof (Register_spec n r) as Hr. destruct (Register n r) as [r1|]; simpl.
  2:{ intros [_ [? _]%Forall_cons]. congruence. }
  destruct Hr as [Hn Hm]. specialize (IH r1). destruct (mustRegister names r1) as [r2|].
  - destruct IH as (Hnd & Hall & Hreg). rewrite Forall_forall in Hall.
    assert (forall x, x ∈ names -> registered r x = false /\ x <> n) as Hx.
    { intros x Hin. specialize (Hall x Hin). rewrite Hm in Hall. apply orb_false_iff in Hall as [Hd ?].
      by apply bool_decide_eq_false in Hd. }
    split_and!.
    + constructor; [|done]. intros Hin. by destruct (Hx n Hin).
    + constructor; [done|]. apply Forall_forall. intros x Hin. by apply Hx.
    + intros x. rewrite Hreg, Hm, orb_assoc. f_equal. apply eq_true_iff_eq.
      rewrite orb_true_iff, !bool_decide_eq_true. set_solver.
  - intros [[Hni Hnd]%NoDup_cons [_ Hall]%Forall_cons]. destruct IH. split; [done|].
    rewrite Forall_forall in *. intros x Hin. rewrite Hm, (Hall x Hin), orb_false_r.
    apply bool_decide_eq_false. by intros ->.
Qed.

Lemma mustRegister_ok names r : NoDup names -> Forall (fun n => registered r n = false) names ->
  exists r', mustRegister names r = Some r' /\ forall n, registered r' n = bool_decide (n ∈ names) || registered r n.
Proof.
  intros Hn Hf. pose proof (mustRegister_spec names r) as H. destruct (mustRegister names r) as [r'|].
  - exists r'. split; [done|]. apply H.
  - by destruct H.
Qed.

Lemma mustRegister_three a b c r : NoDup (a ++ b ++ c) -> (forall n, n ∈ a ++ b ++ c -> registered r n = false) ->
  exists r1 r2 r3, mustRegister a r = Some r1 /\ mustRegister b r1 = Some r2 /\ mustRegister c r2 = Some r3 /\
    forall n, registered r3 n = bool_decide (n ∈ a ++ b ++ c) || registered r n.
Proof.
  intros (Na & Da & Nbc)%NoDup_app Hf. apply NoDup_app in Nbc as (Nb & Db & Nc).
  destruct (mustRegister_ok a r Na) as (r1 & E1 & M1).
  { apply Forall_forall. intros n Hn. apply Hf. set_solver. }
  destruct (mustRegister_ok b r1 Nb) as (r2 & E2 & M2).
  { apply Forall_forall. intros n Hn. rewrite M1, Hf, orb_false_r by set_solver.
    apply bool_decide_eq_false. set_solver. }
  destruct (mustRegister_ok c r2 Nc) as (r3 & E3 & M3).
  { apply Forall_forall. intros n Hn. rewrite M2, M1, Hf, orb_false_r by set_solver.
    rewrite !bool_decide_false by set_solver. done. }
  exists r1, r2, r3. split_and!; try done. intros n. rewrite M3, M2, M1, !orb_assoc. f_equal.
  apply eq_true_iff_eq. rewrite !orb_true_iff, !bool_decide_eq_true. set_solver.
Qed.

(** A second registration of a name panics. *)
Lemma mustRegister_twice names n r : n ∈ names -> registered r n = true -> mustRegister names r = None.
Proof.
  intros Hn Hr. pose proof (mustRegister_spec names r) as H. destruct (mustRegister names r); [|done].
  destruct H as (_ & Hall & _). rewrite Forall_forall in Hall. rewrite (Hall n Hn) in Hr. done.
Qed.

(** The names of a collector list do not depend on the library: [aegis_<subsystem>_<name>]. *)
Definition casNames : list string := (fun n => "aegis_cas_" +:+ n) <$>
  ["total_blocks"; "total_bytes"; "orphan_blocks"; "orphan_bytes"; "hot_blocks"; "warm_blocks"; "cold_blocks";
   "unverified_blocks"; "avg_ref_count"; "max_ref_count"; "dedup_ratio"; "ref_count_distribution"; "gc_sweeps_total";
   "gc_blocks_deleted_total"; "gc_sweep_duration_seconds"; "gc_sessions_expired_total"; "gc_blocks_tombstoned_total";
   "gc_deletion_failed_total"; "gc_rate_limit_hit_total"; "gc_double_check_saved_total"].
Definition dbNames : list string := (fun n => "aegis_db_" +:+ n) <$>
  ["query_duration_seconds"; "acquire_wait_seconds"; "connections_acquired_total"; "connections_released_total";
   "query_errors_total"; "slow_queries_total"].
Definition ingestNames : list string := (fun n => "aegis_ingest_" +:+ n) <$>
  ["initiate_total"; "commit_total"; "initiate_duration_seconds"; "commit_duration_seconds"; "cas_hits_total";
   "uploads_total"; "quota_exceeded_total"].

Lemma casNames_eq : dName <$> casCollectors casMetrics = casNames.
Proof. cbn. by rewrite !fqName_full by done. Qed.
Lemma dbNames_eq : dName <$> dbCollectors dbMetrics = dbNames.
Proof. cbn. by rewrite !fqName_full by done. Qed.
Lemma ingestNames_eq : dName <$> ingestCollectors ingestMetrics = ingestNames.
Proof. cbn. by rewrite !fqName_bare. Qed.

End lemmas.

(** ** Lemmas: what is counted *)

Section counting.
Context `{PR : Prometheus}.

Lemma counterValue_app m l a b : counterValue m l (a ++ b) = counterValue m l a + counterValue m l b.
Proof.
  unfold counterValue. induction a as [|[] a IH]; [done|exact IH| |exact IH].
  cbn [app foldr] in *. rewrite IH. case_bool_decide; lia.
Qed.

Lemma observations_app m l a b : observations m l (a ++ b) = observations m l a + observations m l b.
Proof.
  unfold observations. induction a as [|[] a IH]; [done|exact IH|exact IH|].
  cbn [app foldr] in *. rewrite IH. case_bool_decide; lia.
Qed.

Lemma dbDesc_inj k1 n1 l1 k2 n2 l2 : n1 <> "" -> n2 <> "" -> dbDesc k1 n1 l1 = dbDesc k2 n2 l2 -> n1 = n2.
Proof. unfold dbDesc. intros H1 H2 H. injection H as H _ _. rewrite !fqName_full in H by done. by simplify_eq/=. Qed.

Lemma dbDesc_ne k1 n1 l1 k2 n2 l2 : n1 <> "" -> n2 <> "" -> n1 <> n2 -> dbDesc k1 n1 l1 <> dbDesc k2 n2 l2.
Proof. intros ??? ?%dbDesc_inj; done. Qed.

Lemma slow_ne_errors : dmSlow dbMetrics <> dmErrors dbMetrics.
Proof. by apply dbDesc_ne. Qed.

(** What one wrapper call adds to the three collectors. *)
Lemma record_counts cfg class op tenant d err :
  let c := (record dbMetrics cfg class op tenant d err).1 in
  observations (dmQuery dbMetrics) [class; op] c = 1 /\
  counterValue (dmErrors dbMetrics) [class; op] c = (if err is Some _ then 1 else 0) /\
  counterValue (dmSlow dbMetrics) [] c = (if d <? SlowQueryThreshold cfg then 0 else 1).
Proof.
  pose proof slow_ne_errors as Hne. cbv zeta. unfold record, slowGate, observeQuery.
  destruct (d <? SlowQueryThreshold cfg); simpl; rewrite !app_nil_r || idtac; destruct err; simpl;
    repeat first [rewrite bool_decide_true by done | rewrite bool_decide_false by (intros [? ?]; congruence)];
    split_and!; reflexivity.
Qed.

Lemma withMetrics_run {D A} (m : Metrics) cfg class op tenant (run : world D -> result dberr A * world D) w :
  (withMetrics m cfg class op tenant run w).1 = run w.
Proof. unfold withMetrics. by destruct (run w). Qed.

Lemma mutateRecorded_run {D A} (m : Metrics) cfg op tenant (body : txst D -> result dberr A * txst D) w :
  (mutateRecorded m cfg op tenant body w).1 = mutateAndBump tenant body w.
Proof.
  unfold mutateRecorded, mutateAndBump, withMetrics. by destruct (withTx _ _ body w).
Qed.

(** ** Lemmas: the handlers *)

Section handlers.
Context `{U : UUID} {S : Type} {St : Store S} (m : IngestMetrics).

Lemma mintMissingM_run srv tenant existing chunks :
  (mintMissingM m srv tenant existing chunks).1 = mintMissing srv tenant existing chunks.
Proof.
  induction chunks as [|c cs IH]; [done|]. simpl. destruct (default false _).
  - by destruct (mintMissingM m srv tenant existing cs).
  - destruct (mintURL srv tenant c); [|done]. simpl. rewrite <- IH. by destruct (mintMissingM m srv tenant existing cs).
Qed.

Lemma resolveNodeM_run nid tenant req s : (resolveNodeM m nid tenant req s).1 = resolveNode nid tenant req s.
Proof.
  unfold resolveNodeM, resolveNode. destruct (irNode req).
  - destruct (uuid_Parse _); [|done]. by destruct (ValidateFileNode _ _ s) as [[] ?].
  - destruct (irParent req); simpl; [destruct (uuid_Parse _); simpl; [|done]|];
      by destruct (CreateFileNode _ _ _ _ s) as [[] ?].
Qed.

Lemma handleInitiateM_run srv d nid sid body s :
  (handleInitiateM m srv d nid sid body s).1 = handleInitiate srv nid sid body s.
Proof.
  unfold handleInitiateM, handleInitiate. destruct body as [req|]; [|done].
  destruct (InitiateValidate req); [|done]. destruct (uuid_Parse _); [|done].
  destruct (GetTenantQuota _ s) as [[q|e] s1]; [|done]. destruct (overQuota _ _); [done|].
  rewrite <- resolveNodeM_run. destruct (resolveNodeM m _ _ _ s1) as [[[node|e] s2] ms]; [|done]. simpl.
  unfold initiateUploadsM, initiateUploads. destruct (mustDecodeAll _); [|done].
  destruct (BatchQueryExistingCAS _ s2) as [[ex|e] s3]; [|done]. rewrite <- mintMissingM_run.
  destruct (mintMissingM m srv _ ex _) as [[urls|e] ms']; [|done]. simpl.
  by destruct (CreateUploadSession _ _ _ _ _ s3) as [[[]|] ?].
Qed.

Lemma handleCommitM_run srv d vid eid body ev s :
  (handleCommitM m srv d vid eid body ev s).1 = handleCommit srv vid eid body ev s.
Proof.
  unfold handleCommitM, handleCommit. destruct body as [req|]; [|done].
  destruct (CommitValidate req); [|done]. destruct (uuid_Parse (crSession req)), (hex_decode (crSHA req)); try done.
  destruct (GetSession _ s) as [[q|e] s1]; [|done]. case_bool_decide; [done|]. destruct (_ <? _); [done|].
  destruct (uuid_Parse (srTenant q)); [|done]. destruct (CommitFile _ _ _ _ _ s1) as [[[v n]|e] s2]; [|done].
  destruct (srvBlob srv) as [b|]; [|done]. by destruct (verifyBlocks b _ _) as [[] ?].
Qed.

(** The labels of the increments of a counter, in order. *)
Definition labelsOf (c : desc) (log : list mcall) : list (list string) :=
  omap (fun x => match x with MAdd m' l v => if bool_decide (m' = c /\ v = 1) then Some l else None | _ => None end) log.

Lemma labelsOf_inc c c' l log :
  labelsOf c (MInc c' l :: log) = (if bool_decide (c' = c) then [l] else []) ++ labelsOf c log.
Proof. unfold labelsOf. simpl. repeat case_bool_decide; naive_solver. Qed.

Lemma counterValue_inc c c' l l' log :
  counterValue c l (MInc c' l' :: log) = (if bool_decide (c' = c /\ l' = l) then 1 else 0) + counterValue c l log.
Proof. unfold counterValue, MInc. cbn [foldr]. case_bool_decide; lia. Qed.

Lemma labelsOf_app c a b : labelsOf c (a ++ b) = labelsOf c a ++ labelsOf c b.
Proof. apply omap_app. Qed.

(** The checks of a request all fail alike. *)
Lemma require_err {E A} b (e0 e : E) (k : result E A) : (_ ← require b e0; k) = Err e -> e = e0 \/ k = Err e.
Proof. destruct b; simpl; [by right|]. intros [= <-]. by left. Qed.

Ltac req_err := repeat (intros H; apply require_err in H as [->|H]; [done|revert H]).

Lemma validBlocks_err l e : validBlocks l = Err e -> e = badRequest.
Proof. induction l as [|b l IH]; [done|]. cbn [validBlocks]. req_err. exact IH. Qed.

Lemma CommitValidate_err req e : CommitValidate req = Err e -> e = badRequest.
Proof. unfold CommitValidate. req_err. apply validBlocks_err. Qed.

Lemma validChunks_err l e : validChunks l = Err e -> e = badRequest.
Proof. induction l as [|b l IH]; [done|]. cbn [validChunks]. req_err. exact IH. Qed.

Lemma InitiateValidate_err req e : InitiateValidate req = Err e -> e = badRequest.
Proof. unfold InitiateValidate. req_err. apply validChunks_err. Qed.

Lemma verifyBlocks_err b blocks s e s' : verifyBlocks b blocks s = (Err e, s') -> e = IPanic.
Proof.
  revert s. induction blocks as [|x blocks IH]; intros s; simpl; [done|]. destruct (VerifyBlock b _ _); [|apply IH].
  unfold MustDecodeHash. destruct (hex_decode _); simpl; [apply IH|]. congruence.
Qed.

Lemma mustDecodeAll_err hs e : mustDecodeAll hs = Err e -> e = IPanic.
Proof.
  induction hs as [|h hs IH]; simpl; [done|]. unfold MustDecodeHash. destruct (hex_decode h); simpl; [|congruence].
  destruct (mustDecodeAll hs); simpl; [done|]. intros; simplify_eq. by apply IH.
Qed.

(** What [handleCommit] counts, for every outcome. *)
Definition commitCalls {A} (d : Z) (r : result ierr A) : list mcall :=
  match r with
  | Ok _ => countCommit m 201 ++ [MObserve (imCommitLatency m) (label 201) (durSeconds d)]
  | Err e => unlessPanic e (countCommit m (HTTPStatus (Some e)))
  end.

Lemma handleCommitM_calls srv d vid eid body ev s :
  (handleCommitM m srv d vid eid body ev s).2 = commitCalls d (handleCommitM m srv d vid eid body ev s).1.1.1.
Proof.
  unfold handleCommitM. destruct body as [req|]; [|done].
  destruct (CommitValidate req) as [|e] eqn:Hv; [|by apply CommitValidate_err in Hv as ->].
  destruct (uuid_Parse (crSession req)), (hex_decode (crSHA req)); try done.
  destruct (GetSession _ s) as [[q|e] s1]; [|done]. case_bool_decide; [done|]. destruct (_ <? _); [done|].
  destruct (uuid_Parse (srTenant q)); [|done]. destruct (CommitFile _ _ _ _ _ s1) as [[[v n]|e] s2]; [|done].
  destruct (srvBlob srv) as [b|]; [|done].
  destruct (verifyBlocks b _ _) as [[]] eqn:Hb; [done|]. by apply verifyBlocks_err in Hb as ->.
Qed.

End handlers.

Section initiate.
Context `{U : UUID} (m : IngestMetrics).

(** The counters of the initiate handler are different collectors. *)
Definition initiateDistinct : Prop := imHits m <> imInitiate m /\ imUploads m <> imInitiate m /\
  imQuota m <> imInitiate m /\ imHits m <> imUploads m /\ imInitiate m <> imUploads m /\ imInitiate m <> imHits m /\
  imUploads m <> imHits m.
Context (Hne : initiateDistinct).

Ltac count_calls :=
  rewrite ?labelsOf_inc, ?counterValue_inc, ?labelsOf_app, ?counterValue_app;
  repeat (case_bool_decide; try solve [exfalso; intuition congruence]).

Lemma mintMissingM_calls srv tenant existing chunks :
  let '(r, ms) := mintMissingM m srv tenant existing chunks in
  labelsOf (imInitiate m) ms = (if r is Ok _ then [] else [label 500]) /\
  (forall urls, r = Ok urls -> counterValue (imUploads m) [] ms = zlen urls /\
     counterValue (imHits m) [] ms = zlen chunks - zlen urls) /\
  (forall e, r = Err e -> HTTPStatus (Some e) = 500 /\ e <> IPanic).
Proof.
  destruct Hne as (N1 & N2 & N3 & N4 & N5 & N6 & N7).
  induction chunks as [|c cs IH]; [by simpl; split_and!; intros; simplify_eq|]. simpl.
  destruct (mintMissingM m srv tenant existing cs) as [r ms]. destruct IH as (H1 & H2 & H3).
  destruct (default false _).
  - count_calls. split_and!; [done| |done]. intros urls Hu. destruct (H2 urls Hu). count_calls.
    unfold zlen in *. simpl. lia.
  - destruct (mintURL srv tenant c) as [url|e] eqn:Hm.
    + count_calls. split_and!.
      * by destruct r.
      * destruct r as [us|]; [|done]. simpl. intros urls [= <-]. destruct (H2 us eq_refl). count_calls.
        unfold zlen in *. simpl. lia.
      * destruct r; simpl; [done|]. intros e' [= <-]. by apply H3.
    + unfold countInit. count_calls. simpl. split_and!; [done|done|]. intros e' [= <-]. unfold mintURL in Hm.
      destruct (match srvBlob srv with Some b => GenerateUploadURL b (uuid_String tenant) (ciHash c) (ciSize c)
        | None => srvSigner srv (uuid_String tenant) (ciHash c) (srvEndpoint srv) end); by simplify_eq.
Qed.

(** Errors of a one-statement transaction of the store. *)
Lemma withTx_single_err {A B} (q : Z -> db -> result dberr A * db) (g : A -> B) (w : world db) e :
  (withTx unavailable RawDb (fun t => (x ← txStmt RawDb q; mret (g x)) t) w).1 = Err e ->
  e = Sent ErrDBUnavailable \/ exists x, e = RawDb x.
Proof.
  unfold withTx. destruct (BeginWriteTx w) as [[t|x] w1]; [|intros [= <-]; by left].
  unfold mbind, txM_bind, txStmt. destruct (txExec q t) as [[a|x] t1]; simpl; [|intros [= <-]; right; eauto].
  destruct (txCommit t1) as [[u|x] w2]; simpl; [done|]. intros [= <-]. right. eauto.
Qed.

Lemma pgBatch_err hashes (w : world db) e w' : pgBatchQueryExistingCAS hashes w = (Err e, w') -> e = Sent ErrDBUnavailable.
Proof.
  unfold pgBatchQueryExistingCAS. destruct hashes; [done|]. destruct (QueryWithMetrics _ _ w) as [[] ?]; simpl; [done|].
  by intros [= <- _].
Qed.

(** The label counted for an error: the status of the answer, or 500 for an answer 503. *)
Definition labelled (e : ierr) (calls : list mcall) : Prop :=
  match e with
  | IPanic => labelsOf (imInitiate m) calls = []
  | _ => labelsOf (imInitiate m) calls = [label (HTTPStatus (Some e))] \/
         e = Sent ErrDBUnavailable /\ labelsOf (imInitiate m) calls = [label 500]
  end.

Lemma labelsOf_count st : labelsOf (imInitiate m) (countInit m st) = [label st].
Proof. unfold countInit, labelsOf. simpl. by rewrite bool_decide_true. Qed.

Lemma labelled_status e : labelled e (unlessPanic e (countInit m (HTTPStatus (Some e)))).
Proof. unfold labelled, unlessPanic. destruct e; rewrite ?labelsOf_count; auto. Qed.

Lemma labelled_500 e : e = Sent ErrDBUnavailable \/ (exists x, e = RawDb x) -> labelled e (unlessPanic e (countInit m 500)).
Proof. intros [->|[x ->]]; unfold labelled, unlessPanic; rewrite labelsOf_count; auto. Qed.

Lemma labelled_app e a b : labelsOf (imInitiate m) a = [] -> labelled e b -> labelled e (a ++ b).
Proof. intros Ha. unfold labelled. by rewrite labelsOf_app, Ha. Qed.

Definition initiateCounted (body : option InitiateRequest) (r : result ierr InitiateResponse) (calls : list mcall) : Prop :=
  match r with
  | Ok resp => labelsOf (imInitiate m) calls = [label 200] /\ exists req, body = Some req /\
      counterValue (imUploads m) [] calls = zlen (ipURLs resp) /\
      counterValue (imHits m) [] calls = zlen (irChunks req) - zlen (ipURLs resp)
  | Err e => labelled e calls
  end.

Lemma initiateUploadsM_counted srv d sid tenant node req (w : world db) :
  let '(r, _, calls) := initiateUploadsM m srv d sid tenant node req w in initiateCounted (Some req) r calls.
Proof.
  unfold initiateUploadsM. destruct (mustDecodeAll _) as [hs|e] eqn:Hd; [|by apply mustDecodeAll_err in Hd as ->].
  destruct (BatchQueryExistingCAS hs w) as [[ex|e] w1] eqn:Hb.
  2:{ apply pgBatch_err in Hb as ->. unfold initiateCounted, labelled, unlessPanic. rewrite labelsOf_count. by left. }
  pose proof (mintMissingM_calls srv tenant ex (irChunks req)) as Hm.
  destruct (mintMissingM m srv tenant ex (irChunks req)) as [[urls|e] ms]; destruct Hm as (H1 & H2 & H3).
  2:{ destruct (H3 e eq_refl) as [Hs Hp]. unfold initiateCounted, labelled. rewrite H1, Hs. by destruct e; [left..|]. }
  destruct (H2 urls eq_refl) as [Hu Hh].
  destruct (CreateUploadSession _ _ _ _ _ w1) as [[[sess exp]|e] w2] eqn:Hc.
  - unfold initiateCounted. simpl. destruct Hne as (N1 & N2 & N3 & N4 & N5 & N6 & N7). split.
    + rewrite labelsOf_app, H1. unfold labelsOf. simpl. by rewrite bool_decide_true.
    + exists req. unfold countInit. rewrite !counterValue_app, Hu, Hh. simpl. unfold counterValue. simpl.
      rewrite !bool_decide_false by (intros [? ?]; congruence). split_and!; [done|lia|lia].
  - apply labelled_app; [done|]. apply labelled_500. apply (f_equal fst) in Hc. by apply withTx_single_err in Hc.
Qed.

Lemma handleInitiateM_counted srv d nid sid body (w : world db) :
  let '(r, _, calls) := handleInitiateM m srv d nid sid body w in initiateCounted body r calls.
Proof.
  assert (initiateCounted body (Err badRequest) (countInit m 400)) as H400 by (left; apply labelsOf_count).
  unfold handleInitiateM. destruct body as [req|]; [|done].
  destruct (InitiateValidate req) as [|e] eqn:Hv; [|by apply InitiateValidate_err in Hv as ->].
  destruct (uuid_Parse (irTenant req)); [|done].
  destruct (GetTenantQuota _ w) as [[q|e] w1]; [|apply labelled_status].
  destruct (overQuota _ _).
  { left. rewrite labelsOf_inc, labelsOf_count. rewrite bool_decide_false by apply Hne. done. }
  assert (forall r w2 calls, resolveNodeM m nid u req w1 = (r, w2, calls) -> forall e, r = Err e -> labelled e calls) as Hr.
  { intros r w2 calls. unfold resolveNodeM. destruct (irNode req).
    - destruct (uuid_Parse _); [|by intros [= <- _ <-] e [= <-]].
      destruct (ValidateFileNode _ _ w1) as [[] ?]; intros [= <- _ <-] ? [= <-]. apply labelled_status.
    - destruct (match irParent req with Some p => pid ← uuid_Parse p; Some (Some pid) | None => Some None end) as [par|];
        [|by intros [= <- _ <-] e [= <-]].
      destruct (CreateFileNode _ _ _ _ w1) as [[] ?] eqn:Hc; intros [= <- _ <-] ? [= <-].
      apply labelled_500. apply (f_equal fst) in Hc. by apply withTx_single_err in Hc. }
  destruct (resolveNodeM m nid u req w1) as [[[node|e] w2] calls]; [|by eapply Hr].
  apply initiateUploadsM_counted.
Qed.

End initiate.
End counting.

(** ** Properties *)

(** The handlers count what they answer.  With their metrics the two ingest handlers
    compute the same results and the same store as without.  A commit increments its
    counter once, with the status of the answer as label, and records a latency exactly
    when it answers 201; a panic counts nothing.  An initiate increments its counter once
    with the status of the answer, except that an unavailable database may be counted as
    500 while the answer is 503; when it succeeds, uploads and dedup hits add up to the
    chunks of the request and the uploads are the URLs handed out. *)
Theorem handlers_count_responses `{PR : Prometheus} `{U : UUID} (srv : IngressServer) (d : Z)
    (nid sid vid eid : uuid) (ibody : option InitiateRequest) (cbody : option CommitRequest)
    (ev : list FileCommittedEvent) (w : world db) :
  let '(ri, wi, ci) := handleInitiateM ingestMetrics srv d nid sid ibody w in
  let '(rc, ec, wc, cc) := handleCommitM ingestMetrics srv d vid eid cbody ev w in
  (ri, wi) = handleInitiate srv nid sid ibody w /\ (rc, ec, wc) = handleCommit srv vid eid cbody ev w /\
  initiateCounted ingestMetrics ibody ri ci /\ cc = commitCalls ingestMetrics d rc.
Proof.
  assert (initiateDistinct ingestMetrics) as Hne by (split_and!; intros [=]; rewrite !fqName_bare in *; done).
  pose proof (handleInitiateM_run ingestMetrics srv d nid sid ibody w) as H1.
  pose proof (handleCommitM_run ingestMetrics srv d vid eid cbody ev w) as H2.
  pose proof (handleInitiateM_counted ingestMetrics Hne srv d nid sid ibody w) as H3.
  pose proof (handleCommitM_calls ingestMetrics srv d vid eid cbody ev w) as H4.
  destruct (handleInitiateM _ _ _ _ _ _ w) as [[ri wi] ci], (handleCommitM _ _ _ _ _ _ _ w) as [[[rc ec] wc] cc].
  done.
Qed.

(** The runs one after the other. *)
Fixpoint plainRun {D A} (runs : list (world D -> result dberr A * world D)) (w : world D)
    : list (result dberr A) * world D :=
  match runs with
  | [] => ([], w)
  | run :: rest => let '(r, w1) := run w in let '(rs, w2) := plainRun rest w1 in (r :: rs, w2)
  end.

Definition failed {A} (r : result dberr A) : Prop := is_ok r = false.
#[global] Instance failed_dec {A} (r : result dberr A) : Decision (failed r).
Proof. unfold failed. apply _. Defined.

(** The client's metrics count its statements.  Recording does not change what a
    sequence of statements of one pool and operation does; and over the sequence the
    latency histogram gets one sample per statement, the error counter one increment per
    failed statement, and the slow-query counter one per statement that took at least the
    threshold. *)
Theorem wrappers_count_statements `{PR : Prometheus} {D A : Type} (cfg : DbConfig) (class op tenant : string)
    (runs : list (world D -> result dberr A * world D)) (w : world D) :
  let '(rs, w', calls) := recordedRun dbMetrics cfg class op tenant runs w in
  (rs.*1, w') = plainRun runs w /\
  observations (dmQuery dbMetrics) [class; op] calls = zlen runs /\
  counterValue (dmErrors dbMetrics) [class; op] calls = zlen (filter failed rs.*1) /\
  counterValue (dmSlow dbMetrics) [] calls = zlen (filter (fun d => SlowQueryThreshold cfg <= d) rs.*2).
Proof.
  revert w. induction runs as [|run runs IH]; intros w; [done|]. cbn [recordedRun plainRun].
  unfold withMetrics. destruct (run w) as [r w1] eqn:Hr.
  pose proof (record_counts cfg class op tenant (timeSub (clock w1) (clock w)) (errOf r)) as (H1 & H2 & H3).
  destruct (record _ _ _ _ _ _ _) as [c l]. cbn [fst] in H1, H2, H3. specialize (IH w1).
  destruct (recordedRun _ _ _ _ _ runs w1) as [[rs w2] cs]. destruct IH as (I1 & I2 & I3 & I4).
  destruct (plainRun runs w1) as [rs' w2']. injection I1 as <- <-.
  rewrite observations_app, !counterValue_app, H1, H2, H3, I2, I3, I4.
  cbn [fmap list_fmap fst snd]. rewrite !filter_cons. split_and!; [done|unfold zlen; simpl; lia| |].
  - destruct r; [rewrite decide_False by done|rewrite decide_True by done]; unfold zlen; simpl; lia.
  - destruct (Z.ltb_spec (timeSub (clock w1) (clock w)) (SlowQueryThreshold cfg));
      [rewrite decide_False by lia|rewrite decide_True by lia]; unfold zlen; simpl; lia.
Qed.

(** The collectors of cmd/ingest register once.  On a default registry without names of
    the program, starting it registers the collectors of the database client, of the
    handlers and of the block registry and no others, without a panic; a later client
    gets the same collectors and registers nothing; and building the registry's
    collectors a second time panics. *)
Theorem ingest_registers_once `{PR : Prometheus} (r : registry)
    (Hfresh : forall n, n ∈ dbNames ++ ingestNames ++ casNames -> registered r n = false) :
  exists s, ingestRegistrations (mkShared false None r) = Some (ingestMetrics, casMetrics, s) /\
    (forall n, registered (shReg s) n = bool_decide (n ∈ dbNames ++ ingestNames ++ casNames) || registered r n) /\
    defaultMetrics s = (Some (Some dbMetrics), s) /\ NewCASMetrics (shReg s) = None.
Proof.
  assert (NoDup (dbNames ++ ingestNames ++ casNames)) as Hnd
    by (apply (bool_decide_unpack _); vm_compute; exact I).
  destruct (mustRegister_three _ _ _ r Hnd Hfresh) as (r1 & r2 & r3 & E1 & E2 & E3 & M3).
  unfold ingestRegistrations, defaultMetrics, newMetrics, NewIngestMetrics, NewCASMetrics.
  rewrite dbNames_eq, ingestNames_eq, casNames_eq. cbn [shOnce shReg]. rewrite E1. cbn [mbind option_bind shReg].
  rewrite E2. cbn [mbind option_bind]. rewrite E3. cbn [mbind option_bind].
  exists (mkShared true (Some dbMetrics) r3). split_and!; [done|exact M3|done|]. cbn [shReg].
  rewrite (mustRegister_twice _ "aegis_cas_total_blocks"); [done|apply list_elem_of_here|].
  rewrite M3, bool_decide_true; [done|]. rewrite !elem_of_app. right; right. apply list_elem_of_here.
Qed.

Lemma ingest_registers_once_witness :
  exists s, ingestRegistrations (mkShared false None (∅ : gset string)) = Some (ingestMetrics, casMetrics, s) /\
    NewCASMetrics (shReg s) = None.
Proof.
  destruct (ingest_registers_once (PR := gset_Prometheus) (∅ : gset string)) as (s & H1 & _ & _ & H2).
  - intros n _. reflexivity.
  - exists s. exact (conj H1 H2).
Defined.

Lemma casDesc_decide `{PR : Prometheus} k1 n1 k2 n2 : n1 <> "" -> n2 <> "" ->
  bool_decide (casDesc k1 n1 = casDesc k2 n2) = bool_decide (n1 = n2 /\ k1 = k2).
Proof.
  intros H1 H2. apply bool_decide_ext. unfold casDesc. rewrite !fqName_full by done. split; [|by intros [-> ->]].
  intros H. injection H as Hn Hk. by simplify_eq/=.
Qed.

(** The gauges after a refresh show the statistics; the refresh of cmd/ingest passes no
    content size, so that the deduplication ratio is never set. *)
Theorem refresh_gauges `{PR : Prometheus} `{U : UUID} (avg : StorageStats -> float64) (w : world db) :
  let '(calls, w') := refreshTick avg casMetrics w in
  gaugeValue (cmDedup casMetrics) calls = None /\
  match GetStorageStats w with
  | (Ok s, w1) => w' = w1 /\ gaugeValue (cmTotalBlocks casMetrics) calls = Some (f64_of_Z (TotalBlocks s)) /\
      gaugeValue (cmOrphanBytes casMetrics) calls = Some (f64_of_Z (OrphanBytes s)) /\
      gaugeValue (cmMaxRef casMetrics) calls = Some (f64_of_Z (MaxRefCount s))
  | (Err _, w1) => w' = w1 /\ calls = []
  end.
Proof.
  unfold refreshTick. destruct (GetStorageStats w) as [[s|e] w']; [|done].
  unfold RefreshFromStats. rewrite andb_false_r, app_nil_r. unfold gaugeValue. simpl.
  rewrite !casDesc_decide by done. split_and!; reflexivity.
Qed.

(** The connection counters of the database collectors are registered and never
    incremented. *)
Theorem connection_counters_stay_zero `{PR : Prometheus} (cfg : DbConfig) (class op tenant : string) (d : Z)
    (err : option dberr) :
  let c := (record dbMetrics cfg class op tenant d err).1 in
  counterValue (dmAcquired dbMetrics) [] c = 0 /\ counterValue (dmReleased dbMetrics) [] c = 0.
Proof.
  cbv zeta. unfold record, slowGate, observeQuery. destruct (d <? _), err; simpl;
    repeat (rewrite bool_decide_false by (intros [Hd%(f_equal dName) _]; simpl in Hd; rewrite !fqName_full in Hd by done; done));
    done.
Qed.

(** The primary is unreachable when the file node is to be created: the client is told 503,
    the counter says 500. *)
Definition downWorld : world db :=
  let w := initWorld in
  mkWorld (contents w) (clock w)
    [quiet; mkSlot 0 (fun d => d) (Some [EOther "connection refused"]) None false] (breaker w) (readRR w) (readPools w)
    (acquired w) (released w) (gens w).

Definition newFileInit : InitiateRequest :=
  mkInit (uuid_String idT) "f" (Some (uuid_String idN)) None 20 (irChunks demoInit).

Theorem unavailable_counted_500 :
  let '(r, _, calls) := handleInitiateM ingestMetrics demoSrv 0 idY idX (Some newFileInit) downWorld in
  (match r with Ok _ => 200 | Err e => HTTPStatus (Some e) end) = 503 /\
  labelsOf (imInitiate ingestMetrics) calls = [["500"]].
Proof. vm_compute. split; reflexivity. Qed.
