(* ===== verification/Telemetry.v ===== *)
(** * internal/telemetry: tracing.go and logging.go

    Trace contexts of HTTP requests and the log handler that records them.  OpenTelemetry is
    a parameter ([OpenTelemetry]) with the documented laws of the SDK's tracer and of the W3C
    propagators; [w3cTracing] is a concrete instance.  The handlers of [log/slog] are modelled
    by the attributes they print.  No program of the repository installs the package. *)
From S2P Require Import Prelude GoLib.

(** Header fields, by canonical name. *)
Abbreviation Header := (gmap string string).

Class OpenTelemetry := {
  SpanContext : Type;
  TraceIDString : SpanContext -> string;
  SpanIDString : SpanContext -> string;
  IsValid : SpanContext -> bool;
  context : Type;
  Background : context;
  SpanFromContext : context -> SpanContext;
  Entropy : Type;
  (** Starting a span with the SDK's provider, or with the one installed before it. *)
  sdkStart : string -> Entropy -> context -> context * SpanContext;
  defaultStart : string -> Entropy -> context -> context * SpanContext;
  TextMapPropagator : Type;
  TraceContext : TextMapPropagator;
  Baggage : TextMapPropagator;
  NewCompositeTextMapPropagator : list TextMapPropagator -> TextMapPropagator;
  Inject : TextMapPropagator -> context -> Header -> Header;
  Extract : TextMapPropagator -> context -> Header -> context;
  (** A valid context has a trace identifier. *)
  TraceID_nonempty s : IsValid s = true -> TraceIDString s <> "";
  Background_invalid : IsValid (SpanFromContext Background) = false;
  (** The new span is the current one, is valid and continues its parent's trace. *)
  sdkStart_current n e c : SpanFromContext (sdkStart n e c).1 = (sdkStart n e c).2;
  sdkStart_valid n e c : IsValid (sdkStart n e c).2 = true;
  sdkStart_child n e c : IsValid (SpanFromContext c) = true ->
    TraceIDString (sdkStart n e c).2 = TraceIDString (SpanFromContext c);
  (** A composite propagator runs its parts in order. *)
  Inject_composite ps c h : Inject (NewCompositeTextMapPropagator ps) c h = foldl (fun h p => Inject p c h) h ps;
  Extract_composite ps c h : Extract (NewCompositeTextMapPropagator ps) c h = foldl (fun c p => Extract p c h) c ps;
  (** W3C trace context: an injected context comes back; baggage leaves it alone. *)
  Extract_Inject c c' h : IsValid (SpanFromContext c) = true ->
    SpanFromContext (Extract TraceContext c' (Inject TraceContext c h)) = SpanFromContext c;
  Extract_Baggage c h : SpanFromContext (Extract Baggage c h) = SpanFromContext c;
  Inject_Baggage c c' h : Extract TraceContext c' (Inject Baggage c h) = Extract TraceContext c' h
}.

Section tracing.
Context `{OT : OpenTelemetry}.

(** ** tracing.go *)

(** The process-wide tracing state: whether a provider and which propagator is installed. *)
Record otel := mkOtel { otProvider : bool; otPropagator : TextMapPropagator }.

(** Without [SetupTracing] the propagator does nothing. *)
Definition otel0 : otel := mkOtel false (NewCompositeTextMapPropagator []).

Definition SetupTracing (_ : string) (_ : otel) : otel :=
  mkOtel true (NewCompositeTextMapPropagator [TraceContext; Baggage]).

(** [Tracer.Start]: the package's tracer follows the provider that is installed later. *)
Definition TracerStart (o : otel) : string -> Entropy -> context -> context * SpanContext :=
  if otProvider o then sdkStart else defaultStart.

(** [next] gets the request's context and the response header, the spans ended are
    appended to [ended]. *)
Definition HTTPTracingMiddleware {S : Type} (o : otel) (next : context -> Header -> S -> Header * S)
    (ent : Entropy) (method path : string) (reqHeader : Header) (ctx : context) (resp : Header)
    (ended : list SpanContext) (s : S) : Header * S * list SpanContext :=
  let ctx := Extract (otPropagator o) ctx reqHeader in
  let '(ctx, span) := TracerStart o ("HTTP " +:+ method +:+ " " +:+ path) ent ctx in
  let '(resp, s') := next ctx (<["X-Trace-Id" := TraceIDString span]> resp) s in
  (resp, s', ended ++ [span]).

Definition InjectTraceContext (o : otel) (ctx : context) (header : Header) : Header :=
  Inject (otPropagator o) ctx header.

Definition GetTraceAndSpanIDs (ctx : context) : string * string :=
  let sc := SpanFromContext ctx in
  if negb (IsValid sc) then ("", "") else (TraceIDString sc, SpanIDString sc).

(** ** logging.go *)

Definition attr : Type := list string * string.
Record logRecord := mkRec { lrMessage : string; lrAttrs : list attr }.
Definition slogString (k v : string) : attr := ([k], v).

(** A handler of [log/slog] with its open groups and its attributes, or the wrapper of
    logging.go around another handler. *)
Inductive handler :=
| JSONHandler (groups : list string) (attrs : list attr)
| TraceLoggingHandler (h : handler).

Definition NewTraceLoggingHandler (h : handler) : handler := TraceLoggingHandler h.

Definition qualify (groups : list string) (a : attr) : attr := (groups ++ a.1, a.2).

(** The line a handler writes. *)
Fixpoint Handle (ctx : context) (r : logRecord) (h : handler) : string * list attr :=
  match h with
  | JSONHandler groups attrs => (lrMessage r, attrs ++ (qualify groups <$> lrAttrs r))
  | TraceLoggingHandler h =>
      let '(traceID, spanID) := GetTraceAndSpanIDs ctx in
      let r := if bool_decide (traceID = "") then r
               else mkRec (lrMessage r) (lrAttrs r ++ [slogString "trace_id" traceID; slogString "span_id" spanID]) in
      Handle ctx r h
  end.

(** [WithAttrs] and [WithGroup] are methods of the embedded handler: they return a handler
    without the wrapper. *)
Fixpoint WithAttrs (l : list attr) (h : handler) : handler :=
  match h with
  | JSONHandler groups attrs => JSONHandler groups (attrs ++ (qualify groups <$> l))
  | TraceLoggingHandler h => WithAttrs l h
  end.

Fixpoint WithGroup (g : string) (h : handler) : handler :=
  match h with
  | JSONHandler groups attrs => if bool_decide (g = "") then h else JSONHandler (groups ++ [g]) attrs
  | TraceLoggingHandler h => WithGroup g h
  end.

(** [Logger.With]. *)
Definition loggerWith (l : list attr) (h : handler) : handler :=
  match l with [] => h | _ => WithAttrs l h end.

(** ** Theorems *)

Lemma Extract_setup name o c h :
  SpanFromContext (Extract (otPropagator (SetupTracing name o)) c h) = SpanFromContext (Extract TraceContext c h).
Proof. simpl. rewrite Extract_composite. simpl. by rewrite Extract_Baggage. Qed.

Lemma Extract_InjectTraceContext name o c c' h : IsValid (SpanFromContext c) = true ->
  SpanFromContext (Extract (otPropagator (SetupTracing name o)) c' (InjectTraceContext (SetupTracing name o) c h))
  = SpanFromContext c.
Proof.
  intros Hv. rewrite Extract_setup. unfold InjectTraceContext. simpl.
  rewrite Inject_composite. simpl. rewrite Inject_Baggage. by apply Extract_Inject.
Qed.

Lemma GetTraceAndSpanIDs_valid c : IsValid (SpanFromContext c) = true ->
  GetTraceAndSpanIDs c = (TraceIDString (SpanFromContext c), SpanIDString (SpanFromContext c)).
Proof. unfold GetTraceAndSpanIDs. by intros ->. Qed.

(** The context and the span of a request behind the middleware. *)
Definition requestSpan (o : otel) (ent : Entropy) (name : string) (reqHeader : Header) (ctx : context)
    : context * SpanContext := TracerStart o name ent (Extract (otPropagator o) ctx reqHeader).

(** With tracing set up, a request is traced end to end: its handler runs once, in a
    context with a valid span, after the response header got the span's trace identifier,
    and the span ends exactly once; every record that the handler logs in that context
    through the wrapped log handler carries exactly that identifier and the span's, once,
    after its own attributes; a request that already belongs to a trace stays in it; and
    a request sent from the handler with the injected headers reaches the next service,
    whatever its own provider draws, in the same trace. *)
Theorem trace_follows_request {S : Type} (service : string) (o0 : otel)
    (next : context -> Header -> S -> Header * S) (ent : Entropy) (method path : string) (req resp : Header)
    (ctx : context) (ended : list SpanContext) (s : S) :
  let o := SetupTracing service o0 in
  let name := "HTTP " +:+ method +:+ " " +:+ path in
  let '(ctx1, span) := requestSpan o ent name req ctx in
  let tid := TraceIDString span in
  let '(resp1, s1) := next ctx1 (<["X-Trace-Id" := tid]> resp) s in
  HTTPTracingMiddleware o next ent method path req ctx resp ended s = (resp1, s1, ended ++ [span]) /\
  IsValid span = true /\ SpanFromContext ctx1 = span /\
  (forall groups attrs r, Handle ctx1 r (NewTraceLoggingHandler (JSONHandler groups attrs)) =
     (lrMessage r, attrs ++ (qualify groups <$> lrAttrs r ++
        [slogString "trace_id" tid; slogString "span_id" (SpanIDString span)]))) /\
  (IsValid (SpanFromContext (Extract TraceContext ctx req)) = true ->
     tid = TraceIDString (SpanFromContext (Extract TraceContext ctx req))) /\
  (forall service' o' ent' name' h ctx',
     let o2 := SetupTracing service' o' in
     TraceIDString (requestSpan o2 ent' name' (InjectTraceContext o ctx1 h) ctx').2 = tid).
Proof.
  intros o name. unfold HTTPTracingMiddleware, requestSpan, TracerStart. cbn [otProvider SetupTracing o]. fold name.
  change (otPropagator o) with (otPropagator (SetupTracing service o0)).
  set (c0 := Extract (otPropagator (SetupTracing service o0)) ctx req).
  pose proof (sdkStart_current name ent c0) as Hcur. pose proof (sdkStart_valid name ent c0) as Hval.
  pose proof (sdkStart_child name ent c0) as Hchild.
  destruct (sdkStart name ent c0) as [ctx1 span]. simpl in Hcur, Hval, Hchild.
  destruct (next ctx1 _ s) as [resp1 s1]. split_and!; try done.
  - intros groups attrs r. simpl. rewrite GetTraceAndSpanIDs_valid, Hcur by (by rewrite Hcur).
    by rewrite bool_decide_false by (by apply TraceID_nonempty).
  - intros Hp. rewrite Hchild; unfold c0; by rewrite Extract_setup.
  - intros service' o' ent' name' h ctx'. cbv zeta.
    set (c1 := Extract _ ctx' _).
    assert (SpanFromContext c1 = span) as H1.
    { unfold c1. rewrite <- Hcur. apply (Extract_InjectTraceContext service). by rewrite Hcur. }
    change (otProvider (SetupTracing service' o')) with true. cbv iota.
    by rewrite sdkStart_child; rewrite H1.
Qed.

(** A logger derived with attributes or in a group loses the trace: both methods are those of
    the embedded handler. *)
Lemma with_loses_trace ctx r h a l g :
  Handle ctx r (loggerWith (a :: l) (NewTraceLoggingHandler h)) = Handle ctx r (WithAttrs (a :: l) h) /\
  Handle ctx r (WithGroup g (NewTraceLoggingHandler h)) = Handle ctx r (WithGroup g h).
Proof. done. Qed.

(** Without a span in the context the wrapper changes nothing. *)
Lemma Handle_untraced ctx r h : IsValid (SpanFromContext ctx) = false ->
  Handle ctx r (NewTraceLoggingHandler h) = Handle ctx r h.
Proof. intros Hv. simpl. unfold GetTraceAndSpanIDs. by rewrite Hv. Qed.

End tracing.

(** ** An instance: the traceparent header of W3C, identifiers drawn by hashing *)

Definition str_all_zero (s : string) : bool := str_forall (fun c => bool_decide (c = "0"%char)) s.

Definition validID (n : nat) (s : string) : bool :=
  (String.length s =? n)%nat && str_forall is_lower_hex_char s && negb (str_all_zero s).

Definition w3cValid (s : string * string) : bool := validID 32 s.1 && validID 16 s.2.

Definition w3cInject (c : string * string) (h : Header) : Header :=
  if w3cValid c then <["Traceparent" := "00-" +:+ c.1 +:+ "-" +:+ c.2 +:+ "-01"]> h else h.

Definition w3cExtract (c : string * string) (h : Header) : string * string :=
  match h !! "Traceparent" with
  | Some v =>
      let sc := (str_take 32 (str_drop 3 v), str_take 16 (str_drop 36 v)) in
      if w3cValid sc then sc else c
  | None => c
  end.

Definition drawID (n : nat) (tag : string) (e : string) : string :=
  String "1" (str_take n (hex_encode (sha256 (tag +:+ e)))).

Definition w3cStart (_ e : string) (c : string * string) : (string * string) * (string * string) :=
  let sc := (if w3cValid c then c.1 else drawID 31 "t" e, drawID 15 "s" e) in (sc, sc).

(** The propagators of the instance, a composite being its parts. *)
Inductive w3cPropagator := PTrace | PBaggage | PMany (l : list w3cPropagator).

Fixpoint w3cInjectP (p : w3cPropagator) (c : string * string) (h : Header) : Header :=
  match p with
  | PTrace => w3cInject c h
  | PBaggage => h
  | PMany l => foldl (fun h p => w3cInjectP p c h) h l
  end.

Fixpoint w3cExtractP (p : w3cPropagator) (c : string * string) (h : Header) : string * string :=
  match p with
  | PTrace => w3cExtract c h
  | PBaggage => c
  | PMany l => foldl (fun c p => w3cExtractP p c h) c l
  end.

Lemma str_take_app (a b : string) : str_take (String.length a) (a +:+ b) = a.
Proof. induction a as [|c a IH]; [by destruct b|]. rewrite append_cons. simpl. by rewrite IH. Qed.

Lemma str_take_hex n s : str_forall is_lower_hex_char s = true -> (n <= String.length s)%nat ->
  String.length (str_take n s) = n /\ str_forall is_lower_hex_char (str_take n s) = true.
Proof.
  revert s. induction n as [|n IH]; intros [|c s] Hs Hn; simpl in *; try done; [lia|]. bool_hyps.
  destruct (IH s) as [H1 H2]; [done|lia|]. rewrite H1, H2. split; [done|]. by apply andb_true_intro.
Qed.

Lemma drawID_valid n tag e : (n <= 64)%nat -> validID (S n) (drawID n tag e) = true.
Proof.
  intros Hn. unfold drawID, validID.
  destruct (str_take_hex n (hex_encode (sha256 (tag +:+ e)))) as [H1 H2].
  - apply hex_encode_lower.
  - rewrite length_hex_encode, length_sha256. lia.
  - cbn [String.length str_forall str_all_zero]. rewrite H1, H2, Nat.eqb_refl. done.
Qed.

Lemma validID_length n s : validID n s = true -> String.length s = n.
Proof. unfold validID. intros H. bool_hyps. by apply Nat.eqb_eq. Qed.

Lemma w3c_roundtrip c c' h : w3cValid c = true -> w3cExtract c' (w3cInject c h) = c.
Proof.
  intros Hv. unfold w3cInject, w3cExtract. rewrite Hv. cbv iota. rewrite lookup_insert_eq. destruct c as [t s].
  pose proof Hv as Hv'. unfold w3cValid in Hv'. simpl in Hv'. bool_hyps.
  repeat match goal with H : validID _ _ = true |- _ => apply validID_length in H end.
  change (str_drop 3 ("00-" +:+ (t, s).1 +:+ "-" +:+ (t, s).2 +:+ "-01")) with (t +:+ ("-" +:+ s +:+ "-01")).
  assert (str_drop 36 ("00-" +:+ (t, s).1 +:+ "-" +:+ (t, s).2 +:+ "-01") = s +:+ "-01") as ->.
  { replace ("00-" +:+ (t, s).1 +:+ "-" +:+ (t, s).2 +:+ "-01") with (("00-" +:+ t +:+ "-") +:+ (s +:+ "-01"))
      by (rewrite !append_assoc; done).
    replace 36%nat with (String.length ("00-" +:+ t +:+ "-")); [apply str_drop_app|].
    rewrite !length_append. simpl. lia. }
  replace 32%nat with (String.length t) by done. replace 16%nat with (String.length s) by done.
  rewrite !str_take_app. by rewrite Hv.
Qed.

#[global, refine] Instance w3cTracing : OpenTelemetry := {|
  SpanContext := string * string; TraceIDString := fst; SpanIDString := snd; IsValid := w3cValid;
  context := string * string; Background := ("", ""); SpanFromContext c := c; Entropy := string;
  sdkStart := w3cStart; defaultStart _ _ c := (c, c); TextMapPropagator := w3cPropagator;
  TraceContext := PTrace; Baggage := PBaggage; NewCompositeTextMapPropagator := PMany;
  Inject := w3cInjectP; Extract := w3cExtractP
|}.
Proof.
  - intros [t s] Hv Ht. simpl in Ht. by subst t.
  - done.
  - done.
  - intros n e c. unfold w3cStart, w3cValid. simpl. rewrite drawID_valid by lia. rewrite andb_true_r.
    destruct (validID 32 c.1 && validID 16 c.2) eqn:E; bool_hyps; [done|]. apply drawID_valid. lia.
  - intros n e c Hv. unfold w3cStart. simpl. by rewrite Hv.
  - done.
  - done.
  - apply w3c_roundtrip.
  - done.
  - done.
Defined.

(** Two services on one trace, computed. *)
Example two_services :
  let o := SetupTracing "a" otel0 in
  let '(ctx, span) := requestSpan o "seed" "HTTP GET /x" ∅ Background in
  let h := InjectTraceContext o ctx ∅ in
  IsValid span = true /\ (requestSpan o "other" "HTTP GET /y" h Background).2.1 = span.1.
Proof. vm_compute. split; reflexivity. Qed.
