(* ===== verification/Events.v ===== *)
(** * internal/events, internal/cdc and the programs built on them

    The Kafka event bus of the ingress server, the CDC router (cmd/cdc-router) and the
    derivation consumer (cmd/worker).  kafka-go is outside the repository: readers and
    writers are interfaces with the documented behaviour of a consumer-group partition with
    explicit commits and of a topic writer.  A message's value is a JSON document or bytes
    that are none. *)
From S2P Require Import Prelude GoLib Json External Database Schema Gc Ingress Handlers Derivation Workers.

(** ** Topics and payloads ([types.go], ingress [events.go]) *)

Definition TopicFileCommits : string := "aegis.file.commits".
Definition TopicDerivationTasks : string := "aegis.derivation.tasks".
Definition TopicGCTombstones : string := "aegis.gc.tombstones".
Definition TopicAuditEvents : string := "aegis.audit.events".
Definition TopicDerivationDLQ : string := "aegis.derivation.dlq".

Inductive payload := PJson (j : json) | PBytes (s : string).

(** [kmOffset] is set by the broker. *)
Record KMessage := mkKMsg { kmKey : string; kmValue : payload; kmOffset : nat }.

Record DerivationTaskEvent := mkTask {
  dtEvent : string; dtTenant : string; dtVersion : string; dtNode : string; dtBlock : string;
  dtMime : string; dtSize : Z; dtTimestamp : string
}.

Definition marshalTask (t : DerivationTaskEvent) : json :=
  JObj [("event_id", JStr (dtEvent t)); ("tenant_id", JStr (dtTenant t)); ("version_id", JStr (dtVersion t));
        ("node_id", JStr (dtNode t)); ("block_hash", JStr (dtBlock t)); ("mime_type", JStr (dtMime t));
        ("size_bytes", JNum (dtSize t)); ("timestamp", JStr (dtTimestamp t))].

Definition unmarshalTask : decoder DerivationTaskEvent := fun j =>
  fs ← dFields j;
  e ← field dString "" "event_id" fs; t ← field dString "" "tenant_id" fs; v ← field dString "" "version_id" fs;
  n ← field dString "" "node_id" fs; b ← field dString "" "block_hash" fs; m ← field dString "" "mime_type" fs;
  z ← field dInt64 0 "size_bytes" fs; ts ← field dString "" "timestamp" fs;
  Some (mkTask e t v n b m z ts).

Definition marshalDetail (c : ChunkDetail) : json :=
  JObj [("index", JNum (cdIndex c)); ("block_hash", JStr (cdHash c)); ("size_bytes", JNum (cdSize c));
        ("offset_bytes", JNum (cdOffset c))].

(** [feAt] is the instant whose RFC 3339 text is [CreatedAt]; a [nil] slice is [null]. *)
Definition marshalFileCommitted (e : FileCommittedEvent) : json :=
  JObj ([("event_id", JStr (feID e)); ("event_type", JStr (feType e)); ("tenant_id", JStr (feTenant e));
         ("node_id", JStr (feNode e)); ("version_id", JStr (feVersion e)); ("version_number", JNum (feNumber e));
         ("total_size_bytes", JNum (feTotal e)); ("mime_type", JStr (feMime e)); ("content_sha256", JStr (feSHA e));
         ("created_at", JStr (utcStamp (feAt e))); ("chunks", JArr (marshalDetail <$> feChunks e))] ++
        omitempty "block_hashes" (bool_decide (feHashes e = [])) (jStrings (feHashes e))).

(** [gc.TombstoneEvent] and [ingress.BlockTombstoneEvent] have the same fields and tags; the
    adapter of [gc_adapter.go] copies one into the other. *)
Definition MarshalTombstone (e : TombstoneEvent) : json :=
  JObj [("block_hash", JStr (teHash e)); ("tenant_id", JStr (teTenant e)); ("size_bytes", JNum (teSize e));
        ("timestamp", JStr (teTimestamp e)); ("reason", JStr (teReason e))].

Definition dInt32 : decoder Z := fun j => z ← dInt64 j; if is_int32 z then Some z else None.

Definition UnmarshalTombstone : decoder TombstoneEvent := fun j =>
  fs ← dFields j;
  h ← field dString "" "block_hash" fs; t ← field dString "" "tenant_id" fs; z ← field dInt32 0 "size_bytes" fs;
  ts ← field dString "" "timestamp" fs; r ← field dString "" "reason" fs;
  Some (mkTombstone h t z ts r).

Lemma task_json t : is_int64 (dtSize t) -> unmarshalTask (marshalTask t) = Some t.
Proof.
  intros Hz. destruct t. unfold unmarshalTask, marshalTask. cbn -[dInt64]. simpl in Hz. by rewrite dInt64_num.
Qed.

Lemma tombstone_json e : is_int32 (teSize e) = true -> UnmarshalTombstone (MarshalTombstone e) = Some e.
Proof.
  intros Hz. destruct e as [h t z ts r]. unfold UnmarshalTombstone, MarshalTombstone. cbn -[dInt32]. simpl in Hz.
  unfold dInt32. rewrite dInt64_num by (unfold is_int32 in Hz; unfold is_int64, minInt64, maxInt64; lia).
  simpl. by rewrite Hz.
Qed.

(** ** Kafka *)

(** A partition as one consumer of the group sees it: [topicLog] grows at the end, a fetch
    returns the message at the reader's position, a commit stores the offset after the
    message. *)
Class KafkaReader (K : Type) := {
  FetchMessage : K -> result string KMessage * K;
  CommitMessages : KMessage -> K -> option string * K;
  topicLog : K -> list KMessage;
  position : K -> nat;
  committedOffset : K -> nat;
  fetch_spec k r k' : FetchMessage k = (r, k') ->
    topicLog k `prefix_of` topicLog k' /\ committedOffset k' = committedOffset k /\
    match r with
    | Ok m => topicLog k' !! position k = Some m /\ kmOffset m = position k /\ position k' = S (position k)
    | Err _ => position k' = position k
    end;
  commit_spec m k r k' : CommitMessages m k = (r, k') ->
    topicLog k `prefix_of` topicLog k' /\ position k' = position k /\
    committedOffset k' = match r with None => S (kmOffset m) | Some _ => committedOffset k end
}.

(** Topics to write to: an answered write is stored at the end of its topic; a failed one may
    have been stored too.  [WriteAsync] is [WriteMessages] of a writer with [Async] set, which
    returns before anything is stored. *)
Class KafkaWriter (P : Type) := {
  WriteMessages : string -> KMessage -> P -> option string * P;
  WriteAsync : string -> KMessage -> P -> option string * P;
  stored : P -> string -> list KMessage;
  write_spec topic m p r p' : WriteMessages topic m p = (r, p') ->
    (forall t, t <> topic -> stored p' t = stored p t) /\
    match r with
    | None => stored p' topic = stored p topic ++ [m]
    | Some _ => stored p' topic = stored p topic \/ stored p' topic = stored p topic ++ [m]
    end
}.

(** ** The event bus ([kafka.go]) *)

Section bus.
Context {P : Type} `{KW : KafkaWriter P}.

(** [kbWriters]: the topics with a writer, and whether it is asynchronous; [kbSink] is what
    the writers write to. *)
Record KafkaBus := mkBus { kbBrokers : list string; kbWriters : gmap string bool; kbSink : P }.

Definition standardTopics : list string := [TopicFileCommits; TopicDerivationTasks; TopicGCTombstones; TopicAuditEvents].

Definition NewKafkaBus (brokers : list string) (sink : P) : result string KafkaBus :=
  match brokers with
  | [] => Err "kafka brokers list cannot be empty"
  | _ => Ok (mkBus brokers (foldl (fun m t => <[t := true]> m) ∅ standardTopics) sink)
  end.

Definition writeTo (async : bool) (topic : string) (m : KMessage) (b : KafkaBus) : option string * KafkaBus :=
  let '(r, p) := (if async then WriteAsync else WriteMessages) topic m (kbSink b) in
  (r, mkBus (kbBrokers b) (kbWriters b) p).

Definition kafkaPublishFileCommitted (e : FileCommittedEvent) (b : KafkaBus) : option string * KafkaBus :=
  match kbWriters b !! TopicFileCommits with
  | None => (Some ("writer for topic " +:+ TopicFileCommits +:+ " not configured"), b)
  | Some async => writeTo async TopicFileCommits (mkKMsg (feTenant e) (PJson (marshalFileCommitted e)) 0) b
  end.

(** A missing writer is created, a synchronous one. *)
Definition kafkaPublishTombstone (topic0 : string) (e : TombstoneEvent) (b : KafkaBus) : option string * KafkaBus :=
  let topic := if bool_decide (topic0 = "") then TopicGCTombstones else topic0 in
  let msg := mkKMsg (teHash e) (PJson (MarshalTombstone e)) 0 in
  match kbWriters b !! topic with
  | Some async => writeTo async topic msg b
  | None => writeTo false topic msg (mkBus (kbBrokers b) (<[topic := false]> (kbWriters b)) (kbSink b))
  end.

(** [Close]: [closeErr] are the errors of the writers, visited in the order [topics]. *)
Definition kafkaClose (closeErr : string -> option string) (topics : list string) : option string :=
  match omap (fun t => (fun e => t +:+ ": " +:+ e) <$> closeErr t) topics with
  | [] => None
  | errs => Some ("errors closing kafka writers: " +:+ String.concat "; " errs)
  end.

(** [gcPublisherAdapter] over this bus. *)
#[global] Instance kafkaTombstones : TombstonePublisher KafkaBus := fun topic e b =>
  let '(r, b') := kafkaPublishTombstone topic e b in
  (match r with None => Ok tt | Some err => Err err end, b').

End bus.
Arguments KafkaBus : clear implicits.

(** ** The CDC router ([cdc/router.go]) *)

Record RouterConfig := mkRouterCfg { rcBrokers : list string; rcGroup : string; rcInput : string; rcTarget : string }.

Definition orElse (s default : string) : string := if bool_decide (s = "") then default else s.

(** The configuration the router runs with. *)
Definition NewRouter (c : RouterConfig) : result string RouterConfig :=
  match rcBrokers c with
  | [] => Err "brokers list cannot be empty"
  | _ => Ok (mkRouterCfg (rcBrokers c) (rcGroup c) (orElse (rcInput c) "aegis-db.public.file_versions")
               (orElse (rcTarget c) TopicDerivationTasks))
  end.

(** [map[string]interface{}]. *)
Definition dObj : decoder (option (list (string * json))) := fun j =>
  match j with JNull => Some None | JObj fs => Some (Some fs) | _ => None end.

Record DebeziumSource := mkSource {
  dsVersion : string; dsConnector : string; dsName : string; dsTSMS : Z; dsDB : string; dsSchema : string; dsTable : string
}.

Record DebeziumEnvelope := mkEnvelope {
  deBefore : option (list (string * json)); deAfter : option (list (string * json)); deSource : DebeziumSource;
  deOp : string; deTimestamp : Z
}.

Definition emptySource : DebeziumSource := mkSource "" "" "" 0 "" "" "".

Definition unmarshalSource : decoder DebeziumSource := fun j =>
  fs ← dFields j;
  v ← field dString "" "version" fs; c ← field dString "" "connector" fs; n ← field dString "" "name" fs;
  t ← field dInt64 0 "ts_ms" fs; d ← field dString "" "db" fs; s ← field dString "" "schema" fs;
  tb ← field dString "" "table" fs; Some (mkSource v c n t d s tb).

Definition unmarshalEnvelope : decoder DebeziumEnvelope := fun j =>
  fs ← dFields j;
  b ← field dObj None "before" fs; a ← field dObj None "after" fs; s ← field unmarshalSource emptySource "source" fs;
  o ← field dString "" "op" fs; t ← field dInt64 0 "ts_ms" fs;
  Some (mkEnvelope b a s o t).

(** [v, _ := m[k].(string)]. *)
Definition asString (k : string) (m : list (string * json)) : string :=
  match jget k m with Some (JStr s) => s | _ => "" end.

Definition fallbackTenant : string := "00000000-0000-0000-0000-000000000001".

Definition routedTenant (after : list (string * json)) : string :=
  let t := asString "tenant_id" after in
  let t1 := if bool_decide (t = "") then asString "created_by" after else t in
  if bool_decide (t1 = "") then fallbackTenant else t1.

(** The task of an inserted row; [off] is the offset of the local time zone in seconds. *)
Definition routedTask (off ts : Z) (after : list (string * json)) : DerivationTaskEvent :=
  mkTask ("cdc-" +:+ format_int ts) (routedTenant after) (asString "version_id" after) (asString "node_id" after)
    (asString "content_sha256" after) (asString "mime_type" after) 0 (rfc3339 off (ts / 1000)).

Section router.
Context {K P : Type} `{KR : KafkaReader K} `{KW : KafkaWriter P}.
Context (target : string) (off : Z) (unmarshalErr : payload -> string).

Definition routeMessage (m : KMessage) (p : P) : option string * P :=
  match (match kmValue m with PJson j => unmarshalEnvelope j | PBytes _ => None end) with
  | None => (Some ("unmarshal debezium envelope: " +:+ unmarshalErr (kmValue m)), p)
  | Some env =>
      if bool_decide (deOp env <> "c") then (None, p)
      else match deAfter env with
      | None => (None, p)
      | Some after =>
          WriteMessages target (mkKMsg (asString "version_id" after)
            (PJson (marshalTask (routedTask off (deTimestamp env) after))) 0) p
      end
  end.

End router.

(** ** The consumer loops

    One entry of the schedule per iteration: whether the context is done before the fetch and
    when the fetch has returned, and the time of the iteration. *)

Record tick := mkTick { tkDone : bool; tkCancelled : bool; tkNow : Z }.

Inductive loopEnd := LRunning | LReturned (err : option string) | LPanicked.

(** A message that was fetched: the error of processing it and what became of its dead
    letter, if one was due. *)
Record handled := mkHandled { hMsg : KMessage; hErr : option string; hDlq : option (option string) }.

Section loop.
Context {K X : Type} `{KR : KafkaReader K}.
(** The body of the loop for a fetched message; [None]: it panicked. *)
Context (body : Z -> KMessage -> X -> option (handled * X)) (ctxErr : string).

Fixpoint consumeLoop (ticks : list tick) (k : K) (x : X) : list handled * loopEnd * K * X :=
  match ticks with
  | [] => ([], LRunning, k, x)
  | t :: ticks' =>
      if tkDone t then ([], LReturned (Some ctxErr), k, x)
      else match FetchMessage k with
      | (Err _, k1) => if tkCancelled t then ([], LReturned None, k1, x) else consumeLoop ticks' k1 x
      | (Ok m, k1) =>
          match body (tkNow t) m x with
          | None => ([], LPanicked, k1, x)
          | Some (h, x1) =>
              let '(_, k2) := CommitMessages m k1 in
              let '(hs, e, k3, x3) := consumeLoop ticks' k2 x1 in (h :: hs, e, k3, x3)
          end
      end
  end.

End loop.

(** [Router.Start]: routing errors are logged, the message is committed in any case. *)
Definition routerStart {K P} `{KR : KafkaReader K} `{KW : KafkaWriter P} (target : string) (off : Z)
    (unmarshalErr : payload -> string) (ctxErr : string) : list tick -> K -> P -> list handled * loopEnd * K * P :=
  consumeLoop (fun _ m p => let '(r, p') := routeMessage target off unmarshalErr m p in Some (mkHandled m r None, p'))
    ctxErr.

(** ** The derivation consumer ([consumer.go]) *)

Record ConsumerConfig := mkConsumerCfg { ccBrokers : list string; ccGroup : string; ccTopic : string; ccDLQ : string }.

Definition NewDerivationConsumer (c : ConsumerConfig) : result string ConsumerConfig :=
  match ccBrokers c with
  | [] => Err "brokers list cannot be empty"
  | _ => Ok (mkConsumerCfg (ccBrokers c) (ccGroup c) (orElse (ccTopic c) TopicDerivationTasks)
               (orElse (ccDLQ c) TopicDerivationDLQ))
  end.

Section consumer.
Context {K P W S Q : Type} `{KR : KafkaReader K} `{KW : KafkaWriter P} `{RS : @ResultStore S rdata} `{DQ : DeadLetterQueue Q}.
Context (unmarshalErr : payload -> string) (text : payload -> string).

(** The pool the consumer drives: its workers (at a time), retry configuration, the order in which the
    goroutines of an event finish, and the cancellations of the waits. *)
Record consumerPool := mkCPool {
  cpWorkers : Z -> list (@Worker W rdata); cpRetry : RetryConfig;
  cpOrder : list (@Worker W rdata) -> list (@Worker W rdata); cpCancel : Z -> option derr; cpStamp : Z -> string
}.

Definition taskEvent (t : DerivationTaskEvent) : Event :=
  mkEvent "" "" (dtVersion t) "" (dtTenant t) 0 (dtMime t) "" "" [].

(** The error of the first failed result. *)
Fixpoint firstFailure (rs : list (ProcessingResult rdata)) : option string :=
  match rs with
  | [] => None
  | r :: rs' => if String.eqb (prStatus r) StatusFailed
                then Some ("worker " +:+ prWorker r +:+ " failed: " +:+ prError r) else firstFailure rs'
  end.

Definition consumerProcessMessage (cp : consumerPool) (now : Z) (m : KMessage) (p : @WorkerPool W S Q)
    : option (option string * @WorkerPool W S Q) :=
  match (match kmValue m with PJson j => unmarshalTask j | PBytes _ => None end) with
  | None => Some (Some ("unmarshal error: " +:+ unmarshalErr (kmValue m)), p)
  | Some task =>
      '(rs, p') ← ProcessEvent (cpStamp cp now) now (cpRetry cp) (cpCancel cp)
                    (cpOrder cp (applicable (cpWorkers cp now) (taskEvent task))) (taskEvent task) p;
      Some (firstFailure rs, p')
  end.

Definition deadLetter (off now : Z) (m : KMessage) (reason : string) : KMessage :=
  mkKMsg (kmKey m) (PJson (JObj [("original_payload", JStr (text (kmValue m))); ("error_reason", JStr reason);
                                 ("failed_at", JStr (rfc3339 off (now / 1000000000)))])) 0.

Definition sendToDLQ (topic : string) (off now : Z) (m : KMessage) (reason : string) (p : P) : option string * P :=
  WriteMessages topic (deadLetter off now m reason) p.

(** The body of [Start] for one message. *)
Definition consumeBody (cp : consumerPool) (topic : string) (off now : Z) (m : KMessage)
    (x : @WorkerPool W S Q * P) : option (handled * (@WorkerPool W S Q * P)) :=
  '(err, pool) ← consumerProcessMessage cp now m x.1;
  match err with
  | None => Some (mkHandled m None None, (pool, x.2))
  | Some e => let '(r, p) := sendToDLQ topic off now m e x.2 in Some (mkHandled m (Some e) (Some r), (pool, p))
  end.

Definition consumerStart (cp : consumerPool) (topic : string) (off : Z) (ctxErr : string)
    : list tick -> K -> @WorkerPool W S Q * P -> list handled * loopEnd * K * (@WorkerPool W S Q * P) :=
  consumeLoop (consumeBody cp topic off) ctxErr.

End consumer.

(** ** The worker program ([cmd/worker]) *)

(** [getEnv] over a lookup of the environment. *)
Definition getEnv (env : string -> string) (key default : string) : string :=
  if bool_decide (env key = "") then default else env key.

(** The workers [cmd/worker] registers, over the in-memory tools. *)
Definition mainWorkers (rangeMap : gmap string string -> list (string * string)) (now : Z) : list (@Worker FakeTools rdata) :=
  let scanner : Scanner FakeTools := fakeScan rangeMap in
  [NewClamAVWorker now; NewOCRWorker now; NewFFmpegWorker now].

(** ** The loop *)

Section loop_lemmas.
Context {K X : Type} `{KR : KafkaReader K}.
Context (body : Z -> KMessage -> X -> option (handled * X)) (ctxErr : string).
Context (R : X -> list handled -> X -> Prop).
Context (R_refl : forall x, R x [] x).
Context (R_step : forall now m x h x1 hs x', body now m x = Some (h, x1) -> R x1 hs x' -> R x (h :: hs) x').
Context (body_total : forall now m x, exists h x1, body now m x = Some (h, x1) /\ hMsg h = m).

(** Consecutive messages of the partition are handled, each once and in order, and only
    handled messages are committed. *)
Definition inOrder (k : K) (hs : list handled) (k' : K) : Prop :=
  topicLog k `prefix_of` topicLog k' /\ position k' = (position k + length hs)%nat /\
  (forall i h, hs !! i = Some h -> topicLog k' !! (position k + i)%nat = Some (hMsg h)) /\
  (committedOffset k' = committedOffset k \/ (position k < committedOffset k' <= position k')%nat).

Lemma inOrder_idle k k1 hs k' : topicLog k `prefix_of` topicLog k1 -> position k1 = position k ->
  committedOffset k1 = committedOffset k -> inOrder k1 hs k' -> inOrder k hs k'.
Proof. intros Hl Hp Hc (H1 & H2 & H3 & H4). unfold inOrder. rewrite <- Hp, <- Hc. split_and!; try done. by etrans. Qed.

Lemma inOrder_nil k : inOrder k [] k.
Proof. split_and!; [done|simpl; lia|intros i h Hi; by rewrite lookup_nil in Hi|by left]. Qed.

Lemma consumeLoop_spec ticks k x hs e k' x' :
  consumeLoop body ctxErr ticks k x = (hs, e, k', x') -> R x hs x' /\ e <> LPanicked /\ inOrder k hs k'.
Proof.
  revert k x hs. induction ticks as [|t ticks IH]; intros k x hs Hrun; cbn [consumeLoop] in Hrun.
  { simplify_eq. split_and!; [apply R_refl|done|apply inOrder_nil]. }
  destruct (tkDone t); [simplify_eq; split_and!; [apply R_refl|done|apply inOrder_nil]|].
  destruct (FetchMessage k) as [[m|err] k1] eqn:Hf; apply fetch_spec in Hf as (Hlog & Hco & Hpos).
  2: { destruct (tkCancelled t).
       - simplify_eq. split_and!; [apply R_refl|done|]. eapply inOrder_idle; [done..|apply inOrder_nil].
       - apply IH in Hrun as (H1 & H2 & H3). split_and!; [done|done|]. by eapply inOrder_idle. }
  destruct Hpos as (Hm & Hoff & Hpos). destruct (body_total (tkNow t) m x) as (h & x1 & Hb & Hh). rewrite Hb in Hrun.
  destruct (CommitMessages m k1) as [r k2] eqn:Hc. apply commit_spec in Hc as (Hlog2 & Hpos2 & Hco2).
  destruct (consumeLoop body ctxErr ticks k2 x1) as [[[hs0 e0] k3] x3] eqn:Hrec. simplify_eq.
  apply IH in Hrec as (H1 & H2 & H3 & H4 & H5 & H6). split_and!; [by eapply R_step|done|]. split_and!.
  - by do 2 (etrans; [eassumption|]).
  - simpl. lia.
  - intros [|i] h' Hi; simpl in Hi.
    + simplify_eq. rewrite Nat.add_0_r. eapply prefix_lookup_Some; [exact Hm|by etrans].
    + apply H5 in Hi. rewrite <- Hi. f_equal. lia.
  - destruct H6 as [H6|H6]; [|right; lia]. rewrite H6, Hco2. destruct r; [left; lia|right; lia].
Qed.
End loop_lemmas.

Section consumer_properties.
Context {K P W S Q : Type} `{KR : KafkaReader K} `{KW : KafkaWriter P} `{RS : @ResultStore S rdata} `{DQ : DeadLetterQueue Q}.
Context (unmarshalErr text : payload -> string).
Implicit Types (cp : @consumerPool W) (x : @WorkerPool W S Q * P).

(** Processing a message never panics. *)
Lemma consumerProcessMessage_total cp now m (p : @WorkerPool W S Q) :
  exists err p', consumerProcessMessage unmarshalErr cp now m p = Some (err, p').
Proof.
  unfold consumerProcessMessage. destruct (match kmValue m with PJson j => _ | PBytes _ => _ end) as [task|]; [|eauto].
  unfold ProcessEvent. match goal with |- context [processAll ?a ?b ?c ?d ?o ?ev ?q] =>
    destruct (processAll_total a b c d o ev q) as (rs & p' & -> & _) end. simpl. eauto.
Qed.

Lemma consumeBody_total cp topic off now m x :
  exists h x1, consumeBody unmarshalErr text cp topic off now m x = Some (h, x1) /\ hMsg h = m.
Proof.
  unfold consumeBody. destruct (consumerProcessMessage_total cp now m x.1) as ([e|] & p' & ->); simpl.
  - destruct (sendToDLQ _ _ _ _ _ _ _) as [r p]. eauto.
  - eauto.
Qed.

(** What a sequence of handled messages left in the dead-letter topic. *)
Definition deadLetters (topic : string) (off : Z) (x : @WorkerPool W S Q * P) (hs : list handled)
    (x' : @WorkerPool W S Q * P) : Prop :=
  (forall t, t <> topic -> stored x'.2 t = stored x.2 t) /\
  Forall (fun h => hErr h = None <-> hDlq h = None) hs /\
  exists letters, stored x'.2 topic = stored x.2 topic ++ letters /\
    (length letters <= length (filter (fun h => is_Some (hErr h)) hs))%nat /\
    forall h reason, h ∈ hs -> hErr h = Some reason -> hDlq h = Some None ->
      exists now, deadLetter text off now (hMsg h) reason ∈ letters.

Lemma deadLetters_step cp topic off now m x h x1 hs x' :
  consumeBody unmarshalErr text cp topic off now m x = Some (h, x1) -> deadLetters topic off x1 hs x' ->
  deadLetters topic off x (h :: hs) x'.
Proof.
  unfold consumeBody. destruct (consumerProcessMessage_total cp now m x.1) as ([e|] & p' & ->); simpl.
  - destruct (sendToDLQ _ _ _ _ _ _ _) as [r p] eqn:Hw. intros Hb. simplify_eq. apply write_spec in Hw as [Hot Hst].
    intros (Ht & Hall & letters & Hl & Hlen & Hin). split_and!.
    + intros t Hne. rewrite Ht by done. by apply Hot.
    + by constructor.
    + assert (stored p topic = stored x.2 topic \/ stored p topic = stored x.2 topic ++ [deadLetter text off now m e]) as Hd
        by (destruct r; [done|by right]).
      rewrite filter_cons_True by (simpl; eauto).
      exists ((if decide (r = None) then [deadLetter text off now m e] else drop (length (stored x.2 topic)) (stored p topic)) ++ letters).
      simpl in Hl. split_and!.
      * rewrite Hl. destruct (decide (r = None)) as [->|]; [by rewrite Hst, <- app_assoc|].
        destruct Hd as [->| ->]; [by rewrite drop_all|by rewrite drop_app_length, <- app_assoc].
      * simpl. rewrite length_app. destruct (decide (r = None)); [simpl; lia|].
        destruct Hd as [->| ->]; [rewrite drop_all|rewrite drop_app_length]; simpl; lia.
      * intros h' reason Hh He Hq. apply elem_of_cons in Hh as [->|Hh].
        -- simpl in *. simplify_eq. exists now. rewrite decide_True by done. left.
        -- destruct (Hin h' reason Hh He Hq) as [now' Hn]. exists now'. apply elem_of_app. by right.
  - intros Hb. simplify_eq. intros (Ht & Hall & letters & Hl & Hlen & Hin). split_and!; [done|by constructor|].
    exists letters. rewrite filter_cons_False by (simpl; by intros [? ?]). split_and!; [done|done|].
    intros h' reason Hh He Hq. apply elem_of_cons in Hh as [->|Hh]; [done|by eapply Hin].
Qed.

Lemma deadLetters_nil topic off x : deadLetters topic off x [] x.
Proof.
  split_and!; [done|done|]. exists []. rewrite app_nil_r. split_and!; [done|simpl; lia|].
  intros h r Hh. by apply elem_of_nil in Hh.
Qed.

(** A message fails whenever some applicable worker fails permanently on every event
    without chunks. *)
Lemma chunkless_fails cp now m (p : @WorkerPool W S Q) wk err :
  (forall l, cpOrder cp l ≡ₚ l) -> wk ∈ cpWorkers cp now -> (forall ev, ShouldProcess wk ev = true) ->
  (forall ev w, evChunks ev = [] -> (Process wk ev w).1 = Err err) -> IsTransient (Some err) = false ->
  exists e p', consumerProcessMessage unmarshalErr cp now m p = Some (Some e, p').
Proof.
  intros Hord Hwk Hsh Hpr Ht. unfold consumerProcessMessage.
  destruct (match kmValue m with PJson j => _ | PBytes _ => _ end) as [task|]; [|eauto].
  unfold ProcessEvent. match goal with |- context [processAll ?a ?b ?c ?d ?o ?ev ?q] =>
    destruct (processAll_total a b c d o ev q) as (rs & p' & -> & Hf) end. simpl.
  assert (wk ∈ cpOrder cp (applicable (cpWorkers cp now) (taskEvent task))) as Hin.
  { rewrite Hord. unfold applicable. apply list_elem_of_filter. by rewrite Hsh. }
  apply list_elem_of_lookup in Hin as [i Hi].
  destruct (Forall2_lookup_l _ _ _ _ _ Hf Hi) as (r & Hr%list_elem_of_lookup_2 & p1 & p2 & Hrun).
  apply (processWithRetry_permanent _ _ _ _ _ _ _ err) in Hrun as [Hst _]; [|by apply Hpr|done].
  assert (is_Some (firstFailure rs)) as [e He]; [|rewrite He; eauto].
  clear -Hr Hst. induction rs as [|r0 rs IH]; [by apply elem_of_nil in Hr|]. simpl.
  destruct (String.eqb (prStatus r0) StatusFailed) eqn:E; [eauto|].
  apply elem_of_cons in Hr as [->|Hr]; [by rewrite Hst in E|by apply IH].
Qed.


End consumer_properties.

(** The worker program dead-letters everything: with the workers [cmd/worker] installs,
    on every schedule and whatever the blocks and the messages are, no message is ever
    processed without error, because the events the consumer builds have no chunks and the
    malware scanner wants every event. *)
Theorem worker_program_fails_every_task {K P S Q : Type} `{KR : KafkaReader K} `{KW : KafkaWriter P}
    `{RS : @ResultStore S rdata} `{DQ : DeadLetterQueue Q} (unmarshalErr text : payload -> string)
    (rangeMap : gmap string string -> list (string * string)) (cp : @consumerPool FakeTools) (topic : string) (off : Z)
    (ctxErr : string) (ticks : list tick) (k : K) (x : @WorkerPool FakeTools S Q * P)
    (Hworkers : forall now, cpWorkers cp now = mainWorkers rangeMap now) (Horder : forall l, cpOrder cp l ≡ₚ l) :
  let '(hs, _, _, _) := consumerStart unmarshalErr text cp topic off ctxErr ticks k x in
  Forall (fun h => is_Some (hErr h) /\ is_Some (hDlq h)) hs.
Proof.
  destruct (consumerStart _ _ _ _ _ _ _ _ _) as [[[hs e] k'] x'] eqn:Hrun.
  eapply (consumeLoop_spec _ _ (fun _ hs _ => Forall (fun h => is_Some (hErr h) /\ is_Some (hDlq h)) hs))
    in Hrun as (H & _); [exact H|constructor| |apply consumeBody_total].
  intros now m y h x1 hs0 y' Hb Hhs. constructor; [|done]. unfold consumeBody in Hb.
  set (scanner := fakeScan rangeMap : Scanner FakeTools).
  destruct (no_chunks_refused (F := float32) now (NewClamAVWorker now) (taskEvent (mkTask "" "" "" "" "" "" 0 ""))) as (err & He & Ht);
    [left|done|].
  destruct (chunkless_fails unmarshalErr cp now m y.1 (NewClamAVWorker now) err) as (reason & p' & Hp); [done| |done| |done|].
  - rewrite Hworkers. left.
  - intros ev w Hev. specialize (He w). simpl in *. unfold clamavProcess, withFirstBlock in *. rewrite Hev.
    simpl in He. by simplify_eq.
  - rewrite Hp in Hb. simpl in Hb. destruct (sendToDLQ _ _ _ _ _ _ _). simplify_eq. simpl. eauto.
Qed.

(** Routing a change event: an inserted row becomes exactly one message on the target
    topic, keyed by the version, whose payload reads back as the task with the row's
    identifiers and a tenant that is never empty; anything else (updates, deletions, rows
    without image, undecodable messages) writes nothing. *)
Theorem routeMessage_inserts {P : Type} `{KW : KafkaWriter P} (target : string) (off : Z)
    (unmarshalErr : payload -> string) (m : KMessage) (p p' : P) (r : option string)
    (Hrun : routeMessage target off unmarshalErr m p = (r, p')) :
  match (match kmValue m with PJson j => unmarshalEnvelope j | PBytes _ => None end) with
  | Some (mkEnvelope _ (Some after) _ "c" ts) =>
      let task := routedTask off ts after in
      unmarshalTask (marshalTask task) = Some task /\ dtTenant task <> "" /\ dtVersion task = asString "version_id" after /\
      (r = None -> stored p' target = stored p target ++ [mkKMsg (dtVersion task) (PJson (marshalTask task)) 0]) /\
      forall t, t <> target -> stored p' t = stored p t
  | _ => p' = p
  end.
Proof.
  unfold routeMessage in Hrun. destruct (match kmValue m with PJson j => _ | PBytes _ => _ end) as [[b a s o ts]|]; [|by simplify_eq].
  simpl in Hrun. destruct (decide (o = "c")) as [->|Hne].
  - rewrite bool_decide_false in Hrun by congruence. destruct a as [after|]; [|by simplify_eq].
    apply write_spec in Hrun as [Hot Hst]. cbv zeta. split_and!; [| |done| |done].
    + apply task_json. unfold is_int64, minInt64, maxInt64. simpl. lia.
    + simpl. unfold routedTenant. case_bool_decide; case_bool_decide; done.
    + intros ->. exact Hst.
  - rewrite bool_decide_true in Hrun by done. simplify_eq. repeat case_match; simplify_eq; done.
Qed.

(** ** The bus *)

Section bus_properties.
Context {P : Type} `{KW : KafkaWriter P}.

(** Exactly the standard topics have asynchronous writers. *)
Definition busOk (b : KafkaBus P) : Prop :=
  forall t, kbWriters b !! t = Some true <-> t ∈ standardTopics.

Lemma NewKafkaBus_ok brokers sink b : NewKafkaBus brokers sink = Ok b -> busOk b.
Proof.
  destruct brokers; [done|]. intros [= <-] t. cbn [kbWriters foldl standardTopics].
  rewrite !lookup_insert_Some, lookup_empty. unfold standardTopics. rewrite !elem_of_cons, elem_of_nil.
  split; [naive_solver|]. intros Ht.
  destruct (decide (TopicAuditEvents = t)), (decide (TopicGCTombstones = t)), (decide (TopicDerivationTasks = t)),
    (decide (TopicFileCommits = t)); naive_solver.
Qed.

Inductive busOp := BusFile (e : FileCommittedEvent) | BusTombstone (topic : string) (e : TombstoneEvent).

Definition busStep (b : KafkaBus P) (op : busOp) : KafkaBus P :=
  match op with
  | BusFile e => (kafkaPublishFileCommitted e b).2
  | BusTombstone t e => (kafkaPublishTombstone t e b).2
  end.

Lemma writeTo_writers async topic m (b : KafkaBus P) : kbWriters (writeTo async topic m b).2 = kbWriters b.
Proof. unfold writeTo. by destruct ((if async then WriteAsync else WriteMessages) topic m (kbSink b)). Qed.

Lemma busStep_ok b op : busOk b -> busOk (busStep b op).
Proof.
  intros Hb. destruct op as [e|t e]; simpl.
  - unfold kafkaPublishFileCommitted. destruct (kbWriters b !! TopicFileCommits); [|done].
    intros t. rewrite writeTo_writers. apply Hb.
  - unfold kafkaPublishTombstone. set (topic := if bool_decide (t = "") then _ else t).
    destruct (kbWriters b !! topic) as [a|] eqn:Ht; intros t'; rewrite writeTo_writers; [apply Hb|].
    simpl. rewrite <- (Hb t'). destruct (decide (topic = t')) as [<-|Hne].
    + rewrite lookup_insert_eq, Ht. naive_solver.
    + by rewrite lookup_insert_ne.
Qed.

(** Tombstones travel unharmed: on a bus built by [NewKafkaBus], after any sequence of
    publications, an answered [PublishBlockTombstone] to a topic of its own (the collector
    uses cas-tombstones) stored exactly one message there, keyed by the block, from which the
    consumer's [UnmarshalTombstone] reads the same event; and publishing a committed file
    always finds its writer. *)
Theorem bus_delivers_tombstones (brokers : list string) (sink : P) (b0 : KafkaBus P) (ops : list busOp) (topic : string)
    (e : TombstoneEvent) (b' : KafkaBus P)
    (Hnew : NewKafkaBus brokers sink = Ok b0) (Htopic : topic <> "" /\ topic ∉ standardTopics)
    (Hsize : is_int32 (teSize e) = true)
    (Hpub : kafkaPublishTombstone topic e (foldl busStep b0 ops) = (None, b')) :
  let b := foldl busStep b0 ops in
  is_Some (kbWriters b !! TopicFileCommits) /\
  exists j, stored (kbSink b') topic = stored (kbSink b) topic ++ [mkKMsg (teHash e) (PJson j) 0] /\
    UnmarshalTombstone j = Some e.
Proof.
  assert (busOk (foldl busStep b0 ops)) as Hok.
  { apply NewKafkaBus_ok in Hnew. clear Hpub. revert b0 Hnew. induction ops as [|op ops IH]; intros b0 Hnew; simpl; [done|].
    apply IH. by apply busStep_ok. }
  cbv zeta. set (b := foldl busStep b0 ops) in *. clearbody b. split; [exists true; apply Hok; left|].
  exists (MarshalTombstone e). split; [|by apply tombstone_json]. destruct Htopic as [Hne Hni].
  unfold kafkaPublishTombstone in Hpub. rewrite bool_decide_false in Hpub by done.
  assert (kbWriters b !! topic <> Some true) as Hsync by (by rewrite (Hok topic)).
  destruct (kbWriters b !! topic) as [[]|]; [done| |]; unfold writeTo in Hpub; simpl in Hpub;
    destruct (WriteMessages topic _ (kbSink b)) as [r p] eqn:Hw; simplify_eq; apply write_spec in Hw as [_ Hw]; done.
Qed.

End bus_properties.

(** ** Witnesses: a partition and topics in memory *)

Record memTopic := mkMemTopic { mtLog : list KMessage; mtPos : nat; mtCommitted : nat }.

Definition memFetch (k : memTopic) : result string KMessage * memTopic :=
  match mtLog k !! mtPos k with
  | Some m => if (kmOffset m =? mtPos k)%nat then (Ok m, mkMemTopic (mtLog k) (S (mtPos k)) (mtCommitted k))
              else (Err "corrupt log", k)
  | None => (Err "no message", k)
  end.

Definition memCommit (m : KMessage) (k : memTopic) : option string * memTopic :=
  (None, mkMemTopic (mtLog k) (mtPos k) (S (kmOffset m))).

#[global] Program Instance memReader : KafkaReader memTopic := {|
  FetchMessage := memFetch; CommitMessages := memCommit;
  topicLog := mtLog; position := mtPos; committedOffset := mtCommitted
|}.
Next Obligation.
  intros k r k' Hf. unfold memFetch in Hf. destruct (mtLog k !! mtPos k) as [m|] eqn:E; [|by simplify_eq].
  destruct (kmOffset m =? mtPos k)%nat eqn:Eo; simplify_eq; [|done]. simpl. apply Nat.eqb_eq in Eo. done.
Qed.
Next Obligation. intros m k r k' Hc. unfold memCommit in Hc. by simplify_eq. Qed.

(** [msDown]: writes are refused. *)
Record memSink := mkMemSink { msTopics : gmap string (list KMessage); msDown : bool }.

Definition memStored (p : memSink) (t : string) : list KMessage := default [] (msTopics p !! t).

Definition memWrite (t : string) (m : KMessage) (p : memSink) : option string * memSink :=
  if msDown p then (Some "broker not available", p)
  else (None, mkMemSink (<[t := memStored p t ++ [m]]> (msTopics p)) false).

#[global] Program Instance memWriter : KafkaWriter memSink :=
  {| WriteMessages := memWrite; WriteAsync := memWrite; stored := memStored |}.
Next Obligation.
  intros topic m p r p' Hw. unfold memWrite in Hw. destruct (msDown p); simplify_eq; [by split; [|left]|].
  unfold memStored. simpl. split.
  - intros t Hne. by rewrite lookup_insert_ne.
  - by rewrite lookup_insert_eq.
Qed.

Definition demoTask : DerivationTaskEvent := mkTask "cdc-1" "t" "v" "n" "h" "image/png" 0 "1970-01-01T00:00:00Z".
Definition demoTopic : memTopic :=
  mkMemTopic [mkKMsg "v" (PJson (marshalTask demoTask)) 0; mkKMsg "w" (PBytes "x") 1] 0 0.
Definition demoCPool : @consumerPool FakeTools :=
  mkCPool (mainWorkers map_to_list) (mkRetry 0 0 0) id (fun _ => None) (fun _ => "20260101000000").
Definition demoX (down : bool) : @WorkerPool FakeTools (FakeResultStore rdata) MemoryDLQ * memSink :=
  (mkPool NewFakes (mkFRS [] None) [] 0 0 0, mkMemSink ∅ down).
Definition demoTicks : list tick := [mkTick false false 5; mkTick false false 6; mkTick true true 7].
Definition demoText (p : payload) : string := match p with PBytes s => s | PJson _ => "{...}" end.

Definition demoConsume (down : bool) :=
  consumerStart demoText demoText demoCPool TopicDerivationDLQ 0 "context canceled" demoTicks demoTopic (demoX down).


Lemma worker_program_fails_every_task_witness :
  length (demoConsume false).1.1.1 = 2%nat /\
  Forall (fun h => is_Some (hErr h) /\ is_Some (hDlq h)) (demoConsume false).1.1.1.
Proof.
  split; [vm_compute; reflexivity|].
  pose proof (worker_program_fails_every_task demoText demoText map_to_list demoCPool TopicDerivationDLQ 0
    "context canceled" demoTicks demoTopic (demoX false) (fun _ => eq_refl) (fun _ => reflexivity _)) as H.
  change (consumerStart _ _ _ _ _ _ _ _ _) with (demoConsume false) in H.
  destruct (demoConsume false) as [[[hs e] k] x]. exact H.
Defined.

(** A refused dead letter is lost: its error is ignored and the message is committed. *)
Lemma refused_dead_letter_is_lost :
  committedOffset (demoConsume true).1.2 = 2%nat /\ stored (demoConsume true).2.2 TopicDerivationDLQ = [] /\
  Forall (fun h => is_Some (hErr h)) (demoConsume true).1.1.1.
Proof. split_and!; [vm_compute; reflexivity..|]. vm_compute. repeat constructor; eauto. Qed.

Definition demoInsert : KMessage :=
  mkKMsg "k" (PJson (JObj [("before", JNull); ("after", JObj [("version_id", JStr "v"); ("created_by", JStr "u")]);
    ("op", JStr "c"); ("ts_ms", JNum 1500)])) 0.

Definition demoSink : memSink := mkMemSink ∅ false.
Definition demoRouted : memSink := (routeMessage TopicDerivationTasks 0 demoText demoInsert demoSink).2.

Lemma routeMessage_inserts_witness :
  stored demoRouted TopicDerivationTasks
  = [mkKMsg "v" (PJson (marshalTask (mkTask "cdc-1500" "u" "v" "" "" "" 0 "1970-01-01T00:00:01Z"))) 0].
Proof.
  assert (routeMessage TopicDerivationTasks 0 demoText demoInsert demoSink = (None, demoRouted)) as Hrun
    by (vm_compute; reflexivity).
  pose proof (routeMessage_inserts TopicDerivationTasks 0 demoText demoInsert demoSink demoRouted None Hrun)
    as (_ & _ & _ & H & _).
  rewrite (H eq_refl). vm_compute. reflexivity.
Defined.

Definition demoTombstone : TombstoneEvent := mkTombstone "h" "t" 10 "1970-01-01T00:00:00Z" "orphan_gc".
Definition demoBus : KafkaBus memSink :=
  match NewKafkaBus ["localhost:9092"] (mkMemSink ∅ false) with Ok b => b | Err _ => mkBus [] ∅ (mkMemSink ∅ false) end.

Lemma bus_delivers_tombstones_witness :
  exists j, stored (kbSink (kafkaPublishTombstone "cas-tombstones" demoTombstone demoBus).2) "cas-tombstones"
    = [mkKMsg "h" (PJson j) 0] /\ UnmarshalTombstone j = Some demoTombstone.
Proof.
  destruct (bus_delivers_tombstones ["localhost:9092"] (mkMemSink ∅ false) demoBus [] "cas-tombstones" demoTombstone
    (kafkaPublishTombstone "cas-tombstones" demoTombstone demoBus).2) as (_ & j & H1 & H2).
  - reflexivity.
  - split; [discriminate|]. unfold standardTopics. rewrite !elem_of_cons, elem_of_nil. intros [H|[H|[H|[H|[]]]]]; discriminate H.
  - reflexivity.
  - reflexivity.
  - exists j. split; [exact H1 | exact H2].
Defined.
