(* ===== verification/Loops.v ===== *)
(** * Background loops

    The goroutines that run a job at every tick of a timer: the two loops of the collector
    ([gc.go]), the CAS sweep worker ([cas/gc.go]), the session reaper ([server.go]) and the
    election campaign ([lock/leader.go]); and the loop of the tombstone consumer.  Loops that
    share a stop channel are one state machine; a job runs between [LTick] and [LDone] and its
    effect happens at [LDone] (other clients of the database interleave through the schedule
    of the world). *)
From S2P Require Import Prelude GoLib Json External Database Schema Cas Lock Gc Ingress Handlers Derivation Workers Events.

(** ** Ticker loops with an unbuffered stop channel *)

Inductive loopPc := Waiting | Working | Exited.
#[global] Instance loopPc_eq_dec : EqDecision loopPc.
Proof. solve_decision. Defined.

(** [lsCancelled]: the context is done. *)
Record loops {X : Type} := mkLoops { lsPcs : list loopPc; lsCancelled : bool; lsState : X }.
Arguments loops : clear implicits.
Arguments mkLoops {X}.

(** [LStop (Some i)]: a call of [Stop] whose send meets loop [i]; [LStop None]: no loop was
    waiting and [Stop] took the [default] branch. *)
Inductive loopEvent := LTick (i : nat) | LDone (i : nat) (now : Z) | LStop (i : option nat) | LCancel | LLeave (i : nat) (now : Z).

Section tickers.
Context {X : Type} (job : nat -> Z -> X -> X) (leave : nat -> Z -> X -> X).

Definition setLoop (i : nat) (p : loopPc) (s : loops X) : loops X :=
  mkLoops (<[i := p]> (lsPcs s)) (lsCancelled s) (lsState s).

Definition loopStep (e : loopEvent) (s : loops X) : option (loops X) :=
  match e with
  | LTick i => if bool_decide (lsPcs s !! i = Some Waiting) then Some (setLoop i Working s) else None
  | LDone i now =>
      if bool_decide (lsPcs s !! i = Some Working)
      then Some (mkLoops (<[i := Waiting]> (lsPcs s)) (lsCancelled s) (job i now (lsState s))) else None
  | LStop (Some i) =>
      if bool_decide (lsPcs s !! i = Some Waiting)
      then Some (mkLoops (<[i := Exited]> (lsPcs s)) (lsCancelled s) (leave i 0 (lsState s))) else None
  | LStop None => if bool_decide (Waiting ∈ lsPcs s) then None else Some s
  | LCancel => Some (mkLoops (lsPcs s) true (lsState s))
  | LLeave i now =>
      if lsCancelled s && bool_decide (lsPcs s !! i = Some Waiting)
      then Some (mkLoops (<[i := Exited]> (lsPcs s)) true (leave i now (lsState s))) else None
  end.

Fixpoint loopRun (es : list loopEvent) (s : loops X) : option (loops X) :=
  match es with
  | [] => Some s
  | e :: es' => s1 ← loopStep e s; loopRun es' s1
  end.

(** [n] loops just started. *)
Definition started (n : nat) (x : X) : loops X := mkLoops (replicate n Waiting) false x.

Definition exited (s : loops X) : nat := length (filter (eq Exited) (lsPcs s)).

Definition isStop (e : loopEvent) : Prop := match e with LStop _ => True | _ => False end.
#[global] Instance isStop_dec e : Decision (isStop e).
Proof. destruct e; simpl; apply _. Defined.

Lemma exited_insert (l : list loopPc) i p q : l !! i = Some p -> p <> Exited ->
  length (filter (eq Exited) (<[i := q]> l))
  = (length (filter (eq Exited) l) + if decide (q = Exited) then 1 else 0)%nat.
Proof.
  revert i. induction l as [|a l IH]; intros [|i] Hi Hp; simpl in *; [done|done| |].
  - simplify_eq. rewrite !filter_cons, (decide_False (P := Exited = p)) by congruence.
    destruct (decide (Exited = q)), (decide (q = Exited)); simpl; try congruence; lia.
  - rewrite !filter_cons. specialize (IH i Hi Hp). destruct (decide (Exited = a)); simpl; lia.
Qed.

Lemma loopStep_exited e s s' : loopStep e s = Some s' -> lsCancelled s = false -> e <> LCancel ->
  lsCancelled s' = false /\ length (lsPcs s') = length (lsPcs s) /\
  (exited s' <= exited s + if decide (isStop e) then 1 else 0)%nat.
Proof.
  intros Hs Hc He. unfold exited. destruct e as [i|i now|[i|]| |i now]; simpl in Hs; [| | | |done|by rewrite Hc in Hs];
    case_bool_decide as Hb; simplify_eq; simpl; rewrite ?length_insert; split_and!; try done;
    try (rewrite (exited_insert _ _ _ _ Hb) by done); simpl; repeat case_decide; try done; lia.
Qed.

(** Without cancellation at most as many loops end as [Stop] is called. *)
Lemma loopRun_exited es s s' : loopRun es s = Some s' -> lsCancelled s = false -> LCancel ∉ es ->
  length (lsPcs s') = length (lsPcs s) /\ (exited s' <= exited s + length (filter isStop es))%nat.
Proof.
  revert s. induction es as [|e es IH]; intros s Hr Hc Hn; simpl in *; [simplify_eq; split; [done|lia]|].
  destruct (loopStep e s) as [s1|] eqn:E; [|done]. simpl in Hr. apply not_elem_of_cons in Hn as [Hn1 Hn2].
  apply loopStep_exited in E as (H1 & H2 & H3); [|done|congruence].
  destruct (IH s1 Hr H1 Hn2) as [H4 H5]. split; [congruence|]. rewrite filter_cons.
  destruct (decide (isStop e)); simpl; lia.
Qed.

Context (I : X -> Prop).
Context (job_keeps : forall i now x, I x -> I (job i now x)) (leave_keeps : forall i now x, I x -> I (leave i now x)).

(** An invariant of the jobs holds along every run. *)
Lemma loopRun_keeps es s s' : loopRun es s = Some s' -> I (lsState s) -> I (lsState s').
Proof.
  revert s. induction es as [|e es IH]; intros s Hr HI; simpl in *; [by simplify_eq|].
  destruct (loopStep e s) as [s1|] eqn:E; [|done]. simpl in Hr. apply (IH s1 Hr).
  destruct e as [i|i now|[i|]| |i now]; simpl in E; repeat case_match; simplify_eq; simpl; auto.
Qed.

(** How many steps the loops still need to leave. *)
Definition loopDebt (p : loopPc) : nat := match p with Waiting => 1 | Working => 2 | Exited => 0 end.

(** Once the context is done, every loop that is still there can be brought to its end. *)
Lemma cancelled_drains s : lsCancelled s = true ->
  exists es s', loopRun es s = Some s' /\ Forall (eq Exited) (lsPcs s') /\
    length es = sum_list_with loopDebt (lsPcs s).
Proof.
  remember (sum_list_with loopDebt (lsPcs s)) as k eqn:Hk. revert s Hk. induction (lt_wf k) as [k _ IH].
  intros s -> Hc. destruct (decide (Forall (eq Exited) (lsPcs s))) as [Hall|Hn].
  { exists [], s. split_and!; [done|done|]. symmetry. clear -Hall. induction Hall as [|p l <- _ IHl]; [done|]. simpl. exact IHl. }
  apply not_Forall_Exists in Hn; [|apply _]. apply Exists_exists in Hn as (p & Hp & Hne).
  apply list_elem_of_lookup in Hp as [i Hi].
  pose proof (fun q => sum_list_insert loopDebt (lsPcs s) i p q Hi) as Hsum.
  destruct p; [| |done].
  - specialize (Hsum Exited). simpl in Hsum.
    destruct (IH (sum_list_with loopDebt (<[i := Exited]> (lsPcs s))) ltac:(lia)
      (mkLoops (<[i := Exited]> (lsPcs s)) true (leave i 0 (lsState s))) eq_refl eq_refl) as (es & s' & Hr & Hall & Hl).
    exists (LLeave i 0 :: es), s'. split_and!; [|done|simpl; lia].
    simpl. rewrite Hc, bool_decide_true by done. exact Hr.
  - specialize (Hsum Waiting). simpl in Hsum.
    destruct (IH (sum_list_with loopDebt (<[i := Waiting]> (lsPcs s))) ltac:(lia)
      (mkLoops (<[i := Waiting]> (lsPcs s)) (lsCancelled s) (job i 0 (lsState s))) eq_refl Hc) as (es & s' & Hr & Hall & Hl).
    exists (LDone i 0 :: es), s'. split_and!; [|done|simpl; lia].
    simpl. rewrite bool_decide_true by done. exact Hr.
Qed.

End tickers.

(** ** The instances *)

Section instances.
Context {S P B L : Type} `{GCS : GCStore S} `{TP : TombstonePublisher P} `{BD : BlobDeleter B} `{U : UUID} `{Lk : Locker L}.

(** [GarbageCollector.Start]: loop 0 cleans up sessions, loop 1 sweeps orphans. *)
Definition gcJob (i : nat) (now : Z) (g : GC S P B) : GC S P B :=
  match i with O => cleanupExpiredSessions now g | _ => sweepOrphanedBlocks now g end.

Definition noLeave {X : Type} (_ : nat) (_ : Z) (x : X) : X := x.

Definition gcStart (g : GC S P B) : loops (GC S P B) := started 2 g.
Definition gcRun : list loopEvent -> loops (GC S P B) -> option (loops (GC S P B)) := loopRun gcJob noLeave.

(** [GCWorker.Start], called [n] times: one loop each, all on the same stop channel. *)
Definition casJob (del : option (string -> B -> result string unit * B)) (batch : Z) (_ : nat) (_ : Z)
    (x : B * world db) : B * world db :=
  let '(_, b, w) := sweep del batch x.1 x.2 in (b, w).

Definition casRun (del : option (string -> B -> result string unit * B)) (batch : Z)
    : list loopEvent -> loops (B * world db) -> option (loops (B * world db)) := loopRun (casJob del batch) noLeave.

(** The worker and its constructor. *)
Record GCWorker := mkGCWorker {
  gwDelete : option (string -> B -> result string unit * B); gwInterval : Z; gwBatch : Z
}.

Definition NewGCWorker (del : option (string -> B -> result string unit * B)) (cfg : GCConfig) : GCWorker :=
  mkGCWorker del (gcInterval (gcApplyDefaults cfg)) (gcBatchSize (gcApplyDefaults cfg)).

Definition workerRun (gw : GCWorker) : list loopEvent -> loops (B * world db) -> option (loops (B * world db)) :=
  casRun (gwDelete gw) (gwBatch gw).

(** [healthLoop] of the database client: a probe of the primary at every tick. *)
Definition healthRun : list loopEvent -> loops (world db) -> option (loops (world db)) :=
  loopRun (fun _ _ => healthProbe) noLeave.

(** [StartSessionReaper]: its context is the only way to end it. *)
Definition reaperInterval (interval : Z) : Z := if interval <=? 0 then 60 * 1000000000 else interval.

Definition reaperRun {St : Type} `{Store St} : list loopEvent -> loops St -> option (loops St) :=
  loopRun (fun _ _ => reaperTick) noLeave.

(** [StopSessionReaper]: cancels the context of a reaper that was started. *)
Definition StopSessionReaper (wasStarted : bool) : list loopEvent := if wasStarted then [LCancel] else [].

(** [StartCampaign]: leaving the loop resigns. *)
Definition campaignJob (nw : net) (ids : Z -> string) (_ : nat) (now : Z) (x : LeaderElection * L) : LeaderElection * L :=
  leaderStep nw now (ids now) x.1 x.2.

Definition campaignLeave (nw : net) (_ : nat) (now : Z) (x : LeaderElection * L) : LeaderElection * L :=
  let '(_, e, l) := Resign nw now x.1 x.2 in (e, l).

Definition campaignRun (nw : net) (ids : Z -> string) : list loopEvent -> loops (LeaderElection * L) ->
    option (loops (LeaderElection * L)) := loopRun (campaignJob nw ids) (campaignLeave nw).

End instances.

(** ** The tombstone consumer *)

Record TombstoneMessage := mkTMsg { tmKey : string; tmValue : payload }.

Class MessageSource (M : Type) := {
  ReadMessage : M -> result string TombstoneMessage * M;
  CommitMessage : TombstoneMessage -> M -> option string * M
}.

Section tombstones.
Context {S B M : Type} `{GCS : GCStore S} `{BD : BlobDeleter B} `{MS : MessageSource M}.

Definition decodeTombstone (m : TombstoneMessage) : option TombstoneEvent :=
  match tmValue m with PJson j => UnmarshalTombstone j | PBytes _ => None end.

(** [Run]: the boolean says whether the message was committed. *)
Fixpoint tombstoneRun (ticks : list tick) (m : M) (tc : TombstoneConsumer S B)
    : list (TombstoneMessage * bool) * bool * M * TombstoneConsumer S B :=
  match ticks with
  | [] => ([], false, m, tc)
  | t :: ticks' =>
      if tkDone t then ([], true, m, tc)
      else match ReadMessage m with
      | (Err _, m1) => if tkCancelled t then ([], true, m1, tc) else tombstoneRun ticks' m1 tc
      | (Ok msg, m1) =>
          let '(commit, tc1) := processMessage (decodeTombstone msg) tc in
          let m2 := if commit then (CommitMessage msg m1).2 else m1 in
          let '(done, fin, m3, tc3) := tombstoneRun ticks' m2 tc1 in
          ((msg, commit) :: done, fin, m3, tc3)
      end
  end.

(** What every message keeps, a run keeps. *)
Lemma tombstoneRun_keeps (I : TombstoneConsumer S B -> Prop) ticks m tc :
  (forall msg tc, I tc -> I (processMessage msg tc).2) -> I tc -> I (tombstoneRun ticks m tc).2.
Proof.
  intros Hp. revert m tc. induction ticks as [|t ticks IH]; intros m tc HI; simpl; [done|].
  destruct (tkDone t); [done|]. destruct (ReadMessage m) as [[msg|e] m1]; [|destruct (tkCancelled t); [done|by apply IH]].
  pose proof (Hp (decodeTombstone msg) tc HI) as HI1. destruct (processMessage _ _) as [commit tc1]. simpl in HI1.
  specialize (IH (if commit then (CommitMessage msg m1).2 else m1) tc1 HI1).
  by destruct (tombstoneRun _ _ _) as [[[? ?] ?] ?].
Qed.

End tombstones.

(** ** Properties *)

Section pipeline.
Context `{U : UUID} {P B : Type} `{TP : TombstonePublisher P} `{BD : BlobDeleter B}.

Lemma cleanup_consistent class now (g : GC (world db) P B) :
  consistent (gStore g) -> consistent (gStore (@cleanupExpiredSessions _ _ _ (adapterStore class) now g)).
Proof.
  intros Hc. unfold cleanupExpiredSessions. cbn [GetExpiredSessions adapterStore].
  pose proof (consistent_query class (fun _ _ => Err undefined_column : result dberr (list SessionInfo)) (gStore g) Hc) as Hq.
  destruct (QueryWithMetrics class _ (gStore g)) as [[l|e] st]; [|done]. simpl in Hq.
  assert (consistent (gStore (setStore st g))) as Hs by done. clear Hq. revert Hs. generalize (setStore st g).
  induction l as [|x l IH]; intros g0 Hs; cbn [expireLoop]; [done|]. cbn [MarkSessionExpired adapterStore].
  assert (consistent (ExecWithMetrics class (fun _ d => (Err undefined_column : result dberr unit, d)) (gStore g0)).2) as He.
  { destruct Hs as [Hk Hr]. destruct (ExecWithMetrics _ _ (gStore g0)) as [r w'] eqn:E. simpl.
    eapply ExecWithMetrics_keeps; [|exact E|done|done]. intros ? ? ? ? [=]. }
  destruct (ExecWithMetrics _ _ (gStore g0)) as [[[]|e] st1]; apply IH; done.
Qed.

(** C21. Whatever the background loops do, the registry stays consistent: along every run of
    the collector's two loops, with any ticks, [Stop] calls and cancellation, on every
    schedule of database faults and of consistent commits by other clients, reference counts
    equal the number of manifest rows and every manifest row has its block. *)
Theorem pipeline_keeps_refcounts (class : string) (g : GC (world db) P B) (es : list loopEvent)
    (s : loops (GC (world db) P B)) (Hc : consistent (gStore g))
    (Hrun : @gcRun _ _ _ (adapterStore class) _ _ es (gcStart g) = Some s) :
  consistent (gStore (lsState s)).
Proof.
  eapply (loopRun_keeps _ _ (fun g => consistent (gStore g))) in Hrun; [exact Hrun| |done|done].
  intros [|i] now x Hx; simpl; [by apply cleanup_consistent|by apply sweep_consistent].
Qed.

End pipeline.

(** [Stop] of the collector reaches at most one of its two loops: after one call, and
    without cancellation of the context, some loop is still running, whatever the
    interleaving; after the context is cancelled the remaining loops can all leave. *)
Theorem gc_stop_leaves_a_loop {S P B : Type} `{GCS : GCStore S} `{TP : TombstonePublisher P} `{BD : BlobDeleter B}
    (g : GC S P B) (es : list loopEvent) (s : loops (GC S P B)) (Hrun : gcRun es (gcStart g) = Some s)
    (Hctx : LCancel ∉ es) (Hstop : length (filter isStop es) = 1%nat) :
  (exists i p, lsPcs s !! i = Some p /\ p <> Exited) /\
  exists es' s', gcRun (LCancel :: es') s = Some s' /\ Forall (eq Exited) (lsPcs s').
Proof.
  split.
  - destruct (loopRun_exited _ _ _ _ _ Hrun eq_refl Hctx) as [Hlen Hex]. rewrite Hstop in Hex. unfold exited in Hex. simpl in Hlen, Hex.
    destruct (lsPcs s) as [|p [|q [|? ?]]]; try done. simpl in Hex. rewrite !filter_cons in Hex.
    destruct (decide (p = Exited)) as [->|Hp]; [|by exists 0%nat, p].
    destruct (decide (q = Exited)) as [->|Hq]; [|by exists 1%nat, q]. simpl in Hex. lia.
  - destruct (cancelled_drains gcJob noLeave (mkLoops (lsPcs s) true (lsState s)) eq_refl) as (es' & s' & Hr & Hall & _).
    exists es', s'. split; [exact Hr|done].
Qed.

(** ** The audit trail *)

Section audit_trail.
Context {S P B : Type} `{GCS : GCStore S} `{TP : TombstonePublisher P} `{BD : BlobDeleter B}.
Implicit Types g : GC S P B.

(** How often an action occurs in the trail. *)
Definition actions (a : string) (l : list AuditEntry) : Z := zlen (filter (fun e => auAction e = a) l).

(** Every call of a metric has its entry. *)
Definition audited g : Prop :=
  let m := gMetrics g in let l := auditLog g in
  actions "session_expired" l = mSessions m /\ actions "tombstone_emitted" l = mTombstoned m /\
  actions "blob_deleted" l = mDeleted m /\ actions "blob_delete_failed" l = mFailed m /\
  actions "double_check_saved" l = mSaved m.

(** [g'] continues the trail of [g], and is audited if [g] is. *)
Definition trailStep g g' : Prop := auditLog g `prefix_of` auditLog g' /\ (audited g -> audited g').

#[global] Instance trailStep_preorder : PreOrder trailStep.
Proof. split; [intros g; by split|]. intros g1 g2 g3 [H1 H2] [H3 H4]. split; [by etrans|auto]. Qed.

(** Steps that leave the trail and its metrics alone. *)
Lemma trailStep_same g g' : auditLog g' = auditLog g -> gMetrics g' = gMetrics g -> trailStep g g'.
Proof. intros Hl Hm. unfold trailStep, audited. by rewrite Hl, Hm. Qed.

Lemma actions_app a l e : actions a (l ++ [e]) = actions a l + (if String.eqb (auAction e) a then 1 else 0).
Proof.
  unfold actions, zlen. rewrite filter_app, length_app, filter_cons.
  destruct (String.eqb_spec (auAction e) a); case_decide; simpl; try done; lia.
Qed.

(** An entry with the matching call of a metric; an entry of another action needs none. *)
Lemma trailStep_audit e ds dt dd df dr dv g :
  let hit a := if String.eqb (auAction e) a then 1 else 0 in
  ds = hit "session_expired" -> dt = hit "tombstone_emitted" -> dd = hit "blob_deleted" ->
  df = hit "blob_delete_failed" -> dv = hit "double_check_saved" ->
  trailStep g (audit e (addM ds dt dd df dr dv g)).
Proof.
  intros hit -> -> -> -> ->. split; simpl; [by eexists|]. unfold audited. simpl. rewrite !actions_app.
  intros (H1 & H2 & H3 & H4 & H5). subst hit. simpl. lia.
Qed.

Lemma processBlock_trail now b g : trailStep g (processBlock now b g).
Proof.
  unfold processBlock. destruct (DoubleCheckBlock (gbHash b) (gStore g)) as [[[]|e] st];
    [|by etrans; [|by apply trailStep_audit]; apply trailStep_same|by apply trailStep_same].
  assert (trailStep g (setStore st g)) as H0 by by apply trailStep_same.
  destruct (DryRun (gCfg (setStore st g))).
  { etrans; [exact H0|]. split; simpl; [by eexists|]. unfold audited. simpl. by rewrite !actions_app, !Z.add_0_r. }
  destruct (PublishBlockTombstone _ _ _) as [[[]|e] p]; [|by etrans; [exact H0|]; apply trailStep_same].
  set (g2 := audit _ _). assert (trailStep g g2) as H2.
  { etrans; [exact H0|]. etrans; [|by apply trailStep_audit]. by apply trailStep_same. }
  clearbody g2. assert (trailStep g2 (deleteBlobStep now b g2).2) as H3.
  { unfold deleteBlobStep. destruct (gBlob g2) as [bl|]; [|done].
    destruct (DeleteBlob (gbHash b) bl) as [[[]|e] bl']; simpl; (etrans; [|by apply trailStep_audit]); by apply trailStep_same. }
  destruct (deleteBlobStep now b g2) as [go g3]. simpl in H3. destruct go; [|by etrans].
  etrans; [exact H2|]. etrans; [exact H3|]. unfold hardDeleteStep.
  destruct (HardDeleteBlocks _ _) as [[n|e] st']; [case_match|]; by apply trailStep_same.
Qed.

Lemma sweep_trail now g : trailStep g (sweepOrphanedBlocks now g).
Proof.
  assert (forall l g, trailStep g (processBatch now l g)) as Hbatch.
  { induction l as [|b l IH]; intros g0; simpl; [done|]. case_match; [split; [done|]; unfold audited; simpl; lia|].
    etrans; [apply processBlock_trail|apply IH]. }
  assert (forall fuel l g, trailStep g (batches fuel now l g)) as Hbatches.
  { induction fuel as [|f IH]; intros [|b l] g0; [done..|]. cbn [batches]. etrans; [apply Hbatch|apply IH]. }
  unfold sweepOrphanedBlocks. set (g0 := if hourNs <? now - rateResetAt g then _ else g).
  assert (trailStep g g0) as H0 by (subst g0; case_match; by apply trailStep_same). clearbody g0.
  destruct (FindOrphanedBlocks _ _ (gStore g0)) as [[blocks|e] st]; (etrans; [exact H0|]); [|by apply trailStep_same].
  etrans; [|apply Hbatches]. by apply trailStep_same.
Qed.

Lemma cleanup_trail now g : trailStep g (cleanupExpiredSessions now g).
Proof.
  unfold cleanupExpiredSessions. destruct (GetExpiredSessions _ (gStore g)) as [[l|e] st]; [|by apply trailStep_same].
  assert (trailStep g (setStore st g)) as H0 by by apply trailStep_same. etrans; [exact H0|]. clear H0.
  generalize (setStore st g). induction l as [|x l IH]; intros g0; cbn [expireLoop]; [done|].
  destruct (MarkSessionExpired (siID x) (gStore g0)) as [[[]|e] st1]; (etrans; [|apply IH]); [|by apply trailStep_same].
  etrans; [|by apply trailStep_audit]. by apply trailStep_same.
Qed.

(** The trail accounts for everything the collector does, whatever store, publisher and blob
    backend answer: along every run of a new collector's goroutines the trail is only extended,
    and each metric equals the number of entries of its action. *)
Theorem audit_trail_complete (st : S) (p : P) (b : option B) (cfg : GCfg) (es1 es2 : list loopEvent)
    (s1 s2 : loops (GC S P B)) (H1 : gcRun es1 (gcStart (gcNew st p b cfg)) = Some s1) (H2 : gcRun es2 s1 = Some s2) :
  auditLog (lsState s1) `prefix_of` AuditLog (lsState s2) /\ audited (lsState s1) /\ audited (lsState s2).
Proof.
  assert (forall es s s', gcRun es s = Some s' -> trailStep (lsState s) (lsState s')) as Hrun.
  { intros es s s' Hr. eapply (loopRun_keeps _ _ (trailStep (lsState s))) in Hr; [exact Hr| |done|done].
    intros [|i] now x Hx; simpl; (etrans; [exact Hx|]); [apply cleanup_trail|apply sweep_trail]. }
  destruct (Hrun _ _ _ H1) as [_ Ha1]. destruct (Hrun _ _ _ H2) as [Hp Ha2].
  assert (audited (lsState s1)) as Hs1 by by apply Ha1. split; [exact Hp|]. auto.
Qed.

End audit_trail.

(** ** Witnesses *)

(** A collector over an empty registry, with a concurrent client's update in the schedule. *)
Definition demoGC : GC (world db) (list TombstoneEvent) (gset string) :=
  mkGC (mkWorld (mkDb ∅ ∅ ∅ ∅ ∅ ∅ true None ∅) 0 [mkSlot 3 (cas_mark_verified 0 "h") None None false]
          newCircuitBreaker 0 0 0 0 None)
       [] (Some ∅) (gcDefaults (mkGCfg 0 0 0 0 0 false)) [] 0 0 (mkGCM 0 0 0 0 0 0).

(** Both loops tick, the sweep finishes, [Stop] meets the sweeping loop, the other goes on. *)
Definition demoLoopEvents : list loopEvent := [LTick 0; LTick 1; LDone 1 9; LStop (Some 1%nat); LDone 0 10].

Definition demoLoopEnd : loops (GC (world db) (list TombstoneEvent) (gset string)) :=
  default (gcStart demoGC) (@gcRun _ _ _ (adapterStore OpWrite) _ _ demoLoopEvents (gcStart demoGC)).

Lemma demoLoop_runs : @gcRun _ _ _ (adapterStore OpWrite) _ _ demoLoopEvents (gcStart demoGC) = Some demoLoopEnd.
Proof. reflexivity. Qed.

Lemma pipeline_keeps_refcounts_witness : consistent (gStore (lsState demoLoopEnd)).
Proof.
  apply (pipeline_keeps_refcounts OpWrite demoGC demoLoopEvents demoLoopEnd).
  - split.
    + constructor; [|constructor]. intros d. apply cas_mark_verified_refcount.
    + split; [intros h r | intros k r]; simpl; rewrite lookup_empty; discriminate.
  - exact demoLoop_runs.
Defined.

Lemma gc_stop_leaves_a_loop_witness : exists i p, lsPcs demoLoopEnd !! i = Some p /\ p <> Exited.
Proof.
  apply (@gc_stop_leaves_a_loop _ _ _ (adapterStore OpWrite) _ _ demoGC demoLoopEvents demoLoopEnd demoLoop_runs).
  - unfold demoLoopEvents. rewrite !elem_of_cons, elem_of_nil. intros [H|[H|[H|[H|[H|[]]]]]]; discriminate H.
  - reflexivity.
Defined.

Lemma audit_trail_complete_witness : audited (lsState demoLoopEnd).
Proof.
  apply (@audit_trail_complete _ _ _ (adapterStore OpWrite) _ _ (gStore demoGC) [] (Some ∅) (mkGCfg 0 0 0 0 0 false)
    demoLoopEvents [] demoLoopEnd demoLoopEnd demoLoop_runs eq_refl).
Defined.

(** A [Stop] while the loops work is lost. *)
Lemma gc_stop_can_be_lost :
  exists s, @gcRun _ _ _ (adapterStore OpWrite) _ _ [LTick 0; LTick 1; LStop None; LDone 0 1; LDone 1 1] (gcStart demoGC)
    = Some s /\ lsPcs s = [Waiting; Waiting].
Proof. eexists. split; [reflexivity|]. reflexivity. Qed.
