(* ===== verification/ObjectStorage.v ===== *)
(** * internal/objectstorage: blocks in S3 and MinIO

    The two SDKs are outside the repository: [S3API] and [MinioAPI] are the calls the clients
    make, with the documented behaviour of the object store behind them ([bucketObject] is
    what it holds).  [ObjectStorageClient] is the interface of [storage.go] with what the
    rest of the system relies on; both clients are instances. *)
From S2P Require Import Prelude GoLib Gc.

(** ** Strings *)

(** [strings.TrimLeft], [TrimRight] and [Trim] with a one-character cutset. *)
Fixpoint trimLeft (c : ascii) (s : string) : string :=
  match s with
  | EmptyString => EmptyString
  | String a s' => if Ascii.eqb a c then trimLeft c s' else s
  end.

Fixpoint trimRight (c : ascii) (s : string) : string :=
  match s with
  | EmptyString => EmptyString
  | String a s' =>
      match trimRight c s' with
      | EmptyString => if Ascii.eqb a c then EmptyString else String a EmptyString
      | t => String a t
      end
  end.

Definition quote : ascii := ascii_of_nat 34.
Definition trimQuotes (s : string) : string := trimRight quote (trimLeft quote s).

Lemma trimRight_idem c s : trimRight c (trimRight c s) = trimRight c s.
Proof.
  induction s as [|a s IH]; [done|]. simpl. destruct (trimRight c s) as [|b t] eqn:E.
  - destruct (Ascii.eqb a c) eqn:Ea; simpl; by rewrite ?Ea.
  - remember (String b t) as u. simpl. rewrite IH. by subst u.
Qed.

(** A string that starts with another character keeps its start. *)
Lemma trimLeft_trimRight c s : trimLeft c (trimRight c (trimLeft c s)) = trimRight c (trimLeft c s).
Proof.
  induction s as [|a s IH]; [done|]. simpl. destruct (Ascii.eqb a c) eqn:Ea; [done|].
  simpl. rewrite Ea. destruct (trimRight c s); simpl; by rewrite Ea.
Qed.

Lemma trimQuotes_idem s : trimQuotes (trimQuotes s) = trimQuotes s.
Proof. unfold trimQuotes. by rewrite trimLeft_trimRight, trimRight_idem. Qed.

(** ** storage.go *)

Definition TierHot : string := "HOT".
Definition TierWarm : string := "WARM".
Definition TierCold : string := "COLD".

(** What the SDKs report of an error: whether it is the typed [NotFound], its text, and the
    code and status [minio.ToErrorResponse] finds. *)
Record sdkErr := mkSdkErr { seNotFound : bool; seMsg : string; seCode : string; seStatus : Z }.

Inductive oserr :=
| ErrBlockNotFound (hash : string)
| ErrETagMismatch (stored expected : string)
| ErrUploadFailed (e : sdkErr)
| ErrDeleteFailed (e : sdkErr)
| OSError (prefix : string) (e : sdkErr)
| OSMessage (msg : string).

(** [IsVerified] is never set. *)
Record BlockMetadata := mkMeta {
  mdHash : string; mdETag : string; mdSize : Z; mdTier : string; mdModified : Z; mdVerified : bool
}.

Record LifecycleRule := mkRule { lrID : string; lrPrefix : string; lrDay : Z; lrTier : string }.
Record LifecyclePolicy := mkPolicy { lpRules : list LifecycleRule; lpAbortDays : Z; lpNoncurrentDays : Z }.

Definition DefaultLifecyclePolicy : LifecyclePolicy :=
  mkPolicy [mkRule "tier-warm" "" 7 TierWarm; mkRule "tier-cold" "" 30 TierCold] 1 1.

(** An object of a bucket; the ETag is kept without quotes. *)
Record object := mkObject { obETag : string; obBytes : list ascii; obClass : string; obModified : Z }.

(** The interface, and what its users rely on: answers are about the stored object, a
    deletion removes that block and no other (a failed one may have removed it), and only a
    deletion changes objects. *)
Class ObjectStorageClient (C B : Type) := {
  osGenerateUploadURL : C -> string -> string -> Z -> B -> result oserr string * B;
  osVerifyBlock : C -> string -> string -> B -> result oserr unit * B;
  osGetBlockMetadata : C -> string -> B -> result oserr BlockMetadata * B;
  osGetBlockReader : C -> string -> B -> result oserr (list ascii * Z) * B;
  osDeleteBlock : C -> string -> B -> result oserr unit * B;
  osApplyLifecycle : C -> LifecyclePolicy -> B -> result oserr unit * B;
  osObject : C -> string -> B -> option object;
  os_verify c h e b r b' : osVerifyBlock c h e b = (r, b') ->
    (forall h', osObject c h' b' = osObject c h' b) /\
    match r with
    | Ok _ => exists o, osObject c h b = Some o /\ trimQuotes (obETag o) = trimQuotes e
    | Err (ErrETagMismatch _ _) => exists o, osObject c h b = Some o /\ trimQuotes (obETag o) <> trimQuotes e
    | Err _ => True
    end;
  os_metadata c h b r b' : osGetBlockMetadata c h b = (r, b') ->
    (forall h', osObject c h' b' = osObject c h' b) /\
    match r with
    | Ok m => mdHash m = h /\ exists o, osObject c h b = Some o /\ mdETag m = trimQuotes (obETag o) /\
                mdSize m = zlen (obBytes o)
    | Err _ => True
    end;
  os_delete c h b r b' : osDeleteBlock c h b = (r, b') ->
    (forall h', h' <> h -> osObject c h' b' = osObject c h' b) /\
    match r with
    | Ok _ => osObject c h b' = None
    | Err _ => osObject c h b' = osObject c h b \/ osObject c h b' = None
    end
}.

(** ** s3.go *)

Definition presignTTL : Z := 15 * 60 * 1000000000.
Definition blockPrefix : string := "blocks/".
Definition blockKey (hash : string) : string := blockPrefix +:+ hash.

Record headOut := mkHead { hoETag : option string; hoLength : option Z; hoClass : string; hoModified : option Z }.

(** The fields of [PutObjectInput] the client sets; [piKMS] is [SSEKMSKeyId]. *)
Record putInput := mkPut { piBucket : string; piKey : string; piTagging : string; piSSE : string; piKMS : option string }.

(** A rule of the bucket's lifecycle configuration: a transition, or the abortion of
    incomplete multipart uploads. *)
Inductive sdkRule :=
| RTransition (id prefix : string) (days : Z) (class : string)
| RAbort (id : string) (prefix : option string) (days : Z).

(** A response about [o]. *)
Definition headsAs (o : object) (h : headOut) : Prop :=
  (exists e, hoETag h = Some e /\ trimQuotes e = trimQuotes (obETag o)) /\ hoLength h = Some (zlen (obBytes o)) /\
  hoClass h = obClass o /\ hoModified h = Some (obModified o).

(** The objects of a store, by bucket and key. *)
Class Buckets (B : Type) := bucketObject : string -> string -> B -> option object.

Class S3API (B : Type) `{Buckets B} := {
  HeadObject : string -> string -> B -> result sdkErr headOut * B;
  GetObject : string -> string -> B -> result sdkErr (list ascii * option Z) * B;
  DeleteObject : string -> string -> B -> option sdkErr * B;
  PresignPutObject : putInput -> Z -> B -> result sdkErr string * B;
  PutBucketLifecycle : string -> list sdkRule -> B -> option sdkErr * B;
  head_spec bk k b r b' : HeadObject bk k b = (r, b') ->
    (forall bk' k', bucketObject bk' k' b' = bucketObject bk' k' b) /\
    match r with Ok h => exists o, bucketObject bk k b = Some o /\ headsAs o h | Err _ => True end;
  delete_spec bk k b r b' : DeleteObject bk k b = (r, b') ->
    (forall bk' k', (bk', k') <> (bk, k) -> bucketObject bk' k' b' = bucketObject bk' k' b) /\
    match r with
    | None => bucketObject bk k b' = None
    | Some _ => bucketObject bk k b' = bucketObject bk k b \/ bucketObject bk k b' = None
    end
}.

Record S3Client := mkS3 { s3Bucket : string; s3KMS : string }.
Record S3Config := mkS3Config {
  s3cEndpoint : string; s3cRegion : string; s3cBucket : string; s3cKMS : string; s3cPathStyle : bool
}.

(** [loadErr] is the error of [config.LoadDefaultConfig]. *)
Definition NewS3Client (cfg : S3Config) (loadErr : option sdkErr) : result oserr S3Client :=
  if bool_decide (s3cBucket cfg = "") then Err (OSMessage "objectstorage: bucket name is required")
  else match loadErr with
  | Some e => Err (OSError "objectstorage: load AWS config: " e)
  | None => Ok (mkS3 (s3cBucket cfg) (s3cKMS cfg))
  end.

Definition isNotFound (e : sdkErr) : bool :=
  seNotFound e || contains (seMsg e) "NoSuchKey" || contains (seMsg e) "NoSuchBucket" ||
  contains (seMsg e) "NotFound" || contains (seMsg e) "404".

Definition notFoundOr (found : bool) (hash : string) (e : sdkErr) : oserr :=
  if found then ErrBlockNotFound hash else OSError "" e.

(** The common end of [VerifyBlock]. *)
Definition compareETags (stored expected : string) : result oserr unit :=
  if String.eqb (trimQuotes stored) (trimQuotes expected) then Ok tt
  else Err (ErrETagMismatch (trimQuotes stored) (trimQuotes expected)).

Definition s3Tier (class : string) : string :=
  if existsb (String.eqb class) ["STANDARD_IA"; "ONEZONE_IA"; "INTELLIGENT_TIERING"] then TierWarm
  else if existsb (String.eqb class) ["GLACIER"; "DEEP_ARCHIVE"; "GLACIER_IR"] then TierCold
  else TierHot.

(** Conversion to [int32] wraps around. *)
Definition int32 (z : Z) : Z := wrapS 32 z.

Definition s3Rules (p : LifecyclePolicy) : list sdkRule :=
  ((fun r => RTransition (lrID r) blockPrefix (int32 (lrDay r)) (lrTier r)) <$> lpRules p) ++
  (if 0 <? lpAbortDays p then [RAbort "abort-incomplete-multipart" (Some "") (int32 (lpAbortDays p))] else []).

Section s3.
Context {B : Type} `{BK : Buckets B} `{A : !S3API B}.

(** The size of the block is not used. *)
Definition s3GenerateUploadURL (c : S3Client) (tenant hash : string) (_ : Z) (b : B) : result oserr string * B :=
  let input := if bool_decide (s3KMS c = "")
               then mkPut (s3Bucket c) (blockKey hash) ("tenant=" +:+ tenant) "AES256" None
               else mkPut (s3Bucket c) (blockKey hash) ("tenant=" +:+ tenant) "aws:kms" (Some (s3KMS c)) in
  match PresignPutObject input presignTTL b with
  | (Err e, b') => (Err (ErrUploadFailed e), b')
  | (Ok url, b') => (Ok url, b')
  end.

Definition s3VerifyBlock (c : S3Client) (hash etag : string) (b : B) : result oserr unit * B :=
  match HeadObject (s3Bucket c) (blockKey hash) b with
  | (Err e, b') => (Err (notFoundOr (isNotFound e) hash e), b')
  | (Ok h, b') => (compareETags (default "" (hoETag h)) etag, b')
  end.

Definition s3GetBlockMetadata (c : S3Client) (hash : string) (b : B) : result oserr BlockMetadata * B :=
  match HeadObject (s3Bucket c) (blockKey hash) b with
  | (Err e, b') => (Err (notFoundOr (isNotFound e) hash e), b')
  | (Ok h, b') => (Ok (mkMeta hash (trimQuotes (default "" (hoETag h))) (default 0 (hoLength h)) (s3Tier (hoClass h))
                         (default 0 (hoModified h)) false), b')
  end.

Definition s3GetBlockReader (c : S3Client) (hash : string) (b : B) : result oserr (list ascii * Z) * B :=
  match GetObject (s3Bucket c) (blockKey hash) b with
  | (Err e, b') => (Err (notFoundOr (isNotFound e) hash e), b')
  | (Ok (body, len), b') => (Ok (body, default 0 len), b')
  end.

Definition s3DeleteBlock (c : S3Client) (hash : string) (b : B) : result oserr unit * B :=
  match DeleteObject (s3Bucket c) (blockKey hash) b with
  | (Some e, b') => (Err (ErrDeleteFailed e), b')
  | (None, b') => (Ok tt, b')
  end.

Definition s3ApplyLifecycle (c : S3Client) (p : LifecyclePolicy) (b : B) : result oserr unit * B :=
  match PutBucketLifecycle (s3Bucket c) (s3Rules p) b with
  | (Some e, b') => (Err (OSError "objectstorage: put lifecycle: " e), b')
  | (None, b') => (Ok tt, b')
  end.

End s3.

(** ** minio.go *)

Record objectInfo := mkInfo { oiETag : string; oiSize : Z; oiClass : string; oiModified : Z }.

(** What [PresignedPostPolicy] signs. *)
Record postPolicy := mkPostPolicy { ppBucket : string; ppKey : string; ppExpires : Z; ppType : string; ppTagging : string }.

(** [GetObject] opens an object without asking the server; [ObjectStat] does. *)
Class MinioAPI (B : Type) `{Buckets B} := {
  EndpointURL : string;
  BucketExists : string -> B -> result sdkErr bool * B;
  MakeBucket : string -> B -> option sdkErr * B;
  StatObject : string -> string -> B -> result sdkErr objectInfo * B;
  OpenObject : string -> string -> B -> option sdkErr * B;
  ObjectStat : string -> string -> B -> result sdkErr (list ascii * Z) * B;
  RemoveObject : string -> string -> B -> option sdkErr * B;
  PresignedPostPolicy : postPolicy -> B -> result sdkErr (string * list (string * string)) * B;
  SetBucketLifecycle : string -> list sdkRule -> B -> option sdkErr * B;
  stat_spec bk k b r b' : StatObject bk k b = (r, b') ->
    (forall bk' k', bucketObject bk' k' b' = bucketObject bk' k' b) /\
    match r with
    | Ok i => exists o, bucketObject bk k b = Some o /\ trimQuotes (oiETag i) = trimQuotes (obETag o) /\
                oiSize i = zlen (obBytes o) /\ oiClass i = obClass o
    | Err _ => True
    end;
  remove_spec bk k b r b' : RemoveObject bk k b = (r, b') ->
    (forall bk' k', (bk', k') <> (bk, k) -> bucketObject bk' k' b' = bucketObject bk' k' b) /\
    match r with
    | None => bucketObject bk k b' = None
    | Some _ => bucketObject bk k b' = bucketObject bk k b \/ bucketObject bk k b' = None
    end
}.

Record MinIOConfig := mkMinIOConfig {
  mcEndpoint : string; mcAccess : string; mcSecret : string; mcBucket : string; mcSSL : bool
}.
Record MinIOClient := mkMinIO { moBucket : string }.

Definition isMinioNotFound (e : sdkErr) : bool :=
  String.eqb (seCode e) "NoSuchKey" || String.eqb (seCode e) "NoSuchBucket" || (seStatus e =? 404).

Definition minioTier (class : string) : string :=
  if existsb (String.eqb class) ["STANDARD_IA"; "ONEZONE_IA"] then TierWarm
  else if existsb (String.eqb class) ["GLACIER"; "DEEP_ARCHIVE"] then TierCold
  else TierHot.

Definition minioRules (p : LifecyclePolicy) : list sdkRule :=
  ((fun r => RTransition (lrID r) blockPrefix (lrDay r) (lrTier r)) <$> lpRules p) ++
  (if 0 <? lpAbortDays p then [RAbort "abort-incomplete-multipart" None (lpAbortDays p)] else []).

Section minio.
Context {B : Type} `{BK : Buckets B} `{A : !MinioAPI B}.

(** [newErr] is the error of [minio.New]. *)
Definition NewMinIOClient (cfg : MinIOConfig) (newErr : option sdkErr) (b : B) : result oserr MinIOClient * B :=
  if bool_decide (mcBucket cfg = "") then (Err (OSMessage "objectstorage: bucket name is required"), b)
  else if bool_decide (mcEndpoint cfg = "") then (Err (OSMessage "objectstorage: endpoint is required"), b)
  else match newErr with
  | Some e => (Err (OSError "objectstorage: create minio client: " e), b)
  | None =>
      match BucketExists (mcBucket cfg) b with
      | (Err e, b1) => (Err (OSError "objectstorage: check bucket: " e), b1)
      | (Ok true, b1) => (Ok (mkMinIO (mcBucket cfg)), b1)
      | (Ok false, b1) =>
          match MakeBucket (mcBucket cfg) b1 with
          | (Some e, b2) => (Err (OSError "objectstorage: create bucket: " e), b2)
          | (None, b2) => (Ok (mkMinIO (mcBucket cfg)), b2)
          end
      end
  end.

(** The signed form data is dropped; the URL returned is the plain address of the object. *)
Definition minioGenerateUploadURL (now : Z) (c : MinIOClient) (tenant hash : string) (_ : Z) (b : B)
    : result oserr string * B :=
  match PresignedPostPolicy (mkPostPolicy (moBucket c) (blockKey hash) (now + presignTTL) "application/octet-stream"
                               ("tenant=" +:+ tenant)) b with
  | (Err e, b') => (Err (ErrUploadFailed e), b')
  | (Ok _, b') => (Ok (EndpointURL +:+ "/" +:+ moBucket c +:+ "/" +:+ blockKey hash), b')
  end.

Definition minioVerifyBlock (c : MinIOClient) (hash etag : string) (b : B) : result oserr unit * B :=
  match StatObject (moBucket c) (blockKey hash) b with
  | (Err e, b') => (Err (notFoundOr (isMinioNotFound e) hash e), b')
  | (Ok i, b') => (compareETags (oiETag i) etag, b')
  end.

Definition minioGetBlockMetadata (c : MinIOClient) (hash : string) (b : B) : result oserr BlockMetadata * B :=
  match StatObject (moBucket c) (blockKey hash) b with
  | (Err e, b') => (Err (notFoundOr (isMinioNotFound e) hash e), b')
  | (Ok i, b') => (Ok (mkMeta hash (trimQuotes (oiETag i)) (oiSize i) (minioTier (oiClass i)) (oiModified i) false), b')
  end.

Definition minioGetBlockReader (c : MinIOClient) (hash : string) (b : B) : result oserr (list ascii * Z) * B :=
  match OpenObject (moBucket c) (blockKey hash) b with
  | (Some e, b') => (Err (notFoundOr (isMinioNotFound e) hash e), b')
  | (None, b1) =>
      match ObjectStat (moBucket c) (blockKey hash) b1 with
      | (Err e, b2) => (Err (OSError "" e), b2)
      | (Ok (body, size), b2) => (Ok (body, size), b2)
      end
  end.

Definition minioDeleteBlock (c : MinIOClient) (hash : string) (b : B) : result oserr unit * B :=
  match RemoveObject (moBucket c) (blockKey hash) b with
  | (Some e, b') => (Err (ErrDeleteFailed e), b')
  | (None, b') => (Ok tt, b')
  end.

Definition minioApplyLifecycle (c : MinIOClient) (p : LifecyclePolicy) (b : B) : result oserr unit * B :=
  match SetBucketLifecycle (moBucket c) (minioRules p) b with
  | (Some e, b') => (Err (OSError "objectstorage: set lifecycle: " e), b')
  | (None, b') => (Ok tt, b')
  end.

End minio.

(** ** Both clients meet the interface *)

Lemma blockKey_inj h h' : blockKey h = blockKey h' -> h = h'.
Proof. unfold blockKey, blockPrefix. simpl. intros H. by injection H. Qed.

Lemma compareETags_spec stored e :
  match compareETags stored e with
  | Ok _ => trimQuotes stored = trimQuotes e
  | Err (ErrETagMismatch _ _) => trimQuotes stored <> trimQuotes e
  | Err _ => True
  end.
Proof. unfold compareETags. destruct (String.eqb_spec (trimQuotes stored) (trimQuotes e)); done. Qed.

Section s3_interface.
Context {B : Type} `{BK : Buckets B} `{A : !S3API B}.

#[global] Program Instance s3_storage : ObjectStorageClient S3Client B := {|
  osGenerateUploadURL := s3GenerateUploadURL; osVerifyBlock := s3VerifyBlock; osGetBlockMetadata := s3GetBlockMetadata;
  osGetBlockReader := s3GetBlockReader; osDeleteBlock := s3DeleteBlock; osApplyLifecycle := s3ApplyLifecycle;
  osObject c h b := bucketObject (s3Bucket c) (blockKey h) b
|}.
Next Obligation.
  intros c h e b r b' Hv. simpl in *. unfold s3VerifyBlock in Hv.
  destruct (HeadObject _ _ b) as [[hd|er] b1] eqn:Eh; apply head_spec in Eh as [Hsame Hres]; simplify_eq; (split; [done|]).
  - destruct Hres as (o & Ho & (et & Het & Htr) & _). rewrite Het. simpl. pose proof (compareETags_spec et e) as Hc.
    destruct (compareETags et e) as [[]|[]]; try done; exists o; rewrite <- Htr; done.
  - unfold notFoundOr. by destruct (isNotFound er).
Qed.
Next Obligation.
  intros c h b r b' Hv. simpl in *. unfold s3GetBlockMetadata in Hv.
  destruct (HeadObject _ _ b) as [[hd|er] b1] eqn:Eh; apply head_spec in Eh as [Hsame Hres]; simplify_eq; (split; [done|]); [|done].
  destruct Hres as (o & Ho & (et & Het & Htr) & Hl & _). simpl. split; [done|]. exists o. rewrite Het, Hl. done.
Qed.
Next Obligation.
  intros c h b r b' Hv. simpl in *. unfold s3DeleteBlock in Hv.
  destruct (DeleteObject _ _ b) as [[er|] b1] eqn:Ed; apply delete_spec in Ed as [Hsame Hres]; simplify_eq;
    (split; [intros h' Hne; apply Hsame; intros [= Hk]; by apply Hne, blockKey_inj|done]).
Qed.
End s3_interface.

Section minio_interface.
Context {B : Type} `{BK : Buckets B} `{A : !MinioAPI B} (now : Z).

#[local] Program Instance minio_storage : ObjectStorageClient MinIOClient B := {|
  osGenerateUploadURL := minioGenerateUploadURL now; osVerifyBlock := minioVerifyBlock;
  osGetBlockMetadata := minioGetBlockMetadata; osGetBlockReader := minioGetBlockReader;
  osDeleteBlock := minioDeleteBlock; osApplyLifecycle := minioApplyLifecycle;
  osObject c h b := bucketObject (moBucket c) (blockKey h) b
|}.
Next Obligation.
  intros c h e b r b' Hv. simpl in *. unfold minioVerifyBlock in Hv.
  destruct (StatObject _ _ b) as [[i|er] b1] eqn:Eh; apply stat_spec in Eh as [Hsame Hres]; simplify_eq; (split; [done|]).
  - destruct Hres as (o & Ho & Htr & _). pose proof (compareETags_spec (oiETag i) e) as Hc.
    destruct (compareETags (oiETag i) e) as [[]|[]]; try done; exists o; rewrite <- Htr; done.
  - unfold notFoundOr. by destruct (isMinioNotFound er).
Qed.
Next Obligation.
  intros c h b r b' Hv. simpl in *. unfold minioGetBlockMetadata in Hv.
  destruct (StatObject _ _ b) as [[i|er] b1] eqn:Eh; apply stat_spec in Eh as [Hsame Hres]; simplify_eq; (split; [done|]); [|done].
  destruct Hres as (o & Ho & Htr & Hl & _). simpl. split; [done|]. exists o. done.
Qed.
Next Obligation.
  intros c h b r b' Hv. simpl in *. unfold minioDeleteBlock in Hv.
  destruct (RemoveObject _ _ b) as [[er|] b1] eqn:Ed; apply remove_spec in Ed as [Hsame Hres]; simplify_eq;
    (split; [intros h' Hne; apply Hsame; intros [= Hk]; by apply Hne, blockKey_inj|done]).
Qed.
End minio_interface.

(** ** Properties, for every client of the interface *)

(** The blob deleter of the collector ([blobDeleterAdapter] in cmd/ingest). *)
Definition blobDeleterAdapter {C B} `{OS : ObjectStorageClient C B} (c : C) (text : oserr -> string) : BlobDeleter B :=
  fun h b => match osDeleteBlock c h b with (Ok _, b') => (Ok tt, b') | (Err e, b') => (Err (text e), b') end.

(** C26. What object storage promises, for S3 and MinIO alike and whatever requests fail: a
    verified block is stored with the expected ETag; the ETag that [GetBlockMetadata] reports
    always verifies (never a mismatch); after a successful [DeleteBlock] that block never
    verifies, with any ETag, and every other block is as it was. *)
Theorem storage_contract {C B : Type} `{OS : ObjectStorageClient C B} (c : C) (h e : string) (b : B) :
  (forall b', osVerifyBlock c h e b = (Ok tt, b') ->
     exists o, osObject c h b' = Some o /\ trimQuotes (obETag o) = trimQuotes e) /\
  (forall m b' stored expected, osGetBlockMetadata c h b = (Ok m, b') ->
     (osVerifyBlock c h (mdETag m) b').1 <> Err (ErrETagMismatch stored expected)) /\
  (forall b', osDeleteBlock c h b = (Ok tt, b') ->
     (forall e', is_ok (osVerifyBlock c h e' b').1 = false) /\
     forall h', h' <> h -> osObject c h' b' = osObject c h' b).
Proof.
  split_and!.
  - intros b' Hv. apply os_verify in Hv as [Hsame (o & Ho & He)]. exists o. by rewrite Hsame.
  - intros m b' st ex Hm Hbad. apply os_metadata in Hm as [Hsame (_ & o & Ho & He & _)].
    destruct (osVerifyBlock c h (mdETag m) b') as [r b2] eqn:Hv. simpl in Hbad. subst r.
    apply os_verify in Hv as [_ (o' & Ho' & Hne)]. rewrite Hsame, Ho in Ho'. simplify_eq.
    apply Hne. by rewrite He, trimQuotes_idem.
  - intros b' Hd. apply os_delete in Hd as [Hother Hgone]. split; [|done]. intros e'.
    destruct (osVerifyBlock c h e' b') as [[[]|er] b2] eqn:Hv; [|done].
    apply os_verify in Hv as [_ (o & Ho & _)]. congruence.
Qed.

(** The storage classes the lifecycle rules ask for are the tier names, which are no S3
    classes; both clients report an object of such a class as HOT. *)
Theorem lifecycle_tiers_not_reported :
  Forall (fun r => match r with RTransition _ _ _ class => s3Tier class = TierHot /\ minioTier class = TierHot
                   | RAbort _ _ _ => True end)
    (s3Rules DefaultLifecyclePolicy ++ minioRules DefaultLifecyclePolicy).
Proof. vm_compute. repeat constructor. Qed.

(** Any error whose text happens to contain 404 (a request id, a port) counts as a missing
    block for S3. *)
Lemma isNotFound_any_404 : isNotFound (mkSdkErr false "dial tcp 10.0.0.1:4043: connection refused" "" 0) = true.
Proof. reflexivity. Qed.

(** ** Witnesses: an S3 store in memory *)

Abbreviation memBucket := (gmap (string * string) object).

#[global] Instance memBuckets : Buckets memBucket := fun bk k b => b !! (bk, k).

Definition missingObject : sdkErr := mkSdkErr true "NotFound: Not Found" "NoSuchKey" 404.

Definition memHead (bk k : string) (b : memBucket) : result sdkErr headOut * memBucket :=
  (match b !! (bk, k) with
   | Some o => Ok (mkHead (Some (obETag o)) (Some (zlen (obBytes o))) (obClass o) (Some (obModified o)))
   | None => Err missingObject
   end, b).

#[global] Program Instance memS3 : S3API memBucket := {|
  HeadObject := memHead;
  GetObject bk k b := (match b !! (bk, k) with Some o => Ok (obBytes o, Some (zlen (obBytes o))) | None => Err missingObject end, b);
  DeleteObject bk k b := (None, delete (bk, k) b);
  PresignPutObject i _ b := (Ok ("https://" +:+ piBucket i +:+ "/" +:+ piKey i), b);
  PutBucketLifecycle _ _ b := (None, b)
|}.
Next Obligation.
  intros bk k b r b' Hh. unfold memHead in Hh. injection Hh as <- <-. split; [done|]. unfold bucketObject, memBuckets.
  destruct (b !! (bk, k)) as [o|]; [|done]. exists o. split; [done|]. split_and!; simpl; eauto.
Qed.
Next Obligation.
  intros bk k b r b' Hd. injection Hd as <- <-. unfold bucketObject, memBuckets. split.
  - intros bk' k' Hne. apply lookup_delete_ne. congruence.
  - apply lookup_delete_eq.
Qed.

(** ... and a MinIO server over the same buckets. *)
#[global] Program Instance memMinio : MinioAPI memBucket := {|
  EndpointURL := "http://minio:9000";
  BucketExists _ b := (Ok true, b);
  MakeBucket _ b := (None, b);
  StatObject bk k b := (match b !! (bk, k) with
    | Some o => Ok (mkInfo (obETag o) (zlen (obBytes o)) (obClass o) (obModified o))
    | None => Err missingObject
    end, b);
  OpenObject _ _ b := (None, b);
  ObjectStat bk k b := (match b !! (bk, k) with Some o => Ok (obBytes o, zlen (obBytes o)) | None => Err missingObject end, b);
  RemoveObject bk k b := (None, delete (bk, k) b);
  PresignedPostPolicy _ b := (Ok ("http://minio:9000/bk", []), b);
  SetBucketLifecycle _ _ b := (None, b)
|}.
Next Obligation.
  intros bk k b r b' Hs. injection Hs as <- <-. split; [done|]. unfold bucketObject, memBuckets.
  destruct (b !! (bk, k)) as [o|]; [|done]. by exists o.
Qed.
Next Obligation.
  intros bk k b r b' Hd. injection Hd as <- <-. unfold bucketObject, memBuckets. split.
  - intros bk' k' Hne. apply lookup_delete_ne. congruence.
  - apply lookup_delete_eq.
Qed.

Definition demoObject : object := mkObject "d41d8cd9" ["x"%char] "STANDARD" 7.
Definition demoBucket : memBucket := {[("bk", "blocks/aa") := demoObject]}.

Lemma storage_contract_witness :
  osVerifyBlock (mkS3 "bk" "") "aa" "d41d8cd9" demoBucket = (Ok tt, demoBucket) /\
  is_ok (osVerifyBlock (mkS3 "bk" "") "aa" "d41d8cd9" (osDeleteBlock (mkS3 "bk" "") "aa" demoBucket).2).1 = false.
Proof.
  destruct (storage_contract (mkS3 "bk" "") "aa" "d41d8cd9" demoBucket) as (_ & _ & H).
  split; [vm_compute; reflexivity|].
  destruct (H (osDeleteBlock (mkS3 "bk" "") "aa" demoBucket).2) as [H1 _]; [reflexivity|]. apply H1.
Defined.
