(* ===== verification/Reclaim.v ===== *)
(** * Reclamation: collection over the database and the object store

    The collector of [gc.go] with the adapters of [cmd/ingest/gc_adapter.go], the sweep worker
    of [cas/gc.go] and the tombstone consumer, running over the database of [Schema] and any
    client of [ObjectStorage]: what they may do to the stored bytes of a block. *)
From S2P Require Import Prelude GoLib Json External Database Schema Cas Lock Gc Handlers Workers Events Loops ObjectStorage.

(** ** Generic: an invariant of store and blobs *)

Section pairs.
Context {S P B : Type} `{GCS : GCStore S} `{TP : TombstonePublisher P} `{BD : BlobDeleter B}.
Implicit Types g : GC S P B.

(** An invariant [K] of the store and the blob store is kept by every step that only reads
    or marks sessions, and by the end of a block that passed the double check. *)
Class CollectorInvariant (K : S -> option B -> Prop) : Prop := {
  ci_sessions n s b : K s b -> K (GetExpiredSessions n s).2 b;
  ci_expire id s b : K s b -> K (MarkSessionExpired id s).2 b;
  ci_orphans w n s b : K s b -> K (FindOrphanedBlocks w n s).2 b;
  ci_check h s b : K s b -> K (DoubleCheckBlock h s).2 b;
  ci_blob h s s' b : K s (Some b) -> DoubleCheckBlock h s = (Ok true, s') ->
    K s' (Some (DeleteBlob h b).2);
  ci_row h s s' b : K s (Some b) -> DoubleCheckBlock h s = (Ok true, s') -> is_ok (DeleteBlob h b).1 = true ->
    K (HardDeleteBlocks [h] s').2 (Some (DeleteBlob h b).2);
  ci_row_only h s s' : K s None -> DoubleCheckBlock h s = (Ok true, s') -> K (HardDeleteBlocks [h] s').2 None
}.

Context (K : S -> option B -> Prop) `{CI : !CollectorInvariant K}.
Abbreviation holds g := (K (gStore g) (gBlob g)).

Lemma processBlock_holds now b g : holds g -> holds (processBlock now b g).
Proof.
  intros HK. unfold processBlock. pose proof (ci_check (gbHash b) _ _ HK) as Hs.
  destruct (DoubleCheckBlock (gbHash b) (gStore g)) as [[[]|e] st] eqn:Edc; simpl in *; [|done|done].
  destruct (DryRun (gCfg g)); [done|]. destruct (PublishBlockTombstone _ _ _) as [[[]|e] p]; [|done].
  unfold deleteBlobStep. simpl. destruct (gBlob g) as [bl|] eqn:Eb.
  - pose proof (ci_blob _ _ _ _ HK Edc) as Hb. pose proof (ci_row _ _ _ _ HK Edc) as Hr.
    destruct (DeleteBlob (gbHash b) bl) as [[[]|e] bl']; simpl in *; [|done].
    specialize (Hr eq_refl). unfold hardDeleteStep; simpl.
    destruct (HardDeleteBlocks [gbHash b] st) as [[n|e] st']; simpl in *; [by case_match|done].
  - pose proof (ci_row_only _ _ _ HK Edc) as Hr. unfold hardDeleteStep; simpl.
    destruct (HardDeleteBlocks [gbHash b] st) as [[n|e] st']; simpl in *; [case_match|]; simpl; by rewrite Eb.
Qed.

Lemma processBatch_holds now batch g : holds g -> holds (processBatch now batch g).
Proof.
  revert g. induction batch as [|b rest IH]; intros g HK; simpl; [done|]. case_match; [done|].
  apply IH. by apply processBlock_holds.
Qed.

Lemma batches_holds fuel now blocks g : holds g -> holds (batches fuel now blocks g).
Proof.
  revert blocks g. induction fuel as [|f IH]; intros [|b bs] g HK; [done..|]. cbn [batches].
  apply IH. by apply processBatch_holds.
Qed.

Lemma sweepOrphaned_holds now g : holds g -> holds (sweepOrphanedBlocks now g).
Proof.
  intros HK. unfold sweepOrphanedBlocks. set (g0 := if hourNs <? now - rateResetAt g then _ else g).
  assert (holds g0) as H0 by (subst g0; by case_match).
  pose proof (ci_orphans (SafetyWindow (gCfg g0)) (BatchSize (gCfg g0)) _ _ H0) as Hf.
  destruct (FindOrphanedBlocks _ _ (gStore g0)) as [[blocks|e] st]; [by apply batches_holds|done].
Qed.

Lemma cleanup_holds now g : holds g -> holds (cleanupExpiredSessions now g).
Proof.
  intros HK. unfold cleanupExpiredSessions. pose proof (ci_sessions (BatchSize (gCfg g)) _ _ HK) as Hs.
  destruct (GetExpiredSessions _ (gStore g)) as [[l|e] st]; [|done]. simpl in Hs.
  assert (holds (setStore st g)) as H0 by done. clear Hs. revert H0. generalize (setStore st g).
  induction l as [|x l IH]; intros g0 H0; cbn [expireLoop]; [done|].
  pose proof (ci_expire (siID x) _ _ H0) as He.
  destruct (MarkSessionExpired (siID x) (gStore g0)) as [[[]|e] st1]; by apply IH.
Qed.

(** The invariant along the runs of both goroutines. *)
Lemma gcRun_holds es g s : gcRun es (gcStart g) = Some s -> holds g -> holds (lsState s).
Proof.
  intros Hr HK. eapply (loopRun_keeps _ _ (fun g => holds g)) in Hr; [exact Hr| |done|done].
  intros [|i] now x Hx; simpl; [by apply cleanup_holds|by apply sweepOrphaned_holds].
Qed.

End pairs.

(** ** The database and an object store *)

Section reclaim.
Context `{U : UUID} {C B : Type} `{OS : ObjectStorageClient C B} (c : C) (text : oserr -> string) (class : string).

(** The collector as [main.go] wires it, for any routing class. *)
#[local] Instance gcDatabase : GCStore (world db) := adapterStore class.
#[local] Instance gcObjects : BlobDeleter B := blobDeleterAdapter c text.

(** A file uses block [h], in a registry whose counts are right. *)
Definition referenced (h : string) (d : db) : Prop :=
  refcount_ok d /\ exists k m, manifests d !! k = Some m /\ m_hash m = h.

(** Block [h] is registered. *)
Definition hasRow (h : string) (d : db) : Prop := is_Some (cas d !! h).

Lemma referenced_count h d r : referenced h d -> cas d !! h = Some r -> c_ref r <> 0.
Proof.
  intros [[H1 _] (k & m & Hk & <-)] Hr Hz. specialize (H1 _ _ Hr). rewrite Hz in H1.
  assert (refs (m_hash m) d = 0%nat) as H0 by lia. rewrite refs_zero in H0. by apply (H0 k m).
Qed.

Lemma referenced_hasRow h d : referenced h d -> hasRow h d.
Proof. intros [[_ H2] (k & m & Hk & <-)]. by eapply H2. Qed.

Lemma delete_referenced hs h d n d' : cas_delete_unreferenced hs d = Ok (n, d') -> referenced h d -> referenced h d'.
Proof.
  intros Hd [Hok Hm]. split; [by eapply cas_delete_refcount|]. by apply cas_delete_manifests in Hd as (-> & _).
Qed.

Lemma delete_hasRow hs h d n d' : cas_delete_unreferenced hs d = Ok (n, d') -> h ∉ hs ->
  hasRow h d -> hasRow h d'.
Proof. intros Hd Hn [r Hr]. exists r. apply (cas_delete_lookup _ _ _ _ h r Hd). naive_solver. Qed.

Lemma blob_result h b : 
  (forall h', h' <> h -> osObject c h' (DeleteBlob h b).2 = osObject c h' b) /\
  (osObject c h (DeleteBlob h b).2 = None \/
   is_ok (DeleteBlob h b).1 = false /\ osObject c h (DeleteBlob h b).2 = osObject c h b).
Proof.
  unfold DeleteBlob, gcObjects, blobDeleterAdapter. destruct (osDeleteBlock c h b) as [[[]|e] b'] eqn:E;
    apply os_delete in E as [Ho Hh]; simpl; (split; [done|]); [by left|destruct Hh; auto].
Qed.

(** Queries and the session statement leave a property that the other clients keep. *)
Lemma kept_query {A} (Q : db -> Prop) (q : Z -> db -> result dberr A) w :
  envKeeps Q w -> Q (contents w) ->
  envKeeps Q (QueryWithMetrics class q w).2 /\ Q (contents (QueryWithMetrics class q w).2).
Proof.
  intros Hk HQ. destruct (QueryWithMetrics class q w) as [r w'] eqn:E.
  apply QueryWithMetrics_spec in E as [He _]. destruct (envOnly_keeps _ _ _ He Hk). auto.
Qed.

Lemma kept_exec {A} (Q : db -> Prop) (q : Z -> db -> result dberr A * db) w :
  (forall now d a d', q now d = (Ok a, d') -> Q d -> Q d') -> envKeeps Q w -> Q (contents w) ->
  envKeeps Q (ExecWithMetrics class q w).2 /\ Q (contents (ExecWithMetrics class q w).2).
Proof.
  intros Hq Hk HQ. destruct (ExecWithMetrics class q w) as [r w'] eqn:E. by eapply ExecWithMetrics_keeps.
Qed.

Lemma exec_env {A} (Q : db -> Prop) (q : Z -> db -> result dberr A * db) w :
  envKeeps Q w -> envKeeps Q (ExecWithMetrics class q w).2.
Proof.
  intros Hk. destruct (ExecWithMetrics class q w) as [[a|e] w'] eqn:E.
  - apply ExecWithMetrics_ok in E as (w1 & He & _ & Hs & _). destruct (envOnly_keeps _ _ _ He Hk) as [Hk1 _].
    unfold envKeeps in *. simpl. by rewrite Hs.
  - apply ExecWithMetrics_failed in E. by destruct (envOnly_keeps _ _ _ E Hk).
Qed.

(** A block that passes the double check is registered and unreferenced at that moment. *)
Lemma check_true h (w w' : world db) : DoubleCheckBlock h w = (Ok true, w') ->
  envOnly w w' /\ exists r, cas (contents w') !! h = Some r /\ c_ref r = 0.
Proof.
  intros H. apply QueryWithMetrics_spec in H as [He Hq]. split; [done|]. specialize (Hq _ eq_refl). simplify_eq/=.
  destruct (cas (contents w') !! h) as [r|]; [|done]. exists r. split; [done|]. by apply Z.eqb_eq.
Qed.

(** *** The three invariants *)

(** [h] stays referenced and its object is [o]. *)
Definition spared (h : string) (o : option object) (w : world db) (bl : option B) : Prop :=
  (envKeeps (referenced h) w /\ referenced h (contents w)) /\ exists b, bl = Some b /\ osObject c h b = o.

(** [h] is registered, or its object is gone. *)
Definition reclaimed (h : string) (w : world db) (bl : option B) : Prop :=
  envKeeps (hasRow h) w /\ exists b, bl = Some b /\ (hasRow h (contents w) \/ osObject c h b = None).

(** No object of [b0] was replaced. *)
Definition onlyRemoved (b0 : B) (_ : world db) (bl : option B) : Prop :=
  exists b, bl = Some b /\ forall h, osObject c h b = osObject c h b0 \/ osObject c h b = None.

Lemma spared_env h o w w' b : envOnly w w' -> spared h o w b -> spared h o w' b.
Proof. intros He [[Hk Hr] Hb]. destruct (envOnly_keeps _ _ _ He Hk). split; auto. Qed.

Lemma spared_blob h o h' w w' b : spared h o w (Some b) -> DoubleCheckBlock h' w = (Ok true, w') ->
  spared h o w' (Some (DeleteBlob h' b).2).
Proof.
  intros HK Hdc. apply check_true in Hdc as (He & r & Hr & Hz).
  destruct (spared_env _ _ _ _ _ He HK) as [Href (b1 & ? & Ho)]. simplify_eq. split; [done|]. eexists. split; [done|].
  destruct (decide (h = h')) as [<-|Hne]; [by destruct (referenced_count h _ _ (proj2 Href) Hr)|].
  by rewrite (proj1 (blob_result h' b1)).
Qed.

Lemma spared_invariant h o : CollectorInvariant (spared h o).
Proof.
  split.
  - intros n w b [[Hk Hr] Hb]. split; [by apply kept_query|done].
  - intros id w b [[Hk Hr] Hb]. split; [by apply kept_exec|done].
  - intros ? n w b [[Hk Hr] Hb]. split; [by apply kept_query|done].
  - intros h' w b [[Hk Hr] Hb]. split; [by apply kept_query|done].
  - apply spared_blob.
  - intros h' w w' b HK Hdc _. destruct (spared_blob _ _ _ _ _ _ HK Hdc) as [[Hk Hr] Hb]. split; [|done].
    apply kept_exec; [|done..]. intros now d a d' Hq%stmt_ok. by eapply delete_referenced.
  - intros h' w w' [_ (b & ? & _)]. done.
Qed.

Lemma reclaimed_env h w w' b : envOnly w w' -> reclaimed h w b -> reclaimed h w' b.
Proof.
  intros He [Hk (b1 & -> & Hr)]. destruct (envOnly_keeps _ _ _ He Hk). split; [done|]. exists b1. naive_solver.
Qed.

Lemma reclaimed_query {A} h (q : Z -> db -> result dberr A) w b : reclaimed h w b ->
  reclaimed h (QueryWithMetrics class q w).2 b.
Proof.
  intros HK. destruct (QueryWithMetrics class q w) as [r w'] eqn:E. apply QueryWithMetrics_spec in E as [He _].
  by eapply reclaimed_env.
Qed.

(** Row and blob of [h'], in the collector's order: the blob first. *)
Lemma reclaimed_delete h h' w b : reclaimed h w (Some b) -> is_ok (DeleteBlob h' b).1 = true ->
  reclaimed h (HardDeleteBlocks [h'] w).2 (Some (DeleteBlob h' b).2).
Proof.
  intros [Hk (b1 & ? & Hor)] Hok. simplify_eq. destruct (blob_result h' b1) as [Hother Hthis].
  split; [by apply exec_env|]. eexists. split; [done|]. destruct (decide (h = h')) as [<-|Hne].
  { right. destruct Hthis as [?|[? _]]; [done|congruence]. }
  destruct Hor as [Hreg|Hgone]; [left|right; by rewrite Hother].
  apply (kept_exec (hasRow h)); [|done..]. intros now d a d' Hq%stmt_ok.
  eapply delete_hasRow; [done|set_solver].
Qed.

Lemma reclaimed_invariant h : CollectorInvariant (reclaimed h).
Proof.
  split; try (intros; by apply reclaimed_query).
  - intros id w b HK. simpl. destruct (ExecWithMetrics _ _ w) as [[u|e] w'] eqn:E.
    + by apply ExecWithMetrics_ok in E as (w1 & _ & [=] & _).
    + apply ExecWithMetrics_failed in E. by eapply reclaimed_env.
  - intros h' w w' b HK Hdc. apply check_true in Hdc as (He & r & Hr & _).
    destruct (reclaimed_env _ _ _ _ He HK) as [Hk (b1 & ? & Hor)]. simplify_eq. split; [done|]. eexists. split; [done|].
    destruct (decide (h = h')) as [<-|Hne]; [left; by exists r|]. by rewrite (proj1 (blob_result h' b1)).
  - intros h' w w' b HK Hdc Hok. apply check_true in Hdc as (He & _).
    apply reclaimed_delete; [by eapply reclaimed_env|done].
  - intros h' w w' [_ (b & ? & _)]. done.
Qed.

Lemma removed_invariant b0 : CollectorInvariant (onlyRemoved b0).
Proof.
  assert (forall h s s' b, onlyRemoved b0 s (Some b) -> onlyRemoved b0 s' (Some (DeleteBlob h b).2)) as Hblob.
  { intros h s s' b (b1 & ? & Ho). simplify_eq. eexists. split; [done|]. intros h'.
    destruct (blob_result h b1) as [Hother Hthis]. destruct (decide (h' = h)) as [->|Hne].
    - destruct Hthis as [?|[_ ->]]; [by right|apply Ho].
    - rewrite Hother by done. apply Ho. }
  split; try done; intros; by eapply Hblob.
Qed.

(** *** The tombstone consumer: blob first, then row *)

Lemma processMessage_reclaimed h msg (tc : TombstoneConsumer (world db) B) :
  reclaimed h (tcStore tc) (Some (tcBlob tc)) ->
  reclaimed h (tcStore (processMessage msg tc).2) (Some (tcBlob (processMessage msg tc).2)).
Proof.
  intros HK. unfold processMessage. destruct msg as [e|]; [|done]. destruct (tcDryRun tc); [done|].
  pose proof (reclaimed_delete h (teHash e) _ _ HK) as Hd. destruct (blob_result (teHash e) (tcBlob tc)) as [Hother Hthis].
  destruct (DeleteBlob (teHash e) (tcBlob tc)) as [[[]|err] b'] eqn:Eb; simpl in *.
  - specialize (Hd eq_refl). by destruct (ExecWithMetrics _ _ _).
  - destruct HK as [Hk (b1 & [= <-] & Hor)]. split; [done|]. exists b'. split; [done|].
    destruct (decide (h = teHash e)) as [->|Hne]; [|by rewrite Hother].
    destruct Hthis as [?|[_ ->]]; auto.
Qed.

End reclaim.

(** ** The sweep worker over the same store *)

Section worker.
Context `{U : UUID} {C B : Type} `{OS : ObjectStorageClient C B} (c : C) (text : oserr -> string).

(** The worker names blobs in hex. *)
Definition workerDelete : string -> B -> result string unit * B := blobDeleterAdapter c text.

Lemma worker_blobs (l : list BlockInfo) k b : k ∉ biHash <$> l ->
  osObject c k (foldl (fun b o => (workerDelete (biHash o) b).2) b l) = osObject c k b.
Proof.
  revert b. induction l as [|o l IH]; intros b Hk; simpl; [done|]. rewrite fmap_cons, not_elem_of_cons in Hk.
  destruct Hk as [Hne Hk]. rewrite IH by done. by apply (blob_result c text (biHash o) b).
Qed.

Lemma sweep_spares h batch b w : envKeeps (referenced h) w -> referenced h (contents w) ->
  let r := sweep (Some workerDelete) batch b w in
  (envKeeps (referenced h) r.2 /\ referenced h (contents r.2)) /\
  osObject c (hex_encode h) r.1.2 = osObject c (hex_encode h) b.
Proof.
  intros Hk Hr. unfold sweep. cbn [rgFindOrphans rgDeleteBlocks PgRegistry].
  destruct (FindOrphans batch w) as [r w1] eqn:Ef. apply FindOrphans_spec in Ef as [He Hl].
  destruct (envOnly_keeps _ _ _ He Hk) as [Hk1 H1]. specialize (H1 Hr).
  destruct r as [[|o os]|e]; [done| |done]. specialize (Hl _ eq_refl).
  assert (osObject c (hex_encode h) (foldl (fun b o => (workerDelete (biHash o) b).2) b (o :: os))
          = osObject c (hex_encode h) b) as Hobj.
  { apply worker_blobs. rewrite Hl, <- list_fmap_compose. intros ([h' r'] & Hh & Hin)%list_elem_of_fmap.
    simpl in Hh. apply (inj hex_encode) in Hh as <-. apply cas_find_orphans_sound in Hin as (Hc & Hz & _).
    by apply (referenced_count h _ _ H1 Hc). }
  clear Hl. generalize dependent (o :: os). intros l Hobj.
  destruct (DeleteBlocks _ w1) as [r2 w2] eqn:Ed. enough (envKeeps (referenced h) w2 /\ referenced h (contents w2)) by by destruct r2.
  revert Ed. unfold DeleteBlocks, registryExec. destruct (omap _ l) as [|x xs]; [intros; by simplify_eq|].
  destruct (ExecWithMetrics _ _ w1) as [r3 w3] eqn:E. intros ?. simplify_eq/=.
  eapply ExecWithMetrics_keeps; [|exact E|done..]. intros now d a d' Hq%stmt_ok. by eapply delete_referenced.
Qed.

End worker.

(** ** What an undisturbed sweep does *)

Section collect.
Context `{U : UUID} {C B P : Type} `{OS : ObjectStorageClient C B} `{TP : TombstonePublisher P} (c : C) (text : oserr -> string).

#[local] Instance calmDatabase : GCStore (world db) := adapterStore OpWrite.
#[local] Instance calmObjects : BlobDeleter B := blobDeleterAdapter c text.

Context (publishes : forall topic e p, is_ok (PublishBlockTombstone topic e p).1 = true).
Context (deletes : forall h b, is_ok (osDeleteBlock c h b).1 = true).

Implicit Types g : GC (world db) P B.

Lemma delete_one h r (d : db) : refcount_ok d -> cas d !! h = Some r -> c_ref r = 0 ->
  exists d', cas_delete_unreferenced [h] d = Ok (1, d').
Proof.
  intros Hok Hr Hz. unfold cas_delete_unreferenced.
  assert (filter (fun kv : string * casRow => kv.1 ∈ [h] /\ c_ref kv.2 = 0) (cas d) = {[h := r]}) as ->.
  { apply map_eq. intros h'. apply option_eq. intros r'. rewrite map_lookup_filter_Some, lookup_singleton_Some. simpl.
    rewrite list_elem_of_singleton. naive_solver. }
  rewrite bool_decide_true; [rewrite map_size_singleton; eauto|]. intros k m Hk. apply lookup_singleton_None. intros ->.
  apply (referenced_count (m_hash m) d r); [split; [done|eauto]|done..].
Qed.

(** [g'] is [g] after collecting exactly the blocks [l], in the database and in the store. *)
Definition collected (l : list string) g g' : Prop :=
  calm (gStore g') /\ refcount_ok (contents (gStore g')) /\ gCfg g' = gCfg g /\
  manifests (contents (gStore g')) = manifests (contents (gStore g)) /\
  (forall h r, cas (contents (gStore g')) !! h = Some r <-> cas (contents (gStore g)) !! h = Some r /\ h ∉ l) /\
  deletionCount g' = deletionCount g + zlen l /\
  mTombstoned (gMetrics g') = mTombstoned (gMetrics g) + zlen l /\ mDeleted (gMetrics g') = mDeleted (gMetrics g) + zlen l /\
  exists b b', gBlob g = Some b /\ gBlob g' = Some b' /\
    forall h, osObject c h b' = if bool_decide (h ∈ l) then None else osObject c h b.

Lemma collected_trans l1 l2 g1 g2 g3 : collected l1 g1 g2 -> collected l2 g2 g3 -> collected (l1 ++ l2) g1 g3.
Proof.
  intros (_ & _ & Hc1 & Hm1 & Hr1 & Hd1 & Ht1 & He1 & b1 & b2 & Hb1 & Hb2 & Ho1)
    (Hcalm & Hok & Hc2 & Hm2 & Hr2 & Hd2 & Ht2 & He2 & b2' & b3 & Hb2' & Hb3 & Ho2). simplify_eq.
  unfold collected, zlen in *. rewrite length_app. split_and!; try done; try congruence; try lia.
  - intros h r. rewrite Hr2, Hr1, not_elem_of_app. tauto.
  - exists b1, b3. split_and!; [done..|]. intros h. rewrite Ho2, Ho1. repeat case_bool_decide; set_solver.
Qed.

Lemma processBlock_collects now gb g r :
  calm (gStore g) -> refcount_ok (contents (gStore g)) -> is_Some (gBlob g) -> DryRun (gCfg g) = false ->
  is_int64 (deletionCount g + 1) -> cas (contents (gStore g)) !! gbHash gb = Some r -> c_ref r = 0 ->
  collected [gbHash gb] g (processBlock now gb g).
Proof.
  intros Hcalm Hok [b Hb] Hdry Hint Hr Hz. unfold processBlock. cbn [DoubleCheckBlock calmDatabase adapterStore].
  destruct (calm_query_primary OpWrite (fun _ d => @Ok dberr _ (match cas d !! gbHash gb with Some r => c_ref r =? 0 | None => false end))
    (gStore g) Hcalm ltac:(auto)) as (w1 & -> & Hc1 & Hcalm1 & Hck1).
  rewrite Hr, Hz. cbn [Z.eqb setStore gCfg gPub]. rewrite Hdry.
  pose proof (publishes "cas-tombstones" (mkTombstone (gbHash gb) (gbTenant gb) (gbSize gb) (utcStamp now) "orphan_gc") (gPub g)) as Hp.
  destruct (PublishBlockTombstone _ _ _) as [[[]|e] p]; [|done]. clear Hp.
  unfold deleteBlobStep. cbn [audit addM setMetrics setPub setStore gBlob]. rewrite Hb.
  pose proof (deletes (gbHash gb) b) as Hd. destruct (blob_result c text (gbHash gb) b) as [Hother Hthis].
  unfold DeleteBlob, calmObjects, gcObjects, blobDeleterAdapter in *.
  destruct (osDeleteBlock c (gbHash gb) b) as [[[]|e] b'] eqn:Eb; [|done]. simpl in Hother, Hthis.
  destruct Hthis as [Hgone|[? _]]; [|done]. unfold hardDeleteStep. cbn [HardDeleteBlocks calmDatabase adapterStore].
  rewrite <- Hc1 in Hok, Hr. destruct (delete_one _ _ _ Hok Hr Hz) as [d' Hdel].
  destruct (calm_exec (fun _ => stmt (cas_delete_unreferenced [gbHash gb])) w1 1 d' Hcalm1) as (w2 & He & Hc2 & Hcalm2 & _);
    [by apply stmt_ok|]. simpl. rewrite He. simpl. unfold collected. simpl. rewrite Hc2. rewrite int64_id by exact Hint.
  split; [done|]. split; [by eapply cas_delete_refcount|]. split; [done|].
  change (zlen [gbHash gb]) with 1. split; [|split; [|split; [lia|split; [lia|split; [lia|]]]]].
  - apply cas_delete_manifests in Hdel as (-> & _). by rewrite Hc1.
  - intros h r'. rewrite (cas_delete_lookup _ _ _ _ h r' Hdel), list_elem_of_singleton, Hc1. rewrite Hc1 in Hr. naive_solver.
  - exists b, b'. split_and!; [done..|]. intros h. case_bool_decide as Hh; rewrite list_elem_of_singleton in Hh; [by subst|by apply Hother].
Qed.

(** How many of [n] blocks the hourly limit still admits. *)
Definition admitted g (n : nat) : nat := Z.to_nat (Z.min (Z.of_nat n) (MaxBlocksPerHour (gCfg g) - deletionCount g)).

Lemma processBatch_collects now (l : list GBlock) g :
  calm (gStore g) -> refcount_ok (contents (gStore g)) -> is_Some (gBlob g) -> DryRun (gCfg g) = false ->
  is_int64 (MaxBlocksPerHour (gCfg g)) -> is_int64 (deletionCount g) -> NoDup (gbHash <$> l) ->
  Forall (fun gb => exists r, cas (contents (gStore g)) !! gbHash gb = Some r /\ c_ref r = 0) l ->
  collected (gbHash <$> take (admitted g (length l)) l) g (processBatch now l g).
Proof.
  revert g. induction l as [|gb l IH]; intros g Hcalm Hok Hb Hdry Hmax Hint Hnd Hall.
  - unfold admitted, collected, zlen. simpl. rewrite !take_nil. simpl. split; [done|]. split; [done|].
    split_and!; try done; try lia; [intros h r; set_solver|]. destruct Hb as [b Hb]. exists b, b. split_and!; done.
  - cbn [processBatch]. apply Forall_cons in Hall as [(r & Hr & Hz) Hall]. apply NoDup_cons in Hnd as [Hni Hnd].
    destruct (MaxBlocksPerHour (gCfg g) <=? deletionCount g) eqn:E; bool_hyps.
    + replace (admitted g (length (gb :: l))) with O by (unfold admitted; lia). unfold collected, zlen. simpl.
      split; [done|]. split; [done|]. split_and!; try done; try lia; [intros h r'; set_solver|].
      destruct Hb as [b Hb]. exists b, b. split_and!; done.
    + assert (is_int64 (deletionCount g + 1)) as Hint1 by (unfold is_int64 in *; lia).
      pose proof (processBlock_collects now gb g r Hcalm Hok Hb Hdry Hint1 Hr Hz) as H1.
      replace (gbHash <$> take (admitted g (length (gb :: l))) (gb :: l))
        with ([gbHash gb] ++ (gbHash <$> take (admitted (processBlock now gb g) (length l)) l)).
      2:{ destruct H1 as (_ & _ & Hcf & _ & _ & Hd & _). unfold admitted. rewrite Hcf, Hd. change (zlen [gbHash gb]) with 1.
          replace (Z.to_nat (Z.min (Z.of_nat (length (gb :: l))) (MaxBlocksPerHour (gCfg g) - deletionCount g)))
            with (Datatypes.S (Z.to_nat (Z.min (Z.of_nat (length l)) (MaxBlocksPerHour (gCfg g) - (deletionCount g + 1)))));
            [done|]. cbn [length]. lia. }
      eapply collected_trans; [exact H1|].
      destruct H1 as (Hcalm1 & Hok1 & Hcf & _ & Hrows & Hd & _ & _ & b1 & b2 & _ & Hb2 & _).
      apply IH; rewrite ?Hcf, ?Hd; try done.
      revert Hall. rewrite !Forall_forall. intros Hall x Hx. destruct (Hall x Hx) as (rx & Hrx & Hzx).
      exists rx. split; [|done]. apply Hrows. split; [done|]. rewrite list_elem_of_singleton. intros Heq.
      apply Hni. rewrite <- Heq. by apply list_elem_of_fmap_2.
Qed.


(** The hour in which a sweep at [now] starts counting. *)
Definition hourStart (now : Z) g : Z := if hourNs <? now - rateResetAt g then 0 else deletionCount g.

Lemma sweepOrphaned_collects now g b0 :
  calm (gStore g) -> refcount_ok (contents (gStore g)) -> gBlob g = Some b0 -> DryRun (gCfg g) = false ->
  is_int64 (MaxBlocksPerHour (gCfg g)) -> is_int64 (deletionCount g) ->
  let found := cas_find_orphans (clock (gStore g)) (Z.quot (SafetyWindow (gCfg g)) 1000000000 * 1000000000)
                 (BatchSize (gCfg g)) (contents (gStore g)) in
  let g0 := mkGC (gStore g) (gPub g) (gBlob g) (gCfg g) (auditLog g) (hourStart now g) (rateResetAt g) (gMetrics g) in
  collected (take (admitted g0 (length found)) found).*1 g0 (sweepOrphanedBlocks now g).
Proof.
  intros Hcalm Hok Hb Hdry Hmax Hint found g0. unfold sweepOrphanedBlocks.
  set (g1 := if hourNs <? now - rateResetAt g then _ else g).
  assert (gStore g1 = gStore g /\ gBlob g1 = gBlob g /\ gCfg g1 = gCfg g /\ deletionCount g1 = hourStart now g /\
    gMetrics g1 = gMetrics g /\ gPub g1 = gPub g) as (Hs & Hbl & Hcf & Hdc & Hme & Hpu)
    by (subst g1; unfold hourStart; by case_match).
  cbn [FindOrphanedBlocks calmDatabase adapterStore]. rewrite Hs, Hcf.
  destruct (calm_query_primary OpWrite (fun now d => @Ok dberr _
    ((fun hr => mkGBlock hr.1 (uuid_String (c_tenant hr.2)) (c_size hr.2) (c_ref hr.2)) <$>
      cas_find_orphans now (Z.quot (SafetyWindow (gCfg g)) 1000000000 * 1000000000) (BatchSize (gCfg g)) d))
    (gStore g) Hcalm ltac:(auto)) as (w1 & -> & Hc1 & Hcalm1 & _).
  fold found. set (blocks := _ <$> found).
  assert (gbHash <$> blocks = found.*1) as Hh by (subst blocks; by rewrite <- list_fmap_compose).
  assert (length blocks = length found) as Hlen by apply length_fmap.
  assert (ztake (BatchSize (gCfg g)) blocks = blocks /\ zdrop (BatchSize (gCfg g)) blocks = []) as [Htk Hdr].
  { assert (length blocks <= Z.to_nat (BatchSize (gCfg g)))%nat as Hle.
    { rewrite Hlen. subst found. unfold cas_find_orphans, ztake. rewrite length_take. lia. }
    unfold ztake, zdrop. by rewrite take_ge, drop_ge. }
  assert (collected (gbHash <$> take (admitted (setStore w1 g1) (length blocks)) blocks) (setStore w1 g1)
    (processBatch now blocks (setStore w1 g1))) as Hcol.
  { apply processBatch_collects; cbn [setStore gStore gBlob gCfg deletionCount]; rewrite ?Hc1, ?Hcf, ?Hbl, ?Hdc, ?Hh;
      try done; [|apply cas_find_orphans_NoDup|].
    - unfold hourStart. case_match; [unfold is_int64, minInt64, maxInt64; lia|done].
    - subst blocks. apply Forall_fmap, Forall_forall. intros [h r] Hin.
      apply cas_find_orphans_sound in Hin as (Hc & Hz & _). by exists r. }
  assert (batches (length blocks) now blocks (setStore w1 g1) = processBatch now blocks (setStore w1 g1)) as ->.
  { destruct blocks as [|x bs] eqn:Ebl; [done|]. cbn [length batches]. cbn [setStore gCfg]. rewrite Hcf, Htk, Hdr.
    by destruct (length bs). }
  unfold collected in *. cbn [setStore gStore gBlob gCfg deletionCount gMetrics] in *.
  rewrite fmap_take, Hh, <- fmap_take, Hlen in Hcol. unfold admitted in *. cbn [setStore gCfg deletionCount] in *.
  rewrite Hc1, Hcf, Hbl, Hdc, Hme in Hcol. exact Hcol.
Qed.

End collect.

(** ** Properties *)



(** The sweep worker keeps the same promise to files, under the names it uses: along every run
    of any number of worker goroutines a block that some file uses throughout keeps its
    object. *)
Theorem worker_spares_files `{U : UUID} {C B : Type} `{OS : ObjectStorageClient C B} (c : C) (text : oserr -> string)
    (batch : Z) (n : nat) (h : string) (b : B) (w : world db) (es : list loopEvent) (s : loops (B * world db))
    (Henv : envKeeps (referenced h) w) (Href : referenced h (contents w))
    (Hrun : casRun (Some (workerDelete c text)) batch es (started n (b, w)) = Some s) :
  osObject c (hex_encode h) (lsState s).1 = osObject c (hex_encode h) b /\ hasRow h (contents (lsState s).2).
Proof.
  unfold casRun in Hrun. eapply (loopRun_keeps _ _ (fun x : B * world db =>
    (envKeeps (referenced h) x.2 /\ referenced h (contents x.2)) /\
    osObject c (hex_encode h) x.1 = osObject c (hex_encode h) b)) in Hrun; [| |done|done].
  - destruct Hrun as [[_ Hr] Ho]. split; [done|]. by apply referenced_hasRow.
  - intros i now [b1 w1] [[Hk Hr] Ho]. pose proof (sweep_spares c text h batch b1 w1 Hk Hr) as [Hw Hs].
    unfold casJob. simpl in *. destruct (sweep _ _ b1 w1) as [[z b2] w2]. simpl in *. split; [done|congruence].
Qed.

(** The tombstone consumer, along every run over any message source: a block loses its row only
    after its object is gone. *)
Theorem consumer_removes_object_first `{U : UUID} {C B M : Type} `{OS : ObjectStorageClient C B} `{MS : MessageSource M}
    (c : C) (text : oserr -> string) (class : string) (h : string) (ticks : list tick) (m : M)
    (tc : TombstoneConsumer (world db) B)
    (Henv : envKeeps (hasRow h) (tcStore tc)) (Hreg : hasRow h (contents (tcStore tc))) :
  let tc' := (@tombstoneRun _ _ _ (adapterStore class) (blobDeleterAdapter c text) _ ticks m tc).2 in
  hasRow h (contents (tcStore tc')) \/ osObject c h (tcBlob tc') = None.
Proof.
  destruct (@tombstoneRun_keeps _ _ _ (adapterStore class) (blobDeleterAdapter c text) _
    (fun tc => reclaimed c h (tcStore tc) (Some (tcBlob tc))) ticks m tc) as (_ & b & [= <-] & Hor); [| |done].
  - intros msg tc0. apply (processMessage_reclaimed c text class h msg tc0).
  - split; eauto.
Qed.

(** ** Witnesses: the registry of [Cas] over an S3 bucket in memory *)

Definition reclaimBucket : memBucket :=
  {[("bk", blockKey orphanHash) := demoObject; ("bk", blockKey liveHash) := demoObject;
    ("bk", blockKey (hex_encode liveHash)) := demoObject]}.

(** Another client marks the live block as verified while the collector runs. *)
Definition reclaimWorld : world db :=
  mkWorld demoDb (GCSafetyWindow + 5) [mkSlot 1 (cas_mark_verified 0 liveHash) None None false] newCircuitBreaker 0 0 0 0 None.

Definition reclaimGC : GC (world db) (list TombstoneEvent) memBucket :=
  gcNew reclaimWorld [] (Some reclaimBucket) (mkGCfg 0 0 0 0 0 false).

Definition reclaimRun : list loopEvent -> loops (GC (world db) (list TombstoneEvent) memBucket) ->
    option (loops (GC (world db) (list TombstoneEvent) memBucket)) :=
  @gcRun _ _ _ (adapterStore OpWrite) _ (blobDeleterAdapter (mkS3 "bk" "") (fun _ => "")).

Definition reclaimEvents : list loopEvent := [LTick 1; LDone 1 9].

Definition reclaimEnd := default (gcStart reclaimGC) (reclaimRun reclaimEvents (gcStart reclaimGC)).

Lemma reclaim_runs : reclaimRun reclaimEvents (gcStart reclaimGC) = Some reclaimEnd.
Proof. reflexivity. Qed.

Lemma demo_referenced : referenced liveHash demoDb.
Proof.
  split; [apply demoDb_ok|]. exists (demoV, 0), (mkMan liveHash 0 20). split; [|done]. apply lookup_singleton_eq.
Qed.

Lemma reclaim_env : envKeeps (referenced liveHash) reclaimWorld.
Proof.
  constructor; [|constructor]. intros d [Hok Hm]. split; [by apply cas_mark_verified_refcount|exact Hm].
Qed.


(** ... and that run did collect the orphan, row and object. *)
Example reclaim_collects :
  (elements <$> (dom <$> gBlob (lsState reclaimEnd)))
    = Some (elements (dom reclaimBucket ∖ {[("bk", blockKey orphanHash)]})) /\
  elements (dom (cas (contents (gStore (lsState reclaimEnd))))) = [liveHash].
Proof. split; vm_compute; reflexivity. Qed.

(** A sweep with room for one block in its hour. *)
Definition quietGC : GC (world db) (list TombstoneEvent) memBucket :=
  mkGC demoCalm [] (Some reclaimBucket) (gcDefaults (mkGCfg 0 0 0 0 7 false)) [] 6 0 (mkGCM 0 6 6 0 0 0).


Definition workerEnd := default (started 1 (reclaimBucket, reclaimWorld))
  (casRun (Some (workerDelete (mkS3 "bk" "") (fun _ => ""))) 5 [LTick 0; LDone 0 9] (started 1 (reclaimBucket, reclaimWorld))).

Lemma worker_runs :
  casRun (Some (workerDelete (mkS3 "bk" "") (fun _ => ""))) 5 [LTick 0; LDone 0 9] (started 1 (reclaimBucket, reclaimWorld))
  = Some workerEnd.
Proof. reflexivity. Qed.

Lemma worker_spares_files_witness :
  osObject (mkS3 "bk" "") (hex_encode liveHash) (lsState workerEnd).1
  = osObject (mkS3 "bk" "") (hex_encode liveHash) reclaimBucket.
Proof.
  destruct (worker_spares_files (mkS3 "bk" "") (fun _ => "") 5 1 liveHash reclaimBucket reclaimWorld
    [LTick 0; LDone 0 9] workerEnd reclaim_env demo_referenced worker_runs) as [H _]. exact H.
Defined.
