(* ===== verification/Stripe.v ===== *)
(** * internal/billing/stripe.go: webhook signatures and subscription events

    Header texts are ASCII; payloads are byte strings; [now] is the current Unix second. *)
From S2P Require Import Prelude GoLib Json.

Definition PlanFree : string := "FREE".
Definition PlanPro : string := "PRO".
Definition PlanEnterprise : string := "ENTERPRISE".

(** The period fields are never set; [0] stands for the zero time. *)
Record SubscriptionRecord := mkSub {
  sbID : string; sbTenant : string; sbPlan : string; sbCustomer : string; sbStripe : string; sbStatus : string;
  sbStart : Z; sbEnd : Z
}.

Record StripeEvent := mkStripeEvent {
  swID : string; swType : string; swCreated : Z; swObject : option (list (string * json)); swLive : bool
}.

(** ** Strings *)

(** [strings.SplitN(s, "=", 2)] when it has two parts. *)
Fixpoint cutEq (s : string) : option (string * string) :=
  match s with
  | EmptyString => None
  | String c s' =>
      if Ascii.eqb c "="%char then Some (EmptyString, s')
      else (fun kv => (String c kv.1, kv.2)) <$> cutEq s'
  end.

(** ** VerifyHeader *)

(** The timestamp (the last one) and the [v1] signatures of a header. *)
Definition headerPart (acc : string * list string) (part : string) : string * list string :=
  match cutEq (TrimSpace part) with
  | None => acc
  | Some (k, v) =>
      if String.eqb k "t" then (v, acc.2)
      else if String.eqb k "v1" then (acc.1, acc.2 ++ [v]) else acc
  end.

Definition headerParts (hdr : string) : string * list string := foldl headerPart ("", []) (split_on ","%char hdr).

Definition stripeMAC (secret ts payload : string) : string :=
  hex_encode (hmac_sha256 secret (ts +:+ "." +:+ payload)).

Definition VerifyHeader (secret : string) (now : Z) (payload hdr : string) : option string :=
  if bool_decide (secret = "") then None
  else
    let '(tsStr, sigs) := headerParts hdr in
    if bool_decide (tsStr = "") || (zlen sigs =? 0) then Some "invalid stripe signature header format"
    else match parse_int tsStr with
    | None => Some "invalid signature timestamp"
    | Some ts =>
        if 300 <? int64 (now - ts) then Some "stripe webhook payload timestamp too old"
        else if existsb (String.eqb (stripeMAC secret tsStr payload)) sigs then None
        else Some "stripe webhook signature verification failed"
    end.

(** ** HandleEvent *)

Section handler.
Context {X : Type} (onSubUpdated : option (SubscriptionRecord -> X -> option string * X)).

Definition subField (k : string) (obj : option (list (string * json))) : string :=
  match obj with
  | Some fs => match jget k fs with Some (JStr s) => s | _ => "" end
  | None => ""
  end.

Definition notifySub (r : SubscriptionRecord) (x : X) : option string * X :=
  match onSubUpdated with Some f => f r x | None => (None, x) end.

Definition HandleEvent (ev : option StripeEvent) (x : X) : option string * X :=
  match ev with
  | None => (Some "event payload is nil", x)
  | Some e =>
      let sub := subField "id" (swObject e) in
      let cust := subField "customer" (swObject e) in
      if existsb (String.eqb (swType e)) ["customer.subscription.created"; "customer.subscription.updated"]
      then notifySub (mkSub sub cust PlanEnterprise cust sub (subField "status" (swObject e)) 0 0) x
      else if String.eqb (swType e) "customer.subscription.deleted"
      then notifySub (mkSub sub cust PlanFree cust sub "CANCELED" 0 0) x
      else (None, x)
  end.

End handler.

(** ** Lemmas *)

Definition headerChar (c : ascii) : bool :=
  negb (is_space c) && negb (Ascii.eqb c "="%char) && negb (bool_decide (c = ","%char)).

Lemma cutEq_app k v : str_forall (fun c => negb (Ascii.eqb c "="%char)) k = true ->
  cutEq (k +:+ String "=" v) = Some (k, v).
Proof.
  induction k as [|c k IH]; intros H; [done|]. rewrite append_cons. simpl in *. apply andb_prop in H as [Hc Hk].
  rewrite (proj1 (negb_true_iff _) Hc), IH by done. done.
Qed.

Lemma dec_header c : dec_char c = true -> headerChar c = true.
Proof. destruct c as [[] [] [] [] [] [] [] []]; vm_compute; congruence. Qed.

Lemma hex_header c : is_lower_hex_char c = true -> headerChar c = true.
Proof. destruct c as [[] [] [] [] [] [] [] []]; vm_compute; congruence. Qed.

(** What the characters of a timestamp or a signature are not. *)
Lemma headerChar_not c : headerChar c = true ->
  negb (is_space c) = true /\ negb (Ascii.eqb c "="%char) = true /\ negb (bool_decide (c = ","%char)) = true.
Proof. unfold headerChar. intros H. apply andb_prop in H as [H ->]. by apply andb_prop in H as [-> ->]. Qed.

Lemma headerPart_kv acc k v : str_forall headerChar k = true -> str_forall headerChar v = true ->
  headerPart acc (k +:+ String "=" v) =
  (if String.eqb k "t" then (v, acc.2) else if String.eqb k "v1" then (acc.1, acc.2 ++ [v]) else acc).
Proof.
  intros Hk Hv. unfold headerPart. rewrite TrimSpace_id, cutEq_app; [done| |].
  - eapply str_forall_impl, Hk. intros c Hc. apply (headerChar_not c Hc).
  - rewrite str_forall_app. simpl. apply andb_true_intro. split.
    + eapply str_forall_impl, Hk. intros c Hc. apply (headerChar_not c Hc).
    + eapply str_forall_impl, Hv. intros c Hc. apply (headerChar_not c Hc).
Qed.

(** The header Stripe sends for a timestamp and a signature. *)
Definition signedHeader (ts sig : string) : string := "t=" +:+ ts +:+ ",v1=" +:+ sig.

Lemma headerParts_signed ts sig : str_forall headerChar ts = true -> str_forall headerChar sig = true ->
  headerParts (signedHeader ts sig) = (ts, [sig]).
Proof.
  intros Ht Hs. unfold headerParts, signedHeader.
  replace ("t=" +:+ ts +:+ ",v1=" +:+ sig) with (("t" +:+ String "=" ts) +:+ String "," ("v1" +:+ String "=" sig))
    by (rewrite append_assoc; reflexivity).
  assert (forall k v, str_forall headerChar k = true -> str_forall headerChar v = true ->
    str_forall (fun c => negb (bool_decide (c = ","%char))) (k +:+ String "=" v) = true) as Hno.
  { intros k v Hk Hv. rewrite str_forall_app. simpl. apply andb_true_intro. split.
    - eapply str_forall_impl, Hk. intros c Hc. apply (headerChar_not c Hc).
    - eapply str_forall_impl, Hv. intros c Hc. apply (headerChar_not c Hc). }
  rewrite split_on_join by (by apply Hno). rewrite split_on_none by (by apply Hno).
  cbn [foldl]. by rewrite !headerPart_kv.
Qed.

(** Webhook signatures, with a configured secret: a header is accepted only if it carries
    a timestamp not more than 300 seconds old and the HMAC of exactly this timestamp and
    payload; and the header signed for a timestamp of the last 300 seconds is accepted. *)
Theorem stripe_signature (secret payload : string) (now : Z) (Hsecret : secret <> "") :
  (forall hdr, VerifyHeader secret now payload hdr = None -> exists tsStr sigs ts,
     headerParts hdr = (tsStr, sigs) /\ parse_int tsStr = Some ts /\ int64 (now - ts) <= 300 /\
     stripeMAC secret tsStr payload ∈ sigs) /\
  (forall ts, is_int64 ts -> 0 <= now - ts <= 300 ->
     VerifyHeader secret now payload (signedHeader (format_int ts) (stripeMAC secret (format_int ts) payload)) = None).
Proof.
  split.
  - intros hdr Hv. unfold VerifyHeader in Hv. rewrite bool_decide_false in Hv by done.
    destruct (headerParts hdr) as [tsStr sigs]. destruct (_ || _); [done|].
    destruct (parse_int tsStr) as [ts|] eqn:Hp; [|done]. destruct (300 <? int64 (now - ts)) eqn:Hold; [done|].
    destruct (existsb _ sigs) eqn:He; [|done]. exists tsStr, sigs, ts. split_and!; [done|done|lia|].
    apply existsb_exists in He as (sig & Hin & Heq). apply String.eqb_eq in Heq. subst. by apply list_elem_of_In.
  - intros ts Hts Hage. unfold VerifyHeader. rewrite bool_decide_false by done.
    rewrite headerParts_signed;
      [|eapply str_forall_impl, format_int_chars; apply dec_header|eapply str_forall_impl, hex_encode_lower; apply hex_header].
    rewrite parse_format_int by done. rewrite int64_id by (unfold is_int64, minInt64, maxInt64 in *; lia).
    rewrite bool_decide_false, (proj2 (Z.ltb_ge _ _)) by (try lia; intros He; by pose proof (parse_format_int ts Hts) as H; rewrite He in H).
    cbn [orb existsb]. by rewrite String.eqb_refl.
Qed.

(** Timestamps of the future are accepted, and so is one that makes the difference wrap. *)
Lemma stripe_accepts_future :
  VerifyHeader "whsec" 1000 "{}" (signedHeader "99999999999" (stripeMAC "whsec" "99999999999" "{}")) = None /\
  VerifyHeader "whsec" 1000 "{}" (signedHeader "-9223372036854775808" (stripeMAC "whsec" "-9223372036854775808" "{}")) = None.
Proof. split; vm_compute; reflexivity. Qed.

Lemma stripe_signature_witness :
  VerifyHeader "whsec" 1000 "{}" (signedHeader (format_int 900) (stripeMAC "whsec" (format_int 900) "{}")) = None.
Proof.
  apply (stripe_signature "whsec" "{}" 1000); [discriminate|unfold is_int64, minInt64, maxInt64; lia|lia].
Defined.
