(* ===== verification/Identity.v ===== *)
(** * internal/auth/scim.go and sso.go: user provisioning and identity providers

    The SCIM server's users and the registry of identity providers.  [off] is the local
    zone's offset, [now] the current Unix second; a request body is a JSON document or
    undecodable. *)
From S2P Require Import Prelude GoLib Json External.

(** ** SCIM users ([scim.go]) *)

Record SCIMName := mkSName { snFormatted : string; snFamily : string; snGiven : string }.
Record SCIMEmail := mkSEmail { seValue : string; sePrimary : bool }.
Record SCIMMeta := mkSMeta { smType : string; smCreated : string; smModified : string; smLocation : string }.
Record SCIMUser := mkSUser {
  suSchemas : list string; suID : string; suName : string; suFull : SCIMName; suEmails : list SCIMEmail;
  suActive : bool; suTenant : string; suMeta : SCIMMeta
}.

Definition unmarshalName : decoder SCIMName := fun j =>
  fs ← dFields j; f ← field dString "" "formatted" fs; l ← field dString "" "familyName" fs;
  g ← field dString "" "givenName" fs; Some (mkSName f l g).

Definition unmarshalEmail : decoder SCIMEmail := fun j =>
  fs ← dFields j; v ← field dString "" "value" fs; p ← field dBool false "primary" fs; Some (mkSEmail v p).

Definition unmarshalMeta : decoder SCIMMeta := fun j =>
  fs ← dFields j; t ← field dString "" "resourceType" fs; c ← field dString "" "created" fs;
  m ← field dString "" "lastModified" fs; l ← field dString "" "location" fs; Some (mkSMeta t c m l).

Definition unmarshalUser : decoder SCIMUser := fun j =>
  fs ← dFields j;
  sc ← field (dList dString) [] "schemas" fs; i ← field dString "" "id" fs; n ← field dString "" "userName" fs;
  full ← field unmarshalName (mkSName "" "" "") "name" fs; em ← field (dList unmarshalEmail) [] "emails" fs;
  a ← field dBool false "active" fs; t ← field dString "" "tenantId" fs;
  m ← field unmarshalMeta (mkSMeta "" "" "" "") "meta" fs;
  Some (mkSUser sc i n full em a t m).

Definition marshalUser (u : SCIMUser) : json :=
  JObj ([("schemas", jStrings (suSchemas u)); ("id", JStr (suID u)); ("userName", JStr (suName u));
         ("name", JObj [("formatted", JStr (snFormatted (suFull u))); ("familyName", JStr (snFamily (suFull u)));
                        ("givenName", JStr (snGiven (suFull u)))]);
         ("emails", JArr ((fun e => JObj [("value", JStr (seValue e)); ("primary", JBool (sePrimary e))]) <$> suEmails u));
         ("active", JBool (suActive u))] ++ omitStr "tenantId" (suTenant u) ++
        [("meta", JObj [("resourceType", JStr (smType (suMeta u))); ("created", JStr (smCreated (suMeta u)));
                        ("lastModified", JStr (smModified (suMeta u))); ("location", JStr (smLocation (suMeta u)))])]).

Abbreviation SCIMServer := (gmap string SCIMUser).

Definition NewSCIMServer : SCIMServer := ∅.

Definition userSchema : string := "urn:ietf:params:scim:schemas:core:2.0:User".
Definition userLocation (id : string) : string := "/scim/v2/Users/" +:+ id.

(** An HTTP answer: status and body. *)
Definition scimAnswer : Type := Z * option json.

(** [id] is the fresh UUID; identifier, schemas, state and metadata of the request are
    replaced. *)
Definition createUser (off now : Z) (id : string) (body : option json) (s : SCIMServer) : scimAnswer * SCIMServer :=
  match body ≫= unmarshalUser with
  | None => ((400, None), s)
  | Some u =>
      let ts := rfc3339 off now in
      let user := mkSUser [userSchema] id (suName u) (suFull u) (suEmails u) true (suTenant u)
                    (mkSMeta "User" ts ts (userLocation id)) in
      ((201, Some (marshalUser user)), <[id := user]> s)
  end.

(** [range] visits the users in the order [users]; a [nil] slice is [null]. *)
Definition listUsers (users : list SCIMUser) : json :=
  JObj [("Resources", match users with [] => JNull | _ => JArr (marshalUser <$> users) end);
        ("itemsPerPage", JNum (zlen users));
        ("schemas", jStrings ["urn:ietf:params:scim:api:messages:2.0:ListResponse"]);
        ("startIndex", JNum 1); ("totalResults", JNum (zlen users))].

Definition HandleUsers (rangeUsers : SCIMServer -> list SCIMUser) (off now : Z) (id method : string) (body : option json)
    (s : SCIMServer) : scimAnswer * SCIMServer :=
  if String.eqb method "GET" then ((200, Some (listUsers (rangeUsers s))), s)
  else if String.eqb method "POST" then createUser off now id body s
  else ((405, None), s).

Definition DeprovisionUser (off now : Z) (id : string) (s : SCIMServer) : option string * SCIMServer :=
  match s !! id with
  | None => (Some ("user " +:+ id +:+ " not found"), s)
  | Some u =>
      (None, <[id := mkSUser (suSchemas u) (suID u) (suName u) (suFull u) (suEmails u) false (suTenant u)
                       (mkSMeta (smType (suMeta u)) (smCreated (suMeta u)) (rfc3339 off now) (smLocation (suMeta u)))]> s)
  end.

(** The operations on the server, in any order. *)
Inductive scimOp :=
| SRequest (off now : Z) (id method : string) (body : option json)
| SDeprovision (off now : Z) (id : string).

Definition scimStep (rangeUsers : SCIMServer -> list SCIMUser) (s : SCIMServer) (op : scimOp) : SCIMServer :=
  match op with
  | SRequest off now id method body => (HandleUsers rangeUsers off now id method body s).2
  | SDeprovision off now id => (DeprovisionUser off now id s).2
  end.

(** Every entry is a well-formed user resource under its own identifier. *)
Definition scimOk (s : SCIMServer) : Prop :=
  map_Forall (fun id u => suID u = id /\ suSchemas u = [userSchema] /\ smType (suMeta u) = "User" /\
    smLocation (suMeta u) = userLocation id /\ smCreated (suMeta u) <> "" /\ smModified (suMeta u) <> "") s.

Lemma scimStep_ok range s op : scimOk s -> scimOk (scimStep range s op).
Proof.
  intros Hok. destruct op as [off now id method body|off now id]; simpl.
  - unfold HandleUsers. destruct (String.eqb method "GET"); [done|]. destruct (String.eqb method "POST"); [|done].
    unfold createUser. destruct (body ≫= unmarshalUser) as [u|]; [|done]. simpl.
    apply map_Forall_insert_2; [|done]. simpl. split_and!; (done || apply rfc3339_nonempty).
  - unfold DeprovisionUser. destruct (s !! id) as [u|] eqn:Hu; [|done]. simpl.
    destruct (Hok _ _ Hu) as (H1 & H2 & H3 & H4 & H5 & H6). apply map_Forall_insert_2; [|done]. simpl.
    split_and!; (done || apply rfc3339_nonempty).
Qed.

(** A deprovisioned user stays inactive, unless its identifier is drawn again. *)
Lemma scimStep_inactive range s op id u : s !! id = Some u -> suActive u = false ->
  (forall off now m b, op <> SRequest off now id m b) ->
  exists u', scimStep range s op !! id = Some u' /\ suActive u' = false.
Proof.
  intros Hu Ha Hfresh. destruct op as [off now id' method body|off now id']; simpl.
  - assert (id' <> id) as Hne by (intros ->; by eapply Hfresh).
    unfold HandleUsers. destruct (String.eqb method "GET"); [eauto|]. destruct (String.eqb method "POST"); [|eauto].
    unfold createUser. destruct (body ≫= unmarshalUser); [|eauto]. simpl. rewrite lookup_insert_ne by done. eauto.
  - unfold DeprovisionUser. destruct (s !! id') as [u'|] eqn:Hu'; [|eauto]. simpl.
    destruct (decide (id' = id)) as [->|Hne]; [rewrite lookup_insert_eq|rewrite lookup_insert_ne by done]; eauto.
Qed.

(** C39. The SCIM store is well-typed and deprovisioning is final: after any sequence of
    requests on an empty server every entry is a complete user resource filed under its own
    identifier; and a user that was deprovisioned stays stored and inactive through every
    later sequence of operations in which its identifier is not drawn again. *)
Theorem scim_users_well_formed (rangeUsers : SCIMServer -> list SCIMUser) (before after : list scimOp)
    (off now : Z) (id : string) (s : SCIMServer)
    (Hreach : s = foldl (scimStep rangeUsers) ∅ before) (Hknown : is_Some (s !! id))
    (Hfresh : forall off now m b, SRequest off now id m b ∉ after) :
  scimOk s /\ (DeprovisionUser off now id s).1 = None /\
  exists u, foldl (scimStep rangeUsers) (DeprovisionUser off now id s).2 after !! id = Some u /\ suActive u = false.
Proof.
  assert (scimOk s) as Hok.
  { subst s. clear. assert (scimOk ∅) as H0 by apply map_Forall_empty. revert H0. generalize (∅ : SCIMServer).
    induction before as [|op ops IH]; intros s Hs; simpl; [done|]. apply IH. by apply scimStep_ok. }
  split; [done|]. destruct Hknown as [u0 Hu0]. unfold DeprovisionUser. rewrite Hu0. simpl. split; [done|].
  match goal with |- context [foldl _ ?s1 after] => assert (exists u, s1 !! id = Some u /\ suActive u = false) as Hin
    by (rewrite lookup_insert_eq; eauto); revert Hin; generalize s1 end. clear -Hfresh.
  induction after as [|op ops IH]; intros s1 (u & Hu & Ha); simpl; [eauto|].
  apply IH.
  - intros off now m b Hin. eapply Hfresh. right. exact Hin.
  - eapply scimStep_inactive; [done|done|]. intros o n m b ->. eapply Hfresh. left.
Qed.

(** ** Identity providers ([sso.go]) *)

Definition ProviderOIDC : string := "OIDC".
Definition ProviderSAML : string := "SAML2".

Record TenantSSOConfig := mkSSO {
  ssTenant : string; ssDomain : string; ssType : string; ssIssuer : string; ssClient : string; ssSecret : string;
  ssMetadata : string
}.

Abbreviation SSORegistry := (gmap string TenantSSOConfig).

Definition NewSSORegistry : SSORegistry := ∅.

Definition RegisterTenantIdP (cfg : TenantSSOConfig) (r : SSORegistry) : option string * SSORegistry :=
  if bool_decide (ssTenant cfg = "") || bool_decide (ssDomain cfg = "")
  then (Some "tenant_id and domain are required", r)
  else (None, <[to_lower (ssDomain cfg) := cfg]> r).

Definition ResolveIdPByEmail (email : string) (r : SSORegistry) : result string TenantSSOConfig :=
  match split_on "@"%char email with
  | [_; d] => match r !! to_lower d with
              | Some cfg => Ok cfg
              | None => Err ("no enterprise IdP registered for domain " +:+ to_lower d)
              end
  | _ => Err "invalid email format"
  end.

Definition GenerateAuthRedirectURL (cfg : TenantSSOConfig) (state : string) : string :=
  if String.eqb (ssType cfg) ProviderOIDC
  then ssIssuer cfg +:+ "/v1/authorize?client_id=" +:+ ssClient cfg +:+
       "&response_type=code&scope=openid+profile+email&state=" +:+ state
  else ssIssuer cfg +:+ "/sso/saml/login?tenant=" +:+ ssTenant cfg +:+ "&state=" +:+ state.

Definition noAt (s : string) : bool := str_forall (fun c => negb (bool_decide (c = "@"%char))) s.

(** The registrations that were accepted, the latest first. *)
Definition registered (cfgs : list TenantSSOConfig) (r : SSORegistry) : SSORegistry :=
  foldr (fun c r => (RegisterTenantIdP c r).2) r cfgs.

(** Routing an email to its identity provider: after any registrations, an address
    whose domain equals that of an accepted configuration up to ASCII case resolves to the
    configuration registered last for the domain, and an address of a domain that was never
    registered resolves to none. *)
Theorem sso_resolves_latest (cfgs : list TenantSSOConfig) (user domain : string)
    (Hu : noAt user = true) (Hd : noAt domain = true) :
  ResolveIdPByEmail (user +:+ String "@" domain) (registered cfgs ∅) =
  match List.find (fun c => negb (bool_decide (ssTenant c = "")) && negb (bool_decide (ssDomain c = "")) &&
                            String.eqb (to_lower (ssDomain c)) (to_lower domain)) cfgs with
  | Some c => Ok c
  | None => Err ("no enterprise IdP registered for domain " +:+ to_lower domain)
  end.
Proof.
  unfold ResolveIdPByEmail. rewrite split_on_join, split_on_none by done.
  assert (registered cfgs ∅ !! to_lower domain = List.find (fun c => negb (bool_decide (ssTenant c = "")) &&
    negb (bool_decide (ssDomain c = "")) && String.eqb (to_lower (ssDomain c)) (to_lower domain)) cfgs) as ->; [|done].
  induction cfgs as [|c cfgs IH]; [apply lookup_empty|]. simpl. unfold RegisterTenantIdP at 1.
  destruct (bool_decide (ssTenant c = "")), (bool_decide (ssDomain c = "")); simpl; try exact IH.
  destruct (String.eqb_spec (to_lower (ssDomain c)) (to_lower domain)) as [->|Hne].
  - apply lookup_insert_eq.
  - by rewrite lookup_insert_ne.
Qed.

(** A second tenant that registers the same domain takes over its logins. *)
Lemma sso_domain_takeover :
  ResolveIdPByEmail "ann@acme.com" (registered
    [mkSSO "mallory" "ACME.com" ProviderOIDC "https://evil" "c" "" "";
     mkSSO "acme" "acme.com" ProviderOIDC "https://idp.acme.com" "c" "" ""] ∅)
  = Ok (mkSSO "mallory" "ACME.com" ProviderOIDC "https://evil" "c" "" "").
Proof. vm_compute. reflexivity. Qed.

(** ** Witnesses *)

Definition demoBody : option json := Some (JObj [("userName", JStr "ann")]).
Definition demoOps : list scimOp := [SRequest 0 0 "u1" "POST" demoBody; SRequest 0 1 "u2" "POST" demoBody].
Definition demoUsers (s : SCIMServer) : list SCIMUser := (map_to_list s).*2.

Lemma scim_users_well_formed_witness :
  exists u, foldl (scimStep demoUsers) (DeprovisionUser 0 5 "u1" (foldl (scimStep demoUsers) ∅ demoOps)).2
    [SRequest 0 6 "u3" "POST" demoBody] !! "u1" = Some u /\ suActive u = false.
Proof.
  apply (scim_users_well_formed demoUsers demoOps [SRequest 0 6 "u3" "POST" demoBody] 0 5 "u1"
    (foldl (scimStep demoUsers) ∅ demoOps) eq_refl).
  - vm_compute. eexists. reflexivity.
  - intros off now m b Hin. apply list_elem_of_singleton in Hin. congruence.
Defined.

Lemma sso_resolves_latest_witness :
  ResolveIdPByEmail "ann@Acme.com" (registered [mkSSO "acme" "acme.com" ProviderSAML "https://idp" "" "" ""] ∅)
  = Ok (mkSSO "acme" "acme.com" ProviderSAML "https://idp" "" "" "").
Proof.
  exact (sso_resolves_latest [mkSSO "acme" "acme.com" ProviderSAML "https://idp" "" "" ""] "ann" "Acme.com" eq_refl eq_refl).
Defined.
