(* ===== verification/Lifecycle.v ===== *)
(** * cmd/ingest: the life of the process

    What main wires together from the parts of the other files, and how the process ends: the
    HTTP server, the goroutine that shuts it down, the deferred calls of main, the collector's
    loops and the derivation bridge as one step function whose labels interleave in any
    order.  [os.Exit] runs no deferred call. *)
From S2P Require Import Prelude GoLib External Database Pools Schema Cas Gc Ingress Handlers Derivation Bridge RateLimit.
From S2P Require Import Metrics Events Loops ObjectStorage Startup.

(** ** Event buses ([events.go] and their users in cmd/ingest) *)

Class EventBus (E : Type) := {
  busFileCommitted : FileCommittedEvent -> E -> result string unit * E;
  busTombstone : string -> TombstoneEvent -> E -> result string unit * E
}.

(** [NoopBus] discards events. *)
#[global] Instance NoopBus : EventBus unit := {|
  busFileCommitted _ u := (Ok tt, u); busTombstone _ _ u := (Ok tt, u)
|}.

#[global] Instance bridgeBus : EventBus derivationBridge := {|
  busFileCommitted := bridgePublish; busTombstone t e b := bridgeTombstone t (teHash e) b
|}.

(** [KafkaBus], in the programs that use it. *)
#[global] Instance kafkaBus {P : Type} `{KW : KafkaWriter P} : EventBus (KafkaBus P) := {|
  busFileCommitted e b := let '(r, b') := kafkaPublishFileCommitted e b in
    (match r with None => Ok tt | Some err => Err err end, b');
  busTombstone t e b := let '(r, b') := kafkaPublishTombstone t e b in
    (match r with None => Ok tt | Some err => Err err end, b')
|}.

(** [gcPublisherAdapter] over any bus; both event types have the same fields. *)
#[global] Instance gcPublisherAdapter {E : Type} `{EventBus E} : TombstonePublisher E := busTombstone.

(** The bus of cmd/ingest: the bridge when derivation is enabled. *)
Definition ingestBus : Type := option derivationBridge.

#[global] Instance ingestEvents : EventBus ingestBus := {|
  busFileCommitted e bus :=
    match bus with
    | None => (Ok tt, None)
    | Some b => let '(r, b') := busFileCommitted e b in (r, Some b')
    end;
  busTombstone t e bus :=
    match bus with
    | None => (Ok tt, None)
    | Some b => let '(r, b') := busTombstone t e b in (r, Some b')
    end
|}.

(** ** The collector's wiring *)

(** Which blob deleter the collector gets: both storage clients have a [DeleteBlock]. *)
Inductive gcBlob := NoopBlobDeleter | BlobDeleterAdapter.

Definition ingestBlob (blobStore : bool) : gcBlob := if blobStore then BlobDeleterAdapter else NoopBlobDeleter.

(** The callbacks of [gcMetrics]: what a change of the collector's counters records. *)
Definition gcMetricsCalls `{PR : Prometheus} (m : CASMetrics) (before after : GCMetrics) : list mcall :=
  let times n c := replicate (Z.to_nat n) c in
  times (mSessions after - mSessions before) (IncSessionsExpired m) ++
  times (mTombstoned after - mTombstoned before) (IncBlocksTombstoned m) ++
  times (mDeleted after - mDeleted before) (IncBlocksDeleted m) ++
  times (mFailed after - mFailed before) (IncDeletionFailed m) ++
  times (mRateLimit after - mRateLimit before) (IncRateLimitHit m) ++
  times (mSaved after - mSaved before) (IncDoubleCheckSaved m).

(** The goroutine that refreshes the gauges at every tick until the context is done. *)
Definition refreshRun `{PR : Prometheus} `{U : UUID} (avg : StorageStats -> float64)
    : list loopEvent -> loops (list mcall * world db) -> option (loops (list mcall * world db)) :=
  loopRun (fun _ _ x => let '(calls, w) := refreshTick avg casMetrics x.2 in (x.1 ++ calls, w)) noLeave.

(** ** The HTTP server *)

Record httpServer := mkHttp {
  hsAddr : string; hsReadHeaderTimeout : Z; hsReadTimeout : Z; hsWriteTimeout : Z; hsIdleTimeout : Z
}.

Definition ingestHTTP (p : ingestPlan) : httpServer :=
  mkHttp (plAddr p) (5 * 1000000000) (30 * 1000000000) (60 * 1000000000) (120 * 1000000000).

(** ** The process *)

(** The deferred calls of main. *)
Inductive deferred := DBridgeStop | DGcStop | DReaperStop | DRedisClose | DDbClose | DCancel.
#[global] Instance deferred_eq_dec : EqDecision deferred.
Proof. solve_decision. Defined.

(** Last in, first out. *)
Definition deferOrder (derivation : bool) : list deferred :=
  (if derivation then [DBridgeStop] else []) ++ [DGcStop; DReaperStop; DRedisClose; DDbClose; DCancel].

(** Main is in [ListenAndServe], running its deferred calls, or the process has exited. *)
Inductive mainPc := Serving | Deferring (rest : list deferred) | Exit (code : Z).

Section process.
Context {X : Type} (job : nat -> Z -> X -> X).

(** [prSignal]: the context of [NotifyContext] is done; [prShutdown]: [Shutdown] was called, so
    the listener is closed; [prInflight]: requests being handled; [prBusy]: connections of
    the pools in use; [prRan]: the deferred calls that have run. *)
Record process := mkProc {
  prMain : mainPc; prSignal : bool; prShutdown : bool; prInflight : nat; prBusy : nat;
  prBus : ingestBus; prGC : loops X; prReaper : bool; prRedis : bool; prDb : bool; prRan : list deferred
}.

(** Main when it enters [ListenAndServe]; the bridge has one consumer. *)
Definition serving (derivation : bool) (x : X) : process :=
  mkProc Serving false false 0 0 (if derivation then Some (bridgeStart newDerivationBridge) else None)
    (started 2 x) true true true [].

Inductive plabel :=
| PSignal | PShutdown | PListenReturns | PListenFails
| PRequest | PFinish | PTake | PGive | PCommitted (e : FileCommittedEvent)
| PBridge (l : blabel) | PGc (e : loopEvent)
| PDefer (meets : option nat) | PExit.

Definition setMain (m : mainPc) (p : process) : process :=
  mkProc m (prSignal p) (prShutdown p) (prInflight p) (prBusy p) (prBus p) (prGC p) (prReaper p) (prRedis p) (prDb p) (prRan p).
Definition setLoad (inflight busy : nat) (p : process) : process :=
  mkProc (prMain p) (prSignal p) (prShutdown p) inflight busy (prBus p) (prGC p) (prReaper p) (prRedis p) (prDb p) (prRan p).
Definition setBus (b : ingestBus) (p : process) : process :=
  mkProc (prMain p) (prSignal p) (prShutdown p) (prInflight p) (prBusy p) b (prGC p) (prReaper p) (prRedis p) (prDb p) (prRan p).
Definition setGC (g : loops X) (p : process) : process :=
  mkProc (prMain p) (prSignal p) (prShutdown p) (prInflight p) (prBusy p) (prBus p) g (prReaper p) (prRedis p) (prDb p) (prRan p).

Definition gcEvents : loopEvent -> loops X -> option (loops X) := loopStep job noLeave.

#[local] Arguments gcEvents : simpl never.

(** A signal, or [cancel], ends the context that the bridge and the collector's loops watch. *)
Definition cancelAll (p : process) : process :=
  mkProc (prMain p) true (prShutdown p) (prInflight p) (prBusy p)
    ((fun b => default b (bstep Bridge.LCancel b)) <$> prBus p) (default (prGC p) (gcEvents LCancel (prGC p)))
    (prReaper p) (prRedis p) (prDb p) (prRan p).

(** One deferred call; [None]: it panics or cannot happen ([meets] names the collector's loop
    that [Stop] reaches, see [loopEvent]). *)
Definition runDeferred (d : deferred) (meets : option nat) (p : process) : option process :=
  let ran p := mkProc (prMain p) (prSignal p) (prShutdown p) (prInflight p) (prBusy p) (prBus p) (prGC p)
                 (prReaper p) (prRedis p) (prDb p) (prRan p ++ [d]) in
  match d with
  | DBridgeStop => b ← prBus p; b' ← bridgeStop b; Some (ran (setBus (Some b') p))
  | DGcStop => g ← gcEvents (LStop meets) (prGC p); Some (ran (setGC g p))
  | DReaperStop => Some (ran (mkProc (prMain p) (prSignal p) (prShutdown p) (prInflight p) (prBusy p) (prBus p) (prGC p)
                          false (prRedis p) (prDb p) (prRan p)))
  | DRedisClose => Some (ran (mkProc (prMain p) (prSignal p) (prShutdown p) (prInflight p) (prBusy p) (prBus p) (prGC p)
                          (prReaper p) false (prDb p) (prRan p)))
  | DDbClose => Some (ran (mkProc (prMain p) (prSignal p) (prShutdown p) (prInflight p) (prBusy p) (prBus p) (prGC p)
                          (prReaper p) (prRedis p) false (prRan p)))
  | DCancel => Some (ran (cancelAll p))
  end.

(** Closing the pools waits for their connections. *)
Definition dbCloseWaits (p : process) : bool := negb (prDb p) && negb (prBusy p =? 0)%nat.

(** One step of the process; nothing happens after it has exited. *)
Definition pstep (l : plabel) (p : process) : option process :=
  match prMain p with
  | Exit _ => None
  | m =>
    match l with
    | PSignal => Some (cancelAll p)
    | PShutdown =>
        if prSignal p then Some (mkProc m true true (prInflight p) (prBusy p) (prBus p) (prGC p) (prReaper p) (prRedis p) (prDb p) (prRan p))
        else None
    | PListenReturns =>
        match m with
        | Serving => if prShutdown p then Some (setMain (Deferring (deferOrder (match prBus p with Some _ => true | None => false end))) p) else None
        | _ => None
        end
    | PListenFails => match m with Serving => if prShutdown p then None else Some (setMain (Exit 1) p) | _ => None end
    | PRequest => if prShutdown p then None else Some (setLoad (S (prInflight p)) (prBusy p) p)
    | PFinish => match prInflight p with O => None | S n => Some (setLoad n (prBusy p) p) end
    | PTake => if prDb p then Some (setLoad (prInflight p) (S (prBusy p)) p) else None
    | PGive => match prBusy p with O => None | S n => Some (setLoad (prInflight p) n p) end
    | PCommitted e =>
        match prInflight p with O => None | S _ => Some (setBus (busFileCommitted e (prBus p)).2 p) end
    | PBridge l =>
        if ownStep l then b ← prBus p; b' ← bstep l b; Some (setBus (Some b') p) else None
    | PGc e =>
        match e with
        | LStop _ | LCancel => None
        | _ => g ← gcEvents e (prGC p); Some (setGC g p)
        end
    | PDefer meets =>
        match m with
        | Deferring (d :: rest) => if dbCloseWaits p then None else runDeferred d meets (setMain (Deferring rest) p)
        | _ => None
        end
    | PExit =>
        match m with Deferring [] => if dbCloseWaits p then None else Some (setMain (Exit 0) p) | _ => None end
    end
  end.

Fixpoint psteps (ls : list plabel) (p : process) : option process :=
  match ls with [] => Some p | l :: ls' => p' ← pstep l p; psteps ls' p' end.

(** ** Invariants *)

Definition hasBridge (p : process) : bool := match prBus p with Some _ => true | None => false end.

(** Where the deferred calls stand. *)
Definition deferState (derivation : bool) (p : process) : Prop :=
  match prMain p with
  | Serving => prRan p = []
  | Deferring rest => prRan p ++ rest = deferOrder derivation /\ prShutdown p = true
  | Exit c => (c = 0 /\ prRan p = deferOrder derivation /\ prShutdown p = true /\ prBusy p = 0%nat) \/ (c = 1 /\ prRan p = [])
  end.

Record procInv (derivation : bool) (p : process) : Prop := {
  pi_defer : deferState derivation p;
  pi_bridge : hasBridge p = derivation;
  pi_shutdown : prShutdown p = true -> prSignal p = true;
  pi_stopped : forall b, prBus p = Some b -> (brStopped b = true <-> DBridgeStop ∈ prRan p);
  pi_conserves : forall b, prBus p = Some b -> brConserves b;
  pi_reaper : prReaper p = false <-> DReaperStop ∈ prRan p;
  pi_redis : prRedis p = false <-> DRedisClose ∈ prRan p;
  pi_db : prDb p = false <-> DDbClose ∈ prRan p
}.

Lemma serving_inv derivation x : procInv derivation (serving derivation x).
Proof.
  split; simpl; try done; try (by destruct derivation); try (split; [done|]; by intros ?%elem_of_nil);
    intros b Hb; destruct derivation; simplify_eq; try done.
  split; [done|]. by intros ?%elem_of_nil.
Qed.

Lemma bstep_stopped l b b' : bstep l b = Some b' -> l <> Bridge.LStop -> brStopped b' = brStopped b.
Proof.
  intros Hs Hl. destruct l; simpl in Hs; try (apply handOver_inv in Hs as (ev & q & _ & _ & _ & ->));
    repeat case_match; simplify_eq; done.
Qed.

(** The conjuncts that look at the bridge alone. *)
Definition busInv (ran : list deferred) (bus : ingestBus) : Prop :=
  forall b, bus = Some b -> (brStopped b = true <-> DBridgeStop ∈ ran) /\ brConserves b.

Lemma busInv_step l ran b b' : bstep l b = Some b' -> l <> Bridge.LStop -> busInv ran (Some b) -> busInv ran (Some b').
Proof.
  intros Hs Hl Hb x [= <-]. destruct (Hb b eq_refl) as [H1 H2].
  split; [by rewrite (bstep_stopped _ _ _ Hs Hl)|by eapply bstep_conserves].
Qed.

Lemma busInv_ran d ran bus : d <> DBridgeStop -> busInv ran bus -> busInv (ran ++ [d]) bus.
Proof. intros Hd Hb b Hbus. destruct (Hb b Hbus) as [H1 H2]. split; [|done]. rewrite H1, elem_of_app, list_elem_of_singleton.
  split; [tauto|]. by intros [?|<-]. Qed.

Lemma procInv_bus derivation p : procInv derivation p -> busInv (prRan p) (prBus p).
Proof. intros HI b Hb. split; [by apply (pi_stopped _ _ HI)|by eapply pi_conserves]. Qed.

Lemma ran_iff (f : bool) (d x : deferred) ran : (f = false <-> x ∈ ran) ->
  ((if decide (d = x) then false else f) = false <-> x ∈ ran ++ [d]).
Proof.
  intros Hf. rewrite elem_of_app, list_elem_of_singleton. destruct (decide (d = x)) as [->|Hne]; [tauto|].
  rewrite Hf. split; [tauto|]. by intros [?| ->].
Qed.

(** Everything an invariant needs when main does not move. *)
Lemma procInv_same derivation p q : procInv derivation p ->
  prMain q = prMain p -> prRan q = prRan p -> prReaper q = prReaper p -> prRedis q = prRedis p -> prDb q = prDb p ->
  (prSignal p = true -> prSignal q = true) ->
  prShutdown q = prShutdown p \/ (prShutdown q = true /\ prSignal q = true) ->
  (forall c, prMain p <> Exit c) ->
  hasBridge q = hasBridge p -> busInv (prRan p) (prBus q) -> procInv derivation q.
Proof.
  intros HI Hm Hr Hre Hrd Hd Hsig Hsh Hex Hb Hbus. destruct HI. split; rewrite ?Hr, ?Hre, ?Hrd, ?Hd, ?Hb; try done.
  - unfold deferState in *. rewrite Hm, Hr. destruct (prMain p) eqn:E; [done| |by destruct (Hex code)].
    destruct pi_defer0 as [H1 H2]. split; [done|]. destruct Hsh as [->|[-> _]]; done.
  - destruct Hsh as [->|[_ ->]]; [auto|done].
  - intros b Hq. by apply Hbus.
  - intros b Hq. by apply Hbus.
Qed.

Lemma cancelAll_inv derivation p : procInv derivation p -> (forall c, prMain p <> Exit c) -> procInv derivation (cancelAll p).
Proof.
  intros HI Hex. eapply (procInv_same _ p); try done; [by left|by unfold hasBridge; simpl; destruct (prBus p)|].
  simpl. pose proof (procInv_bus _ _ HI) as Hb. destruct (prBus p) as [b|]; [|done]. simpl. by eapply (busInv_step Bridge.LCancel).
Qed.

(** A deferred call that has run is recorded; its effect is what the record says. *)
Lemma runDeferred_inv derivation d rest meets p q : procInv derivation p -> prMain p = Deferring (d :: rest) ->
  runDeferred d meets (setMain (Deferring rest) p) = Some q -> procInv derivation q /\ prMain q = Deferring rest.
Proof.
  intros HI Hm Hr. pose proof (procInv_bus _ _ HI) as Hbus. destruct HI as [Hd Hb Hs _ _ Hre Hrd Hdb].
  unfold deferState in Hd. rewrite Hm in Hd. destruct Hd as [Hd Hsh].
  assert (forall q, prMain q = Deferring rest -> prRan q = prRan p ++ [d] -> prShutdown q = prShutdown p ->
    prSignal q = true -> hasBridge q = hasBridge p -> busInv (prRan q) (prBus q) ->
    prReaper q = (if decide (d = DReaperStop) then false else prReaper p) ->
    prRedis q = (if decide (d = DRedisClose) then false else prRedis p) ->
    prDb q = (if decide (d = DDbClose) then false else prDb p) -> procInv derivation q /\ prMain q = Deferring rest) as Hmk.
  { clear q Hr. intros q Q1 Q2 Q3 Q4 Q5 Q6 Q7 Q8 Q9. split; [|done].
    split; rewrite ?Q2, ?Q3, ?Q4, ?Q5, ?Q7, ?Q8, ?Q9; try done.
    - unfold deferState. rewrite Q1, Q2, Q3, <- app_assoc. done.
    - intros b Hq. rewrite <- Q2. by apply Q6.
    - intros b Hq. by apply Q6.
    - by apply ran_iff.
    - by apply ran_iff.
    - by apply ran_iff. }
  assert (prSignal p = true) as Hsig by auto.
  destruct d; simpl in Hr; try (simplify_eq; apply Hmk; simpl; try done; by apply busInv_ran).
  - destruct (prBus p) as [b|] eqn:Eb; [|done]. simpl in Hr. destruct (bridgeStop b) as [b'|] eqn:Es; [|done].
    simplify_eq/=. apply Hmk; simpl; try done; [by unfold hasBridge; rewrite Eb|].
    intros x [= <-]. destruct (Hbus b eq_refl) as [H1 H2]. split; [|by eapply (bstep_conserves Bridge.LStop)].
    unfold bridgeStop in Es. destruct (brStopped b); [done|]. simplify_eq/=.
    split; [|done]. intros _. rewrite elem_of_app, list_elem_of_singleton. by right.
  - destruct (gcEvents (LStop meets) (prGC p)) as [g|]; [|done]. simplify_eq/=.
    apply Hmk; simpl; try done. by apply busInv_ran.
  - simplify_eq. apply Hmk; simpl; try done; [by unfold hasBridge; simpl; destruct (prBus p)|].
    apply busInv_ran; [done|]. destruct (prBus p) as [b|]; [|done]. simpl. by eapply (busInv_step Bridge.LCancel).
Qed.

Lemma pstep_inv derivation l p q : pstep l p = Some q -> procInv derivation p -> procInv derivation q.
Proof.
  intros Hs HI. pose proof (procInv_bus _ _ HI) as Hbus.
  assert (forall c, prMain p <> Exit c) as Hex by (intros c Hc; unfold pstep in Hs; by rewrite Hc in Hs).
  assert (forall q0, prMain q0 = prMain p -> prRan q0 = prRan p -> prReaper q0 = prReaper p ->
    prRedis q0 = prRedis p -> prDb q0 = prDb p -> prSignal q0 = prSignal p -> prShutdown q0 = prShutdown p ->
    hasBridge q0 = hasBridge p -> busInv (prRan p) (prBus q0) -> procInv derivation q0) as Hmk.
  { intros q0 Q1 Q2 Q3 Q4 Q5 Q6 Q7 Q8 Q9. apply (procInv_same _ p); try done; [by rewrite Q6|by left]. }
  unfold pstep in Hs. destruct l.
  - (* PSignal *) destruct (prMain p) eqn:Em; [| |by destruct (Hex code)]; simplify_eq; apply cancelAll_inv; try done; by rewrite Em.
  - (* PShutdown *) destruct (prMain p) eqn:Em; [| |by destruct (Hex code)]; destruct (prSignal p) eqn:Es; simplify_eq;
      apply (procInv_same _ p); simpl; try done; try (by right); by rewrite Em.
  - (* PListenReturns *) destruct (prMain p) eqn:Em; try done. destruct (prShutdown p) eqn:Es; simplify_eq.
    destruct HI as [Hd Hb Hsh]. split; simpl; try done. unfold deferState in *. rewrite Em in Hd. simpl.
    rewrite Hd. split; [|done]. unfold hasBridge in Hb. simpl. by rewrite <- Hb.
  - (* PListenFails *) destruct (prMain p) eqn:Em; try done. destruct (prShutdown p) eqn:Es; simplify_eq.
    destruct HI as [Hd]. split; simpl; try done. unfold deferState in *. rewrite Em in Hd. by right.
  - destruct (prMain p) eqn:Em; try done; destruct (prShutdown p) eqn:Es; simplify_eq; by apply Hmk; simpl; rewrite ?Em.
  - destruct (prMain p) eqn:Em; try done; destruct (prInflight p); simplify_eq; by apply Hmk; simpl; rewrite ?Em.
  - destruct (prMain p) eqn:Em; try done; destruct (prDb p) eqn:Ed; simplify_eq; apply Hmk; simpl; rewrite ?Em; done.
  - destruct (prMain p) eqn:Em; try done; destruct (prBusy p); simplify_eq; by apply Hmk; simpl; rewrite ?Em.
  - (* PCommitted *) assert (procInv derivation (setBus (busFileCommitted e (prBus p)).2 p)) as Hc.
    { apply Hmk; simpl; try done; [by unfold hasBridge; simpl; destruct (prBus p)|].
      destruct (prBus p) as [b|]; [|done]. simpl. by apply (busInv_step (LPublish e) _ b). }
    destruct (prMain p) eqn:Em; try done; destruct (prInflight p); by simplify_eq.
  - (* PBridge *) assert (forall b b', prBus p = Some b -> ownStep l = true -> bstep l b = Some b' ->
      procInv derivation (setBus (Some b') p)) as Hc.
    { intros b b' Hb Ho Hst. apply Hmk; simpl; try done; [by unfold hasBridge; rewrite Hb|]. rewrite Hb in Hbus.
      by apply (busInv_step l _ b); [|destruct l|]. }
    destruct (prMain p) eqn:Em; try done; destruct (ownStep l) eqn:Eo; try done;
      destruct (prBus p) as [b|] eqn:Eb; try done; simpl in Hs; destruct (bstep l b) eqn:Est; try done; simplify_eq/=; eauto.
  - (* PGc *) destruct (prMain p) eqn:Em; try done; destruct e; try done;
      (match type of Hs with context [gcEvents ?e ?g] => destruct (gcEvents e g) end; [|done]);
      simplify_eq/=; apply Hmk; simpl; rewrite ?Em; done.
  - (* PDefer *) destruct (prMain p) as [|[|d rest]|] eqn:Em; try done. destruct (dbCloseWaits p); [done|].
    by eapply runDeferred_inv.
  - (* PExit *) destruct (prMain p) as [|[|d rest]|] eqn:Em; try done. destruct (dbCloseWaits p) eqn:Ew; [done|]. simplify_eq.
    assert (DDbClose ∈ prRan p) as Hdb.
    { destruct HI as [Hd]. unfold deferState in Hd. rewrite Em, app_nil_r in Hd. destruct Hd as [-> _].
      destruct derivation; simpl; set_solver. }
    destruct HI as [Hd ? ? ? ? ? ? Hdb']. split; simpl; try done. unfold deferState in *. rewrite Em, app_nil_r in Hd.
    destruct Hd as [Hd1 Hd2]. left. split_and!; try done. apply Hdb' in Hdb. unfold dbCloseWaits in Ew. rewrite Hdb in Ew.
    simpl in Ew. apply negb_false_iff in Ew. by apply Nat.eqb_eq.
Qed.

Lemma psteps_inv derivation ls p q : psteps ls p = Some q -> procInv derivation p -> procInv derivation q.
Proof.
  revert p. induction ls as [|l ls IH]; intros p Hr HI; simpl in *; [by simplify_eq|].
  destruct (pstep l p) as [p1|] eqn:E; [|done]. simpl in Hr. apply (IH p1 Hr). by eapply pstep_inv.
Qed.

Lemma psteps_app ls1 ls2 p : psteps (ls1 ++ ls2) p = (psteps ls1 p ≫= psteps ls2).
Proof. revert p. induction ls1 as [|l ls1 IH]; intros p; [done|]. simpl. destruct (pstep l p); simpl; [apply IH|done]. Qed.

(** ** Shutting down *)

Lemma gives_run k p : (forall c, prMain p <> Exit c) -> prBusy p = k ->
  psteps (replicate k PGive) p = Some (setLoad (prInflight p) 0 p).
Proof.
  revert p. induction k as [|k IH]; intros p Hex Hk; simpl; [destruct p; simpl in *; by subst|].
  assert (pstep PGive p = Some (setLoad (prInflight p) k p)) as ->.
  { unfold pstep. destruct (prMain p) eqn:Em; [| |by destruct (Hex code)]; by rewrite Hk. }
  simpl. by rewrite IH.
Qed.

Lemma gcStop_possible (g : loops X) : exists meets g', gcEvents (LStop meets) g = Some g'.
Proof.
  destruct (decide (Waiting ∈ lsPcs g)) as [Hw|Hw].
  - apply list_elem_of_lookup in Hw as [i Hi]. exists (Some i). unfold gcEvents. simpl. rewrite bool_decide_true by done. eauto.
  - exists None. unfold gcEvents. simpl. rewrite bool_decide_false by done. eauto.
Qed.

Lemma runDeferred_possible derivation d rest p : procInv derivation p -> prMain p = Deferring (d :: rest) ->
  exists meets q, runDeferred d meets (setMain (Deferring rest) p) = Some q /\ prBusy q = prBusy p.
Proof.
  intros HI Hm. destruct (gcStop_possible (prGC p)) as (meets & g' & Hg). exists meets.
  destruct d; try (by eexists). 2: { simpl. rewrite Hg. by eexists. }
  destruct HI as [Hd Hb _ Hst]. unfold deferState in Hd. rewrite Hm in Hd. destruct Hd as [Hd _].
  assert (DBridgeStop ∉ deferOrder false) as Hno by (apply (bool_decide_unpack _); done).
  destruct derivation; [|by destruct Hno; rewrite <- Hd, elem_of_app; right; left].
  unfold hasBridge in Hb. destruct (prBus p) as [b|] eqn:Eb; [|done].
  assert (prRan p = []) as Hran.
  { destruct (prRan p) as [|x l]; [done|]. injection Hd as -> Hd. destruct Hno.
    change (deferOrder false) with [DGcStop; DReaperStop; DRedisClose; DDbClose; DCancel]. rewrite <- Hd, elem_of_app. right. left. }
  simpl. rewrite Eb. simpl. unfold bridgeStop. specialize (Hst b eq_refl). rewrite Hran in Hst.
  destruct (brStopped b); [|by eexists]. by destruct (proj1 (elem_of_nil _) (proj1 Hst eq_refl)).
Qed.

Lemma defers_run derivation rest p : procInv derivation p -> prMain p = Deferring rest -> prBusy p = 0%nat ->
  exists ls q, psteps ls p = Some q /\ prMain q = Exit 0 /\ length ls = S (length rest).
Proof.
  revert p. induction rest as [|d rest IH]; intros p HI Hm Hb;
    (assert (dbCloseWaits p = false) as Hw by (unfold dbCloseWaits; rewrite Hb; by rewrite andb_false_r)).
  - exists [PExit], (setMain (Exit 0) p). simpl. unfold pstep. by rewrite Hm, Hw.
  - destruct (runDeferred_possible _ _ _ _ HI Hm) as (meets & q & Hq & Hbq).
    destruct (runDeferred_inv _ _ _ _ _ _ HI Hm Hq) as [HI' Hm'].
    destruct (IH q HI' Hm') as (ls & q' & Hr & He & Hl); [by rewrite Hbq|].
    exists (PDefer meets :: ls), q'. split_and!; [|done|simpl; by rewrite Hl].
    simpl. unfold pstep. rewrite Hm, Hw, Hq. done.
Qed.

(** After a signal the process can always exit. *)
Lemma can_exit derivation p : procInv derivation p -> prSignal p = true -> (forall c, prMain p <> Exit c) ->
  exists ls q, psteps ls p = Some q /\ prMain q = Exit 0 /\ (length ls <= prBusy p + 9)%nat.
Proof.
  intros HI Hsig Hex. pose proof (gives_run (prBusy p) p Hex eq_refl) as Hg.
  set (p0 := setLoad (prInflight p) 0 p) in *.
  assert (procInv derivation p0) as HI0 by (by eapply psteps_inv).
  destruct (prMain p) as [|rest|c] eqn:Em; [| |by destruct (Hex c)].
  - assert (exists p1, psteps [PShutdown; PListenReturns] p0 = Some p1 /\ prBusy p1 = 0%nat /\
      exists rest, prMain p1 = Deferring rest /\ (length rest <= 6)%nat) as (p1 & H1 & Hb1 & rest & Hm1 & Hl1).
    { assert (exists p1, pstep PShutdown p0 = Some p1 /\ prMain p1 = Serving /\ prShutdown p1 = true /\ prBusy p1 = 0%nat)
        as (p1 & H1 & H2 & H3 & H4) by (unfold pstep, p0; simpl; rewrite Em, Hsig; eauto).
      assert (pstep PListenReturns p1 = Some (setMain (Deferring (deferOrder (hasBridge p1))) p1)) as H5
        by (unfold pstep; by rewrite H2, H3).
      eexists. split; [simpl; rewrite H1; simpl; by rewrite H5|]. split; [done|].
      eexists. split; [done|]. destruct (hasBridge p1); simpl; lia. }
    destruct (defers_run derivation rest p1) as (ls & q & Hr & He & Hl); [by eapply psteps_inv|done|done|].
    exists (replicate (prBusy p) PGive ++ [PShutdown; PListenReturns] ++ ls), q.
    rewrite !psteps_app, Hg. cbn [mbind option_bind]. rewrite psteps_app, H1. split_and!; [done|done|].
    rewrite !length_app, length_replicate. simpl. lia.
  - assert (length rest <= 6)%nat as Hl1.
    { destruct HI as [Hd]. unfold deferState in Hd. rewrite Em in Hd. destruct Hd as [Hd _].
      apply (f_equal length) in Hd. rewrite length_app in Hd. destruct derivation; simpl in Hd; lia. }
    destruct (defers_run derivation rest p0) as (ls & q & Hr & He & Hl); [done|done|done|].
    exists (replicate (prBusy p) PGive ++ ls), q. rewrite psteps_app, Hg. split_and!; [done|done|].
    rewrite length_app, length_replicate. lia.
Qed.

End process.


(** What main runs when it is told to stop. *)
Definition stopSteps : list plabel :=
  [PSignal; PShutdown; PListenReturns; PDefer None; PDefer (Some 0%nat); PDefer None; PDefer None; PDefer None; PDefer None; PExit].

Definition idleJob (_ : nat) (_ : Z) (x : unit) : unit := x.


(** Main does not wait for [Shutdown], which closes the listener first and then waits for the
    requests in flight: the process may exit with a request half way through, and with an
    accepted derivation event that the stopped consumer has not processed. *)
Lemma shutdown_abandons_requests : exists p b,
  psteps idleJob ([PRequest; PTake; PGive; PCommitted demoCommitted] ++ stopSteps) (serving true tt) = Some p /\
  prMain p = Exit 0 /\ prInflight p = 1%nat /\ prBus p = Some b /\ brEvents b = [toEvent demoCommitted].
Proof. eexists _, _. split; [vm_compute; reflexivity|]. by vm_compute. Qed.

(** A listener that fails makes the program exit with status 1 and leaves everything open. *)
Lemma listen_failure_skips_defers : exists p,
  psteps idleJob [PRequest; PListenFails] (serving true tt) = Some p /\ prMain p = Exit 1 /\ prRan p = [] /\ prDb p = true.
Proof. eexists. split; [vm_compute; reflexivity|]. done. Qed.

(** Every tombstone of the collector is published successfully and reaches nobody, whichever
    bus cmd/ingest runs with. *)
Theorem ingest_tombstones_vanish (topic : string) (e : TombstoneEvent) (bus : ingestBus) :
  PublishBlockTombstone topic e bus = (Ok tt, bus).
Proof. by destruct bus. Qed.

#[local] Arguments gcEvents : simpl never.

Section keeps.
Context {X : Type} (job : nat -> Z -> X -> X) (I : X -> Prop) (HJ : forall i now x, I x -> I (job i now x)).

Lemma gcEvents_keeps e (g g' : loops X) : gcEvents job e g = Some g' -> I (lsState g) -> I (lsState g').
Proof.
  intros He HI. apply (loopRun_keeps job noLeave I HJ (fun _ _ x H => H) [e] g g'); [|done].
  simpl. unfold gcEvents in He. by rewrite He.
Qed.

Lemma cancelAll_keeps p : I (lsState (prGC p)) -> I (lsState (prGC (cancelAll job p))).
Proof. done. Qed.

Lemma runDeferred_keeps d meets p q : runDeferred job d meets p = Some q -> I (lsState (prGC p)) -> I (lsState (prGC q)).
Proof.
  intros Hr HI. destruct d; cbn [runDeferred] in Hr; try (by simplify_eq).
  - destruct (prBus p) as [b|]; [|done]. cbn [mbind option_bind] in Hr. by destruct (bridgeStop b); simplify_eq/=.
  - destruct (gcEvents job (LStop meets) (prGC p)) as [g|] eqn:Eg; [|done]. simplify_eq/=. by eapply gcEvents_keeps.
Qed.

Lemma pstep_keeps l p q : pstep job l p = Some q -> I (lsState (prGC p)) -> I (lsState (prGC q)).
Proof.
  intros E HI. unfold pstep in E. destruct l.
  11: { destruct (prMain p); try done; destruct e; try done;
      (match type of E with context [gcEvents _ ?e ?g] => destruct (gcEvents job e g) eqn:Eg end; [|done]);
      simplify_eq/=; by eapply gcEvents_keeps. }
  11: { destruct (prMain p) as [|[|d rest]|]; try done. destruct (dbCloseWaits p); [done|].
    by apply runDeferred_keeps in E. }
  10: { destruct (prMain p); try done; destruct (ownStep l); try done; destruct (prBus p) as [b|]; try done;
    cbn [mbind option_bind] in E; by destruct (bstep l b); simplify_eq/=. }
  all: destruct (prMain p); try done; repeat case_match; by simplify_eq/=.
Qed.

(** An invariant of the collector's jobs holds along every run of the process. *)
Lemma process_keeps ls p q : psteps job ls p = Some q -> I (lsState (prGC p)) -> I (lsState (prGC q)).
Proof.
  revert p. induction ls as [|l ls IH]; intros p Hr HI; simpl in Hr; [by simplify_eq|].
  destruct (pstep job l p) as [p1|] eqn:E; [|done]. apply (IH p1 Hr). by eapply pstep_keeps.
Qed.

End keeps.
