(* ===== verification/Wire.v ===== *)
(** * The ingress API over HTTP

    The JSON form of the requests and responses of [models.go] and the routing of
    [server.go]: [SetupRoutes] with the rate limiter, [wrap], [decodeJSON], [writeJSON],
    [writeError] and the health endpoints, over any [Store].  [jsonLen] is the length of a
    document's text. *)
From S2P Require Import Prelude GoLib Json External Database Schema Ingress Handlers RateLimit.

(** ** HTTP messages *)

Inductive httpBody := BNone | BJson (j : json) | BBytes (b : list ascii).

Record HTTPRequest := mkReq {
  rqMethod : string; rqURL : string; rqHeaders : list (string * string); rqBody : httpBody
}.

(** [rsBody = None]: the body is not JSON. *)
Record HTTPResponse := mkResp { rsCode : Z; rsBody : option json }.

(** [Header.Get]: the first value, empty when absent. *)
Fixpoint headerGet (k : string) (hs : list (string * string)) : string :=
  match hs with
  | [] => ""
  | (k', v) :: hs' => if String.eqb k' k then v else headerGet k hs'
  end.

(** ** The JSON form of the models *)

Definition unmarshalChunkInfo : decoder ChunkInfo := fun j =>
  fs ← dFields j;
  h ← field dString "" "block_hash" fs;
  n ← field dInt64 0 "size_bytes" fs;
  Some (mkChunkInfo h n).

Definition unmarshalInitiateRequest : decoder InitiateRequest := fun j =>
  fs ← dFields j;
  t ← field dString "" "tenant_id" fs;
  f ← field dString "" "file_name" fs;
  p ← field (dPtr dString) None "parent_id" fs;
  n ← field (dPtr dString) None "node_id" fs;
  sz ← field dInt64 0 "total_size_bytes" fs;
  cs ← field (dList unmarshalChunkInfo) [] "chunks" fs;
  Some (mkInit t f p n sz cs).

Definition unmarshalBlockMeta : decoder BlockMeta := fun j =>
  fs ← dFields j;
  h ← field dString "" "block_hash" fs;
  i ← field dInt64 0 "chunk_index" fs;
  o ← field dInt64 0 "offset_bytes" fs;
  n ← field dInt64 0 "size_bytes" fs;
  e ← field dString "" "etag" fs;
  Some (mkBlock h i o n e).

Definition unmarshalCommitRequest : decoder CommitRequest := fun j =>
  fs ← dFields j;
  s ← field dString "" "session_id" fs;
  c ← field dString "" "content_sha256" fs;
  m ← field dString "" "mime_type" fs;
  bs ← field (dList unmarshalBlockMeta) [] "blocks" fs;
  Some (mkCommit s c m bs).

Definition marshalUploadURL (u : UploadURL) : json :=
  JObj [("block_hash", JStr (uuHash u)); ("url", JStr (uuURL u)); ("size_bytes", JNum (uuSize u))].

(** A response without upload URLs holds a nil slice, written as [null]. *)
Definition marshalInitiateResponse (r : InitiateResponse) : json :=
  JObj [("session_id", JStr (ipSession r)); ("node_id", JStr (ipNode r));
        ("expires_at", JStr (rfc3339 0 (ipExpires r / 1000000000)));
        ("upload_urls", match ipURLs r with [] => JNull | us => JArr (marshalUploadURL <$> us) end)].

Definition marshalCommitResponse (r : CommitResponse) : json :=
  JObj [("version_id", JStr (cpVersion r)); ("version_number", JNum (cpNumber r))].

(** ** Errors as text: the sentinel's message (without the detail that follows it) *)

Definition writeJSON (status : Z) (v : json) : HTTPResponse := mkResp status (Some v).
Definition writeError (status : Z) (msg : string) : HTTPResponse := mkResp status (Some (JObj [("error", JStr msg)])).

(** ** Routing *)

Section routes.
Context `{U : UUID} {S : Type} `{St : Store S}.
(** The length of a body's encoding and the text of an error are parameters: no decision of
    the server depends on the text. *)
Context (jsonLen : json -> Z) (errText : ierr -> string).

(** [decodeJSON] behind [MaxBytesReader]: an empty, oversized or undecodable body is no
    request. *)
Definition decodeJSON {A} (srv : IngressServer) (b : httpBody) (d : decoder A) : option A :=
  match b with
  | BJson j => if srvMaxBody srv <? jsonLen j then None else d j
  | _ => None
  end.

(** A running server: the store, the events published so far, how many identifiers were
    drawn, and the rate limiter's buckets ([None]: no limiter configured). *)
Record serving := mkServing {
  svStore : S; svEvents : list FileCommittedEvent; svDrawn : nat; svLimiter : option RateLimiter
}.

(** [wrap]: authentication, then the handler, then error mapping. *)
Definition serveWrapped {A} (srv : IngressServer) (hdr : string) (okStatus : Z) (enc : A -> json)
    (fn : serving -> result ierr A * serving) (s : serving) : HTTPResponse * serving :=
  if negb (authenticate srv hdr) then (writeError 401 "unauthorized", s)
  else match fn s with
  | (Ok a, s') => (writeJSON okStatus (enc a), s')
  | (Err e, s') => (writeError (HTTPStatus (Some e)) (errText e), s')
  end.

Definition serveInitiate (ids : nat -> uuid) (srv : IngressServer) (rq : HTTPRequest) (s : serving)
    : result ierr InitiateResponse * serving :=
  let n := svDrawn s in
  let '(r, st) := handleInitiate srv (ids n) (ids (1 + n)%nat)
                    (decodeJSON srv (rqBody rq) unmarshalInitiateRequest) (svStore s) in
  (r, mkServing st (svEvents s) (2 + n) (svLimiter s)).

Definition serveCommit (ids : nat -> uuid) (srv : IngressServer) (rq : HTTPRequest) (s : serving)
    : result ierr CommitResponse * serving :=
  let n := svDrawn s in
  let '(r, evs, st) := handleCommit srv (ids n) (ids (1 + n)%nat)
                         (decodeJSON srv (rqBody rq) unmarshalCommitRequest) (svEvents s) (svStore s) in
  (r, mkServing st evs (2 + n) (svLimiter s)).

(** [RateLimiter.AllowHTTP] around a handler, when a limiter is configured. *)
Definition limited (rq : HTTPRequest) (h : serving -> HTTPResponse * serving) (s : serving)
    : HTTPResponse * serving :=
  match svLimiter s with
  | None => h s
  | Some rl =>
      let now := Now (svStore s) in
      let '(ok, rl') := AllowHTTP (headerGet "X-Tenant-ID" (rqHeaders rq)) now now true false rl in
      let s' := mkServing (svStore s) (svEvents s) (svDrawn s) (Some rl') in
      if ok then h s' else (writeError 429 "rate limit exceeded", s')
  end.

Definition initiatePath : string := "/api/v1/ingest/initiate".
Definition commitPath : string := "/api/v1/ingest/commit".

Definition handleHealthz : HTTPResponse := writeJSON 200 (JObj [("status", JStr "ok")]).

(** [SetupRoutes] and the multiplexer: [path] is the path of the request. *)
Definition ServeHTTP (ids : nat -> uuid) (srv : IngressServer) (path : string) (rq : HTTPRequest) (s : serving)
    : HTTPResponse * serving :=
  let auth := headerGet "Authorization" (rqHeaders rq) in
  let get := String.eqb (rqMethod rq) "GET" || String.eqb (rqMethod rq) "HEAD" in
  let post := String.eqb (rqMethod rq) "POST" in
  if String.eqb path "/healthz" then
    if get then (handleHealthz, s) else (mkResp 405 None, s)
  else if String.eqb path "/readyz" then
    if get then
      let '(code, st) := handleReadyz (svStore s) in
      let s' := mkServing st (svEvents s) (svDrawn s) (svLimiter s) in
      (if code =? 200 then writeJSON 200 (JObj [("status", JStr "ready")])
       else writeError code "database unreachable", s')
    else (mkResp 405 None, s)
  else if String.eqb path initiatePath then
    if post then limited rq (serveWrapped srv auth 200 marshalInitiateResponse (serveInitiate ids srv rq)) s
    else (mkResp 405 None, s)
  else if String.eqb path commitPath then
    if post then limited rq (serveWrapped srv auth 201 marshalCommitResponse (serveCommit ids srv rq)) s
    else (mkResp 405 None, s)
  else (mkResp 404 None, s).

End routes.

#[global] Arguments serving S : clear implicits.
#[global] Arguments mkServing {S}.
