(* ===== verification/Client.v ===== *)
(** * aegis: the client SDK

    [client.go], [upload.go], [session.go] and [protocol.go].  The HTTP client is the type
    class [Transport]; files are opened through [os_Open], whose argument numbers the opens
    of a run (a file may change or disappear between two of them); errors are their text.
    The goroutines of [uploadChunksParallel] are a transition system: a schedule is a list
    of events.  Saved sessions and the rates of progress reports are in [Session]; wall-clock
    durations are left out. *)
From S2P Require Import Prelude GoLib FastCDC Json External Database Schema Ingress Handlers RateLimit Wire.

(** ** Requests and responses ([protocol.go]) *)

Definition marshalChunkInfo (c : ChunkInfo) : json :=
  JObj [("block_hash", JStr (ciHash c)); ("size_bytes", JNum (ciSize c))].

Definition marshalInitiateRequest (r : InitiateRequest) : json :=
  JObj ([("tenant_id", JStr (irTenant r)); ("file_name", JStr (irFile r))] ++
        omitPtr "parent_id" (irParent r) ++ omitPtr "node_id" (irNode r) ++
        [("total_size_bytes", JNum (irTotal r)); ("chunks", JArr (marshalChunkInfo <$> irChunks r))]).

Definition marshalBlockMeta (b : BlockMeta) : json :=
  JObj ([("block_hash", JStr (bmHash b)); ("chunk_index", JNum (bmIndex b));
         ("offset_bytes", JNum (bmOffset b)); ("size_bytes", JNum (bmSize b))] ++ omitStr "etag" (bmETag b)).

Definition marshalCommitRequest (r : CommitRequest) : json :=
  JObj ([("session_id", JStr (crSession r)); ("content_sha256", JStr (crSHA r))] ++
        omitStr "mime_type" (crMime r) ++ [("blocks", JArr (marshalBlockMeta <$> crBlocks r))]).

Definition unmarshalUploadURL : decoder UploadURL := fun j =>
  fs ← dFields j;
  h ← field dString "" "block_hash" fs;
  u ← field dString "" "url" fs;
  n ← field dInt64 0 "size_bytes" fs;
  Some (mkUpload h u n).

(** The client keeps [expires_at] as text. *)
Record ClientInitResponse := mkCInit {
  cirSession : string; cirNode : string; cirExpires : string; cirURLs : list UploadURL
}.

Definition unmarshalInitiateResponse : decoder ClientInitResponse := fun j =>
  fs ← dFields j;
  s ← field dString "" "session_id" fs;
  n ← field dString "" "node_id" fs;
  e ← field dString "" "expires_at" fs;
  us ← field (dList unmarshalUploadURL) [] "upload_urls" fs;
  Some (mkCInit s n e us).

Definition unmarshalCommitResponse : decoder CommitResponse := fun j =>
  fs ← dFields j;
  v ← field dString "" "version_id" fs;
  n ← field dInt64 0 "version_number" fs;
  Some (mkCommitResp v n).

Definition unmarshalAPIError : decoder string := fun j => fs ← dFields j; field dString "" "error" fs.

(** ** The client ([client.go]) *)

Record httpClient := mkHTTPClient { hcTimeout : Z }.

Record Client := mkClient { endpoint : string; tenantID : string; apiToken : string; clHTTP : httpClient }.

Definition Option : Type := Client -> Client.
Definition WithHTTPClient (h : httpClient) : Option := fun c => mkClient (endpoint c) (tenantID c) (apiToken c) h.
Definition WithTimeout (d : Z) : Option := fun c => mkClient (endpoint c) (tenantID c) (apiToken c) (mkHTTPClient d).

(** [strings.TrimRight(s, "/")]. *)
Fixpoint trimRightSlash (s : string) : string :=
  match s with
  | EmptyString => EmptyString
  | String c s' =>
      match trimRightSlash s' with
      | EmptyString => if Ascii.eqb c "/"%char then EmptyString else String c EmptyString
      | t => String c t
      end
  end.

Definition NewClient (ep tenant token : string) (opts : list Option) : Client :=
  foldl (fun c opt => opt c)
    (mkClient (trimRightSlash ep) tenant token (mkHTTPClient (5 * 60 * 1000000000))) opts.

Record UploadOptions := mkOpts {
  optFile : string; optTarget : string; optParent : option string; optNode : option string; optMime : string;
  optProgress : bool; optOnChunk : bool      (** whether the callbacks are set *)
}.

Record UploadResult := mkResult {
  urVersion : string; urNumber : Z; urNode : string; urSession : string; urUploaded : Z; urDedup : Z
}.

(** ** HTTP *)

(** [NewRequest method url] is the error of [http.NewRequestWithContext], if any; [Do]
    sends a request; [Status] is the status line of a response and [DecodeError] the error of
    decoding its body. *)
Class Transport (S : Type) := {
  NewRequest : string -> string -> option string;
  Do : HTTPRequest -> S -> result string HTTPResponse * S;
  Status : HTTPResponse -> string;
  DecodeError : HTTPResponse -> string
}.

Section client.
Context {S : Type} `{T : Transport S}.

Definition jsonHeaders (c : Client) : list (string * string) :=
  ("Content-Type", "application/json") ::
  (if bool_decide (apiToken c = "") then [] else [("Authorization", "Bearer " +:+ apiToken c)]).

(** When the error body does not decode, the status line is the message. *)
Definition doJSON {A} (c : Client) (method path : string) (body : json) (decode : decoder A) (s : S)
    : result string A * S :=
  match NewRequest method (endpoint c +:+ path) with
  | Some e => (Err ("create request: " +:+ e), s)
  | None =>
      match Do (mkReq method (endpoint c +:+ path) (jsonHeaders c) (BJson body)) s with
      | (Err e, s') => (Err ("http request: " +:+ e), s')
      | (Ok resp, s') =>
          if 400 <=? rsCode resp then
            let msg := match rsBody resp ≫= unmarshalAPIError with
                       | Some m => m
                       | None => Status resp
                       end in
            (Err ("HTTP " +:+ format_int (rsCode resp) +:+ ": " +:+ msg), s')
          else match rsBody resp ≫= decode with
          | Some a => (Ok a, s')
          | None => (Err ("decode response: " +:+ DecodeError resp), s')
          end
      end
  end.

Definition initiateUpload (c : Client) (req : InitiateRequest) (s : S) : result string ClientInitResponse * S :=
  doJSON c "POST" "/api/v1/ingest/initiate" (marshalInitiateRequest req) unmarshalInitiateResponse s.

Definition commitUpload (c : Client) (req : CommitRequest) (s : S) : result string CommitResponse * S :=
  doJSON c "POST" "/api/v1/ingest/commit" (marshalCommitRequest req) unmarshalCommitResponse s.

(** ** One chunk ([upload.go]) *)

Definition defaultMaxParallel : Z := 10.
Definition defaultMaxRetries : Z := 5.
Definition defaultBaseDelay : Z := 1000000000.
Definition defaultMaxDelay : Z := 16 * 1000000000.

(** The [float64] product is exact below the cap. *)
Definition clientBackoffDelay (attempt : Z) : Z := Z.min (defaultBaseDelay * 2 ^ attempt) defaultMaxDelay.

Definition clientTransientPatterns : list string :=
  ["timeout"; "connection reset"; "connection refused"; "broken pipe"; "EOF"; "i/o timeout";
   "HTTP 502"; "HTTP 503"; "HTTP 504"].

Definition isTransientError (err : option string) : bool :=
  match err with
  | None => false
  | Some msg => existsb (fun p => contains (to_lower msg) (to_lower p)) clientTransientPatterns
  end.

Definition putRequest (url : string) (data : list ascii) : HTTPRequest :=
  mkReq "PUT" url [("Content-Length", format_int (zlen data))] (BBytes data).

Definition putChunk (url : string) (data : list ascii) (s : S) : option string * S :=
  match NewRequest "PUT" url with
  | Some e => (Some ("create request: " +:+ e), s)
  | None =>
      match Do (putRequest url data) s with
      | (Err e, s') => (Some ("http put: " +:+ e), s')
      | (Ok resp, s') =>
          if 300 <=? rsCode resp
          then (Some ("HTTP " +:+ format_int (rsCode resp) +:+ " uploading chunk"), s')
          else (None, s')
      end
  end.

(** An open file: its size, a reader from the start, and [ReadAt]. *)
Record file := mkFile {
  fStat : result string Z; fReader : Reader; fReadAt : Z -> Z -> list ascii * option ioerr
}.

Definition ioText (e : ioerr) : string :=
  match e with EOF => "EOF" | ErrUnexpectedEOF => "unexpected EOF" | ReaderErr m => m end.

(** A short read is not an error. *)
Definition readChunkFromFile (f : file) (ch : Chunk) : result string (list ascii) :=
  let '(b, err) := fReadAt f (Offset ch) (Size ch) in
  match err with
  | Some e => if bool_decide (e = EOF) then Ok (ztake (Size ch) b)
              else Err ("ReadAt offset=" +:+ format_int (Offset ch) +:+ " size=" +:+ format_int (Size ch) +:+
                        ": " +:+ ioText e)
  | None => Ok (ztake (Size ch) b)
  end.

Definition chunkErr (ch : Chunk) (mid e : string) : string :=
  "chunk " +:+ str_take 12 (HashHex ch) +:+ mid +:+ e.

(** ** The parallel upload *)

Record workItem := mkItem { wiChunk : Chunk; wiURL : UploadURL }.

(** Where a goroutine is: before the semaphore, about to read, about to [PUT] for the
    [k]-th time, waiting after a transient failure, after the [PUT] succeeded, calling back,
    counting, sending its result, releasing the semaphore, finished. *)
Inductive pc :=
| PStart
| PRead
| PTry (k : Z) (data : list ascii)
| PWait (k : Z) (data : list ascii) (lastErr : string)
| PProgress
| PNotify (uploaded : Z)
| PCount
| PSend (r : option string)
| PRelease (r : option string)
| PDone (r : option string).

(** [usSem] is the number of tokens in the semaphore channel, [usChan] the buffered
    [errChan], [usTotal] the atomic counter, [usBytes] the counter of [uploadState],
    [usProgress] and [usComplete] the calls of the two callbacks, [usMain] the values
    [uploadChunksParallel] returned. *)
Record upState := mkUp {
  usWorkers : list pc; usSem : Z; usChan : list (option string); usTotal : Z; usBytes : Z;
  usProgress : list (Z * Z); usComplete : list ChunkInfo; usMain : option (Z * option string); usNet : S
}.

Inductive upEvent :=
| UAcquire (i : nat) | URead (i : nat) | UPut (i : nat) | UTimer (i : nat) | UCancel (i : nat) (err : string)
| UProgress (i : nat) | UNotify (i : nat) | UCount (i : nat) | USend (i : nat) | URelease (i : nat)
| URecv | UClosed.

Definition setPc (i : nat) (p : pc) (s : upState) : upState :=
  mkUp (<[i := p]> (usWorkers s)) (usSem s) (usChan s) (usTotal s) (usBytes s) (usProgress s) (usComplete s)
       (usMain s) (usNet s).

Definition setSem (n : Z) (s : upState) : upState :=
  mkUp (usWorkers s) n (usChan s) (usTotal s) (usBytes s) (usProgress s) (usComplete s) (usMain s) (usNet s).

Definition setChan (c : list (option string)) (s : upState) : upState :=
  mkUp (usWorkers s) (usSem s) c (usTotal s) (usBytes s) (usProgress s) (usComplete s) (usMain s) (usNet s).

Definition setNet (n : S) (s : upState) : upState :=
  mkUp (usWorkers s) (usSem s) (usChan s) (usTotal s) (usBytes s) (usProgress s) (usComplete s) (usMain s) n.

Definition setMain (r : Z * option string) (s : upState) : upState :=
  mkUp (usWorkers s) (usSem s) (usChan s) (usTotal s) (usBytes s) (usProgress s) (usComplete s) (Some r) (usNet s).

(** [chunkComplete] up to the unlock: the new byte count. *)
Definition addBytes (n : Z) (s : upState) : Z * upState :=
  let b := int64 (usBytes s + n) in
  (b, mkUp (usWorkers s) (usSem s) (usChan s) (usTotal s) b (usProgress s) (usComplete s) (usMain s) (usNet s)).

(** The callbacks: no progress report without a callback or for an empty file. *)
Definition notify (opts : UploadOptions) (total uploaded : Z) (ch : Chunk) (s : upState) : upState :=
  mkUp (usWorkers s) (usSem s) (usChan s) (usTotal s) (usBytes s)
    (usProgress s ++ (if optProgress opts && negb (total =? 0) then [(uploaded, total)] else []))
    (usComplete s ++ (if optOnChunk opts then [mkChunkInfo (HashHex ch) (Size ch)] else []))
    (usMain s) (usNet s).

Definition addTotal (n : Z) (s : upState) : upState :=
  mkUp (usWorkers s) (usSem s) (usChan s) (int64 (usTotal s + n)) (usBytes s) (usProgress s) (usComplete s)
    (usMain s) (usNet s).

(** One step of [uploadChunkWithRetry] after [putChunk] answered. *)
Definition afterPut (ch : Chunk) (k : Z) (data : list ascii) (err : option string) : pc :=
  match err with
  | None => PProgress
  | Some e => if isTransientError (Some e) then PWait k data e else PSend (Some (chunkErr ch ": " e))
  end.

(** The wait is over: next attempt, or the retries are used up. *)
Definition afterWait (ch : Chunk) (k : Z) (data : list ascii) (lastErr : string) : pc :=
  if k + 1 <? defaultMaxRetries then PTry (k + 1) data
  else PSend (Some (chunkErr ch ": " ("failed after " +:+ format_int defaultMaxRetries +:+ " retries: " +:+ lastErr))).

Definition isDone (p : pc) : bool := match p with PDone _ => true | _ => false end.

(** [None]: the event cannot happen in this state. *)
Definition upStep (opts : UploadOptions) (f : file) (total : Z) (work : list workItem) (e : upEvent) (s : upState)
    : option upState :=
  match e with
  | UAcquire i =>
      match usWorkers s !! i with
      | Some PStart => if usSem s <? defaultMaxParallel then Some (setPc i PRead (setSem (usSem s + 1) s)) else None
      | _ => None
      end
  | URead i =>
      match usWorkers s !! i, work !! i with
      | Some PRead, Some it =>
          Some (setPc i (match readChunkFromFile f (wiChunk it) with
                         | Err e => PSend (Some (chunkErr (wiChunk it) " read: " e))
                         | Ok d => PTry 0 d
                         end) s)
      | _, _ => None
      end
  | UPut i =>
      match usWorkers s !! i, work !! i with
      | Some (PTry k d), Some it =>
          let '(err, net) := putChunk (uuURL (wiURL it)) d (usNet s) in
          Some (setPc i (afterPut (wiChunk it) k d err) (setNet net s))
      | _, _ => None
      end
  | UTimer i =>
      match usWorkers s !! i, work !! i with
      | Some (PWait k d le), Some it => Some (setPc i (afterWait (wiChunk it) k d le) s)
      | _, _ => None
      end
  | UCancel i err =>
      match usWorkers s !! i, work !! i with
      | Some (PWait k d le), Some it => Some (setPc i (PSend (Some (chunkErr (wiChunk it) ": " err))) s)
      | _, _ => None
      end
  | UProgress i =>
      match usWorkers s !! i, work !! i with
      | Some PProgress, Some it =>
          let '(b, s') := addBytes (Size (wiChunk it)) s in Some (setPc i (PNotify b) s')
      | _, _ => None
      end
  | UNotify i =>
      match usWorkers s !! i, work !! i with
      | Some (PNotify b), Some it => Some (setPc i PCount (notify opts total b (wiChunk it) s))
      | _, _ => None
      end
  | UCount i =>
      match usWorkers s !! i, work !! i with
      | Some PCount, Some it => Some (setPc i (PSend None) (addTotal (Size (wiChunk it)) s))
      | _, _ => None
      end
  | USend i =>
      match usWorkers s !! i with
      | Some (PSend r) => Some (setPc i (PRelease r) (setChan (usChan s ++ [r]) s))
      | _ => None
      end
  | URelease i =>
      match usWorkers s !! i with
      | Some (PRelease r) => Some (setPc i (PDone r) (setSem (usSem s - 1) s))
      | _ => None
      end
  | URecv =>
      match usMain s, usChan s with
      | None, None :: rest => Some (setChan rest s)
      | None, Some e :: rest => Some (setMain (usTotal s, Some e) (setChan rest s))
      | _, _ => None
      end
  | UClosed =>
      match usMain s, usChan s with
      | None, [] => if forallb isDone (usWorkers s) then Some (setMain (usTotal s, None) s) else None
      | _, _ => None
      end
  end.

(** Events that are not enabled are skipped; nothing is observed after the return. *)
Fixpoint upRun (opts : UploadOptions) (f : file) (total : Z) (work : list workItem) (sched : list upEvent)
    (s : upState) : upState :=
  match sched with
  | [] => s
  | e :: sched' =>
      match usMain s with
      | Some _ => s
      | None => upRun opts f total work sched' (default s (upStep opts f total work e s))
      end
  end.

Definition upInit (work : list workItem) (n : S) : upState :=
  mkUp ((fun _ => PStart) <$> work) 0 [] 0 0 [] [] None n.

(** The chunks that have an upload URL, in file order. *)
Definition workList (chunks : list Chunk) (urlMap : gmap string UploadURL) : list workItem :=
  omap (fun ch => mkItem ch <$> urlMap !! HashHex ch) chunks.

(** [None]: the schedule ended before the function returned. *)
Definition uploadChunksParallel (opts : UploadOptions) (f : file) (chunks : list Chunk)
    (urlMap : gmap string UploadURL) (total : Z) (sched : list upEvent) (n : S)
    : option (Z * option string) * S :=
  let work := workList chunks urlMap in
  if zlen work =? 0 then (Some (0, None), n)
  else let s := upRun opts f total work sched (upInit work n) in (usMain s, usNet s).

(** ** Whole files *)

Context (os_Open : nat -> string -> result string file).
Context (mimeTable : string -> string).      (** [mime.TypeByExtension] *)

(** [filepath.Ext]: the suffix from the last dot after the last slash. *)
Fixpoint extOf (s : string) : string :=
  match s with
  | EmptyString => EmptyString
  | String c s' =>
      match extOf s' with
      | EmptyString => if Ascii.eqb c "."%char && negb (contains s' "/") then String c s' else EmptyString
      | e => e
      end
  end.

(** [filepath.Base] on Unix: the last element, "." for the empty path and "/" for slashes. *)
Definition filepath_Base (path : string) : string :=
  if bool_decide (path = "") then "."
  else match last (split_on "/"%char (trimRightSlash path)) with
       | Some b => if bool_decide (trimRightSlash path = "") then "/" else b
       | None => "/"
       end.

Definition detectMIMEType (path : string) : string :=
  let ext := extOf path in
  if bool_decide (ext = "") then "application/octet-stream"
  else let m := mimeTable ext in if bool_decide (m = "") then "application/octet-stream" else m.

(** What a call ended in: a return, a schedule that was too short, or a panic. *)
Inductive outcome (A : Type) := Returned (r : result string A) | Running | Panicked.
Arguments Returned {A}.
Arguments Running {A}.
Arguments Panicked {A}.

(** [fastcdc.New(file).ChunkAll()]; the length of the content bounds the calls. *)
Definition chunkFile (f : file) : chunkAllResult :=
  ChunkAll (Datatypes.S (length (content (fReader f)))) (New (fReader f)) [].

Definition chunkInfos (chunks : list Chunk) : list ChunkInfo :=
  (fun ch => mkChunkInfo (HashHex ch) (Size ch)) <$> chunks.

(** Later entries for the same hash replace earlier ones. *)
Definition buildURLMap (urls : list UploadURL) : gmap string UploadURL :=
  foldl (fun m u => <[uuHash u := u]> m) ∅ urls.

Definition buildBlockMetas (chunks : list Chunk) : list BlockMeta :=
  imap (fun i ch => mkBlock (HashHex ch) (Z.of_nat i) (Offset ch) (Size ch) "") chunks.

(** Bytes of the chunks whose block is already stored; the sum is an [int64]. *)
Definition dedupBytes (urlMap : gmap string UploadURL) (chunks : list Chunk) : Z :=
  foldl (fun acc ch => match urlMap !! HashHex ch with Some _ => acc | None => int64 (acc + Size ch) end) 0 chunks.

(** Steps 8 to 10 of [UploadFile]: hash the file and commit. *)
Definition finishUpload (c : Client) (path mime : string) (init : ClientInitResponse) (chunks : list Chunk)
    (uploaded dedup : Z) (n : S) : outcome UploadResult * S :=
  match os_Open 2 path with
  | Err e => (Returned (Err ("aegis: reopen file for hash: " +:+ e)), n)
  | Ok f3 =>
      match ComputeFileSHA256FromReader (fReader f3) with
      | Err e => (Returned (Err ("aegis: compute file hash: " +:+ ioText e)), n)
      | Ok fileHash =>
          match commitUpload c (mkCommit (cirSession init) fileHash mime (buildBlockMetas chunks)) n with
          | (Err e, n') => (Returned (Err ("aegis: commit: " +:+ e)), n')
          | (Ok resp, n') =>
              (Returned (Ok (mkResult (cpVersion resp) (cpNumber resp) (cirNode init) (cirSession init)
                 uploaded dedup)), n')
          end
      end
  end.

Definition UploadFile (c : Client) (opts : UploadOptions) (sched : list upEvent) (n : S)
    : outcome UploadResult * S :=
  match os_Open 0 (optFile opts) with
  | Err e => (Returned (Err ("aegis: open file: " +:+ e)), n)
  | Ok f1 =>
      match fStat f1 with
      | Err e => (Returned (Err ("aegis: stat file: " +:+ e)), n)
      | Ok totalSize =>
          let mime := if bool_decide (optMime opts = "") then detectMIMEType (optFile opts) else optMime opts in
          match chunkFile f1 with
          | Panic | OutOfFuel => (Panicked, n)
          | Done _ (Some e) => (Returned (Err ("aegis: chunk file: " +:+ ioText e)), n)
          | Done chunks None =>
              if zlen chunks =? 0 then (Returned (Err "aegis: file produced no chunks"), n)
              else
                match initiateUpload c (mkInit (tenantID c) (filepath_Base (optFile opts)) (optParent opts)
                        (optNode opts) totalSize (chunkInfos chunks)) n with
                | (Err e, n1) => (Returned (Err ("aegis: initiate: " +:+ e)), n1)
                | (Ok init, n1) =>
                    let urlMap := buildURLMap (cirURLs init) in
                    if zlen (cirURLs init) =? 0 then
                      finishUpload c (optFile opts) mime init chunks 0 totalSize n1
                    else
                      match os_Open 1 (optFile opts) with
                      | Err e => (Returned (Err ("aegis: reopen file for upload: " +:+ e)), n1)
                      | Ok f2 =>
                          match uploadChunksParallel opts f2 chunks urlMap totalSize sched n1 with
                          | (None, n2) => (Running, n2)
                          | (Some (_, Some e), n2) => (Returned (Err ("aegis: upload chunks: " +:+ e)), n2)
                          | (Some (uploaded, None), n2) =>
                              finishUpload c (optFile opts) mime init chunks uploaded
                                (dedupBytes urlMap chunks) n2
                          end
                      end
                end
          end
      end
  end.

(** ** Resuming ([session.go]) *)

Record SessionState := mkState {
  stSession : string; stFile : string; stNode : string; stTotal : Z; stMime : string;
  stChunks : list Chunk; stUploaded : list string; stCreated : Z; stExpires : Z
}.

Definition commitSession (c : Client) (st : SessionState) (chunks : list Chunk) (n : S)
    : outcome UploadResult * SessionState * S :=
  match os_Open 1 (stFile st) with
  | Err e => (Returned (Err ("aegis: open for hash: " +:+ e)), st, n)
  | Ok f =>
      match ComputeFileSHA256FromReader (fReader f) with
      | Err e => (Returned (Err ("aegis: compute hash: " +:+ ioText e)), st, n)
      | Ok fileHash =>
          match commitUpload c (mkCommit (stSession st) fileHash (stMime st) (buildBlockMetas chunks)) n with
          | (Err e, n') => (Returned (Err ("aegis: commit: " +:+ e)), st, n')
          | (Ok resp, n') =>
              (Returned (Ok (mkResult (cpVersion resp) (cpNumber resp) (stNode st) (stSession st) 0 0)), st, n')
          end
      end
  end.

(** The chunks of the file that are not in [state.Uploaded]. *)
Definition missingChunks (st : SessionState) (chunks : list Chunk) : list Chunk :=
  filter (fun ch => HashHex ch ∉ stUploaded st) chunks.

(** The fields [ResumeUpload] updates before it commits. *)
Definition resumedState (st : SessionState) (opts : UploadOptions) (chunks : list Chunk) (session : string)
    : SessionState :=
  mkState session (if bool_decide (optFile opts = "") then stFile st else optFile opts) (stNode st) (stTotal st)
    (stMime st) (stChunks st) (HashHex <$> chunks) (stCreated st) (stExpires st).

Definition resumeCommit (c : Client) (st : SessionState) (init : ClientInitResponse) (chunks : list Chunk)
    (uploaded : Z) (n : S) : outcome UploadResult * S :=
  match commitUpload c (mkCommit (cirSession init) "" (stMime st) (buildBlockMetas chunks)) n with
  | (Err e, n') => (Returned (Err ("aegis: commit resume: " +:+ e)), n')
  | (Ok resp, n') =>
      (Returned (Ok (mkResult (cpVersion resp) (cpNumber resp) (cirNode init) (cirSession init) uploaded 0)), n')
  end.

Definition ResumeUpload (c : Client) (st : SessionState) (opts : UploadOptions) (sched : list upEvent) (n : S)
    : outcome UploadResult * SessionState * S :=
  match os_Open 0 (stFile st) with
  | Err e => (Returned (Err ("aegis: open file: " +:+ e)), st, n)
  | Ok f1 =>
      match chunkFile f1 with
      | Panic | OutOfFuel => (Panicked, st, n)
      | Done _ (Some e) => (Returned (Err ("aegis: re-chunk file: " +:+ ioText e)), st, n)
      | Done chunks None =>
          if zlen chunks =? 0 then (Returned (Err "aegis: file produced no chunks"), st, n)
          else
            let missing := missingChunks st chunks in
            if zlen missing =? 0 then commitSession c st chunks n
            else
              match initiateUpload c (mkInit (tenantID c) (filepath_Base (stFile st)) None (Some (stNode st))
                      (stTotal st) (chunkInfos missing)) n with
              | (Err e, n1) => (Returned (Err ("aegis: initiate resume: " +:+ e)), st, n1)
              | (Ok init, n1) =>
                  match os_Open 1 (stFile st) with
                  | Err e => (Returned (Err ("aegis: reopen file: " +:+ e)), st, n1)
                  | Ok f2 =>
                      let st' := resumedState st opts chunks (cirSession init) in
                      if zlen (cirURLs init) =? 0 then
                        let '(o, n2) := resumeCommit c st init chunks 0 n1 in (o, st', n2)
                      else
                        match uploadChunksParallel opts f2 missing (buildURLMap (cirURLs init)) (stTotal st) sched n1 with
                        | (None, n2) => (Running, st, n2)
                        | (Some (_, Some e), n2) => (Returned (Err ("aegis: upload missing chunks: " +:+ e)), st, n2)
                        | (Some (uploaded, None), n2) =>
                            let '(o, n3) := resumeCommit c st init chunks uploaded n2 in (o, st', n3)
                        end
                  end
              end
      end
  end.

End client.

#[global] Arguments upState S : clear implicits.
#[global] Arguments Returned {A}.
#[global] Arguments Running {A}.
#[global] Arguments Panicked {A}.
