(* ===== verification/Session.v ===== *)
(** * aegis: saved sessions and progress reports ([session.go], [upload.go])

    [SaveSession] and [LoadSession] over a file system ([FileSystem]), with the JSON form of a
    session and of its time stamps (the parser and the printer of [time.Time]); and the rates
    of [chunkComplete] in binary64 arithmetic. *)
From S2P Require Import Prelude GoLib FastCDC Json External Database Schema Ingress Handlers RateLimit ObjectStorage.
From S2P Require Import Startup Wire Client.
From Stdlib Require Import SpecFloat.

(** ** time.Time in JSON *)

Definition isLeap (y : Z) : bool := (y mod 4 =? 0) && (negb (y mod 100 =? 0) || (y mod 400 =? 0)).

Definition daysIn (m y : Z) : Z :=
  if (m =? 2) then (if isLeap y then 29 else 28)
  else if (m =? 4) || (m =? 6) || (m =? 9) || (m =? 11) then 30 else 31.

(** The day number of a date. *)
Definition dateDays (y m d : Z) : Z :=
  let y' := if m <=? 2 then y - 1 else y in
  let yoe := y' mod 400 in
  let doy := (153 * (if 2 <? m then m - 3 else m + 9) + 2) / 5 + d - 1 in
  y' / 400 * 146097 + (yoe * 365 + yoe / 4 - yoe / 100 + doy) - 719468.

(** [s[a:a+n]]. *)
Definition substr (a n : nat) (s : string) : string := str_take n (str_drop a s).

Definition charAt (i : nat) (c : ascii) (s : string) : bool :=
  match str_drop i s with String c' _ => Ascii.eqb c' c | EmptyString => false end.

Definition parseUint (s : string) (lo hi : Z) : option Z :=
  z ← parse_digits 0 s; if (lo <=? z) && (z <=? hi) then Some z else None.

(** The digits at the front of a text. *)
Fixpoint spanDigits (s : string) : string * string :=
  match s with
  | EmptyString => (EmptyString, EmptyString)
  | String c s' => if is_digit c then let '(d, r) := spanDigits s' in (String c d, r) else (EmptyString, s)
  end.

(** [parseNanoseconds]: at most nine digits count. *)
Definition parseNanoseconds (d : string) : Z :=
  let d := str_take 9 d in default 0 (parse_digits 0 d) * 10 ^ (9 - slen d).

(** The optional fraction and the text after it. *)
Definition parseFraction (s : string) : Z * string :=
  match s with
  | String "." (String c s') =>
      if is_digit c then let '(d, r) := spanDigits (String c s') in (parseNanoseconds d, r) else (0, s)
  | _ => (0, s)
  end.

(** Seconds east of UTC. *)
Definition parseZone (s : string) : option Z :=
  if String.eqb s "Z" then Some 0
  else if negb (String.length s =? 6)%nat then None
  else
    hr ← parseUint (substr 1 2 s) 0 23;
    mm ← parseUint (substr 4 2 s) 0 59;
    if (charAt 0 "-" s || charAt 0 "+" s) && charAt 3 ":" s
    then Some (if charAt 0 "-" s then - ((hr * 60 + mm) * 60) else (hr * 60 + mm) * 60)
    else None.

(** [time.Parse(time.RFC3339)] of [UnmarshalJSON]: the instant in nanoseconds. *)
Definition parseRFC3339 (s : string) : option Z :=
  if (String.length s <? 19)%nat then None
  else
    year ← parseUint (substr 0 4 s) 0 9999;
    month ← parseUint (substr 5 2 s) 1 12;
    day ← parseUint (substr 8 2 s) 1 (daysIn month year);
    hour ← parseUint (substr 11 2 s) 0 23;
    min ← parseUint (substr 14 2 s) 0 59;
    sec ← parseUint (substr 17 2 s) 0 59;
    if charAt 4 "-" s && charAt 7 "-" s && charAt 10 "T" s && charAt 13 ":" s && charAt 16 ":" s then
      let '(nsec, r) := parseFraction (str_drop 19 s) in
      off ← parseZone r;
      Some ((dateDays year month day * 86400 + hour * 3600 + min * 60 + sec - off) * 1000000000 + nsec)
    else None.

(** [MarshalJSON] of the instant [t] shown [off] seconds east of UTC. *)
Definition marshalTime (off t : Z) : result string string :=
  let sec := t / 1000000000 in
  let y := (civil ((sec + off) / 86400)).1.1 in
  if negb ((0 <=? y) && (y <=? 9999)) then Err "Time.MarshalJSON: year outside of range [0,9999]"
  else if negb (Z.abs off <? 86400) then Err "Time.MarshalJSON: timezone hour outside of range [0,23]"
  else
    let s := rfc3339 off sec in
    Ok (str_take 19 s +:+ fraction (t mod 1000000000) +:+ str_drop 19 s).

(** The zero [time.Time]. *)
Definition zeroTime : Z := -62135596800 * 1000000000.

Definition dTime : decoder Z := fun j =>
  match j with JNull => Some zeroTime | JStr s => parseRFC3339 s | _ => None end.

Example time_there : marshalTime 3600 1709251199500000000 = Ok "2024-03-01T00:59:59.5+01:00". Proof. vm_compute. reflexivity. Qed.
Example time_back : parseRFC3339 "2024-03-01T00:59:59.5+01:00" = Some 1709251199500000000. Proof. vm_compute. reflexivity. Qed.
Example time_no_day : parseRFC3339 "2023-02-29T00:00:00Z" = None. Proof. vm_compute. reflexivity. Qed.

(** ** The calendar *)

(** Year and day of the year within a 400-year era. *)
Lemma era_bounds doe : 0 <= doe < 146097 ->
  let yoe := (doe - doe / 1460 + doe / 36524 - doe / 146096) / 365 in
  let doy := doe - (365 * yoe + yoe / 4 - yoe / 100) in 0 <= yoe <= 399 /\ 0 <= doy <= 365.
Proof. intros Hd. cbv zeta. repeat split; Z.to_euclidean_division_equations; lia. Qed.

(** Only leap years have a day 365 (counted from March). *)
Lemma era_leap doe yoe : 0 <= doe < 146097 -> yoe = (doe - doe / 1460 + doe / 36524 - doe / 146096) / 365 ->
  doe - (365 * yoe + yoe / 4 - yoe / 100) = 365 -> isLeap (yoe + 1) = true.
Proof.
  intros Hd Hy He. assert (0 <= yoe <= 399) by (Z.to_euclidean_division_equations; lia).
  assert ((yoe + 1) mod 4 = 0) as H4 by (Z.to_euclidean_division_equations; lia).
  assert ((yoe + 1) mod 100 <> 0 \/ (yoe + 1) mod 400 = 0) as H1 by (Z.to_euclidean_division_equations; lia).
  unfold isLeap. rewrite H4, Z.eqb_refl. destruct H1 as [H1| ->]; [|by rewrite orb_true_r].
  by rewrite (proj2 (Z.eqb_neq _ _) H1).
Qed.

(** What has to hold of each day of a year that starts in March. *)
Definition yearCheck (doy : Z) : bool :=
  let mp := (5 * doy + 2) / 153 in
  let d := doy - (153 * mp + 2) / 5 + 1 in
  let m := if mp <? 10 then mp + 3 else mp - 9 in
  (1 <=? m) && (m <=? 12) && (1 <=? d) &&
  (d <=? if m =? 2 then (if doy =? 365 then 29 else 28) else daysIn m 1) && ((if 2 <? m then m - 3 else m + 9) =? mp).

Fixpoint allBelow (n : nat) (k : Z) (p : Z -> bool) : bool :=
  match n with O => true | S n' => p k && allBelow n' (k + 1) p end.

Lemma allBelow_spec n k p z : allBelow n k p = true -> k <= z < k + Z.of_nat n -> p z = true.
Proof.
  revert k. induction n as [|n IH]; intros k Hp Hz; [lia|]. simpl in Hp. bool_hyps.
  destruct (decide (z = k)) as [->|Hne]; [done|]. apply (IH (k + 1)); [done|lia].
Qed.

Lemma year_ok doy : 0 <= doy <= 365 -> yearCheck doy = true.
Proof. intros Hd. apply (allBelow_spec 366 0); [vm_compute; reflexivity|lia]. Qed.

Lemma isLeap_era y k : isLeap (y + k * 400) = isLeap y.
Proof.
  unfold isLeap. replace (y + k * 400) with (y + k * 100 * 4) at 1 by lia.
  replace (y + k * 400) with (y + k * 4 * 100) at 1 by lia. by rewrite !Z.mod_add by lia.
Qed.

Lemma daysIn_era m y k : daysIn m (y + k * 400) = daysIn m y.
Proof. unfold daysIn. by rewrite isLeap_era. Qed.

(** A day's date is a date, and leads back to the day. *)
Lemma civil_dateDays days : let '(y, m, d) := civil days in
  dateDays y m d = days /\ 1 <= m <= 12 /\ 1 <= d <= daysIn m y.
Proof.
  unfold civil. set (z := days + 719468). set (doe := z mod 146097).
  assert (0 <= doe < 146097) as Hdoe by (apply Z.mod_pos_bound; lia).
  pose proof (era_bounds doe Hdoe) as [Hyoe Hdoy]. pose proof (era_leap doe _ Hdoe eq_refl) as Hleap.
  set (yoe := (doe - doe / 1460 + doe / 36524 - doe / 146096) / 365) in *.
  set (doy := doe - (365 * yoe + yoe / 4 - yoe / 100)) in *.
  pose proof (year_ok doy Hdoy) as Hc. unfold yearCheck in Hc.
  set (mp := (5 * doy + 2) / 153) in *. set (d := doy - (153 * mp + 2) / 5 + 1) in *.
  set (m := if mp <? 10 then mp + 3 else mp - 9) in *. bool_hyps.
  assert (days = z / 146097 * 146097 + doe - 719468) as Hz.
  { unfold doe. pose proof (Z.div_mod z 146097). unfold z in *. lia. }
  split_and!; try done.
  - unfold dateDays.
    assert ((if m <=? 2 then (if m <=? 2 then 1 else 0) + yoe + z / 146097 * 400 - 1
      else (if m <=? 2 then 1 else 0) + yoe + z / 146097 * 400) = yoe + z / 146097 * 400) as -> by (destruct (m <=? 2); lia).
    rewrite Z.div_add, Z.mod_add by lia. rewrite (Z.div_small yoe), (Z.mod_small yoe) by lia.
    match goal with H : (if 2 <? m then _ else _) = mp |- _ => rewrite H end.
    rewrite Hz. unfold d, doy. lia.
  - rewrite daysIn_era. destruct (Z.eqb_spec m 2) as [Hm|Hm].
    + rewrite Hm. simpl. unfold daysIn. simpl. replace (1 + yoe) with (yoe + 1) by lia.
      destruct (Z.eqb_spec doy 365) as [H365|_]; [rewrite (Hleap H365); lia|]. destruct (isLeap _); lia.
    + enough (daysIn m ((if m <=? 2 then 1 else 0) + yoe) = daysIn m 1) as -> by done.
      unfold daysIn. by rewrite (proj2 (Z.eqb_neq _ _) Hm).
Qed.

(** ** Printed digits read back *)

Lemma digit_cons n s : digit n +:+ s = String (ascii_of_N (Z.to_N (48 + n mod 10))) s.
Proof. done. Qed.

Lemma digit_code n : is_digit (ascii_of_N (Z.to_N (48 + n mod 10))) = true /\
  Z.of_N (code (ascii_of_N (Z.to_N (48 + n mod 10)))) - 48 = n mod 10.
Proof.
  pose proof (Z.mod_pos_bound n 10 ltac:(lia)) as Hb. unfold is_digit, in_range, code.
  rewrite N_ascii_embedding by lia. split; [|lia]. apply andb_true_intro. split; apply N.leb_le; lia.
Qed.

Lemma parse_digits_app acc a b z : parse_digits acc a = Some z -> parse_digits acc (a +:+ b) = parse_digits z b.
Proof.
  revert acc. induction a as [|c a IH]; intros acc Ha; [by injection Ha as ->|]. rewrite append_cons. simpl in *.
  destruct (is_digit c); [by apply IH|done].
Qed.

Lemma parse_digit acc n : parse_digits acc (digit n) = Some (acc * 10 + n mod 10).
Proof. unfold digit. simpl. destruct (digit_code n) as [-> ->]. done. Qed.

Lemma parse_digits_digits n acc z : 0 <= z < 10 ^ Z.of_nat n -> parse_digits acc (digits n z) = Some (acc * 10 ^ Z.of_nat n + z).
Proof.
  revert z. induction n as [|n IH]; intros z Hz; [simpl in *; f_equal; lia|]. cbn [digits].
  rewrite Nat2Z.inj_succ, Z.pow_succ_r in * by lia.
  rewrite (parse_digits_app _ _ _ _ (IH (z / 10) ltac:(split; [apply Z.div_pos; lia|apply Z.div_lt_upper_bound; lia]))).
  rewrite parse_digit. f_equal. pose proof (Z.div_mod z 10). lia.
Qed.

Lemma pad2_parse n lo hi : 0 <= n < 100 -> lo <= n <= hi -> parseUint (pad2 n) lo hi = Some n.
Proof.
  intros Hn Hb. unfold parseUint. change (pad2 n) with (digits 2 n).
  rewrite parse_digits_digits by (simpl; lia). simpl. rewrite !(proj2 (Z.leb_le _ _)) by lia. done.
Qed.

Lemma pad4_digits n : 0 <= n < 10000 -> pad4 n = digits 4 n.
Proof.
  intros Hn. assert (String.eqb (pad4 n) (digits 4 n) = true) as H; [|by apply String.eqb_eq].
  apply (allBelow_spec (Z.to_nat 10000) 0 (fun n => String.eqb (pad4 n) (digits 4 n))); [vm_compute; reflexivity|lia].
Qed.

Lemma pad4_parse n : 0 <= n <= 9999 -> parseUint (pad4 n) 0 9999 = Some n.
Proof.
  intros Hn. unfold parseUint. rewrite pad4_digits, parse_digits_digits by (simpl; lia). simpl.
  rewrite !(proj2 (Z.leb_le _ _)) by lia. done.
Qed.

(** ** Fractions *)

Lemma digits_forall n z : str_forall is_digit (digits n z) = true.
Proof.
  revert z. induction n as [|n IH]; intros z; [done|]. cbn [digits].
  assert (forall a c, str_forall is_digit a = true -> is_digit c = true -> str_forall is_digit (a +:+ String c EmptyString) = true) as Happ.
  { intros a c Ha Hc. induction a as [|x a IHa]; [by simpl; rewrite Hc|]. rewrite append_cons. simpl in *. bool_hyps.
    rewrite IHa by done. by apply andb_true_intro. }
  apply Happ; [apply IH|apply digit_code].
Qed.

Lemma digits_length n z : String.length (digits n z) = n.
Proof.
  revert z. induction n as [|n IH]; intros z; [done|]. cbn [digits]. rewrite length_append, IH. simpl. lia.
Qed.

(** Trailing zeros scale. *)
Lemma trimRight_zeros acc s : exists k, String.length s = (String.length (trimRight "0" s) + k)%nat /\
  (str_forall is_digit s = true -> str_forall is_digit (trimRight "0" s) = true) /\
  parse_digits acc s = (fun z => z * 10 ^ Z.of_nat k) <$> parse_digits acc (trimRight "0" s).
Proof.
  revert acc. induction s as [|c s IH]; intros acc; [exists 0%nat; split_and!; [done..|]; simpl; f_equal; lia|].
  destruct (IH (acc * 10 + (Z.of_N (code c) - 48))) as (k & Hl & Hf & Hp). cbn [trimRight].
  destruct (trimRight "0" s) as [|b t] eqn:Et.
  - simpl in Hl, Hp. destruct (Ascii.eqb c "0") eqn:Ec.
    + apply Ascii.eqb_eq in Ec as ->. exists (S k). split_and!; [simpl; lia|done|]. cbn [parse_digits]. change (is_digit "0") with true. cbv iota.
      rewrite Hp. cbn [parse_digits fmap option_fmap option_map].
      f_equal. change (Z.of_N (code "0") - 48) with 0. rewrite Nat2Z.inj_succ, Z.pow_succ_r by lia. lia.
    + exists k. split_and!; [simpl; lia| |simpl; by destruct (is_digit c)]. simpl. intros. bool_hyps. by rewrite andb_true_r.
  - exists k. split_and!; [simpl in *; lia| |].
    + intros Hs. cbn [str_forall] in *. bool_hyps. rewrite Hf by done. by rewrite andb_true_r.
    + cbn [parse_digits]. rewrite Hp. by destruct (is_digit c).
Qed.

Lemma spanDigits_app d r : str_forall is_digit d = true ->
  match r with EmptyString => True | String c _ => is_digit c = false end -> spanDigits (d +:+ r) = (d, r).
Proof.
  intros Hd Hr. induction d as [|c d IH].
  - rewrite append_nil_l. destruct r as [|c r]; [done|]. simpl. by rewrite Hr.
  - rewrite append_cons. simpl in *. bool_hyps. rewrite IH by done. by destruct (is_digit c).
Qed.

Lemma str_take_all n s : (String.length s <= n)%nat -> str_take n s = s.
Proof.
  revert s. induction n as [|n IH]; intros [|c s] Hs; simpl in *; try done; [lia|]. rewrite IH by lia. done.
Qed.

Lemma parseFraction_fraction ns r : 0 <= ns < 1000000000 ->
  match r with EmptyString => True | String c _ => is_digit c = false /\ c <> "."%char end ->
  parseFraction (fraction ns +:+ r) = (ns, r).
Proof.
  intros Hn Hr. unfold fraction. destruct (Z.eqb_spec ns 0) as [->|Hne].
  - rewrite append_nil_l. unfold parseFraction. destruct r as [|c r]; [done|]. destruct Hr as [Hr1 Hr2].
    destruct c as [[] [] [] [] [] [] [] []]; try done; by destruct r.
  - destruct (trimRight_zeros 0 (digits 9 ns)) as (k & Hl & Hf & Hp). specialize (Hf (digits_forall 9 ns)).
    rewrite digits_length in Hl. rewrite parse_digits_digits in Hp by (simpl; lia).
    destruct (trimRight "0" (digits 9 ns)) as [|c t] eqn:Et.
    { simpl in Hp. injection Hp as Hp. lia. }
    change (("." +:+ String c t) +:+ r) with (String "." (String c (t +:+ r))).
    assert (is_digit c = true) as Hc by (simpl in Hf; by bool_hyps).
    unfold parseFraction. rewrite Hc, <- append_cons.
    rewrite spanDigits_app; [|done|destruct r; [done|by destruct Hr]].
    f_equal. unfold parseNanoseconds. rewrite str_take_all by lia.
    destruct (parse_digits 0 (String c t)) as [z|]; [|done]. simpl in Hp. injection Hp as Hp.
    cbn [default from_option id]. replace (9 - slen (String c t)) with (Z.of_nat k) by (unfold slen; lia). lia.
Qed.

(** ** Time stamps read back *)

(** A time stamp with the text [r] after the seconds. *)
Definition stamp (y m d h mi s : Z) (r : string) : string :=
  pad4 y +:+ "-" +:+ pad2 m +:+ "-" +:+ pad2 d +:+ "T" +:+ pad2 h +:+ ":" +:+ pad2 mi +:+ ":" +:+ pad2 s +:+ r.

Definition zoneText (off : Z) : string :=
  if off =? 0 then "Z"
  else (if off <? 0 then "-" else "+") +:+ pad2 (Z.abs off / 3600) +:+ ":" +:+ pad2 (Z.abs off mod 3600 / 60).

Lemma parseZone_zoneText off : Z.abs off < 86400 -> off mod 60 = 0 -> parseZone (zoneText off) = Some off.
Proof.
  intros Ha Hm. unfold zoneText. destruct (Z.eqb_spec off 0) as [->|Hne]; [done|].
  assert (0 <= Z.abs off / 3600 <= 23) as Hh by (Z.to_euclidean_division_equations; lia).
  assert (0 <= Z.abs off mod 3600 / 60 <= 59) as Hmm by (Z.to_euclidean_division_equations; lia).
  set (h := Z.abs off / 3600) in *. set (mm := Z.abs off mod 3600 / 60) in *.
  assert (Z.abs off = (h * 60 + mm) * 60) as Hoff by (unfold h, mm; Z.to_euclidean_division_equations; lia).
  unfold parseZone.
  assert (forall sg, String.eqb (String sg EmptyString +:+ pad2 h +:+ ":" +:+ pad2 mm) "Z" = false /\
    (String.length (String sg EmptyString +:+ pad2 h +:+ ":" +:+ pad2 mm) =? 6)%nat = true /\
    substr 1 2 (String sg EmptyString +:+ pad2 h +:+ ":" +:+ pad2 mm) = pad2 h /\
    substr 4 2 (String sg EmptyString +:+ pad2 h +:+ ":" +:+ pad2 mm) = pad2 mm) as Hl
    by (intros sg; split_and!; try reflexivity; simpl; by destruct (Ascii.eqb sg "Z")).
  destruct (Z.ltb_spec off 0).
  - destruct (Hl "-"%char) as (-> & -> & -> & ->). rewrite !pad2_parse by lia. simpl. f_equal. lia.
  - destruct (Hl "+"%char) as (-> & -> & -> & ->). rewrite !pad2_parse by lia. simpl. f_equal. lia.
Qed.

Lemma zoneText_start off : match zoneText off with EmptyString => True | String c _ => is_digit c = false /\ c <> "."%char end.
Proof. unfold zoneText. destruct (off =? 0); [done|]. by destruct (off <? 0). Qed.

(** A time stamp reads back as the instant it was printed for, whatever the zone it was
    printed in: fractions lose their trailing zeros only, and every instant that can be
    printed (years 0 to 9999, zones of whole minutes) is parsed. *)
Lemma marshal_parse (off t : Z) (s : string) (Hz : off mod 60 = 0) (Hm : marshalTime off t = Ok s) :
  parseRFC3339 s = Some t.
Proof.
  unfold marshalTime, rfc3339 in Hm. set (sec := t / 1000000000) in *.
  set (r := (sec + off) mod 86400) in *.
  pose proof (civil_dateDays ((sec + off) / 86400)) as Hc.
  destruct (civil ((sec + off) / 86400)) as [[y m] d] eqn:Ec. destruct Hc as (Hdays & Hmon & Hday).
  cbn [fst] in Hm. destruct (negb _) eqn:Eb in Hm; [done|]. destruct (negb _) eqn:Eo in Hm; [done|]. bool_hyps.
  change (if off =? 0 then "Z" else _) with (zoneText off) in Hm.
  assert (s = stamp y m d (r / 3600) (r mod 3600 / 60) (r mod 60) (fraction (t mod 1000000000) +:+ zoneText off)) as ->
    by (injection Hm as <-; reflexivity).
  assert (0 <= r < 86400) as Hr by (apply Z.mod_pos_bound; lia).
  set (h := r / 3600). set (mi := r mod 3600 / 60). set (se := r mod 60). set (rest := fraction _ +:+ _).
  assert (0 <= h <= 23 /\ 0 <= mi <= 59 /\ 0 <= se <= 59 /\ r = h * 3600 + mi * 60 + se) as (Hh & Hmi & Hse & Hre)
    by (unfold h, mi, se; Z.to_euclidean_division_equations; lia).
  unfold parseRFC3339.
  change (String.length (stamp y m d h mi se rest) <? 19)%nat with false. cbv iota.
  change (substr 0 4 _) with (pad4 y). change (substr 5 2 _) with (pad2 m). change (substr 8 2 _) with (pad2 d).
  change (substr 11 2 _) with (pad2 h). change (substr 14 2 _) with (pad2 mi). change (substr 17 2 _) with (pad2 se).
  change (str_drop 19 _) with rest.
  assert (daysIn m y <= 31) by (unfold daysIn; repeat case_match; lia).
  rewrite pad4_parse by lia. cbn [mbind option_bind]. rewrite !pad2_parse by lia. cbn [mbind option_bind].
  rewrite (pad2_parse d 1 (daysIn m y)) by lia. cbn [mbind option_bind].
  change (charAt 4 "-" _ && _ && _ && _ && _) with true. cbv iota.
  unfold rest. rewrite parseFraction_fraction by (apply Z.mod_pos_bound || apply zoneText_start; lia).
  rewrite parseZone_zoneText by done. cbn [mbind option_bind]. f_equal.
  rewrite Hdays. pose proof (Z.div_mod (sec + off) 86400 ltac:(lia)) as Hd1. fold r in Hd1.
  pose proof (Z.div_mod t 1000000000 ltac:(lia)) as Hd2. fold sec in Hd2. lia.
Qed.

(** ** Sessions *)

Definition marshalChunk (c : Chunk) : json :=
  JObj [("HashHex", JStr (HashHex c)); ("Offset", JNum (Offset c)); ("Size", JNum (Size c))].

Definition unmarshalChunk : decoder Chunk := fun j =>
  fs ← dFields j;
  h ← field dString "" "HashHex" fs; o ← field dInt64 0 "Offset" fs; z ← field dInt64 0 "Size" fs;
  Some (mkChunk h o z).

(** [o1] and [o2]: the zones of the two times. *)
Definition marshalSession (o1 o2 : Z) (st : SessionState) : result string json :=
  created ← marshalTime o1 (stCreated st);
  expires ← marshalTime o2 (stExpires st);
  Ok (JObj [("session_id", JStr (stSession st)); ("file_path", JStr (stFile st)); ("node_id", JStr (stNode st));
            ("total_size", JNum (stTotal st)); ("mime_type", JStr (stMime st));
            ("chunks", JArr (marshalChunk <$> stChunks st)); ("uploaded", jStrings (stUploaded st));
            ("created_at", JStr created); ("expires_at", JStr expires)]).

Definition unmarshalSession : decoder SessionState := fun j =>
  fs ← dFields j;
  s ← field dString "" "session_id" fs; p ← field dString "" "file_path" fs; n ← field dString "" "node_id" fs;
  t ← field dInt64 0 "total_size" fs; m ← field dString "" "mime_type" fs;
  cs ← field (dList unmarshalChunk) [] "chunks" fs; u ← field (dList dString) [] "uploaded" fs;
  c ← field dTime zeroTime "created_at" fs; e ← field dTime zeroTime "expires_at" fs;
  Some (mkState s p n t m cs u c e).

(** [filepath.Clean] on Unix, over the elements of a path. *)
Fixpoint cleanElems (rooted : bool) (done : list string) (l : list string) : list string :=
  match l with
  | [] => rev done
  | e :: l' =>
      if String.eqb e "" || String.eqb e "." then cleanElems rooted done l'
      else if String.eqb e ".." then
        match done with
        | d :: done' => if String.eqb d ".." then cleanElems rooted (e :: done) l' else cleanElems rooted done' l'
        | [] => if rooted then cleanElems rooted [] l' else cleanElems rooted [e] l'
        end
      else cleanElems rooted (e :: done) l'
  end.

Definition filepath_Clean (path : string) : string :=
  let rooted := charAt 0 "/" path in
  let body := String.concat "/" (cleanElems rooted [] (split_on "/"%char path)) in
  if rooted then "/" +:+ body else if String.eqb body "" then "." else body.

(** The path up to its last slash. *)
Fixpoint upToSlash (s : string) : string :=
  match s with
  | EmptyString => EmptyString
  | String c s' =>
      match upToSlash s' with
      | EmptyString => if Ascii.eqb c "/" then String c EmptyString else EmptyString
      | t => String c t
      end
  end.

Definition filepath_Dir (path : string) : string := filepath_Clean (upToSlash path).

Example dir_nested : filepath_Dir "/home/u/.aegis//s/../x.json" = "/home/u/.aegis". Proof. vm_compute. reflexivity. Qed.
Example dir_here : filepath_Dir "x.json" = ".". Proof. vm_compute. reflexivity. Qed.

(** Files with JSON documents: [Create] leaves an empty file, [Encode] writes a document into
    it, [contents] is what [Open] and [Decode] see ([Ok None]: no document). *)
Class FileSystem (F : Type) := {
  MkdirAll : string -> F -> option string * F;
  Create : string -> F -> option string * F;
  writeDoc : string -> json -> F -> option string * F;
  contents : string -> F -> result string (option json);
  docError : string;
  Create_spec p f f' : Create p f = (None, f') -> contents p f' = Ok None;
  writeDoc_spec p j f f' : contents p f = Ok None -> writeDoc p j f = (None, f') -> contents p f' = Ok (Some j)
}.

Section files.
Context {F : Type} `{FS : FileSystem F}.

Definition SaveSession (o1 o2 : Z) (st : SessionState) (path : string) (f : F) : option string * F :=
  match MkdirAll (filepath_Dir path) f with
  | (Some e, f1) => (Some ("create session dir: " +:+ e), f1)
  | (None, f1) =>
      match Create path f1 with
      | (Some e, f2) => (Some ("create session file: " +:+ e), f2)
      | (None, f2) =>
          match marshalSession o1 o2 st with
          | Err e => (Some ("encode session: json: error calling MarshalJSON for type time.Time: " +:+ e), f2)
          | Ok j =>
              match writeDoc path j f2 with
              | (Some e, f3) => (Some ("encode session: " +:+ e), f3)
              | (None, f3) => (None, f3)
              end
          end
      end
  end.

Definition LoadSession (path : string) (f : F) : result string SessionState :=
  match contents path f with
  | Err e => Err ("open session file: " +:+ e)
  | Ok doc =>
      match doc ≫= unmarshalSession with
      | Some st => Ok st
      | None => Err ("decode session: " +:+ docError)
      end
  end.

Lemma chunk_json c : is_int64 (Offset c) /\ is_int64 (Size c) -> unmarshalChunk (marshalChunk c) = Some c.
Proof.
  intros [H1 H2]. destruct c as [h o z]. unfold unmarshalChunk, marshalChunk. cbn -[dInt64]. simpl in H1, H2.
  by rewrite !dInt64_num.
Qed.

(** What a session must satisfy to be written exactly: machine integers, zones of whole
    minutes. *)
Definition printable (o1 o2 : Z) (st : SessionState) : Prop :=
  is_int64 (stTotal st) /\ Forall (fun c => is_int64 (Offset c) /\ is_int64 (Size c)) (stChunks st) /\
  o1 mod 60 = 0 /\ o2 mod 60 = 0.

Lemma session_json o1 o2 st j : printable o1 o2 st -> marshalSession o1 o2 st = Ok j -> unmarshalSession j = Some st.
Proof.
  intros (Ht & Hc & H1 & H2) Hm. unfold marshalSession in Hm.
  destruct (marshalTime o1 (stCreated st)) as [s1|] eqn:E1; [|done].
  destruct (marshalTime o2 (stExpires st)) as [s2|] eqn:E2; [|done]. injection Hm as <-.
  assert (parseRFC3339 s1 = Some (stCreated st)) as P1.
  { pose proof (marshal_parse o1 (stCreated st) s1 H1 E1) as P. exact P. }
  assert (parseRFC3339 s2 = Some (stExpires st)) as P2 by exact (marshal_parse o2 _ s2 H2 E2).
  unfold unmarshalSession. cbn -[dInt64 dTime dList marshalChunk unmarshalChunk jStrings fmap].
  rewrite dInt64_num by done. cbn -[dTime dList marshalChunk unmarshalChunk jStrings fmap].
  rewrite (dList_map unmarshalChunk marshalChunk _ _ chunk_json Hc). unfold jStrings.
  rewrite (dList_map dString JStr (fun _ => True)) by (done || by apply Forall_true).
  simpl. rewrite P1, P2. simpl. by destruct st.
Qed.

(** C38. A saved session comes back: when [SaveSession] reports success, [LoadSession] of the
    path returns exactly the session, with the same instants, whatever zones the times were
    written in and whatever was stored before; when the session cannot be encoded, the file
    that was there is gone: loading fails. *)
Theorem session_round_trip (o1 o2 : Z) (st : SessionState) (path : string) (f f' : F) (err : option string)
    (Hp : printable o1 o2 st) (Hsave : SaveSession o1 o2 st path f = (err, f')) :
  (err = None -> LoadSession path f' = Ok st) /\
  (is_ok (marshalSession o1 o2 st) = false -> forall f1 f2, MkdirAll (filepath_Dir path) f = (None, f1) ->
     Create path f1 = (None, f2) -> f' = f2 /\ err <> None /\ LoadSession path f' = Err ("decode session: " +:+ docError)).
Proof.
  unfold SaveSession in Hsave. split.
  - intros ->. destruct (MkdirAll _ f) as [[e|] f1]; [done|]. destruct (Create path f1) as [[e|] f2] eqn:Ec; [done|].
    destruct (marshalSession o1 o2 st) as [j|e] eqn:Em; [|done].
    destruct (writeDoc path j f2) as [[e|] f3] eqn:Ew; [done|]. simplify_eq.
    unfold LoadSession. rewrite (writeDoc_spec _ _ _ _ (Create_spec _ _ _ Ec) Ew). simpl.
    by rewrite (session_json o1 o2 st j Hp Em).
  - intros Hm f1 f2 Hd Hc. rewrite Hd, Hc in Hsave. destruct (marshalSession o1 o2 st); [done|]. simplify_eq.
    split_and!; [done|done|]. unfold LoadSession. by rewrite (Create_spec _ _ _ Hc).
Qed.

End files.

(** An instance: a map from paths to documents. *)
#[global, refine] Instance mapFS : FileSystem (gmap string (option json)) := {|
  MkdirAll _ f := (None, f); Create p f := (None, <[p := None]> f); writeDoc p j f := (None, <[p := Some j]> f);
  contents p f := match f !! p with None => Err "no such file or directory" | Some d => Ok d end;
  docError := "EOF"
|}.
Proof.
  - intros p f f' [= <-]. by rewrite lookup_insert_eq.
  - intros p j f f' _ [= <-]. by rewrite lookup_insert_eq.
Defined.

Definition demoState : SessionState :=
  mkState "s1" "/tmp/a.bin" "n1" 3 "text/plain" [mkChunk "ab" 0 3] ["ab"] 1709251199500000000 1709254799000000000.

Lemma session_round_trip_witness :
  LoadSession "/tmp/s.json" (SaveSession 3600 0 demoState "/tmp/s.json" (∅ : gmap string (option json))).2 = Ok demoState.
Proof.
  destruct (SaveSession 3600 0 demoState "/tmp/s.json" (∅ : gmap string (option json))) as [err f'] eqn:E.
  destruct (session_round_trip 3600 0 demoState "/tmp/s.json" (∅ : gmap string (option json)) f' err) as [H _]; [|exact E|].
  - split; [split; vm_compute; discriminate|]. split; [|split; reflexivity].
    constructor; [|constructor]. split; split; vm_compute; discriminate.
  - apply H. vm_compute in E. congruence.
Defined.

(** ** Progress reports ([chunkComplete]) *)

Record UploadProgress := mkProgress {
  pgUploaded : Z; pgTotal : Z; pgPercent : float64; pgETA : option Z; pgBitrate : float64
}.

(** [int64] of a float: truncation; [None] out of range, where the result depends on the
    processor. *)
Definition f64_int64 (f : float64) : option Z :=
  let z := match f with
           | S754_zero _ => Some 0
           | S754_finite sg m e =>
               let a := if 0 <=? e then Zpos m * 2 ^ e else Zpos m / 2 ^ (- e) in Some (if sg then - a else a)
           | _ => None
           end in
  z ≫= fun z => if in_int64 z then Some z else None.

(** The report after [uploaded] of [total] bytes, [elapsed] nanoseconds after the start. *)
Definition chunkProgress (progressCb : bool) (uploaded total elapsed : Z) : option UploadProgress :=
  if negb progressCb || (total =? 0) then None
  else
    let percent := f64_mul (f64_div (f64_of_Z uploaded) (f64_of_Z total)) (f64_of_Z 100) in
    let secs := durSeconds elapsed in
    Some (if f64_ltb f64_zero secs then
            let bitrate := f64_div (f64_of_Z uploaded) secs in
            let remaining := f64_div (f64_of_Z (int64 (total - uploaded))) bitrate in
            mkProgress uploaded total percent (f64_int64 (f64_mul remaining (f64_of_Z 1000000000))) bitrate
          else mkProgress uploaded total percent (Some 0) f64_zero).

(** Half of the bytes after two seconds: 50 percent, two seconds to go. *)
Example progress_half :
  chunkProgress true 1000 2000 2000000000 = Some (mkProgress 1000 2000 (f64_of_Z 50) (Some 2000000000) (f64_of_Z 500)).
Proof. vm_compute. reflexivity. Qed.

(** The percentage may exceed 100 and the estimate turn negative when the file grew after its
    size was read. *)
Example progress_overrun :
  chunkProgress true 3000 2000 2000000000 = Some (mkProgress 3000 2000 (f64_of_Z 150) (Some (-666666666)) (f64_of_Z 1500)).
Proof. vm_compute. reflexivity. Qed.

(** A report is made only with a callback and for a non-empty file, and carries the counts. *)
Lemma progress_reports_counts cb uploaded total elapsed p : chunkProgress cb uploaded total elapsed = Some p ->
  cb = true /\ total <> 0 /\ pgUploaded p = uploaded /\ pgTotal p = total.
Proof.
  unfold chunkProgress. destruct cb; simpl; [|done]. destruct (Z.eqb_spec total 0); [done|]. intros [= <-].
  by destruct (f64_ltb _ _).
Qed.
