(* ===== verification/Upload.v ===== *)
(** * The parallel upload of the client: safety and termination

    Invariants of the transition system of [Client.v] over all interleavings of the upload
    goroutines, and the properties of [uploadChunksParallel] that follow. *)
From S2P Require Import Prelude GoLib FastCDC Json Ingress Handlers Wire Client.

(** ** Sums and selections *)

Definition zsum {A} (f : A -> Z) (l : list A) : Z := foldr (fun x acc => f x + acc) 0 l.

Lemma zsum_app {A} (f : A -> Z) l k : zsum f (l ++ k) = zsum f l + zsum f k.
Proof. induction l as [|x l IH]; simpl; [done|]. rewrite IH. lia. Qed.

#[global] Instance zsum_perm {A} (f : A -> Z) : Proper ((≡ₚ) ==> (=)) (zsum f).
Proof. induction 1; simpl; lia. Qed.

#[global] Instance zlen_perm {A} : Proper ((≡ₚ) ==> (=)) (@zlen A).
Proof. intros l k H. unfold zlen. by rewrite H. Qed.

Lemma int64_add_l a b : int64 (int64 a + b) = int64 (a + b).
Proof.
  unfold int64, wrapS. change (2 ^ (64 - 1)) with 9223372036854775808.
  change (2 ^ 64) with 18446744073709551616. f_equal.
  replace ((a + 9223372036854775808) mod 18446744073709551616 - 9223372036854775808 + b + 9223372036854775808)
    with ((a + 9223372036854775808) mod 18446744073709551616 + b) by lia.
  rewrite Z.add_mod_idemp_l by lia. f_equal. lia.
Qed.

(** The items whose goroutine satisfies [P]. *)
Definition sel (P : pc -> bool) (ws : list pc) (work : list workItem) : list workItem :=
  omap (fun '(p, it) => if P p then Some it else None) (zip ws work).

Lemma sel_cons P p ws it work :
  sel P (p :: ws) (it :: work) = (if P p then [it] else []) ++ sel P ws work.
Proof. unfold sel. simpl. by destruct (P p). Qed.

Lemma sel_nil_r P ws : sel P ws [] = [].
Proof. unfold sel. by destruct ws. Qed.

Lemma sel_same P ws work i p p' : ws !! i = Some p -> P p = P p' ->
  sel P (<[i := p']> ws) work = sel P ws work.
Proof.
  revert i work. induction ws as [|w ws IH]; intros i [|it work] Hi HP; rewrite ?sel_nil_r; try done.
  destruct i as [|i]; cbn [lookup list_lookup insert list_insert] in *; rewrite !sel_cons.
  - simplify_eq. by rewrite HP.
  - by rewrite (IH i).
Qed.

Lemma sel_new P ws work i p p' it : ws !! i = Some p -> work !! i = Some it -> P p = false -> P p' = true ->
  sel P (<[i := p']> ws) work ≡ₚ it :: sel P ws work.
Proof.
  revert i work. induction ws as [|w ws IH]; intros i [|it0 work] Hi Hw HP HP'; try done.
  destruct i as [|i]; cbn [lookup list_lookup insert list_insert] in *; rewrite !sel_cons.
  - simplify_eq. by rewrite HP, HP'.
  - rewrite (IH i work Hi Hw HP HP'). by rewrite Permutation_middle.
Qed.

Lemma sel_old P ws work i p p' it : ws !! i = Some p -> work !! i = Some it -> P p = true -> P p' = false ->
  it :: sel P (<[i := p']> ws) work ≡ₚ sel P ws work.
Proof.
  intros Hi Hw HP HP'. rewrite <- (sel_new P (<[i := p']> ws) work i p' p it); [|by apply list_lookup_insert_eq; eapply lookup_lt_Some|done..].
  by rewrite list_insert_insert_eq, list_insert_id.
Qed.

Lemma sel_all P ws work : length ws = length work -> forallb P ws = true -> sel P ws work = work.
Proof.
  revert work. induction ws as [|w ws IH]; intros [|it work] Hl HP; simpl in *; try done.
  apply andb_true_iff in HP as [Hw HP]. rewrite sel_cons, Hw. simpl. f_equal. apply IH; [lia|done].
Qed.

(** ** Stages of a goroutine *)

Definition holding (p : pc) : bool := match p with PStart | PDone _ => false | _ => true end.
(** The [PUT] was accepted. *)
Definition stored (p : pc) : bool :=
  match p with
  | PProgress | PNotify _ | PCount | PSend None | PRelease None | PDone None => true
  | _ => false
  end.
Definition progressed (p : pc) : bool := match p with PProgress => false | _ => stored p end.
Definition notified (p : pc) : bool := match p with PNotify _ => false | _ => progressed p end.
Definition counted (p : pc) : bool := match p with PCount => false | _ => notified p end.
(** The error it put into the channel. *)
Definition sentErr (p : pc) : option string :=
  match p with PRelease (Some e) | PDone (Some e) => Some e | _ => None end.
Definition holdsData (p : pc) : option (list ascii) :=
  match p with PTry _ d | PWait _ d _ => Some d | _ => None end.

Definition itemSize (it : workItem) : Z := Size (wiChunk it).
Definition itemInfo (it : workItem) : ChunkInfo := mkChunkInfo (HashHex (wiChunk it)) (Size (wiChunk it)).

Section upload.
Context {S : Type} `{T : Transport S}.
Context (opts : UploadOptions) (f : file) (total : Z) (work : list workItem).

(** What it means that a chunk is stored, and what the transport promises: an accepted
    [PUT] of a chunk's bytes stores it, and further [PUT]s of this upload keep it. *)
Context (Stored : workItem -> S -> Prop).
Definition putStores : Prop := forall it d n resp n', it ∈ work -> readChunkFromFile f (wiChunk it) = Ok d ->
  Do (putRequest (uuURL (wiURL it)) d) n = (Ok resp, n') -> rsCode resp < 300 -> Stored it n'.
Definition putKeeps : Prop := forall it it' d n r n', it ∈ work -> it' ∈ work -> Stored it n ->
  readChunkFromFile f (wiChunk it') = Ok d -> Do (putRequest (uuURL (wiURL it')) d) n = (r, n') -> Stored it n'.

Abbreviation step := (upStep opts f total work).

(** A run of enabled events. *)
Fixpoint upSteps (tr : list upEvent) (s : upState S) : option (upState S) :=
  match tr with [] => Some s | e :: tr' => step e s ≫= upSteps tr' end.

(** ** The invariant *)

Record upInv (s : upState S) : Prop := mkUpInv {
  ui_len : length (usWorkers s) = length work;
  ui_sem : usSem s = zlen (sel holding (usWorkers s) work);
  ui_cap : usSem s <= defaultMaxParallel;
  ui_total : usTotal s = int64 (zsum itemSize (sel counted (usWorkers s) work));
  ui_bytes : usBytes s = int64 (zsum itemSize (sel progressed (usWorkers s) work));
  ui_complete : usComplete s ≡ₚ (if optOnChunk opts then itemInfo <$> sel notified (usWorkers s) work else []);
  ui_errs : (forall v e, usMain s <> Some (v, Some e)) ->
            forall i p e, usWorkers s !! i = Some p -> sentErr p = Some e -> Some e ∈ usChan s;
  ui_chan : forall e, Some e ∈ usChan s \/ (exists v, usMain s = Some (v, Some e)) ->
            exists i p, usWorkers s !! i = Some p /\ sentErr p = Some e;
  ui_main : forall v, usMain s = Some (v, None) ->
            usChan s = [] /\ v = usTotal s /\ forallb isDone (usWorkers s) = true
}.

(** The part that speaks of the transport's state. *)
Record netInv (s : upState S) : Prop := mkNetInv {
  ni_data : forall i p d it, usWorkers s !! i = Some p -> work !! i = Some it -> holdsData p = Some d ->
            readChunkFromFile f (wiChunk it) = Ok d;
  ni_stored : forall i p it, usWorkers s !! i = Some p -> work !! i = Some it -> stored p = true ->
              Stored it (usNet s)
}.

Lemma upInit_sel P : P PStart = false -> sel P ((fun _ => PStart) <$> work) work = [].
Proof. intros HP. induction work as [|it l IH]; [done|]. cbn [fmap list_fmap]. by rewrite sel_cons, HP. Qed.

Lemma upInit_lookup i p : ((fun _ => PStart) <$> work : list pc) !! i = Some p -> p = PStart.
Proof. rewrite list_lookup_fmap. destruct (work !! i); simpl; congruence. Qed.

Lemma upInv_init n : upInv (upInit work n).
Proof.
  constructor; simpl; rewrite ?upInit_sel by done; try done.
  - by rewrite length_fmap.
  - by destruct (optOnChunk opts).
  - intros _ i p e Hi%upInit_lookup. by subst.
  - intros e [He|[v ?]]; [by apply elem_of_nil in He|done].
Qed.

Lemma netInv_init n : netInv (upInit work n).
Proof. constructor; simpl; intros i p; intros; by simplify_eq/=; match goal with H : _ !! _ = Some p |- _ => apply upInit_lookup in H; subst end. Qed.

(** Worker [i] moves from [p] to [p'] without touching channel or result. *)
Lemma upInv_move i p p' it s s' :
  upInv s -> usWorkers s !! i = Some p -> work !! i = Some it -> isDone p = false ->
  usWorkers s' = <[i := p']> (usWorkers s) -> usChan s' = usChan s -> usMain s' = usMain s ->
  sentErr p' = sentErr p ->
  usSem s' = usSem s + (if holding p' then 1 else 0) - (if holding p then 1 else 0) ->
  usSem s' <= defaultMaxParallel ->
  (counted p = true -> counted p' = true) ->
  usTotal s' = (if counted p then usTotal s else if counted p' then int64 (usTotal s + itemSize it) else usTotal s) ->
  (progressed p = true -> progressed p' = true) ->
  usBytes s' = (if progressed p then usBytes s
                else if progressed p' then int64 (usBytes s + itemSize it) else usBytes s) ->
  (notified p = true -> notified p' = true) ->
  usComplete s' = (if notified p then usComplete s
                   else if notified p' then usComplete s ++ (if optOnChunk opts then [itemInfo it] else [])
                   else usComplete s) ->
  upInv s'.
Proof.
  intros Hinv Hi Hit Hnd Hw Hc Hm He Hs Hcap Hct Ht Hpr Hb Hno Hco.
  assert (forall P : pc -> bool, (P p = true -> P p' = true) ->
    sel P (usWorkers s') work ≡ₚ (if P p then [] else if P p' then [it] else []) ++ sel P (usWorkers s) work) as Hsel.
  { intros P HP. rewrite Hw. destruct (P p) eqn:E1.
    - by rewrite (sel_same P _ _ i p p') by (done || (rewrite E1, HP; done)).
    - destruct (P p') eqn:E2; [by rewrite (sel_new P _ _ i p p' it) by done|by rewrite (sel_same P _ _ i p p') by congruence]. }
  constructor.
  - rewrite Hw, length_insert. apply Hinv.
  - rewrite Hs, (ui_sem s Hinv), Hw. destruct (holding p) eqn:E1, (holding p') eqn:E2.
    + rewrite (sel_same holding _ _ i p p') by congruence. lia.
    + rewrite <- (sel_old holding _ _ i p p' it) by done. unfold zlen. simpl. lia.
    + rewrite (sel_new holding _ _ i p p' it) by done. unfold zlen. simpl. lia.
    + rewrite (sel_same holding _ _ i p p') by congruence. lia.
  - done.
  - rewrite Ht, (Hsel counted Hct), zsum_app, (ui_total s Hinv).
    destruct (counted p), (counted p'); simpl; rewrite ?int64_add_l; f_equal; lia.
  - rewrite Hb, (Hsel progressed Hpr), zsum_app, (ui_bytes s Hinv).
    destruct (progressed p), (progressed p'); simpl; rewrite ?int64_add_l; f_equal; lia.
  - rewrite Hco. pose proof (ui_complete s Hinv) as Hold. destruct (optOnChunk opts).
    + rewrite (Hsel notified Hno), fmap_app. destruct (notified p); [done|]. destruct (notified p'); [|done].
      rewrite Hold. simpl. by rewrite <- Permutation_cons_append.
    + destruct (notified p), (notified p'); rewrite ?app_nil_r; done.
  - rewrite Hm, Hc. intros Hne j q e Hj Hq. rewrite Hw in Hj.
    destruct (decide (i = j)) as [<-|Hij].
    + rewrite list_lookup_insert_eq in Hj by (by eapply lookup_lt_Some). simplify_eq.
      eapply (ui_errs s Hinv Hne i p); [done|]. congruence.
    + rewrite list_lookup_insert_ne in Hj by done. by eapply (ui_errs s Hinv).
  - intros e Hin. rewrite Hc, Hm in Hin. destruct (ui_chan s Hinv e Hin) as (j & q & Hj & Hq). rewrite Hw.
    destruct (decide (i = j)) as [<-|Hij].
    + exists i, p'. rewrite list_lookup_insert_eq by (by eapply lookup_lt_Some). split; [done|]. congruence.
    + exists j, q. by rewrite list_lookup_insert_ne.
  - intros v Hv. rewrite Hm in Hv. destruct (ui_main s Hinv v Hv) as (_ & _ & Hall).
    rewrite forallb_forall in Hall. apply list_elem_of_lookup_2, list_elem_of_In, Hall in Hi. congruence.
Qed.

(** Worker [i] puts its result into the channel. *)
Lemma upInv_send i r s : upInv s -> usWorkers s !! i = Some (PSend r) ->
  upInv (setPc i (PRelease r) (setChan (usChan s ++ [r]) s)).
Proof.
  intros Hinv Hi.
  assert (forall P : pc -> bool, P (PSend r) = P (PRelease r) ->
    sel P (<[i := PRelease r]> (usWorkers s)) work = sel P (usWorkers s) work) as Hsel
    by (intros P HP; by rewrite (sel_same P _ _ i (PSend r))).
  constructor; simpl; rewrite ?Hsel by (by destruct r); try apply Hinv.
  - rewrite length_insert. apply Hinv.
  - intros Hne j q e Hj Hq. apply elem_of_app. destruct (decide (i = j)) as [<-|Hij].
    + rewrite list_lookup_insert_eq in Hj by (by eapply lookup_lt_Some). simplify_eq. destruct r; simplify_eq/=.
      right. apply list_elem_of_here.
    + rewrite list_lookup_insert_ne in Hj by done. left. by eapply (ui_errs s Hinv).
  - intros e Hin. rewrite elem_of_app, list_elem_of_singleton in Hin.
    destruct (decide (r = Some e)) as [->|Hne].
    { exists i, (PRelease (Some e)). rewrite list_lookup_insert_eq by (by eapply lookup_lt_Some). done. }
    destruct (ui_chan s Hinv e) as (j & q & Hj & Hq); [naive_solver|].
    exists j, q. split; [|done]. rewrite list_lookup_insert_ne; [done|]. intros <-. rewrite Hi in Hj. by simplify_eq/=.
  - intros v Hv. destruct (ui_main s Hinv v Hv) as (_ & _ & Hall). rewrite forallb_forall in Hall.
    apply list_elem_of_lookup_2, list_elem_of_In, Hall in Hi. done.
Qed.

Lemma upInv_recv e rest s : upInv s -> usMain s = None -> usChan s = e :: rest ->
  upInv (match e with None => setChan rest s | Some x => setMain (usTotal s, Some x) (setChan rest s) end).
Proof.
  intros Hinv Hm Hc. destruct e as [x|]; constructor; simpl; try apply Hinv; try done.
  - intros Hne. by destruct (Hne (usTotal s) x).
  - intros y Hin. apply (ui_chan s Hinv). rewrite Hc. destruct Hin as [Hin|[v Hv]].
    + left. by right.
    + simplify_eq. left. left.
  - intros _ j q y Hj Hq. assert (forall v z, usMain s <> Some (v, Some z)) as Hne by (intros; congruence).
    pose proof (ui_errs s Hinv Hne j q y Hj Hq) as Hin. rewrite Hc in Hin.
    apply elem_of_cons in Hin as [?|?]; done.
  - intros y Hin. apply (ui_chan s Hinv). rewrite Hc. destruct Hin as [Hin|Hin]; [|by right]. left. by right.
  - intros v Hv. congruence.
Qed.

Lemma upInv_closed s : upInv s -> usMain s = None -> usChan s = [] -> forallb isDone (usWorkers s) = true ->
  upInv (setMain (usTotal s, None) s).
Proof.
  intros Hinv Hm Hc Hd. constructor; simpl; try apply Hinv.
  - intros _ j q y Hj Hq. rewrite Hc. assert (forall v z, usMain s <> Some (v, Some z)) as Hne by (intros; congruence).
    rewrite <- Hc. by eapply (ui_errs s Hinv).
  - intros y [Hin|[v Hv]]; [|done]. apply (ui_chan s Hinv). by left.
  - intros v Hv. by simplify_eq.
Qed.

Lemma item_of i p s : upInv s -> usWorkers s !! i = Some p -> is_Some (work !! i).
Proof. intros Hinv Hi. apply lookup_lt_is_Some. rewrite <- (ui_len s Hinv). by eapply lookup_lt_Some. Qed.

Lemma upInv_step e s s' : upInv s -> step e s = Some s' -> upInv s'.
Proof.
  intros Hinv Hs. pose proof (ui_cap s Hinv) as Hcap.
  destruct e as [i|i|i|i|i err|i|i|i|i|i| |]; simpl in Hs;
    try (destruct (usWorkers s !! i) as [[| |k d|k d le| |b| |r|r|r]|] eqn:Hi; try done);
    try (destruct (item_of i _ s Hinv Hi) as [it Hit]; rewrite ?Hit in Hs).
  - destruct (usSem s <? defaultMaxParallel) eqn:E; [|done]. bool_hyps. simplify_eq.
    eapply (upInv_move i PStart PRead it s); simpl; try done; lia.
  - simplify_eq. eapply (upInv_move i PRead _ it s); try (exact Hi || exact Hit || done || reflexivity);
      destruct (readChunkFromFile f (wiChunk it)); simpl; try done; lia.
  - destruct (putChunk (uuURL (wiURL it)) d (usNet s)) as [err net]. simplify_eq.
    eapply (upInv_move i (PTry k d) _ it s); try (exact Hi || exact Hit || done || reflexivity);
      unfold afterPut; repeat case_match; simpl; try done; lia.
  - simplify_eq. eapply (upInv_move i (PWait k d le) _ it s); try (exact Hi || exact Hit || done || reflexivity);
      unfold afterWait; repeat case_match; simpl; try done; lia.
  - simplify_eq. eapply (upInv_move i (PWait k d le) _ it s); try (exact Hi || exact Hit || done || reflexivity);
      simpl; try done; lia.
  - simplify_eq. eapply (upInv_move i PProgress (PNotify _) it s); try (exact Hi || exact Hit || done || reflexivity);
      simpl; try done; lia.
  - simplify_eq. eapply (upInv_move i (PNotify b) PCount it s); try (exact Hi || exact Hit || done || reflexivity);
      simpl; try done; lia.
  - simplify_eq. eapply (upInv_move i PCount (PSend None) it s); try (exact Hi || exact Hit || done || reflexivity);
      simpl; try done; lia.
  - simplify_eq. by apply upInv_send.
  - simplify_eq.
    eapply (upInv_move i (PRelease r) (PDone r) it s); try (exact Hi || exact Hit || done || reflexivity);
      destruct r; simpl; try done; lia.
  - destruct (usMain s) eqn:Hm; [by destruct (usChan s)|]. destruct (usChan s) as [|[x|] rest] eqn:Hc; simplify_eq.
    + by apply (upInv_recv (Some x)).
    + by apply (upInv_recv None).
  - destruct (usMain s) eqn:Hm; [by destruct (usChan s)|]. destruct (usChan s) as [|r rest] eqn:Hc; [|by destruct r].
    destruct (forallb isDone (usWorkers s)) eqn:Hd; simplify_eq. by apply upInv_closed.
Qed.

(** ** The transport's state *)

Lemma netInv_move i p p' it s s' :
  netInv s -> usWorkers s !! i = Some p -> work !! i = Some it -> usWorkers s' = <[i := p']> (usWorkers s) ->
  (forall it', it' ∈ work -> Stored it' (usNet s) -> Stored it' (usNet s')) ->
  (forall d, holdsData p' = Some d -> holdsData p = Some d \/ readChunkFromFile f (wiChunk it) = Ok d) ->
  (stored p' = true -> stored p = true \/ Stored it (usNet s')) ->
  netInv s'.
Proof.
  intros [Hd Hst] Hi Hit Hw Hkeep Hdata Hstored. constructor.
  - intros j q d it' Hj Hit' Hq. rewrite Hw in Hj. destruct (decide (i = j)) as [<-|Hij].
    + rewrite list_lookup_insert_eq in Hj by (by eapply lookup_lt_Some). simplify_eq.
      destruct (Hdata d Hq); [by eapply Hd|done].
    + rewrite list_lookup_insert_ne in Hj by done. by eapply Hd.
  - intros j q it' Hj Hit' Hq. rewrite Hw in Hj. assert (it' ∈ work) by (by eapply list_elem_of_lookup_2).
    destruct (decide (i = j)) as [<-|Hij].
    + rewrite list_lookup_insert_eq in Hj by (by eapply lookup_lt_Some). simplify_eq.
      destruct (Hstored Hq); [|done]. apply Hkeep; [done|]. by eapply Hst.
    + rewrite list_lookup_insert_ne in Hj by done. apply Hkeep; [done|]. by eapply Hst.
Qed.

(** One [PUT] of worker [i]'s bytes. *)
Lemma putChunk_stored it d n err n' : putStores -> putKeeps -> it ∈ work ->
  readChunkFromFile f (wiChunk it) = Ok d -> putChunk (uuURL (wiURL it)) d n = (err, n') ->
  (err = None -> Stored it n') /\ (forall it', it' ∈ work -> Stored it' n -> Stored it' n').
Proof.
  intros Hput Hkeep Hit Hd Hp. unfold putChunk in Hp. destruct (NewRequest "PUT" _); [by simplify_eq|].
  destruct (Do (putRequest (uuURL (wiURL it)) d) n) as [[resp|e] n1] eqn:Hdo.
  - assert (n1 = n') as -> by (by case_match; simplify_eq). split.
    + intros ->. destruct (300 <=? rsCode resp) eqn:E; [done|]. bool_hyps. by eapply Hput.
    + intros it' Hit' Hs. by eapply (Hkeep it' it).
  - simplify_eq. split; [done|]. intros it' Hit' Hs. by eapply (Hkeep it' it).
Qed.

Lemma netInv_step e s s' : putStores -> putKeeps -> upInv s -> netInv s -> step e s = Some s' -> netInv s'.
Proof.
  intros Hput Hkeep Hinv Hn Hs.
  destruct e as [i|i|i|i|i err|i|i|i|i|i| |]; simpl in Hs;
    try (destruct (usWorkers s !! i) as [[| |k d|k d le| |b| |r|r|r]|] eqn:Hi; try done);
    try (destruct (item_of i _ s Hinv Hi) as [it Hit]; rewrite ?Hit in Hs).
  - case_match; simplify_eq. eapply (netInv_move i PStart PRead it s); try done.
  - simplify_eq. eapply (netInv_move i PRead _ it s); try (exact Hi || exact Hit || done);
      destruct (readChunkFromFile f (wiChunk it)); simpl; naive_solver.
  - destruct (putChunk (uuURL (wiURL it)) d (usNet s)) as [err net] eqn:Hp. simplify_eq.
    assert (readChunkFromFile f (wiChunk it) = Ok d) as Hd by (by eapply (ni_data s Hn)).
    destruct (putChunk_stored it d (usNet s) err net Hput Hkeep) as [H1 H2]; try done; [by eapply list_elem_of_lookup_2|].
    eapply (netInv_move i (PTry k d) _ it s); try (exact Hi || exact Hit || done); simpl.
    + unfold afterPut. intros d'. repeat case_match; simpl; naive_solver.
    + unfold afterPut. repeat case_match; simpl; naive_solver.
  - simplify_eq. eapply (netInv_move i (PWait k d le) _ it s); try (exact Hi || exact Hit || done);
      unfold afterWait; case_match; simpl; naive_solver.
  - simplify_eq. eapply (netInv_move i (PWait k d le) _ it s); try (exact Hi || exact Hit || done).
  - simplify_eq. eapply (netInv_move i PProgress _ it s); try (exact Hi || exact Hit || done). simpl. by left.
  - simplify_eq. eapply (netInv_move i (PNotify b) _ it s); try (exact Hi || exact Hit || done). simpl. by left.
  - simplify_eq. eapply (netInv_move i PCount _ it s); try (exact Hi || exact Hit || done). simpl. by left.
  - simplify_eq. eapply (netInv_move i (PSend r) _ it s); try (exact Hi || exact Hit || done). destruct r; simpl; auto.
  - simplify_eq. eapply (netInv_move i (PRelease r) _ it s); try (exact Hi || exact Hit || done). destruct r; simpl; auto.
  - destruct (usMain s), (usChan s) as [|[]]; simplify_eq; constructor; apply Hn.
  - destruct (usMain s), (usChan s); simplify_eq. case_match; simplify_eq. constructor; apply Hn.
Qed.

Lemma upSteps_inv tr s s' : upInv s -> upSteps tr s = Some s' -> upInv s'.
Proof.
  revert s. induction tr as [|e tr IH]; intros s Hinv Hr; simpl in Hr; [by simplify_eq|].
  destruct (step e s) as [s1|] eqn:E; [|done]. apply (IH s1); [|done]. by eapply upInv_step.
Qed.

Lemma upSteps_net tr s s' : putStores -> putKeeps -> upInv s -> netInv s -> upSteps tr s = Some s' -> netInv s'.
Proof.
  intros Hput Hkeep. revert s. induction tr as [|e tr IH]; intros s Hinv Hn Hr; simpl in Hr; [by simplify_eq|].
  destruct (step e s) as [s1|] eqn:E; [|done].
  apply (IH s1); [by eapply upInv_step|by eapply netInv_step|done].
Qed.

(** ** Termination *)

(** An upper bound on the steps a goroutine has left, and on those of the whole system. *)
Definition pcFuel (p : pc) : nat :=
  match p with
  | PStart => 20
  | PRead => 19
  | PTry k _ => 7 + 2 * Z.to_nat (defaultMaxRetries - k)
  | PWait k _ _ => 6 + 2 * Z.to_nat (defaultMaxRetries - k)
  | PProgress => 6
  | PNotify _ => 5
  | PCount => 4
  | PSend _ => 3
  | PRelease _ => 1
  | PDone _ => 0
  end.

Definition upFuel (s : upState S) : nat :=
  (2 * sum_list_with pcFuel (usWorkers s) + length (usChan s) + (match usMain s with Some _ => 0 | None => 1 end))%nat.

Lemma upFuel_move i p p' s s' : usWorkers s !! i = Some p -> usWorkers s' = <[i := p']> (usWorkers s) ->
  usMain s' = usMain s -> (length (usChan s') <= length (usChan s) + 1)%nat -> (pcFuel p' < pcFuel p)%nat ->
  (upFuel s' < upFuel s)%nat.
Proof.
  intros Hi Hw Hm Hc Hlt. unfold upFuel. rewrite Hw, Hm.
  pose proof (sum_list_insert pcFuel (usWorkers s) i p p' Hi). lia.
Qed.

Lemma afterPut_fuel ch k d err : (pcFuel (afterPut ch k d err) < pcFuel (PTry k d))%nat.
Proof. unfold afterPut. repeat case_match; simpl; lia. Qed.

Lemma afterWait_fuel ch k d le : (pcFuel (afterWait ch k d le) < pcFuel (PWait k d le))%nat.
Proof. unfold afterWait. case_match; bool_hyps; simpl; lia. Qed.

Lemma upFuel_step e s s' : step e s = Some s' -> (upFuel s' < upFuel s)%nat.
Proof.
  intros Hs. destruct e as [i|i|i|i|i err|i|i|i|i|i| |]; simpl in Hs.
  1-10: destruct (usWorkers s !! i) as [[| |k d|k d le| |b| |r|r|r]|] eqn:Hi; try done.
  2-8: destruct (work !! i) as [it|] eqn:Hit; try done.
  - case_match; simplify_eq. eapply (upFuel_move i); [exact Hi|reflexivity|done|simpl; lia|simpl; lia].
  - simplify_eq. eapply (upFuel_move i); [exact Hi|reflexivity|done|simpl; lia|].
    destruct (readChunkFromFile f (wiChunk it)); simpl; lia.
  - destruct (putChunk (uuURL (wiURL it)) d (usNet s)) as [err net]. simplify_eq.
    eapply (upFuel_move i); [exact Hi|reflexivity|done|simpl; lia|apply afterPut_fuel].
  - simplify_eq. eapply (upFuel_move i); [exact Hi|reflexivity|done|simpl; lia|apply afterWait_fuel].
  - simplify_eq. eapply (upFuel_move i); [exact Hi|reflexivity|done|simpl; lia|simpl; lia].
  - simplify_eq. eapply (upFuel_move i); [exact Hi|reflexivity|done|simpl; lia|simpl; lia].
  - simplify_eq. eapply (upFuel_move i); [exact Hi|reflexivity|done|simpl; lia|simpl; lia].
  - simplify_eq. eapply (upFuel_move i); [exact Hi|reflexivity|done|simpl; lia|simpl; lia].
  - simplify_eq. eapply (upFuel_move i); [exact Hi|reflexivity|done|simpl; rewrite length_app; simpl; lia|simpl; lia].
  - simplify_eq. eapply (upFuel_move i); [exact Hi|reflexivity|done|simpl; lia|simpl; lia].
  - destruct (usMain s) eqn:Hm, (usChan s) as [|[x|] rest] eqn:Hc; simplify_eq; unfold upFuel; simpl;
      rewrite Hm, Hc; simpl; lia.
  - destruct (usMain s) eqn:Hm, (usChan s) as [|[x|] rest] eqn:Hc; simplify_eq. case_match; simplify_eq.
    unfold upFuel. simpl. rewrite Hm. lia.
Qed.

(** ** Progress *)

Definition activeEvent (i : nat) (p : pc) : upEvent :=
  match p with
  | PStart => UAcquire i | PRead => URead i | PTry _ _ => UPut i | PWait _ _ _ => UTimer i | PProgress => UProgress i
  | PNotify _ => UNotify i | PCount => UCount i | PSend _ => USend i | PRelease _ => URelease i | PDone _ => URecv
  end.

Lemma active_enabled i p s : upInv s -> usWorkers s !! i = Some p -> holding p = true ->
  is_Some (step (activeEvent i p) s).
Proof.
  intros Hinv Hi Hh. destruct (item_of i p s Hinv Hi) as [it Hit].
  destruct p as [| |k d|k d le| |b| |r|r|r]; simpl in *; try done; rewrite Hi, ?Hit; try (by eexists).
  destruct (putChunk _ d (usNet s)). by eexists.
Qed.

Lemma sel_holding_none s : upInv s -> Forall (fun p => holding p = false) (usWorkers s) -> usSem s = 0.
Proof.
  intros Hinv Hall. rewrite (ui_sem s Hinv). generalize work. clear Hinv.
  induction Hall as [|p l Hp _ IH]; intros [|it wk]; try done. rewrite sel_cons, Hp. apply IH.
Qed.

Lemma up_progress s : upInv s -> usMain s = None -> exists e, is_Some (step e s).
Proof.
  intros Hinv Hm.
  destruct (decide (Exists (fun p => holding p = true) (usWorkers s))) as [Hex|Hno].
  { apply Exists_exists in Hex as (p & Hp & Hh). apply list_elem_of_lookup in Hp as [i Hi].
    exists (activeEvent i p). by apply active_enabled. }
  assert (Forall (fun p => holding p = false) (usWorkers s)) as Hall.
  { apply not_Exists_Forall in Hno; [|typeclasses eauto]. eapply Forall_impl; [exact Hno|].
    intros p Hp. simpl in Hp. by apply not_true_is_false. }
  destruct (decide (Exists (fun p => isDone p = false) (usWorkers s))) as [Hex|Hd].
  { apply Exists_exists in Hex as (p & Hp & Hnd). apply list_elem_of_lookup in Hp as [i Hi].
    pose proof (Forall_lookup_1 _ _ _ _ Hall Hi) as Hh. exists (UAcquire i). simpl. rewrite Hi.
    destruct p; try done. rewrite (sel_holding_none s Hinv Hall). by eexists. }
  destruct (usChan s) as [|r rest] eqn:Hc.
  - exists UClosed. simpl. rewrite Hm, Hc. assert (forallb isDone (usWorkers s) = true) as ->; [|by eexists].
    apply forallb_forall. intros p Hp. apply not_Exists_Forall in Hd; [|typeclasses eauto].
    rewrite Forall_forall in Hd. apply list_elem_of_In in Hp. specialize (Hd p Hp). by apply not_false_is_true.
  - exists URecv. simpl. rewrite Hm, Hc. destruct r; by eexists.
Qed.

Lemma all_finished s v : upInv s -> usMain s = Some (v, None) ->
  v = usTotal s /\ (forall p, p ∈ usWorkers s -> p = PDone None) /\
  (forall P, P (PDone None) = true -> sel P (usWorkers s) work = work).
Proof.
  intros Hinv Hv. destruct (ui_main s Hinv v Hv) as (Hc & -> & Hd).
  assert (forall p, p ∈ usWorkers s -> p = PDone None) as Hok.
  { intros p Hp. pose proof Hp as Hp'. apply list_elem_of_lookup in Hp as [i Hi]. rewrite forallb_forall in Hd.
    apply list_elem_of_In, Hd in Hp'. destruct p as [| | | | | | | | |[e|]]; try done.
    assert (Some e ∈ usChan s) as Hin by (eapply (ui_errs s Hinv); [intros; congruence|exact Hi|done]).
    rewrite Hc in Hin. by apply elem_of_nil in Hin. }
  split_and!; [done|done|]. intros P HP. apply sel_all; [apply Hinv|]. apply forallb_forall.
  intros p Hp. apply list_elem_of_In in Hp. by rewrite (Hok p Hp).
Qed.

(** A return without error: every goroutine finished without error, every chunk is stored. *)
Lemma returned_ok s v : upInv s -> netInv s -> usMain s = Some (v, None) ->
  v = int64 (zsum itemSize work) /\ forall it, it ∈ work -> Stored it (usNet s).
Proof.
  intros Hinv Hnet Hv. destruct (all_finished s v Hinv Hv) as (-> & Hok & Hsel). split.
  - rewrite (ui_total s Hinv), Hsel by done. done.
  - intros it Hit. apply list_elem_of_lookup in Hit as [i Hi].
    assert (is_Some (usWorkers s !! i)) as [p Hp]
      by (apply lookup_lt_is_Some; rewrite (ui_len s Hinv); by eapply lookup_lt_Some).
    eapply (ni_stored s Hnet i p); [done..|]. rewrite (Hok p); [done|]. by eapply list_elem_of_lookup_2.
Qed.

(** ** Runs of a schedule *)

Lemma upRun_steps sched s : exists tr, upSteps tr s = Some (upRun opts f total work sched s).
Proof.
  revert s. induction sched as [|e sched IH]; intros s; simpl; [by exists []|].
  destruct (usMain s); [by exists []|]. destruct (step e s) as [s1|] eqn:E; simpl; [|apply IH].
  destruct (IH s1) as [tr Htr]. exists (e :: tr). simpl. by rewrite E.
Qed.

(** Only [PUT]s touch the transport. *)
Lemma upSteps_net_pred (Q : S -> Prop) tr s s' :
  (forall url d n, Q n -> Q (putChunk url d n).2) -> Q (usNet s) -> upSteps tr s = Some s' -> Q (usNet s').
Proof.
  intros HQ. revert s. induction tr as [|e tr IH]; intros s Hq Hr; simpl in Hr; [by simplify_eq|].
  destruct (step e s) as [s1|] eqn:E; [|done]. apply (IH s1); [|done]. clear IH Hr.
  destruct e as [i|i|i|i|i err|i|i|i|i|i| |]; simpl in E; repeat case_match; simplify_eq/=; try done.
  match goal with H : putChunk ?u ?d ?n = _ |- _ => specialize (HQ u d n Hq); by rewrite H in HQ end.
Qed.

(** From every state that satisfies the invariant some schedule leads to a return. *)
Lemma up_completes s : upInv s -> exists sched, usMain (upRun opts f total work sched s) <> None.
Proof.
  remember (upFuel s) as k eqn:Hk. revert s Hk. induction (lt_wf k) as [k _ IH]. intros s -> Hinv.
  destruct (usMain s) eqn:Hm; [exists []; simpl; congruence|].
  destruct (up_progress s Hinv Hm) as (e & s1 & Hs).
  destruct (IH (upFuel s1) (upFuel_step _ _ _ Hs) s1 eq_refl (upInv_step _ _ _ Hinv Hs)) as [sched Hr].
  exists (e :: sched). simpl. by rewrite Hm, Hs.
Qed.

(** When the file can be read and every [PUT] is accepted, no goroutine fails. *)
Definition fine (p : pc) : bool :=
  match p with
  | PWait _ _ _ | PSend (Some _) | PRelease (Some _) | PDone (Some _) => false
  | _ => true
  end.

Lemma fine_step e s s' :
  (forall it, it ∈ work -> is_ok (readChunkFromFile f (wiChunk it)) = true) ->
  (forall url d n, (putChunk url d n).1 = None) ->
  Forall (fun p => fine p = true) (usWorkers s) -> step e s = Some s' ->
  Forall (fun p => fine p = true) (usWorkers s').
Proof.
  intros Hread Hput Hall Hs.
  assert (forall i p, fine p = true -> Forall (fun p => fine p = true) (<[i := p]> (usWorkers s))) as Hins
    by (intros i p Hp; by apply Forall_insert).
  destruct e as [i|i|i|i|i err|i|i|i|i|i| |]; simpl in Hs.
  1-10: destruct (usWorkers s !! i) as [p|] eqn:Hi; [pose proof (Forall_lookup_1 _ _ _ _ Hall Hi) as Hp; simpl in Hp|done];
        destruct p as [| |k d|k d le| |b| |r|r|r]; try done.
  all: try (destruct (work !! i) as [it|] eqn:Hit; try done).
  all: try (case_match; simplify_eq; by apply Hins).
  all: try (simplify_eq; by apply Hins).
  all: try (destruct r; simplify_eq; by apply Hins).
  - simplify_eq. apply Hins. specialize (Hread it ltac:(by eapply list_elem_of_lookup_2)).
    by destruct (readChunkFromFile f (wiChunk it)).
  - specialize (Hput (uuURL (wiURL it)) d (usNet s)). destruct (putChunk _ d (usNet s)) as [err net].
    simpl in Hput. subst err. simplify_eq. by apply Hins.
  - destruct (usMain s), (usChan s) as [|[x|] rest]; by simplify_eq.
  - destruct (usMain s), (usChan s); simplify_eq. by case_match; simplify_eq.
Qed.

Lemma upSteps_fine tr s s' :
  (forall it, it ∈ work -> is_ok (readChunkFromFile f (wiChunk it)) = true) ->
  (forall url d n, (putChunk url d n).1 = None) ->
  Forall (fun p => fine p = true) (usWorkers s) -> upSteps tr s = Some s' ->
  Forall (fun p => fine p = true) (usWorkers s').
Proof.
  intros Hread Hput. revert s. induction tr as [|e tr IH]; intros s Hall Hr; simpl in Hr; [by simplify_eq|].
  destruct (step e s) as [s1|] eqn:E; [|done]. apply (IH s1); [|done]. by eapply fine_step.
Qed.

(** What a returned run says, in terms of the transport. *)
Lemma upload_returns n sched v err :
  putStores -> putKeeps ->
  usMain (upRun opts f total work sched (upInit work n)) = Some (v, err) ->
  (err = None -> v = int64 (zsum itemSize work) /\
     forall it, it ∈ work -> Stored it (usNet (upRun opts f total work sched (upInit work n)))) /\
  ((forall it, it ∈ work -> is_ok (readChunkFromFile f (wiChunk it)) = true) ->
   (forall url d n, (putChunk url d n).1 = None) -> err = None).
Proof.
  intros Hput Hkeep Hm. destruct (upRun_steps sched (upInit work n)) as [tr Htr].
  set (s := upRun opts f total work sched (upInit work n)) in *.
  pose proof (upSteps_inv _ _ _ (upInv_init n) Htr) as Hinv.
  pose proof (upSteps_net _ _ _ Hput Hkeep (upInv_init n) (netInv_init n) Htr) as Hnet. split.
  - intros ->. by apply returned_ok.
  - intros Hread Hacc. destruct err as [e|]; [|done]. destruct (ui_chan s Hinv e) as (i & p & Hi & Hp); [eauto|].
    assert (Forall (fun p => fine p = true) (usWorkers s)) as Hall.
    { eapply upSteps_fine; [done|done| |done]. simpl. apply Forall_fmap, Forall_true. done. }
    pose proof (Forall_lookup_1 _ _ _ _ Hall Hi) as Hf. by destruct p as [| | | | | | |[]|[]|[]].
Qed.

(** ** Properties *)

(** C14. The parallel upload terminates and cannot hang: on every interleaving of the
    goroutines, with any answers of the network, at most [40 * n + 1] steps are possible for
    [n] chunks, and as long as [uploadChunksParallel] has not returned some step is possible. *)
Theorem upload_terminates (n : S) (tr : list upEvent) (s : upState S)
    (Hrun : upSteps tr (upInit work n) = Some s) :
  (length tr <= 40 * length work + 1)%nat /\ (usMain s = None -> exists e, is_Some (step e s)).
Proof.
  split.
  - assert (forall tr s s', upSteps tr s = Some s' -> (length tr + upFuel s' <= upFuel s)%nat) as Hgen.
    { clear. induction tr as [|e tr IH]; intros s s' Hr; simpl in *; [simplify_eq; lia|].
      destruct (step e s) as [s1|] eqn:E; [|done]. simpl in Hr. apply IH in Hr. apply upFuel_step in E. lia. }
    apply Hgen in Hrun.
    assert (upFuel (upInit work n) = 40 * length work + 1)%nat as Hinit; [|lia].
    unfold upFuel. simpl. assert (sum_list_with pcFuel ((fun _ => PStart) <$> work) = 20 * length work)%nat as ->; [|lia].
    clear. induction work as [|it l IH]; [done|]. cbn [fmap list_fmap sum_list_with]. rewrite IH. simpl. lia.
  - apply up_progress. eapply upSteps_inv; [apply upInv_init|done].
Qed.

(** C13. What the parallel upload guarantees on every interleaving: at most ten chunks are
    in flight; when it returns without error every chunk of the work list is stored (for any
    transport whose accepted [PUT]s store and keep chunks), the returned total is the sum of
    the chunk sizes and [OnChunkComplete] was called once per chunk; when it returns an
    error, some goroutine reported that error. *)
Theorem upload_safe (n : S) (tr : list upEvent) (s : upState S)
    (Hput : putStores) (Hkeep : putKeeps) (Hrun : upSteps tr (upInit work n) = Some s) :
  zlen (sel holding (usWorkers s) work) <= defaultMaxParallel /\
  (forall v, usMain s = Some (v, None) ->
     v = int64 (zsum itemSize work) /\ (forall it, it ∈ work -> Stored it (usNet s)) /\
     (optOnChunk opts = true -> usComplete s ≡ₚ itemInfo <$> work)) /\
  (forall v e, usMain s = Some (v, Some e) -> exists i p, usWorkers s !! i = Some p /\ sentErr p = Some e).
Proof.
  pose proof (upSteps_inv _ _ _ (upInv_init n) Hrun) as Hinv.
  pose proof (upSteps_net _ _ _ Hput Hkeep (upInv_init n) (netInv_init n) Hrun) as Hnet.
  split_and!.
  - rewrite <- (ui_sem s Hinv). apply Hinv.
  - intros v Hv. destruct (returned_ok s v Hinv Hnet Hv) as [H1 H2]. split_and!; [done|done|].
    intros Hcb. destruct (all_finished s v Hinv Hv) as (_ & _ & Hsel).
    rewrite (ui_complete s Hinv), Hcb, Hsel by done. done.
  - intros v e Hv. apply (ui_chan s Hinv). eauto.
Qed.

End upload.

(** ** Witnesses: a transport that stores what it is sent *)

Abbreviation memNet := (gmap string (list ascii)).

Definition memDo (rq : HTTPRequest) (m : memNet) : result string HTTPResponse * memNet :=
  match rqBody rq with
  | BBytes b => (Ok (mkResp 200 None), <[rqURL rq := b]> m)
  | _ => (Ok (mkResp 404 None), m)
  end.

#[global] Instance memTransport : Transport memNet := 
  {| NewRequest _ _ := None; Do := memDo; Status r := format_int (rsCode r); DecodeError _ := "invalid body" |}.

Definition demoBytes : list ascii := String.list_ascii_of_string "hello, aegis".

(** A file with this content. *)
Definition plainFile (D : list ascii) : file :=
  mkFile (Ok (zlen D)) (mkReader [D] EOF)
    (fun o n => (slice D o n, if o + n <=? zlen D then None else Some EOF)).

Definition demoOpts : UploadOptions := mkOpts "/tmp/f.txt" "" None None "text/plain" true true.

Definition demoWork : list workItem :=
  [mkItem (mkChunk "aa" 0 5) (mkUpload "aa" "https://blob/aa" 5);
   mkItem (mkChunk "bb" 5 7) (mkUpload "bb" "https://blob/bb" 7)].

(** Both goroutines interleaved. *)
Definition demoTrace : list upEvent :=
  [UAcquire 0; UAcquire 1; URead 1; URead 0; UPut 1; UPut 0; UProgress 0; UProgress 1; UNotify 1; UNotify 0;
   UCount 0; USend 0; UCount 1; URecv; URelease 0; USend 1; URelease 1; URecv; UClosed].

Definition demoStored (it : workItem) (m : memNet) : Prop :=
  m !! uuURL (wiURL it) = Some (slice demoBytes (Offset (wiChunk it)) (Size (wiChunk it))).

Definition demoFinal : upState memNet :=
  default (upInit demoWork (∅ : memNet)) (upSteps demoOpts (plainFile demoBytes) 12 demoWork demoTrace
    (upInit demoWork ∅)).

Lemma demoTrace_runs : upSteps demoOpts (plainFile demoBytes) 12 demoWork demoTrace (upInit demoWork (∅ : memNet))
  = Some demoFinal.
Proof. vm_compute. reflexivity. Qed.

Lemma upload_terminates_witness : (length demoTrace <= 40 * length demoWork + 1)%nat.
Proof.
  exact (proj1 (upload_terminates demoOpts (plainFile demoBytes) 12 demoWork (∅ : memNet) demoTrace demoFinal
    demoTrace_runs)).
Defined.

Lemma upload_safe_witness : usMain demoFinal = Some (12, None) /\
  forall it, it ∈ demoWork -> demoStored it (usNet demoFinal).
Proof.
  split; [vm_compute; reflexivity|].
  destruct (upload_safe demoOpts (plainFile demoBytes) 12 demoWork demoStored (∅ : memNet) demoTrace demoFinal)
    as (_ & H & _).
  - intros it d m resp m' Hit Hr Hdo Hc. unfold readChunkFromFile in Hr. simpl in Hdo. unfold memDo in Hdo.
    simpl in Hdo. injection Hdo as <- <-. unfold demoStored. rewrite lookup_insert_eq. f_equal.
    apply elem_of_cons in Hit as [->|Hit]; [|apply list_elem_of_singleton in Hit as ->]; vm_compute in Hr; by injection Hr as <-.
  - intros it it' d m r m' Hit Hit' Hs Hr Hdo. simpl in Hdo. unfold memDo in Hdo. simpl in Hdo. injection Hdo as <- <-.
    unfold demoStored in *. destruct (decide (uuURL (wiURL it') = uuURL (wiURL it))) as [He|Hne].
    + rewrite He, lookup_insert_eq. f_equal.
      apply elem_of_cons in Hit as [->|Hit]; [|apply list_elem_of_singleton in Hit as ->];
        (apply elem_of_cons in Hit' as [->|Hit']; [|apply list_elem_of_singleton in Hit' as ->]); try discriminate He;
        vm_compute in Hr; by injection Hr as <-.
    + by rewrite lookup_insert_ne.
  - exact demoTrace_runs.
  - apply (H 12). vm_compute. reflexivity.
Defined.
