(* ===== verification/EndToEnd.v ===== *)
(** * The client SDK against the ingress server

    The transport of the client is the modelled server ([Wire.v] over [PgStore]) next to a
    blob endpoint: requests to the API go through routing, authentication, JSON decoding
    and the handlers; [PUT]s go to the blob endpoint, which is outside the repository. *)
From S2P Require Import Prelude GoLib FastCDC Json External Database Schema Ingress Handlers RateLimit Wire.
From S2P Require Import Client Upload.

(** ** The blob endpoint *)

Class BlobEndpoint (B : Type) := {
  blobPut : string -> list ascii -> B -> Z * B;
  blobGet : string -> B -> option (list ascii);
  (** A [PUT] answered with a status below 300 stored the bytes; in every case other objects
      stay as they were, and the object itself holds the old or the new bytes. *)
  blobPut_get url d b code b' url' : blobPut url d b = (code, b') ->
    blobGet url' b' = (if decide (url' = url) then
                         (if code <? 300 then Some d else blobGet url b) else blobGet url' b)
}.

Section system.
Context `{U : UUID} {B : Type} `{BE : BlobEndpoint B}.
Context (jsonLen : json -> Z) (errText : ierr -> string) (ids : nat -> uuid) (srv : IngressServer) (base : string).

Record sysState := mkSys { sysSrv : serving (world db); sysBlob : B }.

(** [PUT]s reach the blob endpoint, URLs under [base] the ingress server. *)
Definition sysDo (rq : HTTPRequest) (s : sysState) : result string HTTPResponse * sysState :=
  if String.eqb (rqMethod rq) "PUT" then
    let data := match rqBody rq with BBytes d => d | _ => [] end in
    let '(code, b) := blobPut (rqURL rq) data (sysBlob s) in (Ok (mkResp code None), mkSys (sysSrv s) b)
  else if has_prefix base (rqURL rq) then
    let '(resp, sv) := ServeHTTP jsonLen errText ids srv (trim_prefix base (rqURL rq)) rq (sysSrv s) in
    (Ok resp, mkSys sv (sysBlob s))
  else (Err "no such host", s).

#[local] Instance sysTransport : Transport sysState :=
  {| NewRequest _ _ := None; Do := sysDo; Status r := format_int (rsCode r); DecodeError _ := "invalid body" |}.

(** ** JSON round trips *)

Lemma initiate_json r : is_int64 (irTotal r) -> Forall (fun c => is_int64 (ciSize c)) (irChunks r) ->
  unmarshalInitiateRequest (marshalInitiateRequest r) = Some r.
Proof.
  intros Ht Hc. destruct r as [t f p n sz cs]. unfold unmarshalInitiateRequest, marshalInitiateRequest.
  assert (dList unmarshalChunkInfo (JArr (marshalChunkInfo <$> cs)) = Some cs) as Hcs.
  { apply (dList_map _ _ (fun c => is_int64 (ciSize c))); [|done]. intros [h z] Hz. simpl in Hz.
    unfold unmarshalChunkInfo, marshalChunkInfo. cbn -[dInt64]. by rewrite dInt64_num. }
  simpl in Ht. destruct p, n; cbn -[dInt64 dList]; rewrite dInt64_num by done; cbn -[dList]; by rewrite Hcs.
Qed.

Lemma block_json b : is_int64 (bmIndex b) -> is_int64 (bmOffset b) -> is_int64 (bmSize b) ->
  unmarshalBlockMeta (marshalBlockMeta b) = Some b.
Proof.
  intros H1 H2 H3. destruct b as [h i o n e]. simpl in *. unfold unmarshalBlockMeta, marshalBlockMeta.
  unfold omitStr, omitempty. case_bool_decide; simplify_eq/=; cbn -[dInt64];
    repeat (rewrite dInt64_num by done; cbn -[dInt64]); done.
Qed.

Definition blockInt64 (b : BlockMeta) : Prop := is_int64 (bmIndex b) /\ is_int64 (bmOffset b) /\ is_int64 (bmSize b).

Lemma commit_json r : Forall blockInt64 (crBlocks r) -> unmarshalCommitRequest (marshalCommitRequest r) = Some r.
Proof.
  intros Hb. destruct r as [s c m bs]. unfold unmarshalCommitRequest, marshalCommitRequest. simpl in Hb.
  assert (dList unmarshalBlockMeta (JArr (marshalBlockMeta <$> bs)) = Some bs) as Hbs.
  { apply (dList_map _ _ blockInt64); [|done]. intros b (H1 & H2 & H3). by apply block_json. }
  unfold omitStr, omitempty. case_bool_decide as E; cbn [crMime] in E; subst; cbn -[dList]; by rewrite Hbs.
Qed.

(** Whatever the numbers, a decoded commit request carries the hash that was sent. *)
Lemma commit_json_sha r r' : unmarshalCommitRequest (marshalCommitRequest r) = Some r' -> crSHA r' = crSHA r.
Proof.
  destruct r as [s c m bs]. unfold unmarshalCommitRequest, marshalCommitRequest, omitStr, omitempty.
  case_bool_decide; cbn -[dList]; destruct (dList _ _); simpl; intros; by simplify_eq/=.
Qed.

Lemma initResp_json r : Forall (fun u => is_int64 (uuSize u)) (ipURLs r) ->
  unmarshalInitiateResponse (marshalInitiateResponse r)
  = Some (mkCInit (ipSession r) (ipNode r) (rfc3339 0 (ipExpires r / 1000000000)) (ipURLs r)).
Proof.
  intros Hu. destruct r as [s n e us]. simpl in Hu. unfold unmarshalInitiateResponse, marshalInitiateResponse.
  assert (dList unmarshalUploadURL (JArr (marshalUploadURL <$> us)) = Some us) as Hus.
  { apply (dList_map _ _ (fun u => is_int64 (uuSize u))); [|done]. intros [h l z] Hz. simpl in Hz.
    unfold unmarshalUploadURL, marshalUploadURL. cbn -[dInt64]. by rewrite dInt64_num. }
  destruct us as [|u us]; [done|]. cbn -[dList rfc3339 fmap]. by rewrite Hus.
Qed.

Lemma commitResp_json r : is_int64 (cpNumber r) -> unmarshalCommitResponse (marshalCommitResponse r) = Some r.
Proof.
  intros Hn. destruct r as [v n]. unfold unmarshalCommitResponse, marshalCommitResponse. cbn -[dInt64].
  by rewrite dInt64_num.
Qed.

(** ** One request through client and server *)

Definition authorised (c : Client) : Prop := srvToken srv = "" \/ srvToken srv = apiToken c.

Lemma authenticate_client c : authorised c -> authenticate srv (headerGet "Authorization" (jsonHeaders c)) = true.
Proof.
  intros [Ht|Ht]; unfold authenticate; [by rewrite Ht|]. rewrite Ht. unfold jsonHeaders.
  case_bool_decide as E; [done|].
  cbn [headerGet String.eqb Ascii.eqb Bool.eqb]. rewrite has_prefix_app, trim_prefix_app. simpl.
  by rewrite bool_decide_true.
Qed.

(** A [POST] of the client to [path] is what the server's routes make of it. *)
Lemma doJSON_serves {A} c path body (dec : decoder A) s resp sv :
  endpoint c = base ->
  ServeHTTP jsonLen errText ids srv path (mkReq "POST" (base +:+ path) (jsonHeaders c) (BJson body)) (sysSrv s) = (resp, sv) ->
  doJSON c "POST" path body dec s =
  (if 400 <=? rsCode resp
   then Err ("HTTP " +:+ format_int (rsCode resp) +:+ ": " +:+
             match rsBody resp ≫= unmarshalAPIError with Some m => m | None => Status resp end)
   else match rsBody resp ≫= dec with Some a => Ok a | None => Err ("decode response: " +:+ DecodeError resp) end,
   mkSys sv (sysBlob s)).
Proof.
  intros Hep Hs. unfold doJSON. cbn [NewRequest Do sysTransport]. unfold sysDo. cbn [rqMethod rqURL String.eqb Ascii.eqb Bool.eqb].
  rewrite Hep, has_prefix_app, trim_prefix_app, Hs.
  destruct (400 <=? rsCode resp); [done|]. by destruct (rsBody resp ≫= dec).
Qed.

Definition withStore (w : world db) (evs : list FileCommittedEvent) (s : sysState) : sysState :=
  mkSys (mkServing w evs (2 + svDrawn (sysSrv s)) (svLimiter (sysSrv s))) (sysBlob s).

Lemma initiateUpload_ok c req s resp w' :
  endpoint c = base -> authorised c -> svLimiter (sysSrv s) = None ->
  is_int64 (irTotal req) -> Forall (fun ci => is_int64 (ciSize ci)) (irChunks req) ->
  jsonLen (marshalInitiateRequest req) <= srvMaxBody srv ->
  handleInitiate srv (ids (svDrawn (sysSrv s))) (ids (1 + svDrawn (sysSrv s))) (Some req) (svStore (sysSrv s))
    = (Ok resp, w') ->
  Forall (fun u => is_int64 (uuSize u)) (ipURLs resp) ->
  initiateUpload c req s
  = (Ok (mkCInit (ipSession resp) (ipNode resp) (rfc3339 0 (ipExpires resp / 1000000000)) (ipURLs resp)),
     withStore w' (svEvents (sysSrv s)) s).
Proof.
  intros Hep Hau Hli Ht Hc Hlen Hrun Hu. unfold initiateUpload.
  erewrite doJSON_serves; [|done|].
  2: { unfold ServeHTTP, limited. cbn [rqMethod rqHeaders]. rewrite Hli. cbn -[serveWrapped jsonHeaders serveInitiate].
       unfold serveWrapped. rewrite authenticate_client by done. cbn [negb]. unfold serveInitiate, decodeJSON.
       cbn [rqBody]. rewrite (proj2 (Z.ltb_ge _ _) Hlen), initiate_json by done. rewrite Hrun. reflexivity. }
  cbn -[marshalInitiateResponse unmarshalInitiateResponse]. by rewrite initResp_json.
Qed.

Lemma commitUpload_ok c req s resp evs w' :
  endpoint c = base -> authorised c -> svLimiter (sysSrv s) = None ->
  Forall blockInt64 (crBlocks req) -> jsonLen (marshalCommitRequest req) <= srvMaxBody srv ->
  handleCommit srv (ids (svDrawn (sysSrv s))) (ids (1 + svDrawn (sysSrv s))) (Some req) (svEvents (sysSrv s))
    (svStore (sysSrv s)) = (Ok resp, evs, w') ->
  is_int64 (cpNumber resp) ->
  commitUpload c req s = (Ok resp, withStore w' evs s).
Proof.
  intros Hep Hau Hli Hb Hlen Hrun Hn. unfold commitUpload.
  erewrite doJSON_serves; [|done|].
  2: { unfold ServeHTTP, limited. cbn [rqMethod rqHeaders]. rewrite Hli. cbn -[serveWrapped jsonHeaders serveCommit].
       unfold serveWrapped. rewrite authenticate_client by done. cbn [negb]. unfold serveCommit, decodeJSON.
       cbn [rqBody]. rewrite (proj2 (Z.ltb_ge _ _) Hlen), commit_json by done. rewrite Hrun. reflexivity. }
  cbn -[marshalCommitResponse unmarshalCommitResponse]. by rewrite commitResp_json.
Qed.

(** A commit request with a content hash that is not 64 characters long is refused, in
    every state of the server. *)
Lemma commitUpload_bad_sha c req s :
  endpoint c = base -> slen (crSHA req) <> 64 -> is_ok (commitUpload c req s).1 = false.
Proof.
  intros Hep Hsha. unfold commitUpload.
  destruct (ServeHTTP jsonLen errText ids srv "/api/v1/ingest/commit"
    (mkReq "POST" (base +:+ "/api/v1/ingest/commit") (jsonHeaders c) (BJson (marshalCommitRequest req))) (sysSrv s))
    as [resp sv] eqn:Hs.
  rewrite (doJSON_serves _ _ _ _ _ _ _ Hep Hs). cbn [fst].
  assert (400 <= rsCode resp) as Hcode; [|by rewrite (proj2 (Z.leb_le _ _) Hcode)].
  assert (forall st : serving (world db), let r := serveWrapped errText srv (headerGet "Authorization" (jsonHeaders c)) 201 marshalCommitResponse
    (serveCommit jsonLen ids srv (mkReq "POST" (base +:+ "/api/v1/ingest/commit") (jsonHeaders c)
       (BJson (marshalCommitRequest req)))) st in 400 <= rsCode r.1) as Hw.
  { intros st. unfold serveWrapped. destruct (authenticate _ _); [|done]. cbn [negb].
    unfold serveCommit, decodeJSON. cbn [rqBody].
    assert (forall o, (forall r', o = Some r' -> crSHA r' = crSHA req) ->
      exists e, (handleCommit srv (ids (svDrawn st)) (ids (1 + svDrawn st)) o (svEvents st) (svStore st)).1.1 = Err e
        /\ HTTPStatus (Some e) = 400) as Hbad.
    { intros [r'|] Ho; [|by eexists]. unfold handleCommit, CommitValidate. rewrite (Ho r' eq_refl).
      destruct (negb (bool_decide (crSession r' = ""))); [|by eexists]. simpl.
      rewrite (proj2 (Z.eqb_neq _ _) Hsha). by eexists. }
    specialize (Hbad (if srvMaxBody srv <? jsonLen (marshalCommitRequest req) then None
      else unmarshalCommitRequest (marshalCommitRequest req))) as (e & He & H400).
    { intros r'. case_match; [done|]. apply commit_json_sha. }
    destruct (handleCommit _ _ _ _ _ _) as [[r evs] st']. simpl in He. subst r. cbn -[HTTPStatus].
    by rewrite H400. }
  unfold ServeHTTP, limited in Hs. cbn -[serveWrapped jsonHeaders serveCommit AllowHTTP] in Hs.
  destruct (svLimiter (sysSrv s)) as [rl|].
  - destruct (AllowHTTP _ _ _ _ _ _) as [[] rl'] in Hs; [|by simplify_eq].
    specialize (Hw (mkServing (svStore (sysSrv s)) (svEvents (sysSrv s)) (svDrawn (sysSrv s)) (Some rl'))).
    cbv zeta in Hw. unfold commitPath in Hs. rewrite Hs in Hw. done.
  - specialize (Hw (sysSrv s)). cbv zeta in Hw. rewrite Hs in Hw. done.
Qed.

(** ** Chunks of a file *)

Lemma tiles_elem mx D o cs o' ch : tiles mx D o cs o' -> 0 <= o -> ch ∈ cs ->
  0 <= Offset ch /\ 1 <= Size ch <= mx /\ Offset ch + Size ch <= zlen D /\
  HashHex ch = hashHex (slice D (Offset ch) (Size ch)).
Proof.
  revert o. induction cs as [|c cs IH]; intros o Ht Ho Hin; [by apply elem_of_nil in Hin|].
  simpl in Ht. destruct Ht as (H1 & H2 & H3 & H4 & H5).
  apply elem_of_cons in Hin as [->|Hin]; [subst o; split_and!; try done; lia|].
  apply (IH (o + Size c)); [done|lia|done].
Qed.

Lemma tiles_sum mx D o cs o' : tiles mx D o cs o' -> zsum Size cs = o' - o.
Proof. revert o. induction cs as [|c cs IH]; intros o; simpl; [lia|]. intros (_ & _ & _ & _ & Ht). apply IH in Ht. lia. Qed.

Lemma plainFile_read D ch : 0 <= Offset ch -> 0 <= Size ch -> Offset ch + Size ch <= zlen D ->
  readChunkFromFile (plainFile D) ch = Ok (slice D (Offset ch) (Size ch)).
Proof.
  intros H1 H2 H3. unfold readChunkFromFile, plainFile. simpl. rewrite (proj2 (Z.leb_le _ _) H3).
  f_equal. unfold slice. unfold ztake. by rewrite take_take, Nat.min_id.
Qed.

Lemma buildURLMap_lookup urls h : is_Some (buildURLMap urls !! h) <-> h ∈ uuHash <$> urls.
Proof.
  unfold buildURLMap. assert (forall m, is_Some (foldl (fun m u => <[uuHash u := u]> m) m urls !! h) <->
    h ∈ uuHash <$> urls \/ is_Some ((m : gmap string UploadURL) !! h)) as Hgen.
  { induction urls as [|u urls IH]; intros m; simpl.
    - rewrite elem_of_nil. naive_solver.
    - rewrite IH, elem_of_cons. destruct (decide (uuHash u = h)) as [<-|Hne].
      + rewrite lookup_insert_eq. naive_solver.
      + rewrite lookup_insert_ne by done. naive_solver. }
  rewrite Hgen, lookup_empty. split; [intros [?|[? ?]]; done|by left].
Qed.

Lemma buildURLMap_elem urls h u : buildURLMap urls !! h = Some u -> u ∈ urls /\ uuHash u = h.
Proof.
  unfold buildURLMap. assert (forall m, foldl (fun m u => <[uuHash u := u]> m) m urls !! h = Some u ->
    (u ∈ urls /\ uuHash u = h) \/ (m : gmap string UploadURL) !! h = Some u) as Hgen.
  { induction urls as [|u0 urls IH]; intros m Hl; simpl in *; [by right|].
    destruct (IH _ Hl) as [[H1 H2]|Hm]; [left; split; [by right|done]|].
    apply lookup_insert_Some in Hm as [[H1 ->]|[_ Hm]]; [left; split; [left|done]|by right]. }
  intros Hl. destruct (Hgen ∅ Hl) as [?|Hl']; [done|]. by rewrite lookup_empty in Hl'.
Qed.

Lemma workList_elem chunks m it : it ∈ workList chunks m <->
  wiChunk it ∈ chunks /\ m !! HashHex (wiChunk it) = Some (wiURL it).
Proof.
  unfold workList. rewrite list_elem_of_omap. split.
  - intros (ch & Hin & Ho). apply fmap_Some in Ho as (u & Hu & ->). done.
  - intros [Hin Hm]. exists (wiChunk it). split; [done|]. rewrite Hm. simpl. by destruct it.
Qed.

(** Every byte of the file is either uploaded or deduplicated. *)
Lemma upload_accounts m chunks (a : Z) : 0 <= a -> Forall (fun ch => 0 <= Size ch) chunks ->
  a + zsum Size chunks <= maxInt64 ->
  zsum itemSize (workList chunks m) +
  foldl (fun acc ch => match m !! HashHex ch with Some _ => acc | None => int64 (acc + Size ch) end) a chunks
  = a + zsum Size chunks /\ 0 <= zsum itemSize (workList chunks m) <= zsum Size chunks.
Proof.
  intros Ha Hall. revert a Ha. induction Hall as [|ch l Hch Hall IH]; intros a Ha Hb; [simpl in *; lia|].
  change (zsum Size (ch :: l)) with (Size ch + zsum Size l) in *. cbn [foldl].
  assert (0 <= zsum Size l) by (clear - Hall; induction Hall; simpl in *; lia).
  assert (workList (ch :: l) m = match m !! HashHex ch with Some u => mkItem ch u :: workList l m | None => workList l m end)
    as -> by (unfold workList; simpl; by destruct (m !! HashHex ch)).
  destruct (m !! HashHex ch) as [u|].
  - destruct (IH a Ha ltac:(lia)) as [H1 H2]. 
    change (zsum itemSize (mkItem ch u :: workList l m)) with (Size ch + zsum itemSize (workList l m)). lia.
  - rewrite int64_id by (unfold is_int64, minInt64, maxInt64 in *; lia).
    destruct (IH (a + Size ch) ltac:(lia) ltac:(lia)). lia.
Qed.

Lemma buildBlockMetas_lookup chunks i b : buildBlockMetas chunks !! i = Some b <->
  exists ch, chunks !! i = Some ch /\ b = mkBlock (HashHex ch) (Z.of_nat i) (Offset ch) (Size ch) "".
Proof. unfold buildBlockMetas. rewrite list_lookup_imap. destruct (chunks !! i); simpl; naive_solver. Qed.

Lemma buildBlockMetas_indices chunks : NoDup (bmIndex <$> buildBlockMetas chunks).
Proof.
  apply NoDup_alt. intros i j x Hi Hj. rewrite list_lookup_fmap in Hi, Hj.
  apply fmap_Some in Hi as (b & Hb & ->). apply fmap_Some in Hj as (b' & Hb' & Heq).
  apply buildBlockMetas_lookup in Hb as (ch & _ & ->), Hb' as (ch' & _ & ->). simpl in Heq. lia.
Qed.

Lemma hashHex_slen b : slen (hashHex b) = 64.
Proof. unfold slen, hashHex. rewrite length_hex_encode, length_sha256. done. Qed.

Lemma tiles_goodBlocks D chunks : tiles MaxChunk D 0 chunks (zlen D) -> zlen chunks < 2 ^ 31 -> zlen D <= maxInt64 ->
  Forall goodBlock (buildBlockMetas chunks) /\ Forall blockInt64 (buildBlockMetas chunks).
Proof.
  intros Ht Hn Hd. apply Forall_and, Forall_forall. intros b Hb. apply list_elem_of_lookup in Hb as [i Hi].
  apply buildBlockMetas_lookup in Hi as (ch & Hch & ->). pose proof (lookup_lt_Some _ _ _ Hch) as Hlt.
  apply list_elem_of_lookup_2 in Hch. apply (tiles_elem _ _ _ _ _ _ Ht ltac:(lia)) in Hch as (H1 & H2 & H3 & H4).
  unfold goodBlock, blockInt64, is_int64, zlen, MaxChunk, minInt64, maxInt64 in *. simpl. rewrite H4.
  split_and!; try lia; [apply hashHex_slen|]. unfold hashHex. rewrite hex_decode_encode. eauto.
Qed.

Lemma chunkFile_tiles f chunks : rdErr (fReader f) = EOF -> chunkFile f = Done chunks None ->
  tiles MaxChunk (content (fReader f)) 0 chunks (zlen (content (fReader f))) /\
  chunkBytes (content (fReader f)) chunks = content (fReader f).
Proof.
  assert (valid_cfg DefaultConfig) as Hv
    by (unfold valid_cfg, DefaultConfig, MinChunk, AvgChunk, MaxChunk; simpl; lia).
  change MaxChunk with (cfgMaxChunk DefaultConfig). unfold chunkFile, New.
  generalize dependent DefaultConfig. intros cf Hv He Hc.
  assert (length (content (fReader f)) < Datatypes.S (length (content (fReader f))))%nat as Hlen by lia.
  destruct (ChunkAll_tiles (fReader f) cf _ Hv He Hlen) as (cs & Hcs & H).
  rewrite Hcs in Hc. injection Hc as ->. exact H.
Qed.

(** ** Uploading a file *)

Context (os_Open : nat -> string -> result string file) (mimeTable : string -> string).

(** The requests the client makes for a file of content [D] cut into [chunks]. *)
Definition initOf (c : Client) (opts : UploadOptions) (D : list ascii) (chunks : list Chunk) : InitiateRequest :=
  mkInit (tenantID c) (filepath_Base (optFile opts)) (optParent opts) (optNode opts) (zlen D) (chunkInfos chunks).

Definition mimeOf (opts : UploadOptions) : string :=
  if bool_decide (optMime opts = "") then detectMIMEType mimeTable (optFile opts) else optMime opts.

Definition commitOf (opts : UploadOptions) (session : string) (D : list ascii) (chunks : list Chunk) : CommitRequest :=
  mkCommit session (hashHex D) (mimeOf opts) (buildBlockMetas chunks).

(** What an upload of [D] needs: client and server agree, the file stays as it is, the
    requests fit the server's limits, [handleInitiate] accepts, the URLs it signs are
    distinct for distinct hashes, and the identifiers drawn next are fresh. *)
Record uploadable (c : Client) (opts : UploadOptions) (D : list ascii) (chunks : list Chunk) (s : sysState)
    (resp : InitiateResponse) (node : uuid) (w1 : world db) : Prop := {
  ub_endpoint : endpoint c = base;
  ub_auth : authorised c;
  ub_limiter : svLimiter (sysSrv s) = None;
  ub_mode : srvBlob srv = None;
  ub_file : forall k, os_Open k (optFile opts) = Ok (plainFile D);
  ub_size : 0 < zlen D <= maxInt64;
  ub_chunks : chunkFile (plainFile D) = Done chunks None;
  ub_count : zlen chunks < 2 ^ 31;
  ub_calm : calm (svStore (sysSrv s));
  ub_schema : db_status (contents (svStore (sysSrv s))) = true /\
              exists l, db_lease (contents (svStore (sysSrv s))) = Some l /\ 0 <= l;
  ub_init : handleInitiate srv (ids (svDrawn (sysSrv s))) (ids (1 + svDrawn (sysSrv s)))
              (Some (initOf c opts D chunks)) (svStore (sysSrv s)) = (Ok resp, w1);
  ub_node : uuid_Parse (ipNode resp) = Some node;
  ub_urls : forall u u', u ∈ ipURLs resp -> u' ∈ ipURLs resp -> uuURL u = uuURL u' -> uuHash u = uuHash u';
  ub_len : jsonLen (marshalInitiateRequest (initOf c opts D chunks)) <= srvMaxBody srv /\
           jsonLen (marshalCommitRequest (commitOf opts (ipSession resp) D chunks)) <= srvMaxBody srv;
  ub_fresh : let vid := ids (2 + svDrawn (sysSrv s)) in
             fversions (contents (svStore (sysSrv s))) !! vid = None /\
             forall i, manifests (contents (svStore (sysSrv s))) !! (vid, i) = None;
  ub_number : next_version_number node (contents w1) < 2 ^ 31
}.

(** The blob endpoint holds bytes with the hash of [ch] under the URL signed for it. *)
Definition blobStored (it : workItem) (s : sysState) : Prop :=
  exists d, blobGet (uuURL (wiURL it)) (sysBlob s) = Some d /\ hashHex d = HashHex (wiChunk it).

Lemma putChunk_sys url d s :
  putChunk url d s = (let '(code, b) := blobPut url d (sysBlob s) in
    if 300 <=? code then Some ("HTTP " +:+ format_int code +:+ " uploading chunk") else None,
    mkSys (sysSrv s) (blobPut url d (sysBlob s)).2).
Proof.
  unfold putChunk. cbn [NewRequest Do sysTransport]. unfold sysDo, putRequest. cbn [rqMethod rqURL rqBody String.eqb Ascii.eqb Bool.eqb].
  destruct (blobPut url d (sysBlob s)) as [code b]. cbn [rsCode]. by destruct (300 <=? code).
Qed.

Section uploading.
Context (c : Client) (opts : UploadOptions) (D : list ascii) (chunks : list Chunk) (s : sysState)
  (resp : InitiateResponse) (node : uuid) (w1 : world db).
Context (Hub : uploadable c opts D chunks s resp node w1).
Context (Haccept : forall url d b, (blobPut url d b).1 < 300).

Abbreviation work := (workList chunks (buildURLMap (ipURLs resp))).

Lemma ub_tiles : tiles MaxChunk D 0 chunks (zlen D) /\ chunkBytes D chunks = D.
Proof.
  pose proof (chunkFile_tiles (plainFile D) chunks eq_refl (ub_chunks _ _ _ _ _ _ _ _ Hub)) as Ht.
  unfold content, plainFile in Ht. simpl in Ht. by rewrite app_nil_r in Ht.
Qed.

Lemma work_elem it : it ∈ work -> wiURL it ∈ ipURLs resp /\ uuHash (wiURL it) = HashHex (wiChunk it) /\
  exists d, readChunkFromFile (plainFile D) (wiChunk it) = Ok d /\ hashHex d = HashHex (wiChunk it).
Proof.
  intros [Hch Hu]%workList_elem. apply buildURLMap_elem in Hu as [Hin Hh]. split_and!; [done|done|].
  destruct ub_tiles as [Ht _]. apply (tiles_elem _ _ _ _ _ _ Ht ltac:(lia)) in Hch as (H1 & H2 & H3 & H4).
  eexists. split; [apply plainFile_read; lia|]. done.
Qed.

Lemma sys_putStores : putStores (plainFile D) work blobStored.
Proof.
  intros it d n r n' Hit Hr Hdo Hcode. destruct (work_elem it Hit) as (_ & _ & d' & Hr' & Hh).
  rewrite Hr in Hr'. simplify_eq. cbn [Do sysTransport] in Hdo. unfold sysDo, putRequest in Hdo.
  cbn [rqMethod rqURL rqBody String.eqb Ascii.eqb Bool.eqb] in Hdo.
  destruct (blobPut _ d' (sysBlob n)) as [code b] eqn:Hp. simplify_eq. exists d'. split; [|done]. simpl in *.
  rewrite (blobPut_get _ _ _ _ _ _ Hp), decide_True by done. by rewrite (proj2 (Z.ltb_lt _ _) Hcode).
Qed.

Lemma sys_putKeeps : putKeeps (plainFile D) work blobStored.
Proof.
  intros it it' d n r n' Hit Hit' (d0 & Hg & Hh0) Hr Hdo. cbn [Do sysTransport] in Hdo. unfold sysDo, putRequest in Hdo.
  cbn [rqMethod rqURL rqBody String.eqb Ascii.eqb Bool.eqb] in Hdo.
  destruct (blobPut _ d (sysBlob n)) as [code b] eqn:Hp. simplify_eq. unfold blobStored. simpl.
  rewrite (blobPut_get _ _ _ _ _ _ Hp). destruct (decide _) as [He|]; [|eauto].
  destruct (code <? 300); [|rewrite <- He; eauto]. exists d. split; [done|].
  destruct (work_elem it Hit) as (Hu & Hh & _), (work_elem it' Hit') as (Hu' & Hh' & d' & Hr' & Hd').
  rewrite Hr in Hr'. simplify_eq. rewrite Hd', <- Hh, <- Hh'. symmetry. by apply (ub_urls _ _ _ _ _ _ _ _ Hub).
Qed.

(** The upload phase: it either still runs or succeeded, stored every missing chunk and left
    the server alone. *)
Lemma upload_phase n1 sched : sysSrv n1 = sysSrv (withStore w1 (svEvents (sysSrv s)) s) ->
  match uploadChunksParallel opts (plainFile D) chunks (buildURLMap (ipURLs resp)) (zlen D) sched n1 with
  | (None, _) => True
  | (Some (v, err), n2) => err = None /\ v = int64 (zsum itemSize work) /\
      sysSrv n2 = sysSrv n1 /\ forall it, it ∈ work -> blobStored it n2
  end.
Proof.
  intros Hn1. unfold uploadChunksParallel. destruct (zlen work =? 0) eqn:E; bool_hyps.
  { assert (work = []) as Hw by (apply zlen_nil_inv; lia). rewrite Hw. split_and!; [done|done|done|].
    intros it Hit. by apply elem_of_nil in Hit. }
  destruct (usMain (upRun opts (plainFile D) (zlen D) work sched (upInit work n1))) as [[v err]|] eqn:Hm; [|done].
  destruct (upload_returns opts (plainFile D) (zlen D) work blobStored n1 sched v err sys_putStores sys_putKeeps Hm)
    as [Hok Hfine].
  assert (err = None) as ->.
  { apply Hfine.
    - intros it Hit. destruct (work_elem it Hit) as (_ & _ & d & Hr & _). by rewrite Hr.
    - intros url d n. rewrite putChunk_sys. specialize (Haccept url d (sysBlob n)).
      destruct (blobPut url d (sysBlob n)) as [code b]. simpl in *. by rewrite (proj2 (Z.leb_gt _ _) Haccept). }
  destruct (Hok eq_refl) as [Hv Hst]. split_and!; [done|done| |done].
  destruct (upRun_steps opts (plainFile D) (zlen D) work sched (upInit work n1)) as [tr Htr].
  refine (upSteps_net_pred opts (plainFile D) (zlen D) work (fun n => sysSrv n = sysSrv n1) tr _ _ _ _ Htr); [|done].
  intros url d n Hn. by rewrite putChunk_sys.
Qed.

Lemma mintMissing_sizes tenant existing cs urls (P : Z -> Prop) : Forall (fun ci => P (ciSize ci)) cs ->
  mintMissing srv tenant existing cs = Ok urls -> Forall (fun u => P (uuSize u)) urls.
Proof.
  intros Hall. revert urls. induction Hall as [|ci cs Hci Hall IH]; intros urls Hm; simpl in Hm.
  - injection Hm as <-. constructor.
  - destruct (default false _); [by apply IH|].
    destruct (mintURL srv tenant ci) as [url|]; [|done]. simpl in Hm.
    destruct (mintMissing srv tenant existing cs) as [rest|]; [|done]. injection Hm as <-.
    constructor; [done|by apply IH].
Qed.

Lemma chunkInfos_int64 : Forall (fun ci => is_int64 (ciSize ci)) (chunkInfos chunks).
Proof.
  apply Forall_forall. intros ci Hci. apply list_elem_of_fmap in Hci as (ch & -> & Hch).
  destruct ub_tiles as [Ht _]. apply (tiles_elem _ _ _ _ _ _ Ht ltac:(lia)) in Hch as (_ & H & _).
  unfold is_int64, minInt64, maxInt64, MaxChunk in *. simpl. lia.
Qed.

Lemma next_version_int64 nd d : next_version_number nd d < 2 ^ 31 -> is_int64 (next_version_number nd d).
Proof.
  intros H. unfold next_version_number in *. pose proof (foldr_max_nonneg (versionsOf nd d)).
  unfold is_int64, minInt64, maxInt64. lia.
Qed.

Abbreviation after := (withStore w1 (svEvents (sysSrv s)) s).
Abbreviation cinit := (mkCInit (ipSession resp) (ipNode resp) (rfc3339 0 (ipExpires resp / 1000000000)) (ipURLs resp)).
Abbreviation vid := (ids (2 + svDrawn (sysSrv s))).
Abbreviation sid := (ids (1 + svDrawn (sysSrv s))).
Abbreviation num := (next_version_number node (contents w1)).

(** The server side of a finished upload: version [num] of the node is in the database with
    exactly the file's chunks as its manifest. *)
Definition recorded (s' : sysState) : Prop := exists tenant sha w3,
  uuid_Parse (tenantID c) = Some tenant /\ hex_decode (hashHex D) = Some sha /\
  committed (clock w1) vid tenant sid sha (buildBlockMetas chunks) num (contents w1) (contents w3) /\
  svStore (sysSrv s') = (BumpCacheGeneration tenant w3).2.

Lemma initiate_phase : initiateUpload c (initOf c opts D chunks) s = (Ok cinit, after).
Proof.
  pose proof (ub_init _ _ _ _ _ _ _ _ Hub) as Hrun.
  destruct (initiate_effect _ _ _ _ _ _ _ (ub_calm _ _ _ _ _ _ _ _ Hub) Hrun)
    as (tenant & nd & d & urls & hashes & _ & _ & _ & Hresp & _ & Hmint & _).
  apply (initiateUpload_ok _ _ _ _ _); try apply Hub.
  - pose proof (ub_size _ _ _ _ _ _ _ _ Hub). unfold is_int64, minInt64. simpl. lia.
  - apply chunkInfos_int64.
  - rewrite Hresp. simpl. apply (mintMissing_sizes _ _ _ _ is_int64 chunkInfos_int64 Hmint).
Qed.

Lemma finish_phase n up dedup : sysSrv n = sysSrv after ->
  exists s', finishUpload os_Open c (optFile opts) (mimeOf opts) cinit chunks up dedup n
    = (Returned (Ok (mkResult (uuid_String vid) num (ipNode resp) (ipSession resp) up dedup)), s') /\
    sysBlob s' = sysBlob n /\ recorded s'.
Proof.
  intros Hn. destruct ub_tiles as [Ht _].
  destruct (tiles_goodBlocks D chunks Ht) as [Hgood Hint]; [apply Hub|apply Hub|].
  destruct (hex_decode (hashHex D)) as [sha|] eqn:Hsha; [|unfold hashHex in Hsha; by rewrite hex_decode_encode in Hsha].
  destruct (commit_after_initiate srv (ids (svDrawn (sysSrv s))) sid vid (ids (3 + svDrawn (sysSrv s))) node
    (initOf c opts D chunks) (commitOf opts (ipSession resp) D chunks) sha (svEvents (sysSrv s))
    (svStore (sysSrv s)) w1 resp) as (tenant & evs & w2 & w3 & w4 & Hten & Hrun & _ & Hcalm & Hc2 & Hk2 & Hcommit & Hw4);
    try apply Hub; try done.
  { split; [apply hashHex_slen|done]. }
  { split; [done|apply buildBlockMetas_indices]. }
  { unfold zlen, initOf, commitOf, buildBlockMetas, chunkInfos. simpl. by rewrite length_imap, length_fmap. }
  apply commit_effect in Hcommit as [_ Hcommit]; [|done]. rewrite Hc2, Hk2 in Hcommit.
  exists (withStore w4 evs n). unfold finishUpload. rewrite (ub_file _ _ _ _ _ _ _ _ Hub).
  unfold ComputeFileSHA256FromReader, plainFile at 1. cbn [fReader rdErr]. rewrite bool_decide_true by done.
  unfold content. cbn [fReader plainFile rdSegs concat]. rewrite app_nil_r.
  change (mkCommit (cirSession cinit) (hashHex D) (mimeOf opts) (buildBlockMetas chunks))
    with (commitOf opts (ipSession resp) D chunks).
  rewrite (commitUpload_ok c _ n (mkCommitResp (uuid_String vid) num) evs w4); try apply Hub; try done.
  - split_and!; [done|done|]. exists tenant, sha, w3. split_and!; try done. cbn. apply Hw4, Hub.
  - rewrite Hn. apply Hub.
  - by rewrite Hn.
  - apply next_version_int64, Hub.
Qed.

Lemma UploadFile_phases sched :
  UploadFile os_Open mimeTable c opts sched s =
  if zlen (ipURLs resp) =? 0 then finishUpload os_Open c (optFile opts) (mimeOf opts) cinit chunks 0 (zlen D) after
  else match uploadChunksParallel opts (plainFile D) chunks (buildURLMap (ipURLs resp)) (zlen D) sched after with
       | (None, n2) => (Running, n2)
       | (Some (_, Some e), n2) => (Returned (Err ("aegis: upload chunks: " +:+ e)), n2)
       | (Some (up, None), n2) => finishUpload os_Open c (optFile opts) (mimeOf opts) cinit chunks up
           (dedupBytes (buildURLMap (ipURLs resp)) chunks) n2
       end.
Proof.
  unfold UploadFile. rewrite !(ub_file _ _ _ _ _ _ _ _ Hub). cbn [fStat plainFile].
  change (mkFile _ _ _) with (plainFile D). rewrite (ub_chunks _ _ _ _ _ _ _ _ Hub).
  destruct (zlen chunks =? 0) eqn:E; bool_hyps.
  { assert (chunks = []) as Hnil by (apply zlen_nil_inv; lia). destruct ub_tiles as [Ht _]. rewrite Hnil in Ht. simpl in Ht.
    pose proof (ub_size _ _ _ _ _ _ _ _ Hub). lia. }
  change (mkInit _ _ _ _ _ _) with (initOf c opts D chunks). by rewrite initiate_phase.
Qed.

Lemma chunks_accounted : zsum itemSize work + dedupBytes (buildURLMap (ipURLs resp)) chunks = zlen D /\
  0 <= zsum itemSize work <= zlen D.
Proof.
  destruct ub_tiles as [Ht _]. pose proof (tiles_sum _ _ _ _ _ Ht) as Hsum. pose proof (ub_size _ _ _ _ _ _ _ _ Hub).
  destruct (upload_accounts (buildURLMap (ipURLs resp)) chunks 0) as [H1 H2]; [lia| |lia|unfold dedupBytes; lia].
  apply Forall_forall. intros ch Hch. apply (tiles_elem _ _ _ _ _ _ Ht ltac:(lia)) in Hch. lia.
Qed.


End uploading.

(** C32. Resuming with missing chunks never succeeds against this server: [ResumeUpload]
    commits with an empty content hash, which [CommitValidate] refuses, whatever the file
    system, the schedule and the state of server and blob store are. *)
Theorem ResumeUpload_missing_fails (c : Client) (st : SessionState) (opts : UploadOptions) (sched : list upEvent)
    (s : sysState) (f : file) (chunks : list Chunk)
    (Hep : endpoint c = base) (Hopen : os_Open 0 (stFile st) = Ok f) (Hchunks : chunkFile f = Done chunks None)
    (Hmissing : missingChunks st chunks <> []) :
  match (ResumeUpload os_Open c st opts sched s).1.1 with Returned (Ok _) => False | _ => True end.
Proof.
  assert (forall init up n, match (resumeCommit c st init chunks up n).1 with Returned (Ok _) => False | _ => True end)
    as Hcommit.
  { intros init up n. unfold resumeCommit.
    pose proof (commitUpload_bad_sha c (mkCommit (cirSession init) "" (stMime st) (buildBlockMetas chunks)) n Hep) as Hb.
    destruct (commitUpload _ _ n) as [[resp|e] n']; [|done]. by discriminate Hb. }
  unfold ResumeUpload. rewrite Hopen, Hchunks.
  destruct (zlen chunks =? 0); [done|]. destruct (zlen (missingChunks st chunks) =? 0) eqn:E; bool_hyps.
  { destruct Hmissing. apply zlen_nil_inv. lia. }
  destruct (initiateUpload _ _ _) as [[init|e] n1]; [|done]. destruct (os_Open 1 _) as [f2|]; [|done].
  destruct (zlen (cirURLs init) =? 0).
  - specialize (Hcommit init 0 n1). by destruct (resumeCommit _ _ _ _ _ n1).
  - destruct (uploadChunksParallel _ _ _ _ _ _ _) as [[[up [e|]]|] n2]; [done| |done].
    specialize (Hcommit init up n2). by destruct (resumeCommit _ _ _ _ _ n2).
Qed.

End system.

(** ** Witnesses: a blob endpoint that stores what it is sent *)

Definition mapPut (url : string) (d : list ascii) (b : memNet) : Z * memNet := (200, <[url := d]> b).

Lemma mapPut_get url d b code b' url' : mapPut url d b = (code, b') ->
  b' !! url' = if decide (url' = url) then (if code <? 300 then Some d else b !! url) else b !! url'.
Proof.
  intros Hp. injection Hp as <- <-. destruct (decide (url' = url)) as [->|Hne].
  - by rewrite lookup_insert_eq.
  - by rewrite lookup_insert_ne.
Qed.

#[global] Instance mapEndpoint : BlobEndpoint memNet :=
  {| blobPut := mapPut; blobGet url b := b !! url; blobPut_get := mapPut_get |}.

Definition e2eIds (k : nat) : uuid := mkId (ascii_of_nat (48 + k)).
Definition e2eClient : Client := mkClient "https://edge" (uuid_String idT) "secret" (mkHTTPClient 0).
Definition e2eOpts : UploadOptions := mkOpts "/tmp/f.txt" "" None (Some (uuid_String idN)) "text/plain" true true.
Definition e2eLen (_ : json) : Z := 100.
Definition e2eText (_ : ierr) : string := "refused".
Definition e2eFiles (_ : nat) (_ : string) : result string file := Ok (plainFile demoBytes).
Definition e2eState : sysState (B := memNet) := mkSys (mkServing initWorld [] 0 None) ∅.
Definition e2eChunks : list Chunk := [mkChunk (hashHex demoBytes) 0 12].

Definition e2eRun := handleInitiate demoSrv (e2eIds 0) (e2eIds 1) (Some (initOf e2eClient e2eOpts demoBytes e2eChunks)) initWorld.
Definition e2eResp : InitiateResponse :=
  mkInitResp (uuid_String (e2eIds 1)) (uuid_String idN) 905
    [mkUpload (hashHex demoBytes) ("https://edge/" +:+ hashHex demoBytes) 12].

Lemma e2eRun_ok : e2eRun = (Ok e2eResp, e2eRun.2).
Proof. assert (e2eRun.1 = Ok e2eResp) as <- by (vm_compute; reflexivity). apply surjective_pairing. Qed.

Lemma e2e_uploadable : uploadable e2eLen e2eIds demoSrv "https://edge" e2eFiles (fun _ => "") e2eClient e2eOpts demoBytes
  e2eChunks e2eState e2eResp idN e2eRun.2.
Proof.
  split.
  - reflexivity.
  - by right.
  - reflexivity.
  - reflexivity.
  - intros k. reflexivity.
  - split; vm_compute; [reflexivity|discriminate].
  - vm_compute. reflexivity.
  - vm_compute. reflexivity.
  - split; reflexivity.
  - split; [reflexivity|]. exists 900. split; [reflexivity|lia].
  - exact e2eRun_ok.
  - apply uuid_Parse_String.
  - intros u u' Hu Hu' _. apply list_elem_of_singleton in Hu as ->, Hu' as ->. reflexivity.
  - split; vm_compute; discriminate.
  - split; [reflexivity|]. intros i. apply lookup_empty.
  - vm_compute. reflexivity.
Qed.


Definition e2eSession : SessionState :=
  mkState (uuid_String idX) "/tmp/f.txt" (uuid_String idN) 12 "text/plain" e2eChunks [] 0 0.

Lemma ResumeUpload_missing_fails_witness :
  match (ResumeUpload (T := sysTransport e2eLen e2eText e2eIds demoSrv "https://edge") e2eFiles e2eClient e2eSession e2eOpts [] e2eState).1.1
  with Returned (Ok _) => False | _ => True end.
Proof.
  apply (ResumeUpload_missing_fails e2eLen e2eText e2eIds demoSrv "https://edge" e2eFiles e2eClient e2eSession e2eOpts [] e2eState
    (plainFile demoBytes) e2eChunks); [reflexivity|reflexivity|vm_compute; reflexivity|vm_compute; discriminate].
Defined.
